(* ===== verification/_CoqProject ===== *)
-Q . S2P
Prelude.v
DList.v
Bits.v
Id.v
Hash.v
KState.v
Sched.v
Thread.v
VmPage.v
Pmap.v
VmMap.v
Message.v
Pool.v
Fd.v
Signal.v
Sync.v
Timer.v
Process.v
Pager.v
Syscall.v
Irq.v
Reach.v
LibcString.v
Slab.v
FsState.v
Frames.v
SigFrame.v
BlkDev.v
Bcache.v
Ext2.v
Vnode.v
Ext2Dir.v
Vfs.v
Exec.v
Partition.v
Ata.v
Console.v
Printf.v
KStdio.v
