(* ===== verification/Prelude.v ===== *)
(** * ManRiX: a verification development

    ManRiX is a microkernel for the i386 with its servers and C library.  This
    library models the kernel's own logic (src/microkernel/kernel, mm, and the
    headers and i386 files they are made of), the file system server with its disk
    driver (src/servers/fs-io), the console server (src/servers/console) and the
    string routines and formatted output of the C library (src/soft/libc/ansi).  Every definition is a translation of the C
    function, macro or structure of the same name; the theorems state what the
    translated code does, where it is wrong included.

    ** How the parts interact

    A program asks the file system server with a message (message.c of the kernel,
    msg.c of the server).  The server finds the open file of the descriptor with
    a system call (syscall.c, fd.c), the vnode of the open file in its table
    (vfs.c) and the blocks of the vnode through ext2 (ext2fs/), which reads them
    through the cache of blocks (bcache.c) from a driver (blockdev.c, ata.c), whose
    partitions were read at its start (partition.c).  The kernel's pager asks the
    same server for the pages of programs and of mapped files (kernel_helper.c,
    elf.c).  In the kernel, threads are queued for the processor (scheduling.c),
    put to sleep and woken up by messages, locks, timers and interrupts, and run in
    address maps (vm_map.c) made of pages (vm_page.c) and page tables (pmap.c).

    ** How code is translated

    A routine is a function from the state to an outcome (monad [M] below):
    [Ret] for a return, [Fault] for an access through NULL or to memory that is
    not allocated or an index outside an array, [Halt] for [panic], [Spin] for a
    loop whose fuel ran out.  Integers are [Z] with the wrap-around of their
    width written out.  Kernel structures are records in stores (finite maps by
    address) of one state, [kstate] (KState.v); freeing removes the structure
    from its store.  All list heads and link members are cells of one store,
    [links], so that the intrusive lists of list.h alias exactly as in C: a
    member used in two lists is one cell.  For its clients the slab allocator is
    the list [kmem] of the addresses it will answer (NULL when it is empty); the
    allocator itself is in Slab.v, over a state of its own.  Arguments called
    [junk] are the old contents of recycled memory, [jbit] what [bsf] leaves in
    its destination for a zero word, [jf], [ji] and [jn] those of uninitialised
    local structures, and the theorems hold for all of them.

    The state of the server, [fsst] (FsState.v), has the byte memory of LibcString
    for data, stores for the structures, cells for its lists, and the state of its
    drivers as a parameter.  Structures that come from the disk stay bytes.

    The configuration is that of config.h: one processor, no kernel preemption,
    HZ 1000, so that spinlocks are empty, and a server with its drivers linked in.
    A call that switches to another thread is modelled up to the switch and the
    rest separately (messages).

    ** Interfaces

    - [BlkDisk] (BlkDev.v): what a driver does on a read and on a write.  The cache,
      ext2, the vnodes, the requests and the partition tables are proved over it;
      the ATA driver (Ata.v) and a disk in memory (BlkDev.v) implement it.
    - [Ports], [AtaPorts] (Ata.v): the ports of the processor and what an ATA disk
      behind them does on the commands of the driver, as the standard of the
      interface has it (busy phases, one block of data for a command); a simulated disk implements it.
    - [OpenFiles], [OpenFilesOk] (Vfs.v): what the server uses of the kernel's
      descriptors; the system calls (Syscall.v) implement it.

    ** Files: the kernel

    - Prelude: integers, record update, the outcome monad, shared lemmas.
    - DList: list.h.  [dlist] relates the cells to a list of items; queue
      (C1) and stack behaviour, deletion, a lost back link.
    - Bits: the bit instructions of asm.h.
    - Id: id.c.  Refinement of the bitmaps to sets (C5), exhaustion.
    - Hash: the chains of the hash tables, generic over the structure.
    - KState: the structures, the state and its accessors.
    - Sched: scheduling.h and scheduling.c.  [rq_inv] relates the run queues to
      one list per level; the next thread (C8), wake-up (C9), removal, round
      robin (C11), the end of a time slice (C12).
    - Thread: thread.c.  Lookup, creation (C15), exit (C16), waiting.
    - VmPage, Pmap, VmMap: vm_page.c, vm_object.c, pmap.c, vm_map.c, vm.c.  The
      page hash (C18), free pages, translation by the page tables, with a table that
      exists or is made (C22), the kernel's own tables (C23), lookup and entering of map entries (C24, C25), clipping and removal.
    - Message: message.c.  The round trip of a message and its reply (C29),
      receiving, a wrong wake-up.
    - Fd: fd.c.  Signal: signal.c (C34).  Sync: sync.c (C35).  Timer: timer.c.
    - SigFrame: arch/i386/signal.c and [handle_signal]; the frame of a handler and
      the return from it (C36).
    - Process: process.c, process.h, info.h; the process table.
    - Pager: vm_pager.c, the page fault handler of arch/i386/memory.c, [exec_kludge].
      Faults on zero-fill memory (C30) and outside all entries (C13), requests for
      pages of files (C32); page allocation and page tables composed.
    - Frames: the allocation of frames at boot, of arch/i386/memory.c (C3).
    - Syscall: the handlers of arch/i386/syscall.c and process.c on descriptors,
      users and directories; storing and fetching the current directory (C33).
    - Irq: irq.c.
    - Reach: the interplay of scheduler, sleeping, interrupts and ticks as a
      step relation; an invariant of all reachable states and progress (C39).
    - Slab: vm_slab.c.  The objects of a page and what comes after them (C2), the
      free objects as a stack (C4).

    ** Files: the C library, messages

    - LibcString: string.c.  [memmove] on overlapping areas (C14), the
      word-at-a-time [__strchrnul] against the byte-by-byte search (C40).
    - Printf: printf.c and scanf.c.  The text [vsnprintf] stores for a format (C6), and
      that it ends and stays in the buffer for every format (C21).
    - KStdio: kernel_stdio.c of the kernel, with the text of its [vsprintf] and the log
      that is lost.
    - Pool: svrpool.c and the loop of the workers of the servers, as a step relation
      over their interleavings; messages are neither lost nor repeated (C27).

    ** Files: the file system server

    - FsState: its structures, memory and state.
    - BlkDev: blockdev.c and the interface of the drivers.
    - Bcache: bcache.c.  [bread] has the bytes of the disk (C7), also after
      [bwrite] (C20).
    - Ext2, Ext2Dir: ext2fs/.  [file_byte] is the contents of a file according to
      inode and disk; the block map and reading are proved against it, the search
      of a directory against the list of its entries (C26).
    - Vnode: the table of vnodes of vfs.c; two references to an inode (C28), a
      vnode in use that stays on the free list.
    - Vfs: file.c, vfs_namei.c, chrdev.c.  Reading through a descriptor, from the
      system call to the disk (C10), and closing.
    - Exec: elf.c, kernel_helper.c, msg.c.  The page a request of the pager is
      answered with (C19).
    - Partition: partition.c.  The chain of logical partitions (C31).
    - Ata: ata.c.  What is written to a partition is on the disk and is read
      back (C17).

    ** Files: the console server

    - Console: keyboard.c, asctable.c, tty.c, console.c.  The keys of a line and the
      read that returns it (C37); [shows] relates the memory of the screen to lines
      of text, and [scr_write] is proved against it (C38).

    A theorem about a well-formed state has its invariant as a hypothesis
    ([dlist], [rq_inv], [thash_inv], [kinv], [bc_inv], [vnh_inv], ...), and a lemma
    named after it with the suffix [_witness] applies it to a concrete machine.

    ** Fuel

    Loops that follow links take as fuel one more than the number of structures
    in the store they walk: a walk that does not come back to a structure ends
    within it, so [Spin] means that the C loop does not end or, for the loops of
    the page tables, that the given fuel was too small; loops over strings take as
    fuel one more than the bytes of memory; those over blocks and boot records are
    bounded by their counters.  The theorems state for every fuel that a loop does
    not end (C23) and otherwise prove that the routine returns.

    ** Not modelled

    Code that runs once at boot (initialisation of caches, descriptors, the
    first page tables), register frames of traps and of the system calls that
    create threads, the copies between user and kernel memory but those of signals,
    [kmem_cache_reap], [signal_wait], multiprocessor code; of the server balloc.c, ialloc.c and fat/ (which do not compile) and the floppy
    driver (which is not started); the bus and processor servers, the rest of the C
    library (its allocator is ptmalloc) and the programs. *)

From Stdlib Require Export ZArith Lia Zquot.
From stdpp Require Export base tactics option gmap list.
#[global] Open Scope Z_scope.
#[global] Set Default Goal Selector "!".

(** ** Notation *)
Declare Scope manrix_scope.
Delimit Scope manrix_scope with mx.
#[global] Open Scope manrix_scope.

(** ** Machine integers of the i386

    An [unsigned int] (u32, vm_offset_t, size_t) is a [Z] in [0, 2^32), an
    [int] a [Z] in [-2^31, 2^31); arithmetic on them is wrapped explicitly. *)
Definition u32 (x : Z) : Z := x mod 2 ^ 32.
Definition u16 (x : Z) : Z := x mod 2 ^ 16.
Definition s32 (x : Z) : Z := (x + 2 ^ 31) mod 2 ^ 32 - 2 ^ 31.
Definition s16 (x : Z) : Z := (x + 2 ^ 15) mod 2 ^ 16 - 2 ^ 15.

(** [flag & mask] as a C condition. *)
Definition has (flags mask : Z) : bool := negb (Z.land flags mask =? 0).
(** [~x] on an unsigned word. *)
Definition not32 (x : Z) : Z := u32 (Z.lnot x).

Lemma u32_range x : 0 <= u32 x < 2 ^ 32.
Proof. apply Z.mod_pos_bound. lia. Qed.

Lemma u32_id x : 0 <= x < 2 ^ 32 → u32 x = x.
Proof. apply Z.mod_small. Qed.

Lemma s32_range x : - 2 ^ 31 <= s32 x < 2 ^ 31.
Proof.
  unfold s32. pose proof (Z.mod_pos_bound (x + 2 ^ 31) (2 ^ 32)). lia.
Qed.

Lemma s32_id x : - 2 ^ 31 <= x < 2 ^ 31 → s32 x = x.
Proof. intros. unfold s32. rewrite Z.mod_small by lia. lia. Qed.

Lemma s32_add_l x y : s32 (s32 x + y) = s32 (x + y).
Proof.
  unfold s32. f_equal.
  replace ((x + 2 ^ 31) mod 2 ^ 32 - 2 ^ 31 + y + 2 ^ 31)
    with ((x + 2 ^ 31) mod 2 ^ 32 + y) by lia.
  rewrite Zplus_mod_idemp_l. f_equal. lia.
Qed.

Lemma u32_testbit x i : 0 <= i < 32 → Z.testbit (u32 x) i = Z.testbit x i.
Proof. intros. apply Z.mod_pow2_bits_low. lia. Qed.

Lemma testbit_small x n i : 0 <= x < 2 ^ n → 0 <= n <= i → Z.testbit x i = false.
Proof.
  intros Hx Hi. destruct (decide (x = 0)) as [->|]; [apply Z.bits_0|].
  apply Z.bits_above_log2; [lia|].
  assert (Z.log2 x < n); [apply Z.log2_lt_pow2; lia|lia].
Qed.

(** ** Field update of records

    [s <| f := v |>] is [s] with the field [f] set to [v] and
    [s <| f ::= g |>] is [s] with [g] applied to the field [f].  A record type
    declares its eta-expansion once, as an instance of [Settable]. *)
Class Settable (R : Type) := eta_of : R → R.
Class Setter {R E : Type} (getter : R → E) := setf : (E → E) → R → R.
Arguments setf {R E} getter {_} _ _.

Ltac derive_setter R E getter :=
  let e := constr:(_ : Settable R) in
  let e := eval hnf in e in
  exact (fun (upd : E → E) (r : R) => ltac:(
    let b := eval cbv beta in (e r) in
    match b with
    | context C [getter r] =>
        let b' := context C [upd (getter r)] in exact b'
    end)).

#[global] Hint Extern 1 (@Setter ?R ?E ?getter) =>
  derive_setter R E getter : typeclass_instances.

Notation "x <| f ::= v |>" := (setf f v x)
  (at level 1, f at level 99, v at level 99, left associativity).
Notation "x <| f := v |>" := (setf f (λ _, v) x)
  (at level 1, f at level 99, v at level 99, left associativity).

(** ** The outcome monad

    A kernel routine is a function from the state to an [outcome].
    [Fault] is an access through NULL or through a pointer to memory that is
    not allocated, or an index outside an array; [Halt] is [panic]; [Spin] is
    a loop whose fuel ran out. *)
Inductive outcome (S A : Type) : Type :=
| Ret (a : A) (s : S)
| Fault
| Halt
| Spin.
Arguments Ret {S A} a s.
Arguments Fault {S A}.
Arguments Halt {S A}.
Arguments Spin {S A}.

Definition M (S A : Type) : Type := S → outcome S A.

#[global] Instance M_ret {S} : MRet (M S) := λ A a s, Ret a s.
#[global] Instance M_bind {S} : MBind (M S) := λ A B k m s,
  match m s with
  | Ret a s' => k a s'
  | Fault => Fault
  | Halt => Halt
  | Spin => Spin
  end.

Section Monad.
Context {S : Type}.

Definition gets {A} (f : S → A) : M S A := λ s, Ret (f s) s.
Definition modify (f : S → S) : M S unit := λ s, Ret tt (f s).
Definition fault {A} : M S A := λ _, Fault.
Definition panic {A} : M S A := λ _, Halt.
Definition spin {A} : M S A := λ _, Spin.
(** A pointer or an index that must be valid. *)
Definition must {A} (o : option A) : M S A :=
  match o with Some a => mret a | None => fault end.
Definition mwhen (b : bool) (m : M S unit) : M S unit :=
  if b then m else mret tt.

(** An operation on one field of the state. *)
Definition on_field {T} (get : S → T) (put : T → S → S)
    (f : T → option T) : M S unit :=
  λ s, match f (get s) with Some t => Ret tt (put t s) | None => Fault end.

Lemma bind_Ret {A B} (m : M S A) (k : A → M S B) s a s' :
  m s = Ret a s' → (m ≫= k) s = k a s'.
Proof. intros H. unfold mbind, M_bind. by rewrite H. Qed.

Lemma bind_assoc {A B C} (m : M S A) (k : A → M S B) (l : B → M S C) s :
  ((m ≫= k) ≫= l) s = (m ≫= λ a, k a ≫= l) s.
Proof. unfold mbind, M_bind. by destruct (m s). Qed.

Lemma bind_Ret_inv {A B} (m : M S A) (k : A → M S B) s b s' :
  (m ≫= k) s = Ret b s' →
  ∃ a s1, m s = Ret a s1 ∧ k a s1 = Ret b s'.
Proof. unfold mbind, M_bind. destruct (m s); naive_solver. Qed.

(** Total correctness of a routine from a state. *)
Definition wp {A} (m : M S A) (s : S) (Q : A → S → Prop) : Prop :=
  match m s with Ret a s' => Q a s' | _ => False end.

Lemma wp_ret {A} (a : A) s Q : Q a s → wp (mret a) s Q.
Proof. done. Qed.
Lemma wp_bind {A B} (m : M S A) (k : A → M S B) s Q :
  wp m s (λ a s', wp (k a) s' Q) → wp (m ≫= k) s Q.
Proof. unfold wp, mbind, M_bind. by destruct (m s). Qed.
Lemma wp_gets {A} (f : S → A) s Q : Q (f s) s → wp (gets f) s Q.
Proof. done. Qed.
Lemma wp_modify f s Q : Q tt (f s) → wp (modify f) s Q.
Proof. done. Qed.
Lemma wp_must {A} (o : option A) a s Q : o = Some a → Q a s → wp (must o) s Q.
Proof. by intros ->. Qed.
Lemma wp_mono {A} (m : M S A) s (P Q : A → S → Prop) :
  wp m s P → (∀ a s', P a s' → Q a s') → wp m s Q.
Proof. unfold wp. destruct (m s); auto. Qed.
Lemma wp_Ret {A} (m : M S A) s Q :
  wp m s Q ↔ ∃ a s', m s = Ret a s' ∧ Q a s'.
Proof. unfold wp. split; [destruct (m s); naive_solver|by intros (?&?&->&?)]. Qed.
End Monad.

(** ** Automation *)
Create HintDb mx.

(** Unfold the record updates and reduce the projections of the result. *)
Ltac fields := cbn.
Ltac fields_in H := cbn in H.

(** Case analysis on the first [if]/[match] of the goal. *)
Ltac split_if :=
  match goal with
  | |- context [if ?b then _ else _] => destruct b eqn:?
  end.

Ltac zbool :=
  rewrite ?Z.eqb_eq, ?Z.eqb_neq, ?Z.ltb_lt, ?Z.ltb_ge, ?Z.leb_le, ?Z.leb_gt in *.

(** ** Lists *)
Section Lists.
Context {A : Type}.

Lemma list_snoc_cases (l : list A) : l = [] ∨ (∃ l' x, l = l' ++ [x]).
Proof. destruct l using rev_ind; eauto. Qed.

Lemma NoDup_middle (l1 l2 : list A) x :
  NoDup (l1 ++ x :: l2) ↔ x ∉ l1 ++ l2 ∧ NoDup (l1 ++ l2).
Proof.
  rewrite !NoDup_app, NoDup_cons. set_solver.
Qed.
End Lists.

Lemma sum_list_insert (l : list nat) i x y :
  l !! i = Some x → (sum_list (<[i := y]> l) + x = sum_list l + y)%nat.
Proof.
  revert i. induction l as [|z l IH]; intros [|i] E; csimpl in *; simplify_eq; [lia|].
  specialize (IH i E). lia.
Qed.
