(* ===== verification/DList.v ===== *)
(** * Intrusive doubly linked lists

    Models microkernel/include/kernel/list.h.  A list head and the link member
    of every object are pairs of pointers held in a store; the macros read and
    write that store one field at a time, in the order of the source.  The
    abstraction [dlist st h l] says that the ring that starts at the head [h]
    runs through the objects [l], forwards by [next] and backwards by [prev];
    the theorems show which list each macro computes. *)

From S2P Require Import Prelude.

(** [struct linked_list]: the [next] and [prev] pointers. *)
Record linked_list (K : Type) := mk_link { next : K; prev : K }.
Arguments mk_link {K}.
Arguments next {K}.
Arguments prev {K}.

Section DList.
Context {K : Type} `{Countable K}.
(** The address of the link member inside the object a pointer points to:
    [&(pointer)->member].  A head is addressed directly. *)
Variable member : K → K.

Notation store := (gmap K (linked_list K)).
Implicit Types (st : store) (h p x y : K) (l : list K).

(** *** Memory accesses; [None] is an access outside allocated memory. *)
Definition rd_next (c : K) (st : store) : option K := next <$> st !! c.
Definition rd_prev (c : K) (st : store) : option K := prev <$> st !! c.
Definition wr_next (c v : K) (st : store) : option store :=
  lk ← st !! c; Some (<[c := mk_link v (prev lk)]> st).
Definition wr_prev (c v : K) (st : store) : option store :=
  lk ← st !! c; Some (<[c := mk_link (next lk) v]> st).

(** *** The macros *)
Definition list_init (c : K) (st : store) : option store :=
  st ← wr_next c c st; wr_prev c c st.

Definition list_isempty (c : K) (st : store) : option bool :=
  n ← rd_next c st; Some (bool_decide (n = c)).

Definition last_entry (head : K) (st : store) : option K := rd_prev head st.
Definition first_entry (head : K) (st : store) : option K := rd_next head st.

Definition list_enqueue (head pointer : K) (st : store) : option store :=
  nxt ← rd_next head st;
  st ← wr_next head pointer st;
  st ← wr_prev (member pointer) head st;
  st ← wr_next (member pointer) nxt st;
  if decide (nxt = head) then wr_prev head pointer st
  else wr_prev (member nxt) pointer st.

Definition list_dequeue (head : K) (st : store) : option (K * store) :=
  pointer ← rd_prev head st;
  nxt ← rd_prev (member pointer) st;
  st ← wr_prev head nxt st;
  st ← (if decide (nxt = head) then wr_next head head st
        else wr_next (member nxt) head st);
  Some (pointer, st).

Definition list_add (head pointer : K) (st : store) : option store :=
  nxt ← rd_next head st;
  st ← wr_next head pointer st;
  st ← wr_prev (member pointer) head st;
  st ← wr_next (member pointer) nxt st;
  if decide (nxt = head) then wr_prev head pointer st
  else wr_prev (member nxt) pointer st.

Definition list_remove (head : K) (st : store) : option (K * store) :=
  pointer ← rd_next head st;
  nxt ← rd_next (member pointer) st;
  st ← wr_next head nxt st;
  st ← (if decide (nxt = head) then wr_prev head head st
        else wr_prev (member nxt) head st);
  Some (pointer, st).

Definition list_del (head item : K) (st : store) : option store :=
  prv ← rd_prev (member item) st;
  nxt ← rd_next (member item) st;
  st ← (if decide (prv = head) then wr_next prv nxt st
        else wr_next (member prv) nxt st);
  if decide (nxt = head) then wr_prev nxt prv st
  else wr_prev (member nxt) prv st.

Definition list_add_next (prv item : K) (st : store) : option store :=
  nxt ← rd_next (member prv) st;
  st ← wr_next (member prv) item st;
  st ← wr_prev (member item) prv st;
  wr_next (member item) nxt st.

(** *** The abstraction *)

(** The link cell of a node of the ring of [h]. *)
Definition lnk (h x : K) : K := if decide (x = h) then h else member x.

Definition fwd (st : store) (h x y : K) : Prop := rd_next (lnk h x) st = Some y.
Definition bwd (st : store) (h x y : K) : Prop := rd_prev (lnk h x) st = Some y.

(** From the node [a] the ring runs through [l] to the node [b]. *)
Fixpoint path (st : store) (h a : K) (l : list K) (b : K) : Prop :=
  match l with
  | [] => fwd st h a b ∧ bwd st h b a
  | x :: l' => fwd st h a x ∧ bwd st h x a ∧ path st h x l' b
  end.

Definition cells (h : K) (l : list K) : list K := h :: (member <$> l).

Definition dlist (st : store) (h : K) (l : list K) : Prop :=
  path st h h l h ∧ h ∉ l ∧ NoDup (cells h l).

(** *** Writes as total updates *)
Definition set_next (c v : K) (st : store) : store :=
  alter (λ lk, mk_link v (prev lk)) c st.
Definition set_prev (c v : K) (st : store) : store :=
  alter (λ lk, mk_link (next lk) v) c st.

(** Make [y] the successor of [x]: the effect all the macros compose. *)
Definition link (h x y : K) (st : store) : store :=
  set_prev (lnk h y) x (set_next (lnk h x) y st).

Lemma wr_next_Some c v st :
  is_Some (st !! c) → wr_next c v st = Some (set_next c v st).
Proof.
  intros [lk E]. unfold wr_next, set_next. rewrite E. cbn. f_equal.
  apply map_eq. intros d. destruct (decide (d = c)) as [->|].
  - by rewrite lookup_insert_eq, lookup_alter_eq, E.
  - by rewrite lookup_insert_ne, lookup_alter_ne.
Qed.
Lemma wr_prev_Some c v st :
  is_Some (st !! c) → wr_prev c v st = Some (set_prev c v st).
Proof.
  intros [lk E]. unfold wr_prev, set_prev. rewrite E. cbn. f_equal.
  apply map_eq. intros d. destruct (decide (d = c)) as [->|].
  - by rewrite lookup_insert_eq, lookup_alter_eq, E.
  - by rewrite lookup_insert_ne, lookup_alter_ne.
Qed.

Lemma set_prev_next_comm c v d w st :
  set_prev c v (set_next d w st) = set_next d w (set_prev c v st).
Proof.
  unfold set_prev, set_next. destruct (decide (c = d)) as [->|].
  - rewrite !alter_alter_eq. done.
  - by rewrite alter_alter_ne.
Qed.

Lemma dom_set_next c v st : dom (set_next c v st) = dom st.
Proof. apply dom_alter_L. Qed.
Lemma dom_set_prev c v st : dom (set_prev c v st) = dom st.
Proof. apply dom_alter_L. Qed.
Lemma dom_link h x y st : dom (link h x y st) = dom st.
Proof. unfold link. by rewrite dom_set_prev, dom_set_next. Qed.
Lemma set_next_is_Some c v d st :
  is_Some (set_next c v st !! d) ↔ is_Some (st !! d).
Proof. by rewrite <- !elem_of_dom, dom_set_next. Qed.
Lemma set_prev_is_Some c v d st :
  is_Some (set_prev c v st !! d) ↔ is_Some (st !! d).
Proof. by rewrite <- !elem_of_dom, dom_set_prev. Qed.

Lemma rd_next_set_next c v d st :
  rd_next d (set_next c v st) =
    if decide (d = c) then (λ _, v) <$> st !! c else rd_next d st.
Proof.
  unfold rd_next, set_next. case_decide; subst.
  - rewrite lookup_alter_eq. by destruct (st !! c).
  - by rewrite lookup_alter_ne.
Qed.
Lemma rd_next_set_prev c v d st : rd_next d (set_prev c v st) = rd_next d st.
Proof.
  unfold rd_next, set_prev. destruct (decide (d = c)) as [->|].
  - rewrite lookup_alter_eq. by destruct (st !! c).
  - by rewrite lookup_alter_ne.
Qed.
Lemma rd_prev_set_prev c v d st :
  rd_prev d (set_prev c v st) =
    if decide (d = c) then (λ _, v) <$> st !! c else rd_prev d st.
Proof.
  unfold rd_prev, set_prev. case_decide; subst.
  - rewrite lookup_alter_eq. by destruct (st !! c).
  - by rewrite lookup_alter_ne.
Qed.
Lemma rd_prev_set_next c v d st : rd_prev d (set_next c v st) = rd_prev d st.
Proof.
  unfold rd_prev, set_next. destruct (decide (d = c)) as [->|].
  - rewrite lookup_alter_eq. by destruct (st !! c).
  - by rewrite lookup_alter_ne.
Qed.

Lemma link_lookup_ne h x y st d :
  d ≠ lnk h x → d ≠ lnk h y → link h x y st !! d = st !! d.
Proof.
  intros. unfold link, set_prev, set_next. by rewrite !lookup_alter_ne.
Qed.

Lemma rd_next_dom c st v : rd_next c st = Some v → is_Some (st !! c).
Proof. unfold rd_next. intros (?&?&?)%fmap_Some. eauto. Qed.
Lemma rd_prev_dom c st v : rd_prev c st = Some v → is_Some (st !! c).
Proof. unfold rd_prev. intros (?&?&?)%fmap_Some. eauto. Qed.

(** *** Paths *)
Lemma path_app st h a l1 x l2 b :
  path st h a (l1 ++ x :: l2) b ↔ path st h a l1 x ∧ path st h x l2 b.
Proof.
  revert a. induction l1 as [|y l1 IH]; intros a; cbn; [tauto|].
  rewrite IH. tauto.
Qed.

Lemma path_frame st st' h a l b :
  (∀ n, n ∈ a :: l → rd_next (lnk h n) st' = rd_next (lnk h n) st) →
  (∀ n, n ∈ l ++ [b] → rd_prev (lnk h n) st' = rd_prev (lnk h n) st) →
  path st h a l b → path st' h a l b.
Proof.
  revert a. induction l as [|x l IH]; intros a Hn Hp; cbn; unfold fwd, bwd.
  - rewrite Hn, Hp by set_solver. done.
  - rewrite Hn, Hp by set_solver. intros (?&?&?).
    split_and!; [done|done|]. apply IH; [set_solver..|done].
Qed.

Lemma path_dom st h a l b n :
  path st h a l b → n ∈ a :: l → is_Some (st !! lnk h n).
Proof.
  revert a. induction l as [|x l IH]; intros a; cbn.
  - intros [? _] ->%list_elem_of_singleton. by eapply rd_next_dom.
  - intros (?&?&?) [->|?]%elem_of_cons; [by eapply rd_next_dom|eauto].
Qed.

(** *** Rings: nodes that do not share link cells *)
Definition ring (h : K) (l : list K) : Prop := h ∉ l ∧ NoDup (cells h l).

Lemma lnk_head h : lnk h h = h.
Proof. unfold lnk. by case_decide. Qed.
Lemma lnk_item h x : x ≠ h → lnk h x = member x.
Proof. intros. unfold lnk. by case_decide. Qed.
Lemma lnk_cells h l n : h ∉ l → n ∈ h :: l → lnk h n ∈ cells h l.
Proof. intros. unfold lnk, cells. case_decide; set_solver. Qed.

Lemma cells_lnk h l : h ∉ l → cells h l = lnk h <$> h :: l.
Proof.
  intros Hh. unfold cells. cbn. rewrite lnk_head. f_equal.
  apply list_fmap_ext. intros i x Hi. rewrite lnk_item; [done|].
  intros ->. apply Hh. by eapply list_elem_of_lookup_2.
Qed.

Lemma ring_lnk_inj h l x y :
  ring h l → x ∈ h :: l → y ∈ h :: l → lnk h x = lnk h y → x = y.
Proof.
  intros [Hh ND] [i Hi]%list_elem_of_lookup [j Hj]%list_elem_of_lookup E.
  rewrite cells_lnk in ND by done.
  assert (i = j) as ->; [|congruence].
  eapply NoDup_lookup; [exact ND|..]; rewrite list_lookup_fmap.
  - by rewrite Hi.
  - rewrite Hj. cbn. by rewrite E.
Qed.

Lemma ring_NoDup h l : ring h l → NoDup (h :: l).
Proof. intros [Hh ND]. rewrite cells_lnk in ND by done. by apply NoDup_fmap_1 in ND. Qed.

Lemma ring_sublist h l l' : l' `sublist_of` l → ring h l → ring h l'.
Proof.
  intros Hs [Hh ND]. split.
  - intros ?. apply Hh. by eapply elem_of_sublist.
  - eapply sublist_NoDup; [exact ND|]. apply sublist_skip. by apply fmap_sublist.
Qed.

(** The nodes of a ring in another order are still without shared cells. *)
#[global] Instance ring_perm h : Proper ((≡ₚ) ==> iff) (ring h).
Proof. intros l l' E. unfold ring, cells. by rewrite E. Qed.

Lemma ring_rev h l : ring h l → ring h (rev l).
Proof. by rewrite <- Permutation_rev. Qed.

Lemma path_link st h L a l b x y :
  ring h L → (∀ n, n ∈ x :: y :: a :: l ++ [b] → n ∈ h :: L) →
  x ∉ a :: l → y ∉ l ++ [b] →
  path st h a l b → path (link h x y st) h a l b.
Proof.
  intros HR HL Hx Hy. apply path_frame; intros n Hn; unfold link.
  - rewrite rd_next_set_prev, rd_next_set_next, decide_False; [done|].
    intros E. eapply ring_lnk_inj in E; [|exact HR|apply HL; set_solver..]. set_solver.
  - rewrite rd_prev_set_prev, decide_False, rd_prev_set_next; [done|].
    intros E. eapply ring_lnk_inj in E; [|exact HR|apply HL; set_solver..]. set_solver.
Qed.

Lemma path_linked st h x y :
  is_Some (st !! lnk h x) → is_Some (st !! lnk h y) →
  path (link h x y st) h x [] y.
Proof.
  intros [? Hx] [? Hy]. cbn. unfold fwd, bwd, link.
  rewrite rd_next_set_prev, rd_next_set_next, rd_prev_set_prev, !decide_True, Hx by done.
  split; [done|].
  assert (is_Some (set_next (lnk h x) y st !! lnk h y)) as [? ->]
    by (apply set_next_is_Some; eauto).
  done.
Qed.

(** *** Reading a ring *)
Lemma dlist_ring st h l : dlist st h l → ring h l.
Proof. intros (_&?&?). by split. Qed.

Lemma dlist_frame st st' h l :
  (∀ d, d ∈ cells h l → st' !! d = st !! d) → dlist st h l → dlist st' h l.
Proof.
  intros Hd (Hp & Hh & ND). split_and!; [|done..].
  eapply path_frame; [..|exact Hp]; intros n Hn; unfold rd_next, rd_prev;
    rewrite Hd; [done| |done|]; apply lnk_cells; set_solver.
Qed.

Lemma dlist_dom st h l n : dlist st h l → n ∈ h :: l → is_Some (st !! lnk h n).
Proof. intros (?&?&?). by apply path_dom with h. Qed.

Lemma dlist_item st h l x :
  dlist st h l → x ∈ l → x ≠ h ∧ member x ≠ h ∧ lnk h x = member x.
Proof.
  intros (?&?&[? ?]%NoDup_cons) ?.
  assert (x ≠ h) by (intros ->; done).
  split_and!; [done| |by apply lnk_item].
  intros E. assert (member x ∈ member <$> l) by set_solver. congruence.
Qed.

Lemma dlist_split st h l1 x l2 :
  dlist st h (l1 ++ x :: l2) ↔
    ring h (l1 ++ x :: l2) ∧ path st h h l1 x ∧ path st h x l2 h.
Proof. unfold dlist, ring. rewrite path_app. tauto. Qed.

Lemma dlist_nil st h : dlist st h [] ↔ rd_next h st = Some h ∧ rd_prev h st = Some h.
Proof.
  unfold dlist. cbn. unfold fwd, bwd, cells. rewrite lnk_head.
  split; [tauto|]. intros ?. split_and!; [tauto..|set_solver|apply NoDup_singleton].
Qed.

Lemma dlist_first st h x l :
  dlist st h (x :: l) → rd_next h st = Some x ∧ rd_prev (member x) st = Some h.
Proof.
  intros HD. pose proof HD as ((Hf&Hb&_)&_).
  destruct (dlist_item _ _ _ x HD ltac:(set_solver)) as (?&?&E).
  unfold fwd, bwd in *. rewrite lnk_head in *. by rewrite E in *.
Qed.

(** The successor of an item. *)
Lemma dlist_next st h l1 x l2 :
  dlist st h (l1 ++ x :: l2) → rd_next (member x) st = Some (default h (head l2)).
Proof.
  intros HD. destruct (dlist_item _ _ _ x HD ltac:(set_solver)) as (?&?&E).
  apply dlist_split in HD as (_&_&HP). rewrite <- E.
  destruct l2 as [|y l2]; destruct HP as [Hf _]; exact Hf.
Qed.

Lemma dlist_last st h l x :
  dlist st h (l ++ [x]) → rd_prev h st = Some x ∧ rd_next (member x) st = Some h.
Proof.
  intros HD. pose proof HD as (HP&_). apply path_app in HP as [_ [Hf Hb]].
  destruct (dlist_item _ _ _ x HD ltac:(set_solver)) as (?&?&E).
  unfold fwd, bwd in *. rewrite lnk_head in *. by rewrite E in *.
Qed.

Lemma list_isempty_spec st h l :
  dlist st h l → list_isempty h st = Some (bool_decide (l = [])).
Proof.
  intros HD. unfold list_isempty. destruct l as [|x l].
  - apply dlist_nil in HD as [-> _]. cbn. by rewrite bool_decide_true.
  - destruct (dlist_first _ _ _ _ HD) as [-> _]. cbn.
    rewrite !bool_decide_false; try done.
    intros ->. destruct HD as (_&?&_). set_solver.
Qed.

(** The outcome every macro that changes a ring is proved to have: the
    memory it leaves holds the ring [l'], the same cells are allocated, and
    no cell outside [cs] changed. *)
Definition rewires (st : store) (h : K) (l' cs : list K) (st' : store) : Prop :=
  dlist st' h l' ∧ dom st' = dom st ∧ (∀ d, d ∉ cs → st' !! d = st !! d).

Lemma rewires_frame st h l' cs st' h2 l2 :
  rewires st h l' cs st' → (∀ c, c ∈ cells h2 l2 → c ∉ cs) →
  dlist st h2 l2 → dlist st' h2 l2.
Proof. intros (_&_&HF) Hd. apply dlist_frame. auto. Qed.

(** *** Changing a ring *)
Lemma list_init_spec st h :
  is_Some (st !! h) →
  ∃ st', list_init h st = Some st' ∧ rewires st h [] [h] st'.
Proof.
  intros Hs. exists (link h h h st). unfold list_init.
  rewrite wr_next_Some by done. cbn.
  rewrite wr_prev_Some by (by apply set_next_is_Some).
  split; [unfold link; by rewrite lnk_head|]. split_and!.
  - split_and!; [|set_solver|apply NoDup_singleton].
    apply path_linked; by rewrite lnk_head.
  - apply dom_link.
  - intros d Hd. apply link_lookup_ne; rewrite lnk_head; set_solver.
Qed.

(** The successor of the head, an object of the ring or the head itself. *)
Lemma dlist_succ st h l :
  dlist st h l →
  ∃ x, rd_next h st = Some x ∧ is_Some (st !! lnk h x) ∧
    ((l = [] ∧ x = h) ∨ (∃ l', l = x :: l')).
Proof.
  intros HD. destruct l as [|x l].
  - exists h. pose proof HD as [? _]%dlist_nil.
    split_and!; [done| |by left]. eapply dlist_dom; [done|set_solver].
  - exists x. pose proof (dlist_first _ _ _ _ HD) as [? _].
    split_and!; [done| |right; eauto]. eapply dlist_dom; [done|set_solver].
Qed.

Lemma dlist_cons_link st h l p x :
  dlist st h l → ring h (p :: l) → is_Some (st !! member p) →
  (l = [] ∧ x = h) ∨ (∃ l', l = x :: l') →
  dlist (link h p x (link h h p st)) h (p :: l).
Proof.
  intros HD HR Hs Hx.
  pose proof (ring_NoDup _ _ HR) as ND. rewrite !NoDup_cons in ND.
  assert (Hph : lnk h p = member p) by (apply lnk_item; set_solver).
  assert (S0 : ∀ n, n ∈ h :: p :: l → is_Some (st !! lnk h n)).
  { intros n Hn. destruct (decide (n = p)) as [->|]; [by rewrite Hph|].
    eapply dlist_dom; [done|set_solver]. }
  assert (S1 : ∀ n, n ∈ h :: p :: l → is_Some (link h h p st !! lnk h n)).
  { intros n Hn. rewrite <- elem_of_dom, dom_link, elem_of_dom. auto. }
  split_and!; [|by destruct HR..]. apply (path_app _ _ _ []).
  destruct Hx as [[-> ->]|[l' ->]].
  - split.
    + apply (path_link _ _ [p]); [done|set_solver..|]. apply path_linked; apply S0; set_solver.
    + apply path_linked; apply S1; set_solver.
  - rewrite NoDup_cons in ND. split.
    + apply (path_link _ _ (p :: x :: l')); [done|set_solver..|].
      apply path_linked; apply S0; set_solver.
    + apply (path_app _ _ _ []). split; [apply path_linked; apply S1; set_solver|].
      do 2 (apply (path_link _ _ (p :: x :: l')); [done|set_solver..|]).
      apply HD.
Qed.

(** Both insertion macros put the object in front of the ring. *)
Lemma list_enqueue_spec st h l p :
  dlist st h l → ring h (p :: l) → is_Some (st !! member p) →
  ∃ st', list_enqueue h p st = Some st' ∧ rewires st h (p :: l) (cells h (p :: l)) st'.
Proof.
  intros HD HR Hs. destruct (dlist_succ _ _ _ HD) as (x & Ex & Sx & Cx).
  assert (p ≠ h) by (destruct HR as [? _]; set_solver).
  assert (Sh : is_Some (st !! h)) by (by eapply rd_next_dom).
  exists (link h p x (link h h p st)). split.
  - unfold list_enqueue. rewrite Ex. cbn. rewrite wr_next_Some by done. cbn.
    rewrite wr_prev_Some by (by rewrite set_next_is_Some). cbn.
    rewrite wr_next_Some by (by rewrite set_prev_is_Some, set_next_is_Some). cbn.
    unfold link. rewrite lnk_head, (lnk_item h p) by done. unfold lnk in *.
    case_decide; subst;
      apply wr_prev_Some; by rewrite set_next_is_Some, set_prev_is_Some, set_next_is_Some.
  - split_and!; [by eapply dlist_cons_link|by rewrite !dom_link|].
    intros d Hd. pose proof (cells_lnk h (p :: l) ltac:(by destruct HR)) as E.
    rewrite !link_lookup_ne; [done|..]; intros ->; apply Hd; rewrite E;
      apply list_elem_of_fmap_2; clear -Cx; destruct Cx as [[_ ->]|[? ->]]; set_solver.
Qed.

Lemma list_add_enqueue h p st : list_add h p st = list_enqueue h p st.
Proof. done. Qed.

(** The neighbours of an object. *)
Lemma path_pred st h l1 x prv :
  x ≠ h → path st h h l1 x → rd_prev (member x) st = Some prv →
  (l1 = [] ∧ prv = h) ∨ (∃ l', l1 = l' ++ [prv] ∧ path st h h l' prv).
Proof.
  intros Hx HP E. destruct (list_snoc_cases l1) as [->|(l'&y&->)].
  - left. destruct HP as [_ Hb]. unfold bwd in Hb. rewrite lnk_item in Hb by done.
    split; [done|congruence].
  - right. apply path_app in HP as [? [_ Hb]]. unfold bwd in Hb.
    rewrite lnk_item in Hb by done. simplify_eq. eauto.
Qed.

Lemma path_succ st h x l2 nxt :
  x ≠ h → path st h x l2 h → rd_next (member x) st = Some nxt →
  (l2 = [] ∧ nxt = h) ∨ (∃ l', l2 = nxt :: l' ∧ path st h nxt l' h).
Proof.
  intros Hx HP E. destruct l2 as [|y l2].
  - left. destruct HP as [Hf _]. unfold fwd in Hf. rewrite lnk_item in Hf by done.
    split; [done|congruence].
  - right. destruct HP as (Hf&_&?). unfold fwd in Hf.
    rewrite lnk_item in Hf by done. simplify_eq. eauto.
Qed.

Lemma dlist_neighbours st h l1 x l2 :
  dlist st h (l1 ++ x :: l2) →
  ∃ prv nxt, rd_prev (member x) st = Some prv ∧ rd_next (member x) st = Some nxt ∧
    ((l1 = [] ∧ prv = h) ∨ (∃ l', l1 = l' ++ [prv] ∧ path st h h l' prv)) ∧
    ((l2 = [] ∧ nxt = h) ∨ (∃ l', l2 = nxt :: l' ∧ path st h nxt l' h)).
Proof.
  intros HD. destruct (dlist_item _ _ _ x HD ltac:(set_solver)) as (Hx&_&E).
  destruct (dlist_dom _ _ _ x HD ltac:(set_solver)) as [lk Hlk]. rewrite E in Hlk.
  assert (Ep : rd_prev (member x) st = Some (prev lk)) by (unfold rd_prev; by rewrite Hlk).
  assert (En : rd_next (member x) st = Some (next lk)) by (unfold rd_next; by rewrite Hlk).
  apply dlist_split in HD as (_&?&?).
  exists (prev lk), (next lk). split_and!; eauto using path_pred, path_succ.
Qed.

(** Linking the neighbours of an object takes it out of the ring. *)
Lemma dlist_relink st h l1 x l2 prv nxt :
  dlist st h (l1 ++ x :: l2) →
  (l1 = [] ∧ prv = h) ∨ (∃ l', l1 = l' ++ [prv] ∧ path st h h l' prv) →
  (l2 = [] ∧ nxt = h) ∨ (∃ l', l2 = nxt :: l' ∧ path st h nxt l' h) →
  rewires st h (l1 ++ l2) (cells h (l1 ++ l2)) (link h prv nxt st).
Proof.
  intros HD P1 P2.
  assert (HR : ring h (l1 ++ l2)).
  { eapply ring_sublist; [|by eapply dlist_ring]. apply sublist_app; [done|by apply sublist_cons]. }
  pose proof (ring_NoDup _ _ HR) as ND.
  assert (Hin : prv ∈ h :: l1 ++ l2 ∧ nxt ∈ h :: l1 ++ l2).
  { clear -P1 P2. destruct P1 as [[-> ->]|(?&->&_)], P2 as [[-> ->]|(?&->&_)]; set_solver. }
  assert (HL : path (link h prv nxt st) h prv [] nxt).
  { apply path_linked; (eapply dlist_dom; [exact HD|]); set_solver. }
  split_and!; [|apply dom_link|].
  - split; [|exact HR].
    destruct P1 as [[-> ->]|(l1'&->&Hp1)], P2 as [[-> ->]|(l2'&->&Hp2)]; cbn in ND |- *.
    + done.
    + apply (path_app _ _ _ []). split; [done|]. rewrite !NoDup_cons in ND.
      apply (path_link _ _ (nxt :: l2')); [done|set_solver..|done].
    + rewrite app_nil_r in *. apply path_app. split; [|done].
      rewrite NoDup_cons, NoDup_app in ND.
      apply (path_link _ _ (l1' ++ [prv])); [done|set_solver..|done].
    + rewrite <- app_assoc. apply path_app. rewrite NoDup_cons, !NoDup_app, !NoDup_cons in ND.
      split; [|apply (path_app _ _ _ []); split; [done|]];
        (apply (path_link _ _ ((l1' ++ [prv]) ++ nxt :: l2')); [done|set_solver..|done]).
  - intros d Hd. rewrite cells_lnk in Hd by (by destruct HR).
    apply link_lookup_ne; intros ->; apply Hd; apply list_elem_of_fmap_2; tauto.
Qed.

Lemma list_del_spec st h l1 x l2 :
  dlist st h (l1 ++ x :: l2) →
  ∃ st', list_del h x st = Some st' ∧ rewires st h (l1 ++ l2) (cells h (l1 ++ l2)) st'.
Proof.
  intros HD. destruct (dlist_neighbours _ _ _ _ _ HD) as (prv&nxt&Ep&En&P1&P2).
  exists (link h prv nxt st). split; [|by eapply dlist_relink].
  assert (prv ∈ h :: l1 ++ x :: l2 ∧ nxt ∈ h :: l1 ++ x :: l2) as [Hin1 Hin2].
  { clear -P1 P2. destruct P1 as [[-> ->]|(?&->&_)], P2 as [[-> ->]|(?&->&_)]; set_solver. }
  apply (dlist_dom st h) in Hin1; [|done]. apply (dlist_dom st h) in Hin2; [|done].
  unfold list_del. rewrite Ep, En. cbn. unfold link, lnk in *.
  repeat case_decide; subst; rewrite wr_next_Some by done; cbn;
    rewrite wr_prev_Some by (by apply set_next_is_Some); done.
Qed.

Lemma list_remove_spec st h x l :
  dlist st h (x :: l) →
  ∃ st', list_remove h st = Some (x, st') ∧ rewires st h l (cells h l) st'.
Proof.
  intros HD. destruct (dlist_neighbours _ _ [] _ _ HD) as (prv&nxt&Ep&En&P1&P2).
  destruct P1 as [[_ ->]|(l'&E&_)]; [|by destruct l'].
  exists (link h h nxt st). split; [|eapply (dlist_relink _ _ []); eauto].
  destruct (dlist_first _ _ _ _ HD) as [Ef _].
  unfold list_remove. rewrite Ef. cbn. rewrite En. cbn.
  rewrite wr_next_Some by (by eapply rd_next_dom). cbn.
  assert (is_Some (st !! lnk h nxt)) as Hs.
  { eapply dlist_dom; [done|]. clear -P2. destruct P2 as [[-> ->]|(?&->&_)]; set_solver. }
  unfold link, lnk in *. rewrite (decide_True (P := h = h)) by done.
  case_decide; subst; rewrite wr_prev_Some by (by apply set_next_is_Some); done.
Qed.

Lemma list_dequeue_spec st h l x :
  dlist st h (l ++ [x]) →
  ∃ st', list_dequeue h st = Some (x, st') ∧ rewires st h l (cells h l) st'.
Proof.
  intros HD. destruct (dlist_neighbours _ _ l _ [] HD) as (prv&nxt&Ep&En&P1&P2).
  destruct P2 as [[_ ->]|(?&?&?)]; [|done].
  pose proof (dlist_relink _ _ _ _ _ prv h HD P1 (or_introl (conj eq_refl eq_refl))) as HRW.
  rewrite app_nil_r in HRW. exists (link h prv h st). split; [|done].
  destruct (dlist_last _ _ _ _ HD) as [Ef _].
  unfold list_dequeue. rewrite Ef. cbn. rewrite Ep. cbn.
  rewrite wr_prev_Some by (by eapply rd_prev_dom). cbn.
  assert (is_Some (st !! lnk h prv)) as Hs.
  { eapply dlist_dom; [done|]. clear -P1. destruct P1 as [[-> ->]|(?&->&_)]; set_solver. }
  unfold link, lnk in *. rewrite (decide_True (P := h = h)) by done.
  case_decide; subst; rewrite wr_next_Some by (by apply set_prev_is_Some);
    by rewrite set_prev_next_comm.
Qed.

(** Deleting an item again, right after it was dequeued, changes nothing. *)
Lemma wr_next_same c v st : rd_next c st = Some v → wr_next c v st = Some st.
Proof.
  unfold rd_next, wr_next. destruct (st !! c) as [[n q]|] eqn:E; cbn; [|done].
  intros [= ->]. f_equal. by apply insert_id.
Qed.
Lemma wr_prev_same c v st : rd_prev c st = Some v → wr_prev c v st = Some st.
Proof.
  unfold rd_prev, wr_prev. destruct (st !! c) as [[n q]|] eqn:E; cbn; [|done].
  intros [= ->]. f_equal. by apply insert_id.
Qed.

Lemma list_dequeue_del st h l x :
  dlist st h (l ++ [x]) →
  ∃ st', list_dequeue h st = Some (x, st') ∧ rewires st h l (cells h l) st' ∧
    list_del h x st' = Some st'.
Proof.
  intros HD. destruct (list_dequeue_spec _ _ _ _ HD) as (st'&E&HW).
  exists st'. split_and!; [done..|]. pose proof HW as (HD'&_&HF).
  destruct (dlist_neighbours _ _ l _ [] HD) as (prv&nxt&Ep&En&P1&P2).
  destruct P2 as [[_ ->]|(?&?&?)]; [|done].
  assert (Hx : st' !! member x = st !! member x).
  { apply HF. destruct HD as (_&_&ND). revert ND. clear. unfold cells.
    rewrite fmap_app, app_comm_cons, NoDup_app. intros (_&Hd&_) ?. by eapply Hd; [|left]. }
  unfold list_del, rd_prev, rd_next in *. rewrite Hx, Ep. cbn. rewrite En. cbn.
  destruct P1 as [[-> ->]|(l'&->&_)].
  - destruct HD' as ([Hf Hb]&_). unfold fwd, bwd in *. rewrite lnk_head in *.
    rewrite decide_True, wr_next_same by done. cbn.
    rewrite decide_True by done. by apply wr_prev_same.
  - destruct (dlist_last _ _ _ _ HD') as [Hp Hn].
    assert (prv ≠ h) by (destruct HD' as (_&Hh&_); set_solver).
    rewrite decide_False, wr_next_same by done. cbn.
    rewrite decide_True by done. by apply wr_prev_same.
Qed.
End DList.

(** ** Sequences of operations *)
Section Sequences.
Context {K : Type} `{Countable K}.
Variable member : K → K.
Notation store := (gmap K (linked_list K)).
Implicit Types (st : store) (h p x : K) (l ps : list K).

(** [list_enqueue] of the objects [ps], one after the other. *)
Fixpoint enqueue_all (h : K) (ps : list K) (st : store) : option store :=
  match ps with
  | [] => Some st
  | p :: ps' => st ← list_enqueue member h p st; enqueue_all h ps' st
  end.

(** [n] times [list_dequeue], with the objects it yields. *)
Fixpoint dequeue_n (h : K) (n : nat) (st : store) : option (list K * store) :=
  match n with
  | O => Some ([], st)
  | S n' =>
      '(p, st) ← list_dequeue member h st;
      '(ps, st) ← dequeue_n h n' st;
      Some (p :: ps, st)
  end.

(** [n] times [list_remove], with the objects it yields. *)
Fixpoint remove_n (h : K) (n : nat) (st : store) : option (list K * store) :=
  match n with
  | O => Some ([], st)
  | S n' =>
      '(p, st) ← list_remove member h st;
      '(ps, st) ← remove_n h n' st;
      Some (p :: ps, st)
  end.

Definition allocated (st : store) (ps : list K) : Prop :=
  ∀ p, p ∈ ps → is_Some (st !! member p).

Lemma enqueue_all_spec ps : ∀ st h l,
  dlist member st h l → ring member h (rev ps ++ l) → allocated st ps →
  ∃ st', enqueue_all h ps st = Some st' ∧ dlist member st' h (rev ps ++ l).
Proof.
  induction ps as [|p ps IH]; intros st h l HD HR HA; cbn in *; [eauto|].
  rewrite <- app_assoc in *. cbn in *.
  destruct (list_enqueue_spec member st h l p) as (st1&->&HD1&D1&_).
  - done.
  - eapply ring_sublist; [|exact HR]. by apply sublist_inserts_l.
  - apply HA. set_solver.
  - cbn. apply IH; [done|done|].
    intros q Hq. rewrite <- elem_of_dom, D1, elem_of_dom. apply HA. set_solver.
Qed.

Lemma dequeue_n_spec ps : ∀ st h l,
  dlist member st h (l ++ rev ps) →
  ∃ st', dequeue_n h (length ps) st = Some (ps, st') ∧ dlist member st' h l.
Proof.
  induction ps as [|p ps IH]; intros st h l HD; cbn in *.
  - rewrite app_nil_r in HD. eauto.
  - rewrite app_assoc in HD.
    destruct (list_dequeue_spec member st h _ p HD) as (st1&->&HD1&_). cbn.
    destruct (IH st1 h l HD1) as (st2&->&HD2). cbn. eauto.
Qed.

Lemma remove_n_spec l : ∀ st h l',
  dlist member st h (l ++ l') →
  ∃ st', remove_n h (length l) st = Some (l, st') ∧ dlist member st' h l'.
Proof.
  induction l as [|p ps IH]; intros st h l' HD; cbn in *; [eauto|].
  destruct (list_remove_spec member st h p _ HD) as (st1&->&HD1&_). cbn.
  destruct (IH st1 h l' HD1) as (st2&->&HD2). cbn. eauto.
Qed.
End Sequences.

(** ** One-directional rings, for the macro that rewires one direction only *)
Section Directions.
Context {K : Type} `{Countable K}.
Variable member : K → K.
Notation store := (gmap K (linked_list K)).

Fixpoint fpath (st : store) (h a : K) (l : list K) (b : K) : Prop :=
  match l with
  | [] => fwd member st h a b
  | x :: l' => fwd member st h a x ∧ fpath st h x l' b
  end.
Fixpoint bpath (st : store) (h a : K) (l : list K) (b : K) : Prop :=
  match l with
  | [] => bwd member st h b a
  | x :: l' => bwd member st h x a ∧ bpath st h x l' b
  end.

Lemma path_directions st h a l b :
  path member st h a l b ↔ fpath st h a l b ∧ bpath st h a l b.
Proof. revert a. induction l as [|x l IH]; intros a; cbn; [done|]. rewrite IH. tauto. Qed.

Lemma fpath_app st h a l1 x l2 b :
  fpath st h a (l1 ++ x :: l2) b ↔ fpath st h a l1 x ∧ fpath st h x l2 b.
Proof. revert a. induction l1 as [|y l1 IH]; intros a; cbn; [done|]. rewrite IH. tauto. Qed.

Lemma fpath_frame st st' h a l b :
  (∀ n, n ∈ a :: l → rd_next (lnk member h n) st' = rd_next (lnk member h n) st) →
  fpath st h a l b → fpath st' h a l b.
Proof.
  revert a. induction l as [|x l IH]; intros a Hn; cbn; unfold fwd.
  - rewrite Hn by set_solver. done.
  - rewrite Hn by set_solver. intros (?&?). split; [done|]. apply IH; [set_solver|done].
Qed.
Lemma bpath_frame st st' h a l b :
  (∀ n, n ∈ l ++ [b] → rd_prev (lnk member h n) st' = rd_prev (lnk member h n) st) →
  bpath st h a l b → bpath st' h a l b.
Proof.
  revert a. induction l as [|x l IH]; intros a Hp; cbn; unfold bwd.
  - rewrite Hp by set_solver. done.
  - rewrite Hp by set_solver. intros (?&?). split; [done|]. apply IH; [set_solver|done].
Qed.

Lemma fpath_swap st st' h x p l b :
  rd_next (lnk member h p) st' = rd_next (lnk member h x) st →
  (∀ n, n ∈ l → rd_next (lnk member h n) st' = rd_next (lnk member h n) st) →
  fpath st h x l b → fpath st' h p l b.
Proof.
  destruct l as [|y l]; cbn; unfold fwd; intros E Hn; rewrite E; [done|].
  intros [? ?]. split; [done|]. by apply (fpath_frame st).
Qed.

(** What [list_add_next] leaves in memory. *)
Lemma list_add_next_Some st x p lk :
  st !! member x = Some lk → is_Some (st !! member p) → member p ≠ member x →
  ∃ st', list_add_next member x p st = Some st' ∧
    (∀ d, rd_next d st' = if decide (d = member p) then Some (next lk)
                          else if decide (d = member x) then Some p else rd_next d st) ∧
    (∀ d, rd_prev d st' = if decide (d = member p) then Some x else rd_prev d st).
Proof.
  intros Hx Hp Hne. unfold list_add_next. unfold rd_next at 1. rewrite Hx. cbn.
  rewrite wr_next_Some by eauto. cbn.
  rewrite wr_prev_Some by (by apply set_next_is_Some). cbn.
  rewrite wr_next_Some by (by apply set_prev_is_Some, set_next_is_Some).
  eexists. split_and!; [done| |]; intros d.
  - rewrite rd_next_set_next, rd_next_set_prev, rd_next_set_next.
    repeat case_decide; subst; [|by rewrite Hx|done].
    assert (is_Some (set_prev (member p) x (set_next (member x) p st) !! member p)) as [? ->]
      by (by apply set_prev_is_Some, set_next_is_Some). done.
  - rewrite rd_prev_set_next, rd_prev_set_prev, rd_prev_set_next. case_decide; [|done].
    assert (is_Some (set_next (member x) p st !! member p)) as [? ->]
      by (by apply set_next_is_Some). done.
Qed.
End Directions.

(** ** Decision procedures, used to evaluate the hypotheses of the theorems *)
Section Decide.
Context {K : Type} `{Countable K}.
Variable member : K → K.
Notation store := (gmap K (linked_list K)).

#[global] Instance path_dec (st : store) h a l b : Decision (path member st h a l b).
Proof.
  revert a. induction l as [|x l IH]; intros a; cbn; unfold fwd, bwd; apply _.
Defined.
#[global] Instance ring_dec (h : K) l : Decision (ring member h l).
Proof. unfold ring. apply _. Defined.
#[global] Instance dlist_dec (st : store) h l : Decision (dlist member st h l).
Proof. unfold dlist. apply _. Defined.
#[global] Instance allocated_dec (st : store) ps : Decision (allocated member st ps).
Proof.
  refine (cast_if (decide (Forall (λ p, is_Some (st !! member p)) ps)));
    unfold allocated; rewrite <- Forall_forall; done.
Defined.
End Decide.

(** Decide a closed proposition by evaluation. *)
Ltac evaluate := apply (bool_decide_unpack _); vm_compute; exact I.

(** ** Properties of list.h *)
Section Properties.
Context {K : Type} `{Countable K}.
Variable member : K → K.
Notation store := (gmap K (linked_list K)).

(** C1. Queue contract of list.h: from any allocated head, [list_init] and a
    [list_enqueue] of each object of [ps] in turn succeed, and as many
    [list_dequeue]s then yield exactly [ps], first in first out, leaving a
    list that [list_isempty] reports empty. *)
Theorem list_queue_fifo (st : store) h ps :
  is_Some (st !! h) → ring member h ps → allocated member st ps →
  ∃ st1 st2 st3,
    list_init h st = Some st1 ∧ enqueue_all member h ps st1 = Some st2 ∧
    dequeue_n member h (length ps) st2 = Some (ps, st3) ∧
    list_isempty h st3 = Some true.
Proof.
  intros Hh HR HA. destruct (list_init_spec member st h Hh) as (st1&E1&HD1&D1&_).
  destruct (enqueue_all_spec member ps st1 h []) as (st2&E2&HD2).
  - done.
  - rewrite app_nil_r. by apply ring_rev.
  - intros p Hp. rewrite <- elem_of_dom, D1, elem_of_dom. by apply HA.
  - rewrite app_nil_r in HD2.
    destruct (dequeue_n_spec member ps st2 h [] HD2) as (st3&E3&HD3).
    exists st1, st2, st3. split_and!; [done..|].
    by rewrite (list_isempty_spec member _ _ _ HD3), bool_decide_true.
Qed.

(** Stack contract of list.h: objects added one by one with [list_add]
    (the same code as [list_enqueue]) come back with [list_remove] in the
    opposite order, whatever the list held before, and what it held before
    is left as it was. *)
Theorem list_stack_lifo (st : store) h l ps :
  dlist member st h l → ring member h (rev ps ++ l) → allocated member st ps →
  ∃ st1 st2,
    enqueue_all member h ps st = Some st1 ∧
    remove_n member h (length ps) st1 = Some (rev ps, st2) ∧ dlist member st2 h l.
Proof.
  intros HD HR HA. destruct (enqueue_all_spec member ps st h l HD HR HA) as (st1&E1&HD1).
  destruct (remove_n_spec member (rev ps) st1 h l HD1) as (st2&E2&HD2).
  rewrite length_rev in E2. eauto.
Qed.

(** [list_del] takes any object out of the middle of a list and keeps
    the order of the others; no link outside that list changes, so every
    list that shares no cell with it is untouched. *)
Theorem list_del_removes (st : store) h l1 x l2 h' l' :
  dlist member st h (l1 ++ x :: l2) → dlist member st h' l' →
  (∀ c, c ∈ cells member h' l' → c ∉ cells member h (l1 ++ l2)) →
  ∃ st', list_del member h x st = Some st' ∧
    dlist member st' h (l1 ++ l2) ∧ dlist member st' h' l'.
Proof.
  intros HD HD' Hdis. destruct (list_del_spec member st h l1 x l2 HD) as (st'&E&HW).
  exists st'. split_and!; [done|apply HW|]. by eapply rewires_frame.
Qed.

(** [list_add_next] rewires one direction only: after inserting [p]
    behind [x] the forward chain runs through [p], but the backward chain is
    the old one and never meets [p] (the source comment says "Add an item
    next to prv"). *)
Theorem list_add_next_forgets_prev (st : store) h l1 x l2 p :
  dlist member st h (l1 ++ x :: l2) → ring member h (p :: l1 ++ x :: l2) →
  is_Some (st !! member p) →
  ∃ st', list_add_next member x p st = Some st' ∧
    fpath member st' h h (l1 ++ x :: p :: l2) h ∧
    bpath member st' h h (l1 ++ x :: l2) h.
Proof.
  intros HD HR Hp.
  destruct (dlist_item _ _ _ _ x HD ltac:(set_solver)) as (Hxh&_&Ex).
  destruct (dlist_dom _ _ _ _ x HD ltac:(set_solver)) as [lk Hlk]. rewrite Ex in Hlk.
  pose proof (ring_NoDup _ _ _ HR) as ND.
  rewrite !NoDup_cons, NoDup_app, NoDup_cons in ND.
  assert (Eph : lnk member h p = member p) by (apply lnk_item; set_solver).
  assert (Hne : ∀ n y, n ∈ h :: l1 ++ x :: l2 → y ∈ p :: l1 ++ x :: l2 → n ≠ y →
    lnk member h n ≠ lnk member h y).
  { intros n y ?? Hny E. apply Hny. eapply ring_lnk_inj; [exact HR|set_solver..|done]. }
  destruct (list_add_next_Some member st x p lk) as (st'&E'&Nx&Pv); [done..| |].
  { rewrite <- Ex, <- Eph. apply not_eq_sym, Hne; set_solver. }
  exists st'. split; [done|]. rewrite <- Ex, <- Eph in Nx. rewrite <- Eph in Pv.
  pose proof HD as [HP _]. apply path_directions in HP as [F B].
  apply fpath_app in F as [F1 F2]. split; [apply fpath_app; split; [|split]|].
  - eapply fpath_frame; [|exact F1]. intros n Hn.
    rewrite Nx, !decide_False; [done|apply Hne; set_solver..].
  - unfold fwd. rewrite Nx, decide_False, decide_True; [done..|apply Hne; set_solver].
  - eapply (fpath_swap _ _ _ _ x); [|  |exact F2].
    + rewrite Nx, decide_True, Ex by done. unfold rd_next. by rewrite Hlk.
    + intros n Hn. rewrite Nx, !decide_False; [done|apply Hne; set_solver..].
  - eapply bpath_frame; [|exact B]. intros n Hn.
    rewrite Pv, decide_False; [done|apply Hne; set_solver].
Qed.
End Properties.

(** ** The hypotheses at work: three objects with their link at offset 8 *)
Definition demo_off (p : Z) : Z := p + 8.
Definition demo_mem : gmap Z (linked_list Z) :=
  list_to_map [(16, mk_link 0 0); (108, mk_link 0 0); (208, mk_link 0 0); (308, mk_link 0 0)].
(** The memory after [list_init] and two [list_enqueue]s. *)
Definition demo_ring : gmap Z (linked_list Z) :=
  default ∅ (list_init 16 demo_mem ≫= enqueue_all demo_off 16 [100; 200]).

Lemma list_queue_fifo_witness :
  ∃ st1 st2 st3,
    list_init 16 demo_mem = Some st1 ∧
    enqueue_all demo_off 16 [100; 200; 300] st1 = Some st2 ∧
    dequeue_n demo_off 16 3 st2 = Some ([100; 200; 300], st3) ∧
    list_isempty 16 st3 = Some true.
Proof. apply (list_queue_fifo demo_off demo_mem 16 [100; 200; 300]); evaluate. Defined.

Lemma list_stack_lifo_witness :
  ∃ st1 st2,
    enqueue_all demo_off 16 [300] demo_ring = Some st1 ∧
    remove_n demo_off 16 1 st1 = Some ([300], st2) ∧ dlist demo_off st2 16 [200; 100].
Proof. apply (list_stack_lifo demo_off demo_ring 16 [200; 100] [300]); evaluate. Defined.

Definition demo_two : gmap Z (linked_list Z) := <[400 := mk_link 400 400]> demo_ring.

Lemma list_del_removes_witness :
  ∃ st', list_del demo_off 16 200 demo_two = Some st' ∧
    dlist demo_off st' 16 [100] ∧ dlist demo_off st' 400 [].
Proof.
  apply (list_del_removes demo_off demo_two 16 [] 200 [100] 400 []).
  - evaluate.
  - evaluate.
  - intros c ->%list_elem_of_singleton. evaluate.
Defined.

Lemma list_add_next_forgets_prev_witness :
  ∃ st', list_add_next demo_off 200 300 demo_ring = Some st' ∧
    fpath demo_off st' 16 16 [200; 300; 100] 16 ∧ bpath demo_off st' 16 16 [200; 100] 16.
Proof. apply (list_add_next_forgets_prev demo_off demo_ring 16 [] 200 [100] 300); evaluate. Defined.
