(* ===== verification/Bits.v ===== *)
(** * Bit operations of the i386

    Models the inline assembly of microkernel/include/i386/asm/asm.h on a
    32-bit word: [set_bit], [clear_bit], [check_set], [ffs], [ffc], [frs]. *)

From S2P Require Import Prelude.

(** [btsl]/[btrl] on a word in memory: an index outside the word reaches
    another word, which a caller that owns a single word must not do. *)
Definition set_bit (bitmap index : Z) : option Z :=
  if bool_decide (0 <= index < 32) then Some (Z.setbit bitmap index) else None.
Definition clear_bit (bitmap index : Z) : option Z :=
  if bool_decide (0 <= index < 32) then Some (Z.clearbit bitmap index) else None.

(** [btl] on registers takes the index modulo 32; [sbbl] turns the carry into
    0 or -1. *)
Definition check_set (bitmap index : Z) : Z :=
  if Z.testbit bitmap (index mod 32) then -1 else 0.

(** [bsfl]: the position of the lowest set bit. *)
Fixpoint bsf_from (n : nat) (i x : Z) : option Z :=
  match n with
  | O => None
  | S n' => if Z.testbit x i then Some i else bsf_from n' (i + 1) x
  end.
Definition bsf (x : Z) : option Z := bsf_from 32 0 x.

(** The destination register of [bsfl] is undefined for a zero operand: it is
    the argument [junk]. *)
Definition ffs (junk x : Z) : Z := default junk (bsf x).
Definition ffc (junk x : Z) : Z := default junk (bsf (not32 x)).
Definition frs (x : Z) : Z := if x =? 0 then -1 else Z.log2 x.

#[global] Arguments ffs : simpl never.
#[global] Arguments ffc : simpl never.
#[global] Arguments frs : simpl never.

(** ** Lemmas *)
Lemma not32_testbit x i : 0 <= i < 32 → Z.testbit (not32 x) i = negb (Z.testbit x i).
Proof. intros. unfold not32. rewrite u32_testbit, Z.lnot_spec by lia. done. Qed.

Lemma bsf_from_Some n i x j :
  bsf_from n i x = Some j ↔
    i <= j < i + Z.of_nat n ∧ Z.testbit x j = true ∧ (∀ k, i <= k < j → Z.testbit x k = false).
Proof.
  revert i. induction n as [|n IH]; intros i; cbn [bsf_from].
  - split; [done|lia].
  - destruct (Z.testbit x i) eqn:E.
    + split.
      * intros [= <-]. split_and!; try lia; done.
      * intros (?&?&Hk). destruct (decide (i = j)) as [->|]; [done|].
        specialize (Hk i ltac:(lia)). congruence.
    + rewrite IH. split; intros (?&Hj&Hk); (split; [|split; [done|]]).
      * lia.
      * intros k ?. destruct (decide (k = i)) as [->|]; [done|]. apply Hk. lia.
      * assert (i ≠ j) by congruence. lia.
      * intros k ?. apply Hk. lia.
Qed.

Lemma bsf_from_None n i x :
  bsf_from n i x = None ↔ (∀ k, i <= k < i + Z.of_nat n → Z.testbit x k = false).
Proof.
  revert i. induction n as [|n IH]; intros i; cbn [bsf_from].
  - split; [lia|done].
  - destruct (Z.testbit x i) eqn:E.
    + split; [done|]. intros Hk. specialize (Hk i ltac:(lia)). congruence.
    + rewrite IH. split; intros Hk k ?.
      * destruct (decide (k = i)) as [->|]; [done|]. apply Hk. lia.
      * apply Hk. lia.
Qed.

(** A word that is not all ones has a lowest clear bit, and [ffc] finds it. *)
Lemma ffc_spec junk x :
  0 <= x < 2 ^ 32 → x ≠ 2 ^ 32 - 1 →
  0 <= ffc junk x < 32 ∧ Z.testbit x (ffc junk x) = false ∧
  (∀ k, 0 <= k < ffc junk x → Z.testbit x k = true).
Proof.
  intros Hx Hne. unfold ffc, bsf. destruct (bsf_from 32 0 (not32 x)) as [j|] eqn:E; cbn.
  - apply bsf_from_Some in E as (Hj&Hb&Hk). split_and!; [lia..| |].
    + rewrite not32_testbit in Hb by lia. by destruct (Z.testbit x j).
    + intros k ?. specialize (Hk k). rewrite not32_testbit in Hk by lia.
      destruct (Z.testbit x k); [done|]. by specialize (Hk ltac:(lia)).
  - exfalso. apply Hne. rewrite bsf_from_None in E. apply Z.bits_inj'. intros n Hn.
    change (2 ^ 32 - 1) with (Z.ones 32). destruct (decide (n < 32)).
    + rewrite Z.ones_spec_low by lia. specialize (E n).
      rewrite not32_testbit in E by lia. destruct (Z.testbit x n); [done|].
      by specialize (E ltac:(lia)).
    + rewrite Z.ones_spec_high by lia. apply (testbit_small _ 32); lia.
Qed.

Lemma ones_testbit i : 0 <= i < 32 → Z.testbit (2 ^ 32 - 1) i = true.
Proof. intros. change (2 ^ 32 - 1) with (Z.ones 32). apply Z.ones_spec_low. lia. Qed.

Lemma frs_spec x :
  0 < x < 2 ^ 32 →
  0 <= frs x < 32 ∧ Z.testbit x (frs x) = true ∧
  (∀ k, frs x < k → Z.testbit x k = false).
Proof.
  intros Hx. unfold frs. rewrite (proj2 (Z.eqb_neq _ _)) by lia. split_and!.
  - apply Z.log2_nonneg.
  - apply Z.log2_lt_pow2; lia.
  - apply Z.bit_log2. lia.
  - intros k ?. apply Z.bits_above_log2; lia.
Qed.

Lemma setbit_range x i n : 0 <= i < n → 0 <= x < 2 ^ n → 0 <= Z.setbit x i < 2 ^ n.
Proof.
  intros Hi Hx. rewrite Z.setbit_spec'. split.
  - apply Z.lor_nonneg. split; [lia|apply Z.pow_nonneg; lia].
  - destruct (decide (Z.lor x (2 ^ i) = 0)) as [->|]; [lia|].
    apply Z.log2_lt_pow2; [|rewrite Z.log2_lor, Z.log2_pow2 by (lia || apply Z.pow_nonneg; lia)].
    + assert (0 <= Z.lor x (2 ^ i)); [|lia].
      apply Z.lor_nonneg. split; [lia|apply Z.pow_nonneg; lia].
    + apply Z.max_lub_lt; [|lia].
      destruct (decide (x = 0)) as [->|]; [cbn; lia|]. apply Z.log2_lt_pow2; lia.
Qed.

Lemma clearbit_range x i n : 0 <= i < n → 0 <= x < 2 ^ n → 0 <= Z.clearbit x i < 2 ^ n.
Proof.
  intros Hi Hx. rewrite Z.clearbit_spec'.
  assert (0 <= Z.ldiff x (2 ^ i)) by (apply Z.ldiff_nonneg; lia). split; [done|].
  destruct (decide (Z.ldiff x (2 ^ i) = 0)) as [->|]; [lia|].
  apply Z.log2_lt_pow2; [lia|].
  apply Z.le_lt_trans with (Z.log2 x).
  - destruct (decide (Z.log2 x < Z.log2 (Z.ldiff x (2 ^ i)))) as [Hlt|]; [|lia]. exfalso.
    assert (Hb := Z.bit_log2 (Z.ldiff x (2 ^ i)) ltac:(lia)).
    rewrite Z.ldiff_spec, Z.bits_above_log2 in Hb by lia. done.
  - destruct (decide (x = 0)) as [->|]; [cbn; lia|]. apply Z.log2_lt_pow2; lia.
Qed.

Lemma setbit_testbit x i j : 0 <= i → 0 <= j →
  Z.testbit (Z.setbit x i) j = (Z.testbit x j || bool_decide (i = j)).
Proof.
  intros. rewrite Z.setbit_eqb by lia. rewrite orb_comm. f_equal.
  destruct (Z.eqb_spec i j); symmetry; [by apply bool_decide_true|by apply bool_decide_false].
Qed.

Lemma clearbit_testbit x i j : 0 <= i → 0 <= j →
  Z.testbit (Z.clearbit x i) j = (Z.testbit x j && bool_decide (i ≠ j)).
Proof.
  intros. rewrite Z.clearbit_eqb by lia. f_equal.
  destruct (Z.eqb_spec i j); cbn; symmetry;
    [apply bool_decide_false; tauto|by apply bool_decide_true].
Qed.
