(* ===== verification/Id.v ===== *)
(** * Identifier allocation

    Models microkernel/kernel/id.c: a page-sized bitmap and a hint per kind of
    identifier (pid, tid, timer id).  [used m i] reads the bitmap as a set; the
    theorems show that [alloc_id] returns an unused identifier and marks
    exactly it, that [dealloc_id] unmarks exactly one, and what happens when
    the identifiers are exhausted. *)

From S2P Require Import Prelude Bits.

Definition MAX_INT_VAL : Z := 0xFFFFFFFF.
Definition BITS_PER_INT : Z := 32.
Definition FIRST_USER_PID : Z := 500.
Definition FIRST_USER_TID : Z := 500.

(** One bitmap (1024 words of a 4096-byte page) and its hint. *)
Record idmap := mk_idmap { bitmap : list Z; hint : Z }.

(** [bitmap[k]]; an index outside the page faults. *)
Definition word (k : Z) (bm : list Z) : option Z :=
  if decide (0 <= k) then bm !! Z.to_nat k else None.

(** [set_bit(&bitmap[k], index)] and [clear_bit]: the bit string instructions
    address the word [index / 32] words further. *)
Definition update_bit (f : Z → Z → option Z) (k index : Z) (bm : list Z) : option (list Z) :=
  let k' := k + index / 32 in
  w ← word k' bm;
  w' ← f w (index mod 32);
  Some (<[Z.to_nat k' := w']> bm).

(** [while(bitmap[hint] == MAX_INT_VAL) hint++;] *)
Fixpoint skip_full (fuel : nat) (h : Z) : M idmap Z :=
  match fuel with
  | O => spin
  | S fuel' =>
      bm ← gets bitmap;
      w ← must (word h bm);
      if w =? MAX_INT_VAL then skip_full fuel' (h + 1) else mret h
  end.

(** One more than the number of words: a read past the page faults before the
    fuel runs out. *)
Definition id_fuel : nat := 1025.

(** The tail of [alloc_id], once the word [h] has been chosen. *)
Definition take_bit (junk h : Z) : M idmap Z :=
  bm ← gets bitmap;
  w ← must (word h bm);
  let index := ffc junk w in
  bm' ← must (update_bit set_bit h index bm);
  modify (λ _, mk_idmap bm' h);;
  mret (s32 (index + h * BITS_PER_INT)).

Definition alloc_id (junk : Z) : M idmap Z :=
  h ← gets hint;
  bm ← gets bitmap;
  w ← must (word h bm);
  if w =? MAX_INT_VAL then
    h ← skip_full id_fuel 0;
    if bool_decide (h > Z.quot 4096 BITS_PER_INT) then mret (-1)
    else take_bit junk h
  else take_bit junk h.

Definition dealloc_id (id : Z) : M idmap unit :=
  let h := Z.quot id BITS_PER_INT in
  let index := Z.rem id BITS_PER_INT in
  bm ← gets bitmap;
  bm' ← must (update_bit clear_bit h index bm);
  modify (λ _, mk_idmap bm' h).

(** The three bitmaps of the kernel. *)
Record ids := mk_ids { pids : idmap; tids : idmap; timerids : idmap }.
#[global] Instance eta_ids : Settable ids :=
  λ x, mk_ids (pids x) (tids x) (timerids x).

(** [memset(bitmap, 0, 4096)] on each of the three pages. *)
Definition id_init : ids :=
  let page := mk_idmap (replicate 1024 0) 0 in mk_ids page page page.

(** Run an operation of one bitmap on the kernel's three. *)
Definition within {A} (get : ids → idmap) (put : idmap → ids → ids)
    (m : M idmap A) : M ids A :=
  λ s, match m (get s) with
       | Ret a t => Ret a (put t s)
       | Fault => Fault
       | Halt => Halt
       | Spin => Spin
       end.

Definition alloc_pid (junk : Z) : M ids Z :=
  i ← within pids (λ t s, s <| pids := t |>) (alloc_id junk); mret (s32 (FIRST_USER_PID + i)).
Definition alloc_tid (junk : Z) : M ids Z :=
  i ← within tids (λ t s, s <| tids := t |>) (alloc_id junk); mret (s32 (FIRST_USER_TID + i)).
Definition alloc_timerid (junk : Z) : M ids Z :=
  i ← within timerids (λ t s, s <| timerids := t |>) (alloc_id junk); mret (s32 (1 + i)).
Definition dealloc_pid (pid : Z) : M ids unit :=
  within pids (λ t s, s <| pids := t |>) (dealloc_id (s32 (pid - FIRST_USER_PID))).
Definition dealloc_tid (tid : Z) : M ids unit :=
  within tids (λ t s, s <| tids := t |>) (dealloc_id (s32 (tid - FIRST_USER_TID))).
Definition dealloc_timerid (timer_id : Z) : M ids unit :=
  within timerids (λ t s, s <| timerids := t |>) (dealloc_id (s32 (timer_id - 1))).

(** ** The bitmap as a set *)

(** The identifier [i] is marked. *)
Definition used (m : idmap) (i : Z) : Prop :=
  ∃ w, word (i / 32) (bitmap m) = Some w ∧ Z.testbit w (i mod 32) = true.

(** Words 0 to 128 hold the identifiers that [alloc_id] hands out. *)
Definition id_words : Z := 129.
Definition id_max : Z := id_words * 32.

Record id_wf (m : idmap) : Prop := {
  wf_len : length (bitmap m) = 1024%nat;
  wf_word : ∀ k w, word k (bitmap m) = Some w → 0 <= w < 2 ^ 32;
  wf_high : ∀ k w, id_words <= k → word k (bitmap m) = Some w → w = 0;
  wf_hint : 0 <= hint m < id_words;
}.

Lemma word_Some m k : id_wf m → 0 <= k < 1024 → ∃ w, word k (bitmap m) = Some w.
Proof.
  intros Hwf Hk. unfold word. rewrite decide_True by lia.
  apply lookup_lt_is_Some_2. rewrite (wf_len _ Hwf). lia.
Qed.

Lemma word_insert k k' w bm :
  0 <= k → (Z.to_nat k < length bm)%nat →
  word k' (<[Z.to_nat k := w]> bm) = if decide (k' = k) then Some w else word k' bm.
Proof.
  intros Hk Hlen. unfold word. repeat case_decide; subst; try lia; try done.
  - rewrite list_lookup_insert_eq by lia. done.
  - rewrite list_lookup_insert_ne by lia. done.
Qed.

(** Writing the word [k] of a well-formed map. *)
Lemma id_wf_insert m k w h :
  id_wf m → 0 <= k < id_words → 0 <= w < 2 ^ 32 → 0 <= h < id_words →
  id_wf (mk_idmap (<[Z.to_nat k := w]> (bitmap m)) h).
Proof.
  intros Hwf Hk Hw Hh. pose proof (wf_len _ Hwf). unfold id_words in *.
  split; cbn; [by rewrite length_insert| | |done].
  - intros k' w'. rewrite word_insert by lia. case_decide; [naive_solver lia|apply (wf_word _ Hwf)].
  - intros k' w' ?. rewrite word_insert by lia.
    case_decide; [unfold id_words in *; lia|by apply (wf_high _ Hwf)].
Qed.

Lemma used_insert m k w h j :
  id_wf m → 0 <= k < id_words →
  used (mk_idmap (<[Z.to_nat k := w]> (bitmap m)) h) j ↔
    if decide (j / 32 = k) then Z.testbit w (j mod 32) = true else used m j.
Proof.
  intros Hwf Hk. pose proof (wf_len _ Hwf). unfold used, id_words in *. cbn.
  rewrite word_insert by lia. case_decide; naive_solver.
Qed.

Lemma used_split j k i : 0 <= i < 32 → (j / 32 = k ∧ j mod 32 = i ↔ j = k * 32 + i).
Proof. intros. split; intros; [|split]; Z.div_mod_to_equations; lia. Qed.

Lemma take_bit_spec junk m h w :
  id_wf m → 0 <= h < id_words → word h (bitmap m) = Some w → w ≠ MAX_INT_VAL →
  ∃ r m', take_bit junk h m = Ret r m' ∧ id_wf m' ∧ 0 <= r < id_max ∧
    ¬ used m r ∧ (∀ j, used m' j ↔ used m j ∨ j = r).
Proof.
  intros Hwf Hh Hw Hne. pose proof (wf_word _ Hwf _ _ Hw) as Hr.
  destruct (ffc_spec junk w Hr) as (Hi&Hb&_); [done|]. set (i := ffc junk w) in *.
  unfold take_bit, mbind, M_bind, gets. rewrite Hw. cbn -[id_words]. fold i.
  unfold update_bit. rewrite Z.div_small, Z.add_0_r, Hw, Z.mod_small by lia. cbn.
  unfold set_bit. rewrite bool_decide_true by lia. cbn.
  unfold id_max, id_words, BITS_PER_INT in *.
  rewrite s32_id by lia. eexists _, _. split; [done|].
  assert (Hu : ∀ j, used (mk_idmap (<[Z.to_nat h:=Z.setbit w i]> (bitmap m)) h) j ↔
                    used m j ∨ j = i + h * 32).
  { intros j. rewrite used_insert by done.
    pose proof (used_split j h i Hi) as Hs. pose proof (Z.mod_pos_bound j 32 ltac:(lia)).
    case_decide as Ej.
    - rewrite setbit_testbit by lia. unfold used. rewrite Ej, Hw.
      destruct (Z.testbit w (j mod 32)) eqn:Et; cbn; [split; [eauto|done]|].
      rewrite bool_decide_eq_true. split.
      + intros ->. right. rewrite Z.add_comm. by apply Hs.
      + intros [(?&?&?)| ->]; [congruence|]. symmetry. apply Hs. lia.
    - split; [tauto|]. intros [?| ->]; [done|]. destruct Ej. apply Hs. lia. }
  split_and!; [|lia..| |done].
  - apply id_wf_insert; [done..|apply setbit_range; lia|done].
  - intros (w'&Hw'&Hb'). destruct (proj2 (used_split (i + h * 32) h i Hi)) as [E1 E2]; [lia|].
    rewrite E1, Hw in Hw'. rewrite E2 in Hb'. congruence.
Qed.

(** The scan stops at the first word that is not full; word [id_words] is
    always one. *)
Lemma skip_full_spec m fuel h :
  id_wf m → 0 <= h <= id_words → id_words - h < Z.of_nat fuel →
  ∃ h' w, skip_full fuel h m = Ret h' m ∧ h <= h' <= id_words ∧
    word h' (bitmap m) = Some w ∧ w ≠ MAX_INT_VAL ∧
    (∀ k, h <= k < h' → word k (bitmap m) = Some MAX_INT_VAL).
Proof.
  revert h. induction fuel as [|fuel IH]; intros h Hwf Hh Hf; [lia|].
  destruct (word_Some m h Hwf) as [w Hw]; [unfold id_words in *; lia|].
  cbn. unfold mbind, M_bind, gets. rewrite Hw. cbn.
  destruct (Z.eqb_spec w MAX_INT_VAL) as [->|Hne].
  - assert (h ≠ id_words).
    { intros ->. apply (wf_high _ Hwf) in Hw; [|lia]. done. }
    destruct (IH (h + 1)) as (h'&w&->&?&?&?&Hk); [done|lia|lia|].
    exists h', w. split_and!; [done|lia|lia|done|done|].
    intros k ?. destruct (decide (k = h)) as [->|]; [done|]. apply Hk. lia.
  - exists h, w. split_and!; [done|lia|lia|done|done|lia].
Qed.

Lemma alloc_id_cases junk m :
  id_wf m →
  ∃ r m', alloc_id junk m = Ret r m' ∧ id_wf m' ∧
    ((0 <= r < id_max ∧ ¬ used m r ∧ (∀ j, used m' j ↔ used m j ∨ j = r)) ∨
     (r = -1 ∧ m' = m ∧ ∀ j, 0 <= j < id_max → used m j)).
Proof.
  intros Hwf. pose proof (wf_hint _ Hwf) as Hh.
  destruct (word_Some m (hint m) Hwf) as [w Hw]; [unfold id_words in *; lia|].
  unfold alloc_id. unfold mbind at 1, M_bind at 1, gets at 1.
  unfold mbind at 1, M_bind at 1, gets at 1. rewrite Hw.
  unfold mbind at 1, M_bind at 1. cbn [must mret M_ret].
  destruct (Z.eqb_spec w MAX_INT_VAL) as [->|Hne].
  - destruct (skip_full_spec m id_fuel 0 Hwf) as (h'&w'&E&Hb&Hw'&Hne&Hk);
      [unfold id_words; lia|unfold id_words, id_fuel; lia|].
    rewrite (bind_Ret _ _ _ _ _ E). change (Z.quot 4096 BITS_PER_INT) with 128.
    case_bool_decide as Hgt.
    + exists (-1), m. split_and!; [done|done|right]. split_and!; [done..|].
      intros j Hj. exists MAX_INT_VAL. split.
      * apply Hk. unfold id_max, id_words in *. Z.div_mod_to_equations. lia.
      * apply ones_testbit. apply Z.mod_pos_bound. lia.
    + destruct (take_bit_spec junk m h' w') as (r&m'&Et&?&?&?&?); [done|unfold id_words; lia|done..|].
      exists r, m'. rewrite Et. auto 8.
  - destruct (take_bit_spec junk m (hint m) w) as (r&m'&Et&?&?&?&?); [done..|].
    exists r, m'. rewrite Et. auto 8.
Qed.

(** ** Properties of id.c *)

Lemma dealloc_id_spec m id :
  id_wf m → 0 <= id < id_max →
  ∃ m', dealloc_id id m = Ret tt m' ∧ id_wf m' ∧ hint m' = id / 32 ∧
    (∀ j, used m' j ↔ used m j ∧ j ≠ id).
Proof.
  intros Hwf Hid. unfold id_max, id_words in Hid.
  assert (Hk : 0 <= id / 32 < id_words) by (unfold id_words; Z.div_mod_to_equations; lia).
  pose proof (Z.mod_pos_bound id 32 ltac:(lia)) as Hm.
  destruct (word_Some m (id / 32) Hwf) as [w Hw]; [unfold id_words in *; lia|].
  unfold dealloc_id, mbind, M_bind, gets, BITS_PER_INT, update_bit. cbn.
  rewrite Z.quot_div_nonneg, Z.rem_mod_nonneg by lia.
  rewrite (Z.div_small (id mod 32)), Z.add_0_r, Hw, (Z.mod_small (id mod 32)) by lia. cbn.
  unfold clear_bit. rewrite bool_decide_true by lia. cbn.
  eexists. split; [done|]. split_and!; [|done|].
  - apply id_wf_insert; [done..| |done]. apply clearbit_range; [lia|by eapply (wf_word _ Hwf)].
  - intros j. rewrite used_insert by done.
    pose proof (Z.mod_pos_bound j 32 ltac:(lia)) as Hj.
    pose proof (used_split j (id / 32) (id mod 32) Hm) as Hs.
    pose proof (Z.div_mod id 32 ltac:(lia)) as Hd.
    case_decide as Ej.
    + rewrite clearbit_testbit by lia. unfold used. rewrite Ej, Hw.
      rewrite andb_true_iff, bool_decide_eq_true. split.
      * intros [? Hne]. split; [eauto|]. intros ->. by apply Hne.
      * intros [(?&[= <-]&?) Hne]. split; [done|]. intros E. apply Hne.
        rewrite (proj1 Hs); lia.
    + split; [|tauto]. intros Hu. split; [done|]. intros ->. done.
Qed.

(** C5. [alloc_id] refines allocation from a set: on a well-formed bitmap it
    always returns; either the result is an identifier that was not in use and
    the identifiers in use afterwards are exactly the former ones plus it, or
    it is -1, nothing changed and every identifier is in use. *)
Theorem alloc_id_refines junk m :
  id_wf m →
  ∃ r m', alloc_id junk m = Ret r m' ∧ id_wf m' ∧
    ((0 <= r < id_max ∧ ¬ used m r ∧ (∀ j, used m' j ↔ used m j ∨ j = r)) ∨
     (r = -1 ∧ m' = m ∧ ∀ j, 0 <= j < id_max → used m j)).
Proof. apply alloc_id_cases. Qed.

(** [dealloc_id] refines removal from a set: for an identifier in range it
    always returns, the identifiers in use afterwards are the former ones
    without it, and the hint points at the word it freed. *)
Theorem dealloc_id_refines m id :
  id_wf m → 0 <= id < id_max →
  ∃ m', dealloc_id id m = Ret tt m' ∧ id_wf m' ∧ hint m' = id / 32 ∧
    (∀ j, used m' j ↔ used m j ∧ j ≠ id).
Proof. apply dealloc_id_spec. Qed.

(** Exhaustion is not reported to the callers: when every identifier is in
    use, [alloc_pid] and [alloc_tid] return 499 and [alloc_timerid] returns 0,
    values outside the range of allocated identifiers that no caller tests
    for, and the state is unchanged. *)
Theorem alloc_exhausted junk s :
  id_wf (pids s) → id_wf (tids s) → id_wf (timerids s) →
  (∀ j, 0 <= j < id_max → used (pids s) j ∧ used (tids s) j ∧ used (timerids s) j) →
  alloc_pid junk s = Ret 499 s ∧ alloc_tid junk s = Ret 499 s ∧ alloc_timerid junk s = Ret 0 s.
Proof.
  intros Wp Wt Wm Hall.
  assert (Hex : ∀ m, id_wf m → (∀ j, 0 <= j < id_max → used m j) → alloc_id junk m = Ret (-1) m).
  { intros m W Hm. destruct (alloc_id_cases junk m W) as (r&m'&E&_&[(Hr&Hn&_)|(->&->&_)]);
      [|done]. exfalso. apply Hn, Hm, Hr. }
  unfold alloc_pid, alloc_tid, alloc_timerid, within, mbind, M_bind.
  rewrite !Hex by (done || intros j Hj; apply Hall; done).
  by destruct s.
Qed.

(** ** The hypotheses at work *)
Definition fresh_map : idmap := pids id_init.
Definition full_map : idmap := mk_idmap (replicate 129 MAX_INT_VAL ++ replicate 895 0) 0.
Definition full_ids : ids := mk_ids full_map full_map full_map.

(** Well-formedness as a computation. *)
Definition id_wf_b (m : idmap) : bool :=
  bool_decide (length (bitmap m) = 1024%nat) &&
  forallb (λ w, (0 <=? w) && (w <? 2 ^ 32)) (bitmap m) &&
  forallb (λ w, w =? 0) (drop 129 (bitmap m)) &&
  bool_decide (0 <= hint m < id_words).

Lemma id_wf_b_sound m : id_wf_b m = true → id_wf m.
Proof.
  unfold id_wf_b. rewrite !andb_true_iff, !bool_decide_eq_true, !forallb_forall.
  intros [[[Hl Hr] Hz] Hh]. split; [done| | |done].
  - intros k w Hw. unfold word in Hw. case_decide; [|done].
    apply list_elem_of_lookup_2, list_elem_of_In in Hw. specialize (Hr _ Hw). lia.
  - intros k w Hk Hw. unfold word, id_words in *. case_decide; [|done].
    assert (w ∈ drop 129 (bitmap m)) as Hin%list_elem_of_In.
    { apply list_elem_of_lookup. exists (Z.to_nat k - 129)%nat. rewrite lookup_drop, <- Hw.
      f_equal. lia. }
    specialize (Hz _ Hin). lia.
Qed.

Lemma alloc_id_refines_witness :
  ∃ r m', alloc_id 0 fresh_map = Ret r m' ∧ id_wf m' ∧
    ((0 <= r < id_max ∧ ¬ used fresh_map r ∧ (∀ j, used m' j ↔ used fresh_map j ∨ j = r)) ∨
     (r = -1 ∧ m' = fresh_map ∧ ∀ j, 0 <= j < id_max → used fresh_map j)).
Proof. apply (alloc_id_refines 0 fresh_map). apply id_wf_b_sound. vm_compute. reflexivity. Defined.

Lemma dealloc_id_refines_witness :
  ∃ m', dealloc_id 33 full_map = Ret tt m' ∧ id_wf m' ∧ hint m' = 1 ∧
    (∀ j, used m' j ↔ used full_map j ∧ j ≠ 33).
Proof.
  apply (dealloc_id_refines full_map 33).
  - apply id_wf_b_sound. vm_compute. reflexivity.
  - unfold id_max, id_words. lia.
Defined.

Lemma alloc_exhausted_witness :
  alloc_pid 0 full_ids = Ret 499 full_ids ∧ alloc_tid 0 full_ids = Ret 499 full_ids ∧
  alloc_timerid 0 full_ids = Ret 0 full_ids.
Proof.
  apply (alloc_exhausted 0 full_ids); [apply id_wf_b_sound; vm_compute; reflexivity..|].
  intros j Hj. cbn. assert (used full_map j); [|tauto].
  exists MAX_INT_VAL. split; [|apply ones_testbit, Z.mod_pos_bound; lia].
  unfold id_max, id_words in Hj. unfold word.
  rewrite decide_True by (Z.div_mod_to_equations; lia).
  unfold full_map. cbn [bitmap]. rewrite lookup_app_l; [apply lookup_replicate_2|];
    rewrite ?length_replicate; Z.div_mod_to_equations; lia.
Defined.
