(* ===== verification/Hash.v ===== *)
(** * Hash chains

    The hash tables of the kernel (thread.c, process.c, sync.c, irq.c,
    vm_page.c) are arrays of buckets; a bucket points to a chain of structures
    linked through a [next] member and ended by NULL.  This file has the
    invariant of such a chain and the lemmas its users share.  The routines
    that walk the chains are in the files of the components. *)

From S2P Require Import Prelude.

(** [hash_fn(x)], HASH_SIZE = 4096 bytes of 4-byte pointers *)
Definition hash_fn (x : Z) : Z := Z.land (Z.lxor (Z.shiftr x 8) x) (Z.quot 4096 4 - 1).

Lemma hash_fn_range x : 0 <= hash_fn x < 1024.
Proof.
  unfold hash_fn. change (Z.quot 4096 4 - 1) with (Z.ones 10).
  rewrite Z.land_ones by lia. apply Z.mod_pos_bound. lia.
Qed.

Section Chain.
Context {N : Type} (nxt : N → Z).
Implicit Types (m : gmap Z N) (l : list Z) (p x : Z) (n : N).

(** From [p] the links run through [l] to NULL. *)
Fixpoint chain m p l : Prop :=
  match l with
  | [] => p = 0
  | x :: l' => p = x ∧ x ≠ 0 ∧ match m !! x with Some n => chain m (nxt n) l' | None => False end
  end.

#[global] Instance chain_dec m p l : Decision (chain m p l).
Proof.
  revert p. induction l as [|x l IH]; intros p; cbn; [apply _|].
  destruct (m !! x); apply _.
Defined.

Lemma chain_nil m p : chain m p [] ↔ p = 0.
Proof. done. Qed.

Lemma chain_cons m p x l :
  chain m p (x :: l) ↔ p = x ∧ x ≠ 0 ∧ ∃ n, m !! x = Some n ∧ chain m (nxt n) l.
Proof. cbn. destruct (m !! x); naive_solver. Qed.

Lemma chain_0 m l : chain m 0 l → l = [].
Proof. destruct l; [done|]. cbn. naive_solver. Qed.

Lemma chain_elem m p l x : chain m p l → x ∈ l → x ≠ 0 ∧ is_Some (m !! x).
Proof.
  revert p. induction l as [|y l IH]; intros p; [by intros _ ?%elem_of_nil|].
  rewrite chain_cons. intros (->&?&n&?&Hl) [->|Hx]%elem_of_cons; eauto.
Qed.

(** A change outside the chain, or one that keeps the links, is not seen. *)
Lemma chain_ext m m' p l :
  (∀ x n, x ∈ l → m !! x = Some n → ∃ n', m' !! x = Some n' ∧ nxt n' = nxt n) →
  chain m p l → chain m' p l.
Proof.
  revert p. induction l as [|x l IH]; intros p Hm; [done|].
  rewrite !chain_cons. intros (->&?&n&E&Hl).
  destruct (Hm x n) as (n'&E'&Hn); [by left|done|].
  split_and!; [done..|]. exists n'. rewrite Hn. split; [done|].
  apply IH; [|done]. intros y k Hy. apply Hm. by right.
Qed.

Lemma chain_insert m p l x n n' :
  m !! x = Some n → nxt n' = nxt n → chain m p l → chain (<[x := n']> m) p l.
Proof.
  intros E Hn. apply chain_ext. intros y k _ Ey.
  destruct (decide (y = x)) as [->|]; [rewrite lookup_insert_eq|rewrite lookup_insert_ne by done];
    naive_solver.
Qed.

Lemma chain_insert_out m p l x n' :
  x ∉ l → chain m p l → chain (<[x := n']> m) p l.
Proof.
  intros Hx. apply chain_ext. intros y k Hy Ey. rewrite lookup_insert_ne by congruence. eauto.
Qed.

Lemma chain_delete_out m p l x :
  x ∉ l → chain m p l → chain (delete x m) p l.
Proof.
  intros Hx. apply chain_ext. intros y k Hy Ey. rewrite lookup_delete_ne by congruence. eauto.
Qed.

(** The chains of a table do not loop: their length is bounded by the number
    of structures, which is the fuel of the walks. *)
Lemma chain_size m p l : chain m p l → NoDup l → (length l <= size m)%nat.
Proof.
  intros Hc ND. rewrite <- size_dom, <- (size_list_to_set (C := gset Z) l) by done.
  apply subseteq_size. intros x Hx%elem_of_list_to_set. apply elem_of_dom.
  by eapply chain_elem.
Qed.

(** The chain up to a member and after it. *)
Lemma chain_app m p l1 x l2 :
  chain m p (l1 ++ x :: l2) → ∃ n, m !! x = Some n ∧ chain m (nxt n) l2 ∧ chain m x (x :: l2).
Proof.
  revert p. induction l1 as [|y l1 IH]; intros p; cbn [app].
  - rewrite chain_cons. intros (->&?&n&E&?). exists n. split_and!; [done..|].
    rewrite chain_cons. eauto.
  - rewrite chain_cons. intros (->&?&n&E&?). eauto.
Qed.

(** Linking the predecessor [y] of [x] to its successor takes [x] out. *)
Lemma chain_unlink m p l1 y x l2 ny nx ny' :
  NoDup (l1 ++ y :: x :: l2) → chain m p (l1 ++ y :: x :: l2) →
  m !! y = Some ny → m !! x = Some nx → nxt ny' = nxt nx →
  chain (<[y := ny']> m) p (l1 ++ y :: l2).
Proof.
  revert p. induction l1 as [|z l1 IH]; intros p; cbn [app].
  - rewrite !NoDup_cons, !chain_cons.
    intros (Hy&_&_) (->&?&n&E&Hc) ?? Hn. rewrite chain_cons in Hc. destruct Hc as (Hx&?&k&E'&Hl). simplify_eq.
    split_and!; [done..|]. exists ny'. rewrite lookup_insert_eq. split; [done|].
    rewrite Hn. apply chain_insert_out; [|done]. intros ?. apply Hy. by right.
  - rewrite NoDup_cons, !chain_cons. intros (Hz&ND) (->&?&n&E&Hl) ???.
    split_and!; [done..|]. exists n. rewrite lookup_insert_ne by set_solver. split; [done|].
    by apply IH.
Qed.
End Chain.

(** ** Tables *)

(** A bucket of a table; an absent bucket is NULL. *)
Definition bucket (tbl : gmap Z Z) (h : Z) : Z := default 0 (tbl !! h).
(** The members of a bucket, as a list. *)
Definition chain_of (tb : gmap Z (list Z)) (h : Z) : list Z := default [] (tb !! h).
Definition hashed (tb : gmap Z (list Z)) (x : Z) : Prop := ∃ h, x ∈ chain_of tb h.

Lemma chain_of_insert tb h l h' :
  chain_of (<[h := l]> tb) h' = if decide (h' = h) then l else chain_of tb h'.
Proof.
  unfold chain_of. case_decide; subst; [by rewrite lookup_insert_eq|by rewrite lookup_insert_ne].
Qed.
Lemma bucket_insert tbl h v h' :
  bucket (<[h := v]> tbl) h' = if decide (h' = h) then v else bucket tbl h'.
Proof.
  unfold bucket. case_decide; subst; [by rewrite lookup_insert_eq|by rewrite lookup_insert_ne].
Qed.
Lemma list_middle_pred {A} (l1 : list A) x l2 :
  l1 = [] ∨ (∃ l y, l1 = l ++ [y] ∧ l1 ++ x :: l2 = l ++ y :: x :: l2).
Proof.
  destruct (list_snoc_cases l1) as [->|(l&y&->)]; [by left|].
  right. exists l, y. by rewrite <- app_assoc.
Qed.

Section Table.
Context {N : Type} (nxt key : N → Z).
Implicit Types (m : gmap Z N) (B : gmap Z Z) (tb : gmap Z (list Z)) (x h : Z) (n : N).

(** Bucket [h] heads a chain of the structures [chain_of tb h], all of which
    have the key [h]. *)
Record table m B tb : Prop := {
  tab_null : m !! 0 = None;
  tab_chain : ∀ h, chain nxt m (bucket B h) (chain_of tb h);
  tab_NoDup : ∀ h, NoDup (chain_of tb h);
  tab_key : ∀ h x, x ∈ chain_of tb h → ∃ n, m !! x = Some n ∧ key n = h }.

Lemma tab_bucket m B tb h x n :
  table m B tb → x ∈ chain_of tb h → m !! x = Some n → h = key n.
Proof. intros HI Hx E. destruct (tab_key _ _ _ HI _ _ Hx) as (n'&E'&?). by simplify_eq. Qed.

Lemma tab_not_null m B tb x n : table m B tb → m !! x = Some n → x ≠ 0.
Proof. intros HI E ->. by rewrite (tab_null _ _ _ HI) in E. Qed.

(** A structure whose link and key are kept may change. *)
Lemma tab_upd m B tb x n n' :
  table m B tb → m !! x = Some n → nxt n' = nxt n → key n' = key n → table (<[x := n']> m) B tb.
Proof.
  intros HI E En Et. split.
  - rewrite lookup_insert_ne; [apply HI|]. by eapply tab_not_null.
  - intros h. eapply chain_insert; [done..|]. apply HI.
  - apply HI.
  - intros h y Hy. destruct (tab_key _ _ _ HI _ _ Hy) as (k&Ey&?).
    destruct (decide (y = x)) as [->|]; [|rewrite lookup_insert_ne by done; eauto].
    simplify_eq. exists n'. by rewrite lookup_insert_eq, Et.
Qed.

(** Structures whose links and keys are the same hold the same table. *)
Lemma tab_ext m m' B tb :
  (∀ x, (λ n, (nxt n, key n)) <$> m' !! x = (λ n, (nxt n, key n)) <$> m !! x) →
  table m B tb → table m' B tb.
Proof.
  intros Hm HI.
  assert (Hs : ∀ x n, m !! x = Some n → ∃ n', m' !! x = Some n' ∧ nxt n' = nxt n ∧ key n' = key n).
  { intros x n E. specialize (Hm x). rewrite E in Hm. destruct (m' !! x) as [n'|]; [|done].
    exists n'. cbn in Hm. naive_solver. }
  split.
  - specialize (Hm 0). rewrite (tab_null _ _ _ HI) in Hm. by destruct (m' !! 0).
  - intros h. eapply chain_ext; [|apply HI]. intros x n _ E. destruct (Hs x n E) as (n'&?&?&_). eauto.
  - apply HI.
  - intros h x Hx. destruct (tab_key _ _ _ HI _ _ Hx) as (n&E&<-). destruct (Hs x n E) as (n'&?&_&?). eauto.
Qed.

(** A structure that is not in the table may change or go. *)
Lemma tab_out m B tb x n :
  table m B tb → ¬ hashed tb x → x ≠ 0 → table (<[x := n]> m) B tb.
Proof.
  intros HI Hn Hx. assert (∀ h, x ∉ chain_of tb h) as Hnh by (intros h ?; apply Hn; by exists h).
  split.
  - rewrite lookup_insert_ne by done. apply HI.
  - intros h. by apply chain_insert_out; [|apply HI].
  - apply HI.
  - intros h y Hy. rewrite lookup_insert_ne by (intros ->; by eapply Hnh). by apply (tab_key _ _ _ HI).
Qed.
Lemma tab_fresh m B tb x : table m B tb → m !! x = None → ¬ hashed tb x.
Proof. intros HI E [h Hh]. destruct (tab_key _ _ _ HI _ _ Hh) as (?&?&_). congruence. Qed.
Lemma tab_delete m B tb x : table m B tb → ¬ hashed tb x → table (delete x m) B tb.
Proof.
  intros HI Hn. assert (∀ h, x ∉ chain_of tb h) as Hx by (intros h ?; apply Hn; by exists h).
  split.
  - destruct (decide (x = 0)) as [->|]; [by rewrite lookup_delete_eq|].
    rewrite lookup_delete_ne by done. apply HI.
  - intros h. by apply chain_delete_out; [|apply HI].
  - apply HI.
  - intros h y Hy. rewrite lookup_delete_ne by (intros ->; by eapply Hx). by apply (tab_key _ _ _ HI).
Qed.

(** [x->next = bucket; bucket = x] *)
Lemma tab_push m B tb x n h :
  table m B tb → ¬ hashed tb x → x ≠ 0 → key n = h → nxt n = bucket B h →
  table (<[x := n]> m) (<[h := x]> B) (<[h := x :: chain_of tb h]> tb).
Proof.
  intros HI Hn Hx0 <- Hnx. assert (∀ h, x ∉ chain_of tb h) as Hnh by (intros h ?; apply Hn; by exists h).
  split.
  - by rewrite lookup_insert_ne, (tab_null _ _ _ HI).
  - intros h. rewrite bucket_insert, chain_of_insert. case_decide; subst.
    + rewrite chain_cons. split_and!; [done..|]. eexists. rewrite lookup_insert_eq.
      split; [done|]. rewrite Hnx. by apply chain_insert_out; [|apply HI].
    + by apply chain_insert_out; [|apply HI].
  - intros h. rewrite chain_of_insert. case_decide; [|apply HI].
    apply NoDup_cons. split; [done|apply HI].
  - intros h y. rewrite chain_of_insert. case_decide; subst.
    + intros [->|Hy]%elem_of_cons; [rewrite lookup_insert_eq; eauto|].
      rewrite lookup_insert_ne by (intros ->; by eapply Hnh). by apply (tab_key _ _ _ HI).
    + intros Hy. rewrite lookup_insert_ne by (intros ->; by eapply Hnh). by apply (tab_key _ _ _ HI).
Qed.

(** Taking one member out of a bucket; the structures keep their keys. *)
Lemma tab_remove m m' B B' tb h l1 x l2 :
  table m B tb → chain_of tb h = l1 ++ x :: l2 →
  m' !! 0 = None → (∀ y n, m !! y = Some n → ∃ n', m' !! y = Some n' ∧ key n' = key n) →
  chain nxt m' (bucket B' h) (l1 ++ l2) →
  (∀ h', h' ≠ h → chain nxt m' (bucket B' h') (chain_of tb h')) →
  table m' B' (<[h := l1 ++ l2]> tb).
Proof.
  intros HI Hl H0 HT Hc Hc'.
  assert (Hin : ∀ y, y ∈ l1 ++ l2 → y ∈ chain_of tb h) by (intros y; rewrite Hl; set_solver).
  assert (Hh : ∀ h' y, y ∈ chain_of tb h' → ∃ n, m' !! y = Some n ∧ key n = h').
  { intros h' y Hy. destruct (tab_key _ _ _ HI _ _ Hy) as (n&E&<-).
    destruct (HT _ _ E) as (n'&?&<-). eauto. }
  split; [done|..].
  - intros h'. rewrite chain_of_insert. case_decide; subst; auto.
  - intros h'. rewrite chain_of_insert. case_decide; [|apply HI].
    pose proof (tab_NoDup _ _ _ HI h) as ND. rewrite Hl in ND. by apply NoDup_middle in ND as [_ ?].
  - intros h' y. rewrite chain_of_insert. case_decide; subst; auto.
Qed.

Lemma hashed_remove m B tb h x l1 l2 :
  table m B tb → chain_of tb h = l1 ++ x :: l2 →
  ∀ y, hashed (<[h := l1 ++ l2]> tb) y ↔ hashed tb y ∧ y ≠ x.
Proof.
  intros HI Hl y. pose proof (tab_NoDup _ _ _ HI h) as ND. rewrite Hl in ND. apply NoDup_middle in ND as [Hx _].
  assert (Hxh : x ∈ chain_of tb h) by (rewrite Hl; set_solver).
  unfold hashed. setoid_rewrite chain_of_insert. split.
  - intros [h' Hy]. case_decide as Eh.
    + subst. split; [exists h; rewrite Hl; set_solver|]. by intros ->.
    + split; [by exists h'|]. intros ->. apply Eh.
      destruct (tab_key _ _ _ HI _ _ Hy) as (?&?&?), (tab_key _ _ _ HI _ _ Hxh) as (?&?&?). congruence.
  - intros [[h' Hy] Hne]. exists h'. case_decide; subst; [|done]. rewrite Hl in Hy. set_solver.
Qed.

(** *** Deciding the invariant *)
Definition hash_ok m B h (l : list Z) : Prop :=
  chain nxt m (bucket B h) l ∧ NoDup l ∧ Forall (λ x, key <$> m !! x = Some h) l.
Definition table_ok m B tb : Prop :=
  m !! 0 = None ∧ map_Forall (hash_ok m B) tb ∧ map_Forall (λ h p, p = 0 ∨ is_Some (tb !! h)) B.

Lemma table_if_ok m B tb : table_ok m B tb → table m B tb.
Proof.
  intros (H0&Hok&Hb). split; [done|..]; unfold chain_of; intros h.
  - destruct (tb !! h) as [l|] eqn:E; [by apply (Hok h l E)|]. cbn. unfold bucket.
    destruct (B !! h) as [p|] eqn:Ep; [|done].
    destruct (Hb h p Ep) as [->|[? ?]]; [done|congruence].
  - destruct (tb !! h) as [l|] eqn:E; [by apply (Hok h l E)|constructor].
  - intros x Hx. destruct (tb !! h) as [l|] eqn:E; [|by apply elem_of_nil in Hx].
    destruct (Hok h l E) as (_&_&HF). rewrite Forall_forall in HF. specialize (HF x Hx).
    cbn in HF. destruct (m !! x) as [n|]; [|done]. exists n. naive_solver.
Qed.
#[global] Instance hash_ok_dec m B h l : Decision (hash_ok m B h l).
Proof. unfold hash_ok. apply _. Defined.
#[global] Instance table_ok_dec m B tb : Decision (table_ok m B tb).
Proof. unfold table_ok. apply _. Defined.
End Table.
#[global] Typeclasses Opaque hash_ok table_ok.

(** A property of all hashed structures, decided bucket by bucket. *)
Lemma hashed_forall tb (P : Z → Prop) :
  map_Forall (λ _, Forall P) tb → ∀ y, hashed tb y → P y.
Proof.
  intros H y [h Hy]. unfold chain_of in Hy. destruct (tb !! h) as [l|] eqn:E.
  - specialize (H h l E). cbn in *. rewrite Forall_forall in H. by apply H.
  - by apply elem_of_nil in Hy.
Qed.
