(* ===== verification/KState.v ===== *)
(** * The kernel's memory

    The structures of the microkernel's headers as records, and the state the
    components of microkernel/kernel/ share.  A pointer to a structure is its
    address, a positive [Z]; 0 is NULL.  The address of a member is the pair
    of the structure's address and the member ([ptr]); the first member of a
    structure has the address of the structure.  All list heads and link
    members live in one store, [links], accessed by the macros of DList.v. *)

From S2P Require Import Prelude DList Bits Id Hash.

(** ** Addresses *)
Definition ptr : Type := Z * Z.
Definition NULL : ptr := (0, 0).
Definition obj (p : Z) : ptr := (p, 0).
(** [&p->f] *)
Definition fld (f : Z) (p : ptr) : ptr := (p.1, p.2 + f).

(** Members that are list links or list heads, as symbolic offsets.  [threads]
    is the first member of struct process and [thread_list] the first of struct
    thread. *)
Definition F_threads : Z := 0.      (* struct process *)
Definition F_child : Z := 1.
Definition F_proclist : Z := 2.
Definition F_timer : Z := 3.
Definition F_sigqueue : Z := 4.
Definition F_syncs : Z := 5.
Definition F_thread_list : Z := 0.  (* struct thread *)
Definition F_runq : Z := 6.
Definition F_rcvq : Z := 7.
Definition F_sndq : Z := 8.
Definition F_wq : Z := 9.           (* struct sync *)
Definition F_sync_link : Z := 10.
Definition F_queue : Z := 11.       (* struct sigqueue *)
Definition F_tlist : Z := 0.        (* struct timer *)
Definition F_pproc : Z := 12.
Definition F_irq : Z := 13.         (* struct irq *)

(** Global list heads: symbolic bases below every heap address. *)
Definition G_run : Z := -1.         (* runqueue[0].run[] *)
Definition G_tmlist : Z := -2.      (* tmlist *)
Definition G_proclist : Z := -3.    (* sysinfo.proclist *)
Definition G_free : Z := -4.        (* free_page_list[] *)
(** Global structures of the virtual memory system. *)
Definition kernel_map : Z := -10.
Definition kernel_object : Z := -11.
Definition pmap_object : Z := -12.
Definition kernel_vmmap : Z := -13.
Definition kernel_entry : Z := -14.
(** [&pc_irq[i]] *)
Definition pc_irq (i : Z) : Z := -100 - i.
Definition run_head (i : Z) : ptr := (G_run, i).

(** ** struct message (message.h); the unions are their first views *)
Record message := mk_message {
  w3 : Z; w4 : Z; w5 : Z; dummy1 : Z; m_tid : Z; w2 : Z; w1 : Z; dummy : Z; m_flags : Z }.
#[global] Instance eta_message : Settable message := λ x,
  mk_message (w3 x) (w4 x) (w5 x) (dummy1 x) (m_tid x) (w2 x) (w1 x) (dummy x) (m_flags x).
#[global] Instance message_eq : EqDecision message.
Proof. solve_decision. Defined.
Definition msg0 : message := mk_message 0 0 0 0 0 0 0 0 0.

(** ** struct thread_attr and struct thread (thread.h), without its links *)
Record thread_attr := mk_attr {
  attr_flags : Z; attr_prio : Z; attr_stackaddr : Z; attr_stack_size : Z; attr_policy : Z }.
#[global] Instance eta_attr : Settable thread_attr := λ x,
  mk_attr (attr_flags x) (attr_prio x) (attr_stackaddr x) (attr_stack_size x) (attr_policy x).
#[global] Instance attr_eq : EqDecision thread_attr.
Proof. solve_decision. Defined.

(** struct context (asm/context.h) *)
Record context := mk_context { eip : Z; esp : Z; cr3 : Z; irqflag : Z; ctx_handler : Z }.
#[global] Instance eta_context : Settable context := λ x,
  mk_context (eip x) (esp x) (cr3 x) (irqflag x) (ctx_handler x).
#[global] Instance context_eq : EqDecision context.
Proof. solve_decision. Defined.

Record thread := mk_thread {
  t_next : Z;            (* next hash link *)
  waiting : Z;
  tid : Z;
  ctx : context;
  stack : Z;
  states : Z;
  proc : Z;
  attr : thread_attr;
  priority_dyn : Z;
  bound : Z;
  time_slice : Z;
  sched_flag : Z;        (* schedule *)
  exitstat : Z;
  sa_mask : Z;
  sigpending : Z;
  msg : message;
  cpu : Z }.
#[global] Instance eta_thread : Settable thread := λ x,
  mk_thread (t_next x) (waiting x) (tid x) (ctx x) (stack x) (states x) (proc x) (attr x)
    (priority_dyn x) (bound x) (time_slice x) (sched_flag x) (exitstat x) (sa_mask x)
    (sigpending x) (msg x) (cpu x).
#[global] Instance thread_eq : EqDecision thread.
Proof. solve_decision. Defined.
(** [#define schedpolicy attr.policy], [#define priority_stat attr.prio.sched_priority] *)
Definition schedpolicy (t : thread) : Z := attr_policy (attr t).
Definition priority_stat (t : thread) : Z := attr_prio (attr t).

Definition THREAD_RUNNING : Z := 0x01.
Definition THREAD_READY : Z := 0x02.
Definition THREAD_BLOCKED : Z := 0x10.
Definition THREAD_UNINT : Z := Z.lor 0x04 THREAD_BLOCKED.
Definition THREAD_INT : Z := Z.lor 0x08 THREAD_BLOCKED.
Definition SEND_BLOCKED : Z := Z.lor (Z.lor 0x20 THREAD_BLOCKED) THREAD_UNINT.
Definition RECEIVE_BLOCKED : Z := Z.lor (Z.lor 0x40 THREAD_BLOCKED) THREAD_UNINT.
Definition REPLY_BLOCKED : Z := Z.lor (Z.lor 0x80 THREAD_BLOCKED) THREAD_UNINT.
Definition IRQ_WAIT : Z := Z.lor (Z.lor 0x100 THREAD_BLOCKED) THREAD_UNINT.
Definition SYNC_BLOCKED : Z := Z.lor (Z.lor 0x200 THREAD_BLOCKED) THREAD_UNINT.
Definition THREAD_EXITING : Z := 0x400.
Definition PROCESS_EXITING : Z := Z.lor 0x800 THREAD_EXITING.

(** ** struct sigaction, struct process (process.h), without its links *)
Record sigaction_t := mk_sigaction { act_handler : Z; act_mask : Z; act_flags : Z }.
#[global] Instance sigaction_eq : EqDecision sigaction_t.
Proof. solve_decision. Defined.

Record stack_t := mk_stack { ss_sp : Z; ss_size : Z; ss_flags : Z }.
#[global] Instance stack_eq : EqDecision stack_t.
Proof. solve_decision. Defined.

(** struct inodev, struct file and struct fd *)
Record inodev := mk_inodev { inode : Z; device : Z }.
#[global] Instance inodev_eq : EqDecision inodev.
Proof. solve_decision. Defined.
Record file := mk_file { f_access : Z; f_offset : Z; f_ref : Z; vnode : inodev }.
#[global] Instance file_eq : EqDecision file.
Proof. solve_decision. Defined.
Record fd_t := mk_fd {
  fd_max : Z; fd_hint : Z; fd_bitmap : Z; cwd : inodev; cwdstr : list Z;
  fileptr : list Z }.         (* MAX_DEF_FD + 1 words *)
#[global] Instance eta_fd : Settable fd_t := λ x,
  mk_fd (fd_max x) (fd_hint x) (fd_bitmap x) (cwd x) (cwdstr x) (fileptr x).
#[global] Instance fd_eq : EqDecision fd_t.
Proof. solve_decision. Defined.

Record process := mk_process {
  p_map : Z;
  pid : Z;
  uid : Z; euid : Z;
  gid : Z; egid : Z;
  session : Z;
  parent : Z;
  p_next : Z;                 (* hash link *)
  start_time : Z;
  user_time : Z;
  system_time : Z;
  alarm : Z;
  p_flag : Z;
  p_status : Z;
  exit_status : Z;
  action : list sigaction_t;
  p_ss : stack_t;
  sync_next_id : Z;           (* sync.id *)
  p_fd : fd_t }.
#[global] Instance eta_process : Settable process := λ x,
  mk_process (p_map x) (pid x) (uid x) (euid x) (gid x) (egid x) (session x) (parent x)
    (p_next x) (start_time x) (user_time x) (system_time x) (alarm x) (p_flag x) (p_status x)
    (exit_status x) (action x) (p_ss x) (sync_next_id x) (p_fd x).
#[global] Instance process_eq : EqDecision process.
Proof. solve_decision. Defined.

(** ** The structures of the virtual memory system *)
(** struct vm_map (vm_map.h) and struct pmap (asm/pmap.h) *)
Record vmmap := mk_vmmap {
  vmentry : Z; m_pmap : Z; m_size : Z; ref_count : Z; m_start : Z; m_end : Z;
  m_hint : Z; private : Z; m_attr : Z }.
#[global] Instance eta_vmmap : Settable vmmap := λ x,
  mk_vmmap (vmentry x) (m_pmap x) (m_size x) (ref_count x) (m_start x) (m_end x)
    (m_hint x) (private x) (m_attr x).
#[global] Instance vmmap_eq : EqDecision vmmap.
Proof. solve_decision. Defined.
Record pmap_t := mk_pmap { pdbr : Z }.
#[global] Instance pmap_eq : EqDecision pmap_t.
Proof. solve_decision. Defined.

(** struct vm_map_entry (vm_map.h) *)
Record vm_map_entry := mk_entry { e_start : Z; e_end : Z; e_object : Z; e_type : Z; e_attr : Z }.
#[global] Instance eta_entry : Settable vm_map_entry := λ x,
  mk_entry (e_start x) (e_end x) (e_object x) (e_type x) (e_attr x).
#[global] Instance entry_eq : EqDecision vm_map_entry.
Proof. solve_decision. Defined.

(** struct vn_object and struct vm_object (vm_object.h) *)
Record vn_object := mk_vn {
  vn_fd : Z; vn_blk_size : Z; vn_page_size : Z; vn_va : Z; vn_offset : Z; vn_map_type : Z;
  vn_protection : Z; vn_size : Z; vn_pager_id : Z; noload_start : Z; noload_end : Z }.
#[global] Instance eta_vn : Settable vn_object := λ x,
  mk_vn (vn_fd x) (vn_blk_size x) (vn_page_size x) (vn_va x) (vn_offset x) (vn_map_type x)
    (vn_protection x) (vn_size x) (vn_pager_id x) (noload_start x) (noload_end x).
#[global] Instance vn_eq : EqDecision vn_object.
Proof. solve_decision. Defined.
Record vm_object := mk_object {
  ob_ref : Z; ob_npages : Z; ob_size : Z; shadow : Z; ob_attr : Z; ob_vn : vn_object }.
#[global] Instance eta_object : Settable vm_object := λ x,
  mk_object (ob_ref x) (ob_npages x) (ob_size x) (shadow x) (ob_attr x) (ob_vn x).
#[global] Instance object_eq : EqDecision vm_object.
Proof. solve_decision. Defined.

(** struct vm_page (vm_page.h) *)
Record vm_page := mk_page {
  pg_next : Z; pg_base : Z; pg_object : Z; pg_offset : Z; pg_count : Z; pg_flags : Z }.
#[global] Instance eta_page : Settable vm_page := λ x,
  mk_page (pg_next x) (pg_base x) (pg_object x) (pg_offset x) (pg_count x) (pg_flags x).
#[global] Instance page_eq : EqDecision vm_page.
Proof. solve_decision. Defined.

(** ** Timers, locks, signals and interrupts *)
(** struct sigevent and struct siginfo (signal.h), struct timer (timer.h) *)
Record sigevent := mk_sigevent { sigev_notify : Z; sigev_signo : Z; sigev_value : Z }.
#[global] Instance sigevent_eq : EqDecision sigevent.
Proof. solve_decision. Defined.
Record timer := mk_timer {
  timeout : Z;                 (* u64 *)
  nextarm : Z; sigv : sigevent; tm_owner : Z; tm_flag : Z; clkid : Z; timer_id : Z;
  tm_hnext : Z }.              (* hash link *)
#[global] Instance eta_timer : Settable timer := λ x,
  mk_timer (timeout x) (nextarm x) (sigv x) (tm_owner x) (tm_flag x) (clkid x) (timer_id x) (tm_hnext x).
#[global] Instance timer_eq : EqDecision timer.
Proof. solve_decision. Defined.

(** struct sync (sync.h) *)
Record sync := mk_sync { sync_type : Z; sync_flags : Z; sync_id : Z; sn_owner : Z; sn_next : Z }.
#[global] Instance eta_sync : Settable sync := λ x,
  mk_sync (sync_type x) (sync_flags x) (sync_id x) (sn_owner x) (sn_next x).
#[global] Instance sync_eq : EqDecision sync.
Proof. solve_decision. Defined.

(** struct siginfo and struct sigqueue *)
Record siginfo := mk_siginfo {
  si_signo : Z; si_code : Z; si_errno : Z; si_pid : Z; si_addr : Z; si_status : Z; si_value : Z }.
#[global] Instance siginfo_eq : EqDecision siginfo.
Proof. solve_decision. Defined.
Record sigqueue := mk_sigqueue { sq_signal : Z; sinfo : siginfo }.
#[global] Instance sigqueue_eq : EqDecision sigqueue.
Proof. solve_decision. Defined.

(** struct irq (irq.h) *)
Record irq := mk_irq { irq_id : Z; irq_flag : Z; irq_next : Z; irq_handler : Z; irq_owner : Z }.
#[global] Instance eta_irq : Settable irq := λ x,
  mk_irq (irq_id x) (irq_flag x) (irq_next x) (irq_handler x) (irq_owner x).
#[global] Instance irq_eq : EqDecision irq.
Proof. solve_decision. Defined.

(** The globals of the virtual memory system. *)
Record vmglobals := mk_vmglobals {
  nfree_pages : Z;             (* vm_page.c *)
  vm_nfree : Z;
  vm_ntotal : Z;
  page_page : Z;
  vm_page_initialized : bool;
  total_mem : Z;               (* sysinfo *)
  used_mem : Z;
  used_ram : Z }.
#[global] Instance eta_vmglobals : Settable vmglobals := λ x,
  mk_vmglobals (nfree_pages x) (vm_nfree x) (vm_ntotal x) (page_page x)
    (vm_page_initialized x) (total_mem x) (used_mem x) (used_ram x).

(** ** The state of the kernel *)
Record kstate := mk_kstate {
  links : gmap ptr (linked_list ptr);
  threads : gmap Z thread;
  procs : gmap Z process;
  rq_bitmap : Z;               (* runqueue[0].bitmap *)
  rq_nthreads : Z;             (* runqueue[0].nthreads *)
  current : Z;
  init_thread : Z;
  idle : Z;                    (* cpus[0].idle *)
  kernel : Z;                  (* &kernel_process *)
  kids : ids;                  (* id.c *)
  thash : gmap Z Z;            (* buckets; an absent bucket is NULL *)
  phash : gmap Z Z;
  total_process : Z;           (* sysinfo *)
  total_threads : Z;
  max_threads : Z;
  tss_esp0 : Z;                (* stss[0].esp0 *)
  ending_mem : Z;
  vmaps : gmap Z vmmap;
  pmaps : gmap Z pmap_t;
  entries : gmap Z vm_map_entry;
  objects : gmap Z vm_object;
  pages : gmap Z vm_page;
  pagehash : gmap Z Z;
  ptmem : gmap Z Z;            (* words of page directories and tables, by address *)
  vmg : vmglobals;
  files : gmap Z file;         (* open files *)
  ftables : gmap Z (list Z);   (* pages of file pointers *)
  timers : gmap Z timer;
  ticks : Z;
  syncs : gmap Z sync;
  shash : gmap Z Z;
  sigqs : gmap Z sigqueue;
  irqs : gmap Z irq;           (* pc_irq[] and the allocated ones *)
  irqhash : gmap Z Z;
  irq_next_id : Z;             (* next_id *)
  kmem : list Z }.             (* the addresses the allocator will answer *)
#[global] Instance eta_kstate : Settable kstate := λ x,
  mk_kstate (links x) (threads x) (procs x) (rq_bitmap x) (rq_nthreads x) (current x)
    (init_thread x) (idle x) (kernel x) (kids x) (thash x) (phash x) (total_process x)
    (total_threads x) (max_threads x) (tss_esp0 x) (ending_mem x) (vmaps x) (pmaps x)
    (entries x) (objects x) (pages x) (pagehash x) (ptmem x) (vmg x) (files x) (ftables x)
    (timers x) (ticks x) (syncs x) (shash x) (sigqs x) (irqs x) (irqhash x) (irq_next_id x) (kmem x).

Notation K := (M kstate).

(** ** Access to the structures: a dead or NULL pointer faults *)
Definition get_thread (t : Z) : K thread := λ s,
  match threads s !! t with Some th => Ret th s | None => Fault end.
Definition upd_thread (t : Z) (f : thread → thread) : K unit := λ s,
  match threads s !! t with
  | Some th => Ret tt (s <| threads ::= <[t := f th]> |>)
  | None => Fault
  end.
(** An access to a structure in one of the stores. *)
Definition deref {A} (store : kstate → gmap Z A) (p : Z) : K A := λ s,
  match store s !! p with Some a => Ret a s | None => Fault end.
(** An operation of id.c. *)
Definition on_ids {A} (m : M ids A) : K A := λ s,
  match m (kids s) with
  | Ret a i => Ret a (s <| kids := i |>)
  | Fault => Fault | Halt => Halt | Spin => Spin
  end.
Definition get_proc (p : Z) : K process := λ s,
  match procs s !! p with Some pr => Ret pr s | None => Fault end.
Definition upd_proc (p : Z) (f : process → process) : K unit := λ s,
  match procs s !! p with
  | Some pr => Ret tt (s <| procs ::= <[p := f pr]> |>)
  | None => Fault
  end.

Definition upd_vmap (m : Z) (f : vmmap → vmmap) : K unit := λ s,
  match vmaps s !! m with
  | Some x => Ret tt (s <| vmaps ::= <[m := f x]> |>) | None => Fault end.
Definition upd_entry (e : Z) (f : vm_map_entry → vm_map_entry) : K unit := λ s,
  match entries s !! e with
  | Some x => Ret tt (s <| entries ::= <[e := f x]> |>) | None => Fault end.
Definition upd_object (o : Z) (f : vm_object → vm_object) : K unit := λ s,
  match objects s !! o with
  | Some x => Ret tt (s <| objects ::= <[o := f x]> |>) | None => Fault end.
Definition upd_page (p : Z) (f : vm_page → vm_page) : K unit := λ s,
  match pages s !! p with
  | Some x => Ret tt (s <| pages ::= <[p := f x]> |>) | None => Fault end.

Definition upd_timer (t : Z) (f : timer → timer) : K unit := λ s,
  match timers s !! t with
  | Some x => Ret tt (s <| timers ::= <[t := f x]> |>) | None => Fault end.
Definition upd_sync (n : Z) (f : sync → sync) : K unit := λ s,
  match syncs s !! n with
  | Some x => Ret tt (s <| syncs ::= <[n := f x]> |>) | None => Fault end.
Definition upd_irq (i : Z) (f : irq → irq) : K unit := λ s,
  match irqs s !! i with
  | Some x => Ret tt (s <| irqs ::= <[i := f x]> |>) | None => Fault end.

(** A macro of list.h on the kernel's links. *)
Definition on_links (f : gmap ptr (linked_list ptr) → option (gmap ptr (linked_list ptr))) : K unit :=
  λ s, match f (links s) with Some l => Ret tt (s <| links := l |>) | None => Fault end.
Definition on_links' {A} (f : gmap ptr (linked_list ptr) → option (A * gmap ptr (linked_list ptr))) : K A :=
  λ s, match f (links s) with Some (a, l) => Ret a (s <| links := l |>) | None => Fault end.
Definition ask_links {A} (f : gmap ptr (linked_list ptr) → option A) : K A :=
  λ s, match f (links s) with Some a => Ret a s | None => Fault end.

(** The allocator's next answer ([kmem_alloc], [kmem_cache_alloc]); 0 when it
    has none.  The new object has its link members [fs], not initialised. *)
Definition kalloc (fs : list Z) : K Z := λ s,
  match kmem s with
  | [] => Ret 0 s
  | p :: rest =>
      Ret p (s <| kmem := rest |>
               <| links ::= λ l, foldr (λ f, <[fld f (obj p) := mk_link NULL NULL]>) l fs |>)
  end.

(** A pointer read from a link, used as a pointer to a structure. *)
Definition as_obj (p : ptr) : K Z := if decide (p.2 = 0) then mret p.1 else fault.

(** [superuser()] *)
Definition superuser : K bool :=
  c ← gets current; t ← get_thread c; p ← get_proc (proc t); mret (euid p =? 0).

(** [PAGE_SIZE] (asm/vm_param.h) *)
Definition PAGE_SIZE : Z := 0x1000.
(** Error numbers (errno.h). *)
Definition EAGAIN : Z := 0x06.
Definition EBADF : Z := 0x08.
Definition ECHILD : Z := 0x0c.
Definition EINVAL : Z := 0x1d.
Definition ENOMEM : Z := 0x31.
Definition EPERM : Z := 0x41.
Definition ESRCH : Z := 0x49.

(** ** Evaluation lemmas *)
Lemma get_thread_Ret t th s : threads s !! t = Some th → get_thread t s = Ret th s.
Proof. unfold get_thread. by intros ->. Qed.
Lemma upd_thread_Ret t f th s :
  threads s !! t = Some th →
  upd_thread t f s = Ret tt (s <| threads ::= <[t := f th]> |>).
Proof. unfold upd_thread. by intros ->. Qed.
Lemma threads_twice s t a b :
  s <| threads ::= <[t := a]> |> <| threads ::= <[t := b]> |> = s <| threads ::= <[t := b]> |>.
Proof. unfold setf; cbn. by rewrite insert_insert_eq. Qed.
Lemma get_proc_Ret p pr s : procs s !! p = Some pr → get_proc p s = Ret pr s.
Proof. unfold get_proc. by intros ->. Qed.
Lemma upd_proc_Ret p f pr s :
  procs s !! p = Some pr → upd_proc p f s = Ret tt (s <| procs ::= <[p := f pr]> |>).
Proof. unfold upd_proc. by intros ->. Qed.
Lemma upd_page_Ret p f pg s :
  pages s !! p = Some pg → upd_page p f s = Ret tt (s <| pages ::= <[p := f pg]> |>).
Proof. unfold upd_page. by intros ->. Qed.
Lemma upd_object_Ret o f ob s :
  objects s !! o = Some ob → upd_object o f s = Ret tt (s <| objects ::= <[o := f ob]> |>).
Proof. unfold upd_object. by intros ->. Qed.
Lemma upd_entry_Ret e f en s :
  entries s !! e = Some en → upd_entry e f s = Ret tt (s <| entries ::= <[e := f en]> |>).
Proof. unfold upd_entry. by intros ->. Qed.
Lemma upd_vmap_Ret m f mp s :
  vmaps s !! m = Some mp → upd_vmap m f s = Ret tt (s <| vmaps ::= <[m := f mp]> |>).
Proof. unfold upd_vmap. by intros ->. Qed.
Lemma upd_timer_Ret t f x s :
  timers s !! t = Some x → upd_timer t f s = Ret tt (s <| timers ::= <[t := f x]> |>).
Proof. unfold upd_timer. by intros ->. Qed.
Lemma upd_sync_Ret n f x s :
  syncs s !! n = Some x → upd_sync n f s = Ret tt (s <| syncs ::= <[n := f x]> |>).
Proof. unfold upd_sync. by intros ->. Qed.
Lemma upd_irq_Ret i f x s :
  irqs s !! i = Some x → upd_irq i f s = Ret tt (s <| irqs ::= <[i := f x]> |>).
Proof. unfold upd_irq. by intros ->. Qed.
Lemma on_links_Ret f l s :
  f (links s) = Some l → on_links f s = Ret tt (s <| links := l |>).
Proof. unfold on_links. by intros ->. Qed.
Lemma on_links'_Ret {A} (f : _ → option (A * _)) a l s :
  f (links s) = Some (a, l) → on_links' f s = Ret a (s <| links := l |>).
Proof. unfold on_links'. by intros ->. Qed.
Lemma ask_links_Ret {A} (f : _ → option A) a s :
  f (links s) = Some a → ask_links f s = Ret a s.
Proof. unfold ask_links. by intros ->. Qed.
Lemma gets_Ret {S A} (f : S → A) s : gets f s = Ret (f s) s.
Proof. done. Qed.
Lemma modify_Ret {S} (f : S → S) s : modify f s = Ret tt (f s).
Proof. done. Qed.
Lemma must_Ret {S A} (a : A) o (s : S) : o = Some a → must o s = Ret a s.
Proof. by intros ->. Qed.
Lemma mret_Ret {S A} (a : A) (s : S) : (mret a : M S A) s = Ret a s.
Proof. done. Qed.
Lemma as_obj_Ret p s : as_obj (obj p) s = Ret p s.
Proof. done. Qed.

#[global] Hint Resolve get_thread_Ret upd_thread_Ret get_proc_Ret upd_proc_Ret on_links_Ret
  on_links'_Ret ask_links_Ret gets_Ret modify_Ret must_Ret mret_Ret as_obj_Ret : mx.

Lemma on_ids_Ret {A} (m : M ids A) a i s :
  m (kids s) = Ret a i → on_ids m s = Ret a (s <| kids := i |>).
Proof. unfold on_ids. by intros ->. Qed.
Lemma deref_Ret {A} (st : kstate → gmap Z A) p a s :
  st s !! p = Some a → deref st p s = Ret a s.
Proof. unfold deref. by intros ->. Qed.

(** Run the first action of a routine; [tac] finds its result. *)
Ltac run_with tac := erewrite bind_Ret by tac; cbv beta.
Ltac run := run_with ltac:(eauto with mx).

(** The projections of an updated state; the record stays flat, so that a long
    routine can be run step by step. *)
Ltac flat := cbv [setf]; cbn [links threads procs rq_bitmap rq_nthreads current init_thread idle
  kernel kids thash phash total_process total_threads max_threads tss_esp0 ending_mem vmaps pmaps
  entries objects pages pagehash ptmem vmg files ftables timers ticks syncs shash sigqs irqs irqhash irq_next_id
  timeout nextarm sigv tm_owner tm_flag clkid timer_id tm_hnext sync_type sync_flags sync_id sn_owner sn_next
  irq_id irq_flag irq_next irq_handler irq_owner sq_signal sinfo fd_max fd_hint fd_bitmap cwd cwdstr fileptr
  p_map pid uid euid gid egid session parent p_next start_time user_time system_time alarm p_flag p_status
  exit_status action p_ss sync_next_id p_fd
  kmem pg_next pg_base pg_object pg_offset pg_count pg_flags e_start e_end e_object e_type e_attr
  vmentry m_pmap m_size ref_count m_start m_end m_hint private m_attr t_next waiting tid ctx stack states proc attr priority_dyn bound time_slice sched_flag
  exitstat sa_mask sigpending msg cpu attr_flags attr_prio attr_stackaddr attr_stack_size
  attr_policy eip esp cr3 irqflag ctx_handler].

(** One action of a routine whose accesses are known. *)
Ltac known := first
  [ eassumption | rewrite lookup_insert_eq; reflexivity
  | rewrite lookup_insert_ne by (assumption || congruence); known ].
Ltac step :=
  rewrite ?bind_assoc; erewrite bind_Ret; [|etrans; [first
    [ apply modify_Ret | apply mret_Ret | apply gets_Ret
    | apply upd_thread_Ret; flat; known
    | apply get_thread_Ret; flat; known
    | apply on_links_Ret; flat; eassumption
    | apply on_ids_Ret; flat; eassumption
    | apply deref_Ret; flat; known
    | apply upd_page_Ret; flat; known
    | apply upd_object_Ret; flat; known
    | apply upd_entry_Ret; flat; known
    | apply upd_vmap_Ret; flat; known
    | apply get_proc_Ret; flat; known
    | apply upd_proc_Ret; flat; known
    | apply upd_timer_Ret; flat; known
    | apply upd_sync_Ret; flat; known
    | apply upd_irq_Ret; flat; known
    | apply must_Ret; reflexivity
    | eassumption ]|flat; reflexivity]]; cbv beta.
