(* ===== verification/Sched.v ===== *)
(** * The scheduler

    Models microkernel/include/kernel/scheduling.h and
    microkernel/kernel/scheduling.c in the configuration of config.h (one
    processor, no kernel preemption: [kpreempt_disable], [kpreempt_enable] and
    the spinlocks are empty, [on_kpreempt] is 0 and [hint.cpu_hint] is 0).
    [rq_inv s qs] relates the run queues in memory to one list of threads per
    priority level; the theorems refine every operation to that view. *)

From S2P Require Import Prelude DList Bits Id KState.

Definition NPRIORS : Z := 128.
Definition MAXQ : Z := Z.quot NPRIORS 4.
Definition HZ : Z := 1000.
Definition SLICE : Z := 4 * Z.quot HZ 100.
Definition SCHED_FIFO : Z := 1.
Definition SCHED_RR : Z := 2.
Definition SCHED_OTHER : Z := 4.
Definition PRIO_RT_MAX : Z := 127.
Definition PRIO_SYS_DEF : Z := 66.
Definition PRIO_SYS_MIN : Z := 46.
Definition PRIO_OTHER_MIN : Z := 4.
Definition MIN_PRIO : Z := PRIO_OTHER_MIN.
Definition MAX_PRIO : Z := PRIO_RT_MAX.
Definition PRIOQ (prio : Z) : Z := Z.quot prio 4.
Definition ID_THREAD : Z := 1.

Notation runq := (fld F_runq).

(** [runqueue[cpu]]: there is one processor. *)
Definition the_cpu (c : Z) : K unit := if c =? 0 then mret tt else fault.

Definition enqueue_thread (thread : Z) : K unit :=
  th ← get_thread thread;
  let index := PRIOQ (priority_dyn th) in
  modify (λ s, s <| rq_nthreads ::= λ n, s32 (n + 1) |>);;
  on_links (list_enqueue runq (run_head index) (obj thread));;
  bm ← gets rq_bitmap;
  bm' ← must (set_bit bm index);
  modify (λ s, s <| rq_bitmap := bm' |>);;
  upd_thread thread (λ th, th <| cpu := 0 |>).

(** [if(list_isempty(l)) clear_bit(&runqueue[cpu].bitmap, index)] *)
Definition clear_if_empty (index : Z) : K unit :=
  e ← ask_links (list_isempty (run_head index));
  if (e : bool) then
    bm ← gets rq_bitmap;
    bm' ← must (clear_bit bm index);
    modify (λ s, s <| rq_bitmap := bm' |>)
  else mret tt.

Definition dequeue_thread (index cpu : Z) : K Z :=
  the_cpu cpu;;
  p ← on_links' (list_dequeue runq (run_head index));
  clear_if_empty index;;
  as_obj p.

Definition remove_thread (thread : Z) : K unit :=
  th ← get_thread thread;
  let index := PRIOQ (priority_dyn th) in
  the_cpu (cpu th);;
  on_links (list_del runq (run_head index) (obj thread));;
  clear_if_empty index;;
  modify (λ s, s <| rq_nthreads ::= λ n, s32 (n - 1) |>).

Definition wakeup (thr : Z) : K unit :=
  upd_thread thr (λ th, th <| states := THREAD_READY |>);;
  upd_thread thr (λ th, th <| priority_dyn := priority_stat th |>);;
  enqueue_thread thr.

(** [memset(&runqueue, 0, ...)] and [list_init] of every queue. *)
Fixpoint init_queues (n : nat) (i : Z) : K unit :=
  match n with
  | O => mret tt
  | S n' => on_links (list_init (run_head i));; init_queues n' (i + 1)
  end.
Definition sched_init : K unit :=
  modify (λ s, s <| rq_bitmap := 0 |> <| rq_nthreads := 0 |>
    <| links ::= λ l, foldr (λ i, <[run_head i := mk_link NULL NULL]>) l (seqZ 0 MAXQ) |>);;
  init_queues (Z.to_nat MAXQ) 0.

Definition do_schedrr : K unit :=
  quenum ← gets (λ s, frs (rq_bitmap s));
  if quenum <? 0 then mret tt
  else
    e ← ask_links (list_isempty (run_head quenum));
    if (e : bool) then mret tt
    else
      c ← gets current;
      th ← get_thread c;
      thread ← dequeue_thread quenum (cpu th);
      if thread =? 0 then mret tt else enqueue_thread thread.

Definition sched_timer : K unit :=
  thr ← gets current;
  th ← get_thread thr;
  if schedpolicy th =? SCHED_RR then mret tt
  else if negb (schedpolicy th =? SCHED_OTHER) then mret tt
  else if PRIO_SYS_MIN <=? priority_stat th then mret tt
  else
    upd_thread thr (λ th, th <| time_slice ::= λ n, s32 (n - 1) |>);;
    th ← get_thread thr;
    if time_slice th =? 0 then
      upd_thread thr (λ th, th <| time_slice := SLICE |>);;
      upd_thread thr (λ th, th <| bound ::= λ n, s32 (n - 1) |>);;
      th ← get_thread thr;
      (if bound th <? PRIO_OTHER_MIN
       then upd_thread thr (λ th, th <| bound := PRIO_OTHER_MIN |>) else mret tt);;
      remove_thread thr;;
      upd_thread thr (λ th, th <| priority_dyn := s32 (priority_stat th + bound th) |>);;
      enqueue_thread thr
    else mret tt.

(** The choice of [schedule]: the entry at the tail of the highest queue whose
    bit is set, or the idle thread. *)
Definition pick_next : K Z :=
  quenum ← gets (λ s, frs (rq_bitmap s));
  if quenum <? 0 then gets init_thread
  else
    e ← ask_links (list_isempty (run_head quenum));
    if (e : bool) then gets init_thread
    else p ← ask_links (last_entry (run_head quenum)); as_obj p.

(** [switch_to] makes the chosen thread the running one. *)
Definition schedule : K unit :=
  thr ← gets current;
  new ← pick_next;
  (if new =? thr then mret tt else modify (λ s, s <| current := new |>));;
  c ← gets current;
  upd_thread c (λ th, th <| sched_flag := 0 |>).

Definition syscall_sched_yield : K Z :=
  thr ← gets current;
  remove_thread thr;;
  enqueue_thread thr;;
  upd_thread thr (λ th, th <| sched_flag := 1 |>);;
  mret 0.

(** ** The run queues as lists of threads *)

(** Level [i] of the run queue holds [qs !! i], in the order of [next]: the
    thread that has waited longest is the last. *)
Record rq_inv (s : kstate) (qs : list (list Z)) : Prop := {
  rq_len : length qs = 32%nat;
  rq_ring : ∀ i l, qs !! i = Some l →
    dlist runq (links s) (run_head (Z.of_nat i)) (obj <$> l);
  rq_mem : ∀ i l t, qs !! i = Some l → t ∈ l →
    0 < t ∧ ∃ th, threads s !! t = Some th ∧ PRIOQ (priority_dyn th) = Z.of_nat i ∧ cpu th = 0;
  rq_range : 0 <= rq_bitmap s < 2 ^ 32;
  rq_bit : ∀ i l, qs !! i = Some l →
    Z.testbit (rq_bitmap s) (Z.of_nat i) = negb (bool_decide (l = []));
  rq_count : rq_nthreads s = s32 (Z.of_nat (sum_list (length <$> qs)));
}.

(** [t] waits in some queue. *)
Definition queued (qs : list (list Z)) (t : Z) : Prop :=
  ∃ i l, qs !! i = Some l ∧ t ∈ l.

#[global] Instance obj_inj : Inj (=) (=) obj.
Proof. intros x y [= ->]. done. Qed.
#[global] Instance fld_inj f : Inj (=) (=) (fld f).
Proof. intros [x1 x2] [y1 y2] [= -> ?]. f_equal. lia. Qed.

(** Distinct objects and a head outside them form a ring. *)
Lemma obj_ring f h l :
  NoDup l → (∀ t, t ∈ l → h ≠ obj t ∧ h ≠ fld f (obj t)) → ring (fld f) h (obj <$> l).
Proof.
  intros ND Hh. split.
  - intros (t&->&Ht)%list_elem_of_fmap. by destruct (Hh t Ht).
  - unfold cells. apply NoDup_cons. split.
    + rewrite <- list_fmap_compose. intros (t&->&Ht)%list_elem_of_fmap. by destruct (Hh t Ht).
    + apply (NoDup_fmap_2 _), (NoDup_fmap_2 _). done.
Qed.

Lemma run_ring i l : NoDup l → (∀ t, t ∈ l → 0 < t) → ring runq (run_head i) (obj <$> l).
Proof.
  intros ND Hp. apply obj_ring; [done|]. intros t Ht%Hp.
  unfold run_head, obj, fld, G_run. cbn. split; intros [=]; lia.
Qed.

Lemma elem_of_run_cells d i l :
  d ∈ cells runq (run_head i) (obj <$> l) ↔ d = run_head i ∨ (∃ t, t ∈ l ∧ d = runq (obj t)).
Proof.
  unfold cells. rewrite elem_of_cons, <- list_fmap_compose, list_elem_of_fmap. naive_solver.
Qed.

Lemma rq_NoDup s qs i l : rq_inv s qs → qs !! i = Some l → NoDup l.
Proof.
  intros HI Hi. pose proof (rq_ring _ _ HI _ _ Hi) as HD%dlist_ring%ring_NoDup.
  apply NoDup_cons in HD as [_ HD]. by apply NoDup_fmap_1 in HD.
Qed.

Lemma rq_queue_unique s qs i j l l' t :
  rq_inv s qs → qs !! i = Some l → qs !! j = Some l' → t ∈ l → t ∈ l' → i = j.
Proof.
  intros HI Hi Hj Ht Ht'. destruct (rq_mem _ _ HI _ _ _ Hi Ht) as (_&th&E&?&_).
  destruct (rq_mem _ _ HI _ _ _ Hj Ht') as (_&th'&E'&?&_).
  simplify_eq. lia.
Qed.

(** One queue is replaced; [L] are the threads whose links may have changed. *)
Lemma rq_inv_replace s s' qs i l l' L :
  rq_inv s qs → qs !! i = Some l →
  dlist runq (links s') (run_head (Z.of_nat i)) (obj <$> l') →
  (∀ d, d ∉ cells runq (run_head (Z.of_nat i)) (obj <$> L) → links s' !! d = links s !! d) →
  (∀ t, t ∈ L → 0 < t ∧ ∀ j lj, j ≠ i → qs !! j = Some lj → t ∉ lj) →
  (∀ t, t ∈ l' → 0 < t ∧ ∃ th, threads s' !! t = Some th ∧
     PRIOQ (priority_dyn th) = Z.of_nat i ∧ cpu th = 0) →
  (∀ j lj t, j ≠ i → qs !! j = Some lj → t ∈ lj → threads s' !! t = threads s !! t) →
  0 <= rq_bitmap s' < 2 ^ 32 →
  (∀ j, (j < 32)%nat → Z.testbit (rq_bitmap s') (Z.of_nat j) =
     if decide (j = i) then negb (bool_decide (l' = [])) else Z.testbit (rq_bitmap s) (Z.of_nat j)) →
  rq_nthreads s' = s32 (rq_nthreads s + (Z.of_nat (length l') - Z.of_nat (length l))) →
  rq_inv s' (<[i := l']> qs).
Proof.
  intros HI Hi HD HF HL Hl' Hth Hr Hb Hc.
  pose proof (rq_len _ _ HI) as Hlen. pose proof (lookup_lt_Some _ _ _ Hi) as Hlt.
  split; [by rewrite length_insert|..].
  - intros j lj. rewrite list_lookup_insert. case_decide as Ej; [intros [= <-]; by destruct Ej; subst|].
    intros Hj. eapply dlist_frame; [|by apply (rq_ring _ _ HI)].
    intros d Hd. apply HF. rewrite !elem_of_run_cells in *.
    assert (j ≠ i) by (intros ->; by destruct Ej).
    intros [->|(t&Ht&->)]; destruct Hd as [Hd|(t'&Ht'&Hd)].
    + injection Hd as ?. lia.
    + apply (rq_mem _ _ HI _ _ _ Hj) in Ht' as [? _]. injection Hd as ??. unfold G_run in *. lia.
    + apply HL in Ht as [? _]. injection Hd as ??. unfold G_run in *. lia.
    + apply (inj runq), (inj obj) in Hd as ->. by eapply (proj2 (HL _ Ht)).
  - intros j lj t. rewrite list_lookup_insert. case_decide as Ej.
    + intros [= <-] Ht. destruct Ej as [<- _]. auto.
    + intros Hj Ht. destruct (rq_mem _ _ HI _ _ _ Hj Ht) as (?&th&?&?).
      split; [done|]. exists th. split; [|done]. rewrite (Hth j lj t); [done| |done..].
      intros ->. by destruct Ej.
  - done.
  - intros j lj. rewrite list_lookup_insert. case_decide as Ej.
    + intros [= <-]. destruct Ej as [<- _]. rewrite Hb by lia. by rewrite decide_True.
    + intros Hj. apply lookup_lt_Some in Hj as ?. rewrite Hb, decide_False by (lia || intros ->; destruct Ej; done).
      by apply (rq_bit _ _ HI).
  - rewrite Hc, (rq_count _ _ HI), s32_add_l. f_equal. rewrite list_fmap_insert.
    assert ((length <$> qs) !! i = Some (length l)) as E by (rewrite list_lookup_fmap, Hi; done).
    pose proof (sum_list_insert _ _ _ (length l') E). lia.
Qed.

(** What no scheduler routine touches: every global but the links, the threads
    and the run queue, and every link but those of the run queues. *)
Definition sched_mask (s : kstate) : kstate :=
  s <| links := ∅ |> <| threads := ∅ |> <| rq_bitmap := 0 |> <| rq_nthreads := 0 |>.
Record sched_frame (s s' : kstate) : Prop := {
  sf_rest : sched_mask s' = sched_mask s;
  sf_dom : dom (links s') = dom (links s);
  sf_links : ∀ d, (∀ t, d ≠ runq (obj t)) → (∀ i, d ≠ run_head i) → links s' !! d = links s !! d;
}.

#[global] Instance sched_frame_refl : Reflexive sched_frame.
Proof. intros s. by split. Qed.
#[global] Instance sched_frame_trans : Transitive sched_frame.
Proof.
  intros s1 s2 s3 H1 H2. destruct H1, H2. split; try congruence.
  intros d ??. rewrite sf_links1 by done. auto.
Qed.

(** A field that [sched_mask] keeps is unchanged. *)
Lemma sf_field {A} (f : kstate → A) s s' :
  (∀ x, f (sched_mask x) = f x) → sched_frame s s' → f s' = f s.
Proof. intros Hf [E _ _]. by rewrite <- (Hf s'), E. Qed.

(** Changing the fields of threads is not seen by the frame. *)
Lemma sched_frame_threads s f : sched_frame s (s <| threads ::= f |>).
Proof. by split. Qed.

Lemma rewires_run_links st i l cs st' d :
  rewires runq st (run_head i) (obj <$> l) (cells runq (run_head i) (obj <$> cs)) st' →
  (∀ t, d ≠ runq (obj t)) → (∀ i, d ≠ run_head i) → st' !! d = st !! d.
Proof. intros (_&_&HF) ??. apply HF. rewrite elem_of_run_cells. naive_solver. Qed.

(** The result of [enqueue_thread]. *)
Lemma enqueue_thread_spec s qs t th i l :
  rq_inv s qs → threads s !! t = Some th → 0 < t → ¬ queued qs t →
  is_Some (links s !! runq (obj t)) →
  PRIOQ (priority_dyn th) = Z.of_nat i → qs !! i = Some l →
  ∃ s', enqueue_thread t s = Ret tt s' ∧ rq_inv s' (<[i := t :: l]> qs) ∧
    sched_frame s s' ∧ threads s' = <[t := th <| cpu := 0 |>]> (threads s).
Proof.
  intros HI Ht Hpos Hnq Hs Hp Hi.
  pose proof (lookup_lt_Some _ _ _ Hi) as Hlt. rewrite (rq_len _ _ HI) in Hlt.
  assert (Hnl : t ∉ l) by (intros ?; apply Hnq; exists i, l; done).
  destruct (list_enqueue_spec runq (links s) (run_head (Z.of_nat i)) (obj <$> l) (obj t))
    as (lk&El&HW); [by apply (rq_ring _ _ HI)| |done|].
  { apply (run_ring _ (t :: l)).
    - apply NoDup_cons. split; [done|by eapply rq_NoDup].
    - intros t' [->|Ht']%elem_of_cons; [done|]. by eapply (rq_mem _ _ HI). }
  unfold enqueue_thread. run. run. cbn zeta. rewrite Hp.
  run_with ltac:(apply on_links_Ret; exact El). run.
  unfold set_bit. rewrite bool_decide_true by lia. run. run.
  rewrite (upd_thread_Ret _ _ th) by done. eexists; split; [done|].
  pose proof (rq_range _ _ HI) as Hr. split_and!; [| |done].
  - eapply (rq_inv_replace s _ qs i l (t :: l) (t :: l)); fields.
    + done.
    + done.
    + by destruct HW.
    + by destruct HW as (_&_&?).
    + intros t' [->|Ht']%elem_of_cons.
      * split; [done|]. intros j lj _ Hj ?. apply Hnq. by exists j, lj.
      * split; [by eapply (rq_mem _ _ HI)|]. intros j lj Hne Hj ?. apply Hne. by eapply rq_queue_unique.
    + intros t' [->|Ht']%elem_of_cons; [split; [done|]; eexists; by rewrite lookup_insert_eq|].
      assert (t' ≠ t) by congruence. rewrite lookup_insert_ne by done. by eapply (rq_mem _ _ HI).
    + intros j lj t' Hne Hj Ht'. rewrite lookup_insert_ne; [done|]. intros ->. apply Hnq. by exists j, lj.
    + apply setbit_range; lia.
    + intros j Hj. rewrite setbit_testbit by lia. case_decide as E; subst.
      * rewrite bool_decide_true by done. apply orb_true_r.
      * rewrite bool_decide_false by lia. apply orb_false_r.
    + f_equal. lia.
  - split; fields; try done; [by destruct HW as (_&?&_)|].
    intros d. by eapply (rewires_run_links _ _ (t :: l) (t :: l)).
Qed.

Lemma clear_if_empty_spec s i (l : list ptr) :
  0 <= i < 32 → dlist runq (links s) (run_head i) l →
  clear_if_empty i s = Ret tt (if decide (l = [])
    then s <| rq_bitmap := Z.clearbit (rq_bitmap s) i |> else s).
Proof.
  intros Hi HD. unfold clear_if_empty.
  run_with ltac:(apply ask_links_Ret; by eapply list_isempty_spec).
  case_decide; [rewrite bool_decide_true by done|by rewrite bool_decide_false].
  run. unfold clear_bit. rewrite bool_decide_true by lia. by run.
Qed.

(** Queue [i] lost a thread: its bit is cleared when it became empty. *)
Lemma rq_inv_shrink s qs i l1 t l2 lk n :
  rq_inv s qs → qs !! i = Some (l1 ++ t :: l2) →
  rewires runq (links s) (run_head (Z.of_nat i)) (obj <$> l1 ++ l2)
    (cells runq (run_head (Z.of_nat i)) (obj <$> l1 ++ l2)) lk →
  n = s32 (rq_nthreads s - 1) →
  ∃ s', clear_if_empty (Z.of_nat i) (s <| links := lk |>) = Ret tt s' ∧
    rq_nthreads s' = rq_nthreads s ∧ threads s' = threads s ∧
    rq_inv (s' <| rq_nthreads := n |>) (<[i := l1 ++ l2]> qs) ∧ sched_frame s s'.
Proof.
  intros HI Hi HW ->. pose proof (lookup_lt_Some _ _ _ Hi) as Hlt. rewrite (rq_len _ _ HI) in Hlt.
  pose proof (rq_range _ _ HI) as Hr. pose proof HW as (HD&Hdom&HF).
  erewrite clear_if_empty_spec by (lia || fields; exact HD). eexists; split; [done|].
  assert (Hin : ∀ t', t' ∈ l1 ++ l2 → t' ∈ l1 ++ t :: l2) by set_solver.
  assert (HE : obj <$> l1 ++ l2 = [] ↔ l1 ++ l2 = []) by (split; [apply fmap_nil_inv|by intros ->]).
  split_and!; [by case_decide|by case_decide| |].
  - eapply (rq_inv_replace s _ qs i _ (l1 ++ l2) (l1 ++ l2)); try done.
    + by case_decide.
    + by case_decide.
    + intros t' Ht'. split; [by eapply (rq_mem _ _ HI); [|apply Hin]|].
      intros j lj Hne Hj ?. apply Hne. eapply rq_queue_unique; eauto.
    + intros t' Ht'. case_decide; fields; eapply (rq_mem _ _ HI); eauto.
    + by case_decide.
    + case_decide; fields; [|done]. apply clearbit_range; lia.
    + intros j Hj. assert (Z.testbit (rq_bitmap s) (Z.of_nat i) = true) as Hb.
      { rewrite (rq_bit _ _ HI _ _ Hi), bool_decide_false; [done|]. by destruct l1. }
      case_decide as He; fields.
      * rewrite clearbit_testbit by lia. rewrite (bool_decide_true (l1 ++ l2 = [])) by tauto.
        destruct (decide (j = i)) as [->|]; [rewrite bool_decide_false by lia; apply andb_false_r|].
        rewrite bool_decide_true by lia. apply andb_true_r.
      * rewrite (bool_decide_false (l1 ++ l2 = [])) by tauto. by case_decide; subst.
    + fields. f_equal. rewrite !length_app. cbn. lia.
  - split; case_decide; fields; try done; intros d; by eapply (rewires_run_links _ _ (l1 ++ l2) (l1 ++ l2)).
Qed.

Lemma remove_thread_spec s qs t i l1 l2 :
  rq_inv s qs → qs !! i = Some (l1 ++ t :: l2) →
  ∃ s', remove_thread t s = Ret tt s' ∧ rq_inv s' (<[i := l1 ++ l2]> qs) ∧
    sched_frame s s' ∧ threads s' = threads s.
Proof.
  intros HI Hi. destruct (rq_mem _ _ HI _ _ t Hi) as (Hpos&th&Ht&Hp&Hc); [set_solver|].
  pose proof (rq_ring _ _ HI _ _ Hi) as HD. rewrite fmap_app, fmap_cons in HD.
  destruct (list_del_spec runq _ _ _ _ _ HD) as (lk&El&HW). rewrite <- fmap_app in HW.
  destruct (rq_inv_shrink s qs i l1 t l2 lk _ HI Hi HW eq_refl) as (s'&Ec&En&Et&HI'&HF).
  unfold remove_thread. run. cbn zeta. rewrite Hp, Hc. run.
  run_with ltac:(apply on_links_Ret; exact El).
  run_with ltac:(exact Ec). rewrite modify_Ret. eexists; split; [done|].
  split_and!; [|etrans; [exact HF|by split]|done].
  replace (s' <| rq_nthreads ::= λ n, s32 (n - 1) |>)
    with (s' <| rq_nthreads := s32 (rq_nthreads s - 1) |>); [done|].
  unfold setf. by rewrite En.
Qed.

Lemma dequeue_thread_spec s qs t i l :
  rq_inv s qs → qs !! i = Some (l ++ [t]) →
  ∃ s', dequeue_thread (Z.of_nat i) 0 s = Ret t s' ∧ rq_nthreads s' = rq_nthreads s ∧
    rq_inv (s' <| rq_nthreads := s32 (rq_nthreads s - 1) |>) (<[i := l]> qs) ∧
    sched_frame s s' ∧ threads s' = threads s.
Proof.
  intros HI Hi. pose proof (rq_ring _ _ HI _ _ Hi) as HD. rewrite fmap_app in HD.
  destruct (list_dequeue_spec runq _ _ _ _ HD) as (lk&El&HW).
  rewrite <- (app_nil_r l) in HW. rewrite <- (app_nil_r l).
  destruct (rq_inv_shrink s qs i l t [] lk _ HI Hi HW eq_refl) as (s'&Ec&En&Et&HI'&HF).
  unfold dequeue_thread. run. run_with ltac:(apply on_links'_Ret; exact El).
  run_with ltac:(exact Ec). rewrite as_obj_Ret. eauto 10.
Qed.

(** The highest level that holds a thread, and the thread that waited longest
    there. *)
Definition top_of (qs : list (list Z)) (i : nat) (t : Z) : Prop :=
  (∃ l, qs !! i = Some (l ++ [t])) ∧ (∀ j l, (i < j)%nat → qs !! j = Some l → l = []).

Lemma rq_top s qs :
  rq_inv s qs →
  (frs (rq_bitmap s) = -1 ∧ ∀ i l, qs !! i = Some l → l = []) ∨
  (∃ i t, frs (rq_bitmap s) = Z.of_nat i ∧ top_of qs i t).
Proof.
  intros HI. pose proof (rq_range _ _ HI) as Hr. pose proof (rq_len _ _ HI) as Hlen.
  destruct (decide (rq_bitmap s = 0)) as [E|Hne].
  - left. rewrite E. split; [done|]. intros i l Hi.
    pose proof (rq_bit _ _ HI _ _ Hi) as Hb. rewrite E, Z.bits_0 in Hb.
    case_bool_decide; done.
  - right. destruct (frs_spec (rq_bitmap s)) as (Hf&Hb&Ha); [lia|].
    set (f := frs (rq_bitmap s)) in *.
    destruct (lookup_lt_is_Some_2 qs (Z.to_nat f)) as [l Hl]; [lia|].
    pose proof (rq_bit _ _ HI _ _ Hl) as Hb'. rewrite Z2Nat.id, Hb in Hb' by lia.
    case_bool_decide as Hnil; [done|].
    destruct (list_snoc_cases l) as [->|(l'&t&->)]; [done|].
    exists (Z.to_nat f), t. split; [lia|]. split; [eauto|].
    intros j lj Hj Hlj. pose proof (rq_bit _ _ HI _ _ Hlj) as Hbj.
    rewrite Ha in Hbj by lia. by case_bool_decide.
Qed.

Lemma top_of_unique qs i t i' t' : top_of qs i t → top_of qs i' t' → i = i' ∧ t = t'.
Proof.
  intros [[l Hl] Ha] [[l' Hl'] Ha'].
  assert (i = i') as ->.
  { destruct (decide (i < i')%nat) as [H|]; [specialize (Ha _ _ H Hl'); by destruct l'|].
    destruct (decide (i' < i)%nat) as [H|]; [specialize (Ha' _ _ H Hl); by destruct l|lia]. }
  split; [done|]. rewrite Hl in Hl'. simplify_eq. by apply app_inj_tail in Hl' as [_ ?].
Qed.

(** A change of links that no run queue uses. *)
Lemma rq_inv_links_free s qs L :
  (∀ t, queued qs t → L !! runq (obj t) = links s !! runq (obj t)) →
  (∀ i, L !! run_head i = links s !! run_head i) →
  rq_inv s qs → rq_inv (s <| links := L |>) qs.
Proof.
  intros H1 H2 HI. split; fields; try apply HI.
  intros i l Hi. eapply dlist_frame; [|by apply (rq_ring _ _ HI)].
  intros d [->|(t&Ht&->)]%elem_of_run_cells; [done|]. apply H1. by exists i, l.
Qed.

(** Fields other than the priority and the processor do not matter. *)
Lemma rq_inv_upd s qs t th th' :
  rq_inv s qs → threads s !! t = Some th →
  priority_dyn th' = priority_dyn th → cpu th' = cpu th →
  rq_inv (s <| threads ::= <[t := th']> |>) qs.
Proof.
  intros HI Ht Ep Ec. split; fields; try apply HI.
  intros j lj t' Hj Ht'. destruct (decide (t' = t)) as [->|].
  - rewrite lookup_insert_eq. destruct (rq_mem _ _ HI _ _ _ Hj Ht') as (?&?&?&?&?).
    simplify_eq. split; [done|]. exists th'. rewrite Ep, Ec. done.
  - rewrite lookup_insert_ne by done. by eapply (rq_mem _ _ HI).
Qed.

Lemma rq_inv_current s qs c : rq_inv s qs → rq_inv (s <| current := c |>) qs.
Proof. intros HI. split; apply HI. Qed.

Lemma rq_alloc s qs t : rq_inv s qs → queued qs t → is_Some (links s !! runq (obj t)).
Proof.
  intros HI (i&l&Hi&Ht). pose proof (rq_mem _ _ HI _ _ _ Hi Ht) as [Hpos _].
  rewrite <- (lnk_item runq (run_head (Z.of_nat i)) (obj t)).
  - eapply dlist_dom; [by apply (rq_ring _ _ HI)|]. apply elem_of_cons. right.
    by apply list_elem_of_fmap_2.
  - intros [= E]. unfold G_run in *. lia.
Qed.

(** The end of [schedule], once [pick_next] has chosen. *)
Lemma schedule_to s t th :
  pick_next s = Ret t s → threads s !! t = Some th →
  schedule s = Ret tt (s <| current := t |> <| threads ::= <[t := th <| sched_flag := 0 |>]> |>).
Proof.
  intros Ep Ht. unfold schedule. run. run_with ltac:(exact Ep).
  assert ((if t =? current s then mret tt : K unit
    else modify (λ s, s <| current := t |>)) s = Ret tt (s <| current := t |>)) as E.
  { destruct (Z.eqb_spec t (current s)) as [->|]; [by destruct s|done]. }
  run_with ltac:(exact E). run. by rewrite (upd_thread_Ret _ _ th).
Qed.

Lemma pick_next_top s qs i t : rq_inv s qs → top_of qs i t → pick_next s = Ret t s.
Proof.
  intros HI HT. destruct (rq_top _ _ HI) as [[_ Hnone]|(i'&t'&Hf&HT')].
  { destruct HT as [[l Hl] _]. specialize (Hnone _ _ Hl). by destruct l. }
  destruct (top_of_unique _ _ _ _ _ HT HT') as [<- <-].
  destruct HT as [[l Hl] _]. pose proof (rq_ring _ _ HI _ _ Hl) as HD.
  unfold pick_next. run. rewrite Hf, (proj2 (Z.ltb_ge _ _)) by lia.
  run_with ltac:(apply ask_links_Ret; by eapply list_isempty_spec).
  rewrite bool_decide_false by (by destruct l).
  run_with ltac:(apply ask_links_Ret; unfold last_entry; rewrite fmap_app in HD;
    by apply dlist_last in HD as [? _]). done.
Qed.

Lemma schedule_top s qs i t :
  rq_inv s qs → top_of qs i t →
  ∃ s', schedule s = Ret tt s' ∧ current s' = t ∧ rq_inv s' qs.
Proof.
  intros HI HT. pose proof HT as [[l Hl] _].
  destruct (rq_mem _ _ HI _ _ t Hl) as (_&th&Ht&_); [set_solver|].
  rewrite (schedule_to _ _ th) by (done || by eapply pick_next_top).
  eexists; split; [done|]. split; [done|].
  by apply (rq_inv_upd _ _ _ th); [apply rq_inv_current|done..].
Qed.

Lemma schedule_idle s qs th :
  rq_inv s qs → (∀ i l, qs !! i = Some l → l = []) → threads s !! init_thread s = Some th →
  ∃ s', schedule s = Ret tt s' ∧ current s' = init_thread s ∧ rq_inv s' qs.
Proof.
  intros HI Hnone Ht. destruct (rq_top _ _ HI) as [[Hf _]|(i&t&_&[[l Hl] _])];
    [|specialize (Hnone _ _ Hl); by destruct l].
  rewrite (schedule_to _ (init_thread s) th); [|unfold pick_next; run; by rewrite Hf|done].
  eexists; split; [done|]. split; [done|].
  by apply (rq_inv_upd _ _ _ th); [apply rq_inv_current|done..].
Qed.

(** [schedule] always makes some live thread the running one. *)
Lemma schedule_spec s qs :
  rq_inv s qs → is_Some (threads s !! init_thread s) →
  ∃ c th, schedule s = Ret tt (s <| current := c |> <| threads ::= <[c := th <| sched_flag := 0 |>]> |>) ∧
    threads s !! c = Some th ∧
    rq_inv (s <| current := c |> <| threads ::= <[c := th <| sched_flag := 0 |>]> |>) qs.
Proof.
  intros HI [th Hth]. destruct (rq_top _ _ HI) as [[Hf _]|(i&t&_&HT)].
  - exists (init_thread s), th. split_and!; [|done|].
    + apply schedule_to; [|done]. unfold pick_next. run. by rewrite Hf.
    + by apply (rq_inv_upd _ _ _ th); [apply rq_inv_current|done..].
  - pose proof HT as [[l Hl] _]. destruct (rq_mem _ _ HI _ _ t Hl) as (_&tht&Ht&_); [set_solver|].
    exists t, tht. split_and!; [|done|].
    + apply schedule_to; [|done]. by eapply pick_next_top.
    + by apply (rq_inv_upd _ _ _ tht); [apply rq_inv_current|done..].
Qed.

(** Removing a queued thread, changing its priority and queueing it again. *)
Lemma queued_remove s qs i l1 t l2 :
  rq_inv s qs → qs !! i = Some (l1 ++ t :: l2) → ¬ queued (<[i := l1 ++ l2]> qs) t.
Proof.
  intros HI Hi (j&lj&Hj&Htj). pose proof (rq_NoDup _ _ _ _ HI Hi) as ND%NoDup_middle.
  rewrite list_lookup_insert in Hj. case_decide as Ej; [naive_solver|].
  destruct Ej. split; [|by eapply lookup_lt_Some].
  eapply (rq_queue_unique s); eauto. set_solver.
Qed.

Lemma requeue_spec s qs i l1 t l2 :
  rq_inv s qs → qs !! i = Some (l1 ++ t :: l2) →
  ∃ s' th, threads s !! t = Some th ∧ (remove_thread t;; enqueue_thread t) s = Ret tt s' ∧
    rq_inv s' (<[i := t :: l1 ++ l2]> qs) ∧ sched_frame s s' ∧ threads s' = <[t := th <| cpu := 0 |>]> (threads s).
Proof.
  intros HI Hi. pose proof (lookup_lt_Some _ _ _ Hi) as Hlt.
  destruct (rq_mem _ _ HI _ _ t Hi) as (Hpos&th&Ht&Hp&Hcpu); [set_solver|].
  destruct (remove_thread_spec s qs t i l1 l2 HI Hi) as (s1&E1&HI1&HF1&T1).
  pose proof (queued_remove _ _ _ _ _ _ HI Hi) as Hnq.
  destruct (enqueue_thread_spec s1 (<[i:=l1 ++ l2]> qs) t th i (l1 ++ l2)) as (s2&E2&HI2&HF2&T2); try done.
  { by rewrite T1. }
  { rewrite <- elem_of_dom, (sf_dom _ _ HF1), elem_of_dom. eapply rq_alloc; [done|].
    exists i, (l1 ++ t :: l2). set_solver. }
  { by apply list_lookup_insert_eq. }
  rewrite list_insert_insert_eq in HI2. exists s2, th.
  split_and!; [done| |done|by etrans|by rewrite T2, T1]. run_with ltac:(exact E1). exact E2.
Qed.

(** [syscall_sched_yield], from any place in the queue. *)
Lemma yield_frame s qs i l1 t l2 :
  rq_inv s qs → qs !! i = Some (l1 ++ t :: l2) → current s = t →
  ∃ s' th, threads s !! t = Some th ∧ syscall_sched_yield s = Ret 0 s' ∧ rq_inv s' (<[i := t :: l1 ++ l2]> qs) ∧
    sched_frame s s' ∧ threads s' = <[t := th <| cpu := 0 |> <| sched_flag := 1 |>]> (threads s).
Proof.
  intros HI Hi Hc. destruct (requeue_spec s qs i l1 t l2 HI Hi) as (s1&th&Ht&E1&HI1&HF&T1).
  assert (Ht1 : threads s1 !! t = Some (th <| cpu := 0 |>)) by (by rewrite T1, lookup_insert_eq).
  exists (s1 <| threads ::= <[t := th <| cpu := 0 |> <| sched_flag := 1 |>]> |>), th. split_and!.
  - done.
  - unfold syscall_sched_yield. run. rewrite Hc, <- bind_assoc. run_with ltac:(exact E1).
    run_with ltac:(apply upd_thread_Ret; exact Ht1). done.
  - by eapply rq_inv_upd.
  - etrans; [exact HF|apply sched_frame_threads].
  - fields. rewrite T1. by rewrite insert_insert_eq.
Qed.

Lemma yield_spec s qs i l t :
  rq_inv s qs → qs !! i = Some (l ++ [t]) → current s = t →
  ∃ s', syscall_sched_yield s = Ret 0 s' ∧ rq_inv s' (<[i := t :: l]> qs).
Proof.
  intros HI Hi Hc. destruct (yield_frame s qs i l t [] HI Hi Hc) as (s'&th&_&?&HI'&_).
  rewrite app_nil_r in HI'. eauto.
Qed.

(** One turn of a thread that yields: it goes behind the threads of its level
    and the next of them runs. *)
Lemma yield_step s qs i l t u l' :
  rq_inv s qs → qs !! i = Some (l ++ [t]) →
  (∀ j lj, (i < j)%nat → qs !! j = Some lj → lj = []) → current s = t →
  t :: l = l' ++ [u] →
  ∃ s', (syscall_sched_yield;; schedule) s = Ret tt s' ∧ rq_inv s' (<[i := t :: l]> qs) ∧
    current s' = u.
Proof.
  intros HI Hi Habove Hc El. destruct (yield_spec s qs i l t HI Hi Hc) as (s1&E1&HI1).
  pose proof (lookup_lt_Some _ _ _ Hi) as Hlt.
  destruct (schedule_top s1 (<[i := t :: l]> qs) i u HI1) as (s2&E2&?&?).
  - split; [exists l'; by rewrite list_lookup_insert_eq, El|].
    intros j lj Hj. rewrite list_lookup_insert_ne by lia. by apply Habove.
  - exists s2. run_with ltac:(exact E1). done.
Qed.

Lemma wakeup_spec s qs t th i l :
  rq_inv s qs → threads s !! t = Some th → 0 < t → ¬ queued qs t →
  is_Some (links s !! runq (obj t)) →
  PRIOQ (priority_stat th) = Z.of_nat i → qs !! i = Some l →
  ∃ s', wakeup t s = Ret tt s' ∧ rq_inv s' (<[i := t :: l]> qs) ∧ sched_frame s s' ∧
    threads s' = <[t := th <| states := THREAD_READY |> <| priority_dyn := priority_stat th |>
                           <| cpu := 0 |>]> (threads s).
Proof.
  intros HI Ht Hpos Hnq Hs Hp Hi.
  set (th' := th <| states := THREAD_READY |> <| priority_dyn := priority_stat th |>).
  set (s1 := s <| threads ::= <[t := th']> |>).
  assert (HI1 : rq_inv s1 qs).
  { split; unfold s1; fields; try apply HI. intros j lj t' Hj Ht'.
    rewrite lookup_insert_ne; [by eapply (rq_mem _ _ HI)|]. intros ->. apply Hnq. by exists j, lj. }
  destruct (enqueue_thread_spec s1 qs t th' i l) as (s'&E&HI'&HF&HT); try done.
  { unfold s1; fields. by rewrite lookup_insert_eq. }
  exists s'. split_and!; [|done| |].
  - unfold wakeup. run. erewrite bind_Ret; [|apply upd_thread_Ret; fields; by rewrite lookup_insert_eq].
    rewrite <- E. f_equal. unfold s1, setf; cbn. f_equal. by rewrite insert_insert_eq.
  - etrans; [|exact HF]. apply sched_frame_threads.
  - rewrite HT. unfold s1; fields. by rewrite insert_insert_eq.
Qed.

(** [init_queues] makes [n] heads empty lists and leaves the others alone. *)
Lemma init_queues_spec n : ∀ i s,
  (∀ j, i <= j < i + Z.of_nat n → is_Some (links s !! run_head j)) →
  ∃ lk, init_queues n i s = Ret tt (s <| links := lk |>) ∧
    (∀ j, i <= j < i + Z.of_nat n → lk !! run_head j = Some (mk_link (run_head j) (run_head j))) ∧
    (∀ d, (∀ j, i <= j < i + Z.of_nat n → d ≠ run_head j) → lk !! d = links s !! d).
Proof.
  induction n as [|n IH]; intros i s Hs.
  { exists (links s). split_and!; [by destruct s|lia|done]. }
  destruct (Hs i) as [c Hc]; [lia|].
  set (lk0 := <[run_head i := mk_link (run_head i) (run_head i)]> (links s)).
  assert (E : list_init (run_head i) (links s) = Some lk0).
  { unfold list_init, wr_next, wr_prev. rewrite Hc. cbn. rewrite lookup_insert_eq. cbn.
    by rewrite insert_insert_eq. }
  destruct (IH (i + 1) (s <| links := lk0 |>)) as (lk&E'&Hin&Hout).
  { intros j Hj. fields. unfold lk0. apply lookup_insert_is_Some'. right. apply Hs. lia. }
  exists lk. split_and!.
  - cbn [init_queues]. run_with ltac:(apply on_links_Ret; exact E). exact E'.
  - intros j Hj. destruct (decide (j = i)) as [->|]; [|apply Hin; lia].
    rewrite Hout; [apply lookup_insert_eq|]. intros k Hk [= ->]. lia.
  - intros d Hd. rewrite Hout by (intros k Hk; apply Hd; lia). fields. unfold lk0.
    rewrite lookup_insert_ne; [done|]. intros <-. by apply (Hd i); [lia|].
Qed.

Lemma sched_init_spec s :
  ∃ s', sched_init s = Ret tt s' ∧ rq_inv s' (replicate 32 []) ∧ threads s' = threads s ∧
    current s' = current s ∧
    (∀ d, (∀ i, d ≠ run_head i) → links s' !! d = links s !! d).
Proof.
  set (lz := foldr (λ i, <[run_head i := mk_link NULL NULL]>) (links s) (seqZ 0 MAXQ)).
  set (s0 := s <| rq_bitmap := 0 |> <| rq_nthreads := 0 |> <| links := lz |>).
  assert (Hz : ∀ L d, (∀ i, i ∈ L → d ≠ run_head i) →
    foldr (λ i, <[run_head i := mk_link NULL NULL]>) (links s) L !! d = links s !! d).
  { induction L as [|i L IH]; intros d Hd; [done|]. cbn. rewrite lookup_insert_ne.
    - apply IH. intros k Hk. apply Hd. by right.
    - intros <-. by apply (Hd i); [left|]. }
  assert (Hs : ∀ L j, j ∈ L →
    is_Some (foldr (λ i, <[run_head i := mk_link NULL NULL]>) (links s) L !! run_head j)).
  { induction L as [|i L IH]; intros j Hj; [by apply elem_of_nil in Hj|]. cbn.
    apply lookup_insert_is_Some'. apply elem_of_cons in Hj as [->|Hj]; [by left|right; auto]. }
  destruct (init_queues_spec (Z.to_nat MAXQ) 0 s0) as (lk&E&Hin&Hout).
  { intros j Hj. apply Hs, elem_of_seqZ. change (Z.of_nat (Z.to_nat MAXQ)) with MAXQ in Hj. lia. }
  eexists. split; [|split_and!].
  - unfold sched_init. rewrite (bind_Ret _ _ _ tt s0); [exact E|done].
  - split; [done| | |done| |done]; intros i l.
    + intros [-> Hi]%lookup_replicate. fields. split; [|apply (run_ring _ []); [constructor|by intros ? ?%elem_of_nil]].
      cbn. unfold fwd, bwd, lnk, rd_next, rd_prev. rewrite decide_True by done.
      rewrite Hin; [done|]. change (Z.of_nat (Z.to_nat MAXQ)) with 32. lia.
    + intros t [-> _]%lookup_replicate. by intros ?%elem_of_nil.
    + intros [-> Hi]%lookup_replicate. fields. by rewrite Z.bits_0.
  - done.
  - done.
  - intros d Hd. fields. rewrite Hout by auto. unfold s0. fields. apply Hz. auto.
Qed.

(** The thread after its slice ran out, before it changes queue. *)
Definition expired (th : thread) : thread :=
  th <| time_slice := SLICE |> <| bound := Z.max PRIO_OTHER_MIN (bound th - 1) |>.

(** The part of [sched_timer] before the thread changes queue. *)
Lemma sched_timer_expire s t th :
  current s = t → threads s !! t = Some th → schedpolicy th = SCHED_OTHER →
  priority_stat th < PRIO_SYS_MIN → time_slice th = 1 → - 2 ^ 31 < bound th < 2 ^ 31 →
  sched_timer s =
  (remove_thread t;;
   upd_thread t (λ th, th <| priority_dyn := s32 (priority_stat th + bound th) |>);;
   enqueue_thread t) (s <| threads ::= <[t := expired th]> |>).
Proof.
  intros Hc Ht Hpol Hps Hsl Hb. unfold sched_timer. run. rewrite Hc. run. rewrite Hpol.
  cbn [Z.eqb]. change (SCHED_OTHER =? SCHED_RR) with false. change (SCHED_OTHER =? SCHED_OTHER) with true.
  cbn [negb]. rewrite (proj2 (Z.leb_gt _ _)) by done. cbv iota.
  do 2 (erewrite bind_Ret; [|first [apply upd_thread_Ret | apply get_thread_Ret]; fields;
    rewrite ?lookup_insert_eq; done]; cbv beta).
  fields. rewrite Hsl. change (s32 (1 - 1) =? 0) with true. cbv iota.
  do 3 (erewrite bind_Ret; [|first [apply upd_thread_Ret | apply get_thread_Ret]; fields;
    rewrite ?lookup_insert_eq; done]; cbv beta). fields.
  rewrite s32_id by lia. rewrite !threads_twice. unfold expired.
  destruct (Z.ltb_spec (bound th - 1) PRIO_OTHER_MIN).
  - erewrite bind_Ret; [|apply upd_thread_Ret; fields; rewrite ?lookup_insert_eq; done].
    rewrite threads_twice, Z.max_l by lia. done.
  - erewrite bind_Ret; [|done]. rewrite Z.max_r, <- (s32_id (bound th - 1)) by lia. done.
Qed.

(** A tick that ends the slice of a time-shared thread. *)
Lemma sched_timer_spec s qs t th i l1 l2 j l :
  rq_inv s qs → current s = t → threads s !! t = Some th →
  schedpolicy th = SCHED_OTHER → priority_stat th < PRIO_SYS_MIN → time_slice th = 1 →
  - 2 ^ 31 < bound th < 2 ^ 31 → qs !! i = Some (l1 ++ t :: l2) →
  PRIOQ (s32 (priority_stat th + Z.max PRIO_OTHER_MIN (bound th - 1))) = Z.of_nat j →
  <[i := l1 ++ l2]> qs !! j = Some l →
  ∃ s', sched_timer s = Ret tt s' ∧ rq_inv s' (<[j := t :: l]> (<[i := l1 ++ l2]> qs)) ∧ sched_frame s s' ∧
    threads s' = <[t := th <| time_slice := SLICE |>
      <| bound := Z.max PRIO_OTHER_MIN (bound th - 1) |>
      <| priority_dyn := s32 (priority_stat th + Z.max PRIO_OTHER_MIN (bound th - 1)) |>
      <| cpu := 0 |>]> (threads s).
Proof.
  intros HI Hc Ht Hpol Hps Hsl Hb Hi Hp Hj.
  rewrite (sched_timer_expire s t th) by done.
  set (s0 := s <| threads ::= <[t := expired th]> |>).
  assert (HI0 : rq_inv s0 qs) by (by eapply rq_inv_upd).
  destruct (remove_thread_spec s0 qs t i l1 l2 HI0 Hi) as (s1&E1&HI1&HF1&T1).
  pose proof (queued_remove _ _ _ _ _ _ HI0 Hi) as Hnq.
  set (th1 := expired th <| priority_dyn := s32 (priority_stat th + Z.max PRIO_OTHER_MIN (bound th - 1)) |>).
  assert (Ht1 : threads s1 !! t = Some (expired th)) by (rewrite T1; apply lookup_insert_eq).
  set (s2 := s1 <| threads ::= <[t := th1]> |>).
  assert (HI2 : rq_inv s2 (<[i:=l1 ++ l2]> qs)).
  { split; unfold s2; fields; try apply HI1. intros k lk u Hk Hu.
    rewrite lookup_insert_ne; [by eapply (rq_mem _ _ HI1)|]. intros ->. apply Hnq. by exists k, lk. }
  destruct (enqueue_thread_spec s2 (<[i:=l1 ++ l2]> qs) t th1 j l) as (s3&E3&HI3&HF3&T3); try done.
  { apply lookup_insert_eq. }
  { eapply (rq_mem _ _ HI0); [exact Hi|set_solver]. }
  { unfold s2. fields. rewrite <- elem_of_dom, (sf_dom _ _ HF1), elem_of_dom.
    eapply rq_alloc; [done|]. exists i, (l1 ++ t :: l2). set_solver. }
  exists s3. split_and!.
  - run_with ltac:(exact E1). run_with ltac:(apply upd_thread_Ret; exact Ht1). exact E3.
  - done.
  - etrans; [|exact HF3]. etrans; [|apply sched_frame_threads]. etrans; [|exact HF1]. apply sched_frame_threads.
  - rewrite T3. unfold s2. fields. rewrite T1. unfold s0. fields. by rewrite !insert_insert_eq.
Qed.

(** [n] times: the running thread yields and [schedule] runs; the result is
    the sequence of threads that ran. *)
Fixpoint yield_trace (n : nat) : K (list Z) :=
  match n with
  | O => mret []
  | S n' =>
      (syscall_sched_yield;; schedule);;
      c ← gets current;
      tr ← yield_trace n';
      mret (c :: tr)
  end.

Definition above_empty (qs : list (list Z)) (i : nat) : Prop :=
  ∀ j lj, (i < j)%nat → qs !! j = Some lj → lj = [].

Lemma above_empty_insert qs i l : above_empty qs i → above_empty (<[i := l]> qs) i.
Proof. intros H j lj Hj. rewrite list_lookup_insert_ne by lia. by apply H. Qed.

Lemma yield_trace_rotates i y : ∀ s qs x z l,
  rq_inv s qs → above_empty qs i →
  qs !! i = Some ((x ++ [z]) ++ y) → (x ++ [z]) ++ y = l ++ [current s] →
  ∃ tr s', yield_trace (length y) s = Ret tr s' ∧
    rq_inv s' (<[i := y ++ x ++ [z]]> qs) ∧ current s :: tr = rev y ++ [z].
Proof.
  induction y as [|t y IH] using rev_ind; intros s qs x z l HI Ha Hi Hl.
  - rewrite app_nil_r in *. exists [], s. split_and!; [done|by rewrite list_insert_id|].
    apply app_inj_tail in Hl as [_ ->]. done.
  - rewrite app_assoc in Hl. apply app_inj_tail in Hl as [<- Hc].
    assert (∃ l' u, t :: (x ++ [z]) ++ y = l' ++ [u]) as (l'&u&Hu).
    { destruct (list_snoc_cases (t :: (x ++ [z]) ++ y)) as [?|?]; [done|done]. }
    destruct (yield_step s qs i ((x ++ [z]) ++ y) t u l') as (s1&E1&HI1&Hc1); try done.
    { by rewrite Hi, app_assoc. }
    pose proof (lookup_lt_Some _ _ _ Hi) as Hlt.
    destruct (IH s1 (<[i := t :: (x ++ [z]) ++ y]> qs) (t :: x) z l') as (tr&s2&E2&HI2&Htr); try done.
    { by apply above_empty_insert. }
    { rewrite list_lookup_insert_eq by done. done. }
    { by rewrite Hc1, <- Hu. }
    exists (u :: tr), s2. rewrite list_insert_insert_eq in HI2. split_and!.
    + rewrite length_app, Nat.add_comm. cbn. run_with ltac:(exact E1). run.
      run_with ltac:(exact E2). by rewrite Hc1.
    + rewrite <- app_assoc. done.
    + rewrite rev_unit. cbn. by rewrite <- Htr, <- Hc, <- Hc1.
Qed.

(** ** Properties of the scheduler *)

(** C8. [schedule] always returns; the thread that runs next is the one that
    has waited longest at the highest level that holds a thread, or the idle
    thread when all levels are empty, and the run queues are unchanged. *)
Theorem schedule_picks s qs :
  rq_inv s qs → is_Some (threads s !! init_thread s) →
  ∃ s', schedule s = Ret tt s' ∧ rq_inv s' qs ∧
    ((∃ i, top_of qs i (current s')) ∨
     ((∀ i l, qs !! i = Some l → l = []) ∧ current s' = init_thread s)).
Proof.
  intros HI [th Hth]. destruct (rq_top _ _ HI) as [[_ Hnone]|(i&t&_&HT)].
  - destruct (schedule_idle s qs th) as (s'&?&?&?); eauto 10.
  - destruct (schedule_top s qs i t) as (s'&?&<-&?); eauto 10.
Qed.

(** C9. [wakeup] of a thread that is in no run queue makes it ready, gives it
    back its static priority and puts it behind the others of that level (the
    front of the list: [schedule] takes from the back); all other queues,
    threads and lists are unchanged. *)
Theorem wakeup_enqueues s qs t th i l :
  rq_inv s qs → threads s !! t = Some th → 0 < t → ¬ queued qs t →
  is_Some (links s !! runq (obj t)) →
  PRIOQ (priority_stat th) = Z.of_nat i → qs !! i = Some l →
  ∃ s', wakeup t s = Ret tt s' ∧ rq_inv s' (<[i := t :: l]> qs) ∧ sched_frame s s' ∧
    threads s' = <[t := th <| states := THREAD_READY |> <| priority_dyn := priority_stat th |>
                           <| cpu := 0 |>]> (threads s).
Proof. apply wakeup_spec. Qed.

(** [remove_thread] takes a queued thread out of its queue and nothing
    else: the order of the remaining threads and all other queues are kept,
    and the bit of the queue and the thread count stay exact. *)
Theorem remove_thread_refines s qs t i l1 l2 :
  rq_inv s qs → qs !! i = Some (l1 ++ t :: l2) →
  ∃ s', remove_thread t s = Ret tt s' ∧ rq_inv s' (<[i := l1 ++ l2]> qs) ∧
    sched_frame s s' ∧ threads s' = threads s.
Proof. apply remove_thread_spec. Qed.

(** C11. Round robin: when the threads of the highest level keep yielding,
    after as many yields as the level has threads each of them has run exactly
    once and the run queues are back where they were. *)
Theorem yield_round_robin s qs i l :
  rq_inv s qs → above_empty qs i → qs !! i = Some (l ++ [current s]) →
  ∃ tr s', yield_trace (S (length l)) s = Ret tr s' ∧ tr ≡ₚ l ++ [current s] ∧
    rq_inv s' qs.
Proof.
  intros HI Ha Hi. set (t := current s) in *.
  assert (∃ l' u, t :: l = l' ++ [u]) as (l'&u&Hu).
  { destruct (list_snoc_cases (t :: l)) as [?|?]; [done|done]. }
  destruct (yield_step s qs i l t u l') as (s1&E1&HI1&Hc1); try done.
  pose proof (lookup_lt_Some _ _ _ Hi) as Hlt.
  destruct (yield_trace_rotates i l s1 (<[i := t :: l]> qs) [] t l') as (tr&s2&E2&HI2&Htr); try done.
  { by apply above_empty_insert. }
  { by apply list_lookup_insert_eq. }
  { by rewrite Hc1, <- Hu. }
  exists (u :: tr), s2. rewrite list_insert_insert_eq, list_insert_id in HI2 by done. split_and!.
  - change (yield_trace (S (length l))) with ((syscall_sched_yield;; schedule);;
      c ← gets current; tr ← yield_trace (length l); mret (c :: tr) : K (list Z)).
    run_with ltac:(exact E1). run. run_with ltac:(exact E2). by rewrite Hc1.
  - rewrite <- Hc1, Htr. by rewrite <- Permutation_rev.
  - done.
Qed.

(** C12. A timer tick that ends the slice of a time-shared thread returns and
    gives it a fresh slice, moves it to the level of its static priority plus
    its decremented bound (never below [PRIO_OTHER_MIN]), behind the threads of
    that level, and changes no other queue. *)
Theorem sched_timer_expiry s qs t th i l1 l2 j l :
  rq_inv s qs → current s = t → threads s !! t = Some th →
  schedpolicy th = SCHED_OTHER → priority_stat th < PRIO_SYS_MIN → time_slice th = 1 →
  - 2 ^ 31 < bound th < 2 ^ 31 → qs !! i = Some (l1 ++ t :: l2) →
  PRIOQ (s32 (priority_stat th + Z.max PRIO_OTHER_MIN (bound th - 1))) = Z.of_nat j →
  <[i := l1 ++ l2]> qs !! j = Some l →
  ∃ s', sched_timer s = Ret tt s' ∧ rq_inv s' (<[j := t :: l]> (<[i := l1 ++ l2]> qs)) ∧
    threads s' !! t = Some (th <| time_slice := SLICE |>
      <| bound := Z.max PRIO_OTHER_MIN (bound th - 1) |>
      <| priority_dyn := s32 (priority_stat th + Z.max PRIO_OTHER_MIN (bound th - 1)) |>
      <| cpu := 0 |>) ∧
    (∀ u, u ≠ t → threads s' !! u = threads s !! u).
Proof.
  intros HI Hc Ht Hpol Hps Hsl Hb Hi Hp Hj.
  destruct (sched_timer_spec s qs t th i l1 l2 j l) as (s'&E&HI'&_&T); try done.
  exists s'. split_and!; [done..| |]; rewrite T; [apply lookup_insert_eq|].
  intros u Hu. by rewrite lookup_insert_ne.
Qed.

(** ** Deciding the invariant *)

Definition thread_at (s : kstate) (i : nat) (t : Z) : Prop :=
  0 < t ∧ match threads s !! t with
          | Some th => PRIOQ (priority_dyn th) = Z.of_nat i ∧ cpu th = 0
          | None => False
          end.
#[global] Instance thread_at_dec s i t : Decision (thread_at s i t).
Proof. unfold thread_at. destruct (threads s !! t); apply _. Defined.

Definition level_ok (s : kstate) (p : nat * list Z) : Prop :=
  dlist runq (links s) (run_head (Z.of_nat p.1)) (obj <$> p.2) ∧
  Forall (thread_at s p.1) p.2 ∧
  Z.testbit (rq_bitmap s) (Z.of_nat p.1) = negb (bool_decide (p.2 = [])).
#[global] Instance level_ok_dec s p : Decision (level_ok s p).
Proof. unfold level_ok. apply _. Defined.

Definition rq_ok (s : kstate) (qs : list (list Z)) : Prop :=
  length qs = 32%nat ∧ Forall (level_ok s) (imap pair qs) ∧
  0 <= rq_bitmap s < 2 ^ 32 ∧ rq_nthreads s = s32 (Z.of_nat (sum_list (length <$> qs))).

Lemma rq_inv_ok s qs : rq_inv s qs ↔ rq_ok s qs.
Proof.
  assert (∀ i l, qs !! i = Some l → imap pair qs !! i = Some (i, l)) as Him
    by (intros i l E; by rewrite list_lookup_imap, E).
  split.
  - intros HI. split_and!; [apply HI| |apply HI..].
    apply Forall_forall. intros [i l] (j&Hj)%list_elem_of_lookup.
    rewrite list_lookup_imap in Hj. destruct (qs !! j) eqn:E; cbn in *; simplify_eq.
    split_and!; [by apply (rq_ring _ _ HI)| |by apply (rq_bit _ _ HI)].
    apply Forall_forall. intros t Ht. destruct (rq_mem _ _ HI _ _ _ E Ht) as (?&th&Et&?).
    split; [done|]. by rewrite Et.
  - intros (?&HL&?&?). split; [done|..]; try done; intros i l.
    + intros Hi%Him. by apply (Forall_lookup_1 _ _ _ _ HL Hi).
    + intros t Hi%Him Ht. apply (Forall_lookup_1 _ _ _ _ HL) in Hi as (_&Hl&_).
      rewrite Forall_forall in Hl. destruct (Hl _ Ht) as [? Hth]. split; [done|].
      cbn in Hth. destruct (threads s !! t); [eauto|done].
    + intros Hi%Him. by apply (Forall_lookup_1 _ _ _ _ HL Hi).
Qed.
#[global] Instance rq_inv_dec s qs : Decision (rq_inv s qs).
Proof.
  refine (cast_if (decide (rq_ok s qs))); [by apply rq_inv_ok|by rewrite rq_inv_ok].
Defined.

#[global] Instance queued_dec qs t : Decision (queued qs t).
Proof.
  refine (cast_if (decide (Exists (λ l, t ∈ l) qs))); unfold queued.
  - apply Exists_exists in e as (l&(i&Hi)%list_elem_of_lookup&?). eauto.
  - intros (i&l&Hi&?). apply n, Exists_exists. exists l. split; [|done].
    by eapply list_elem_of_lookup_2.
Defined.

(** ** A machine with three threads *)
Definition thread0 : thread :=
  mk_thread 0 0 0 (mk_context 0 0 0 0 0) 0 THREAD_READY 0 (mk_attr 0 40 0 0 SCHED_OTHER) 40 4 SLICE 0
    0 0 0 msg0 0.
Definition k0 : kstate :=
  mk_kstate ∅ ∅ ∅ 0 0 0 0 0 0 id_init ∅ ∅ 0 0 0 0 0 ∅ ∅ ∅ ∅ ∅ ∅ ∅
    (mk_vmglobals 0 0 0 0 false 0 0 0) ∅ ∅ ∅ 0 ∅ ∅ ∅ ∅ ∅ 16 [].
(** An idle thread 1000, and threads 2000, 3000 and 4000. *)
Definition demo_k : kstate :=
  k0 <| init_thread := 1000 |> <| current := 1000 |>
     <| threads := list_to_map [(1000, thread0); (2000, thread0); (3000, thread0); (4000, thread0)] |>
     <| links := list_to_map ((λ t, (runq (obj t), mk_link NULL NULL)) <$> [1000; 2000; 3000; 4000]) |>.
(** The state after a routine that returned. *)
Definition after {S A} (m : M S A) (s : S) : S :=
  match m s with Ret _ s' => s' | _ => s end.
Definition demo_sched : kstate :=
  after (sched_init;; enqueue_thread 2000;; enqueue_thread 3000) demo_k.
Definition demo_qs : list (list Z) := replicate 10 [] ++ [[3000; 2000]] ++ replicate 21 [].

Lemma demo_rq_inv : rq_inv demo_sched demo_qs.
Proof. evaluate. Qed.

Lemma schedule_picks_witness :
  ∃ s', schedule demo_sched = Ret tt s' ∧ rq_inv s' demo_qs ∧
    ((∃ i, top_of demo_qs i (current s')) ∨
     ((∀ i l, demo_qs !! i = Some l → l = []) ∧ current s' = init_thread demo_sched)).
Proof. apply schedule_picks; [apply demo_rq_inv|by vm_compute; eexists]. Defined.

Lemma wakeup_enqueues_witness :
  ∃ s', wakeup 4000 demo_sched = Ret tt s' ∧
    rq_inv s' (<[10%nat := [4000; 3000; 2000]]> demo_qs) ∧ sched_frame demo_sched s' ∧
    threads s' = <[4000 := thread0 <| states := THREAD_READY |>
      <| priority_dyn := priority_stat thread0 |> <| cpu := 0 |>]> (threads demo_sched).
Proof.
  apply (wakeup_enqueues demo_sched demo_qs 4000 thread0 10 [3000; 2000]); evaluate.
Defined.

Lemma remove_thread_refines_witness :
  ∃ s', remove_thread 3000 demo_sched = Ret tt s' ∧ rq_inv s' (<[10%nat := [2000]]> demo_qs) ∧
    sched_frame demo_sched s' ∧ threads s' = threads demo_sched.
Proof.
  apply (remove_thread_refines demo_sched demo_qs 3000 10 [] [2000]); [apply demo_rq_inv|done].
Defined.

Lemma yield_round_robin_witness :
  ∃ tr s', yield_trace 2 (after schedule demo_sched) = Ret tr s' ∧ tr ≡ₚ [3000; 2000] ∧
    rq_inv s' demo_qs.
Proof.
  apply (yield_round_robin (after schedule demo_sched) demo_qs 10 [3000]); [evaluate| |done].
  intros j lj Hj Hlj.
  unfold demo_qs in Hlj. rewrite !lookup_app_r in Hlj by (rewrite ?length_replicate; cbn; lia).
  by apply lookup_replicate in Hlj as [-> _].
Defined.

(** The last tick of thread 2000's slice. *)
Definition demo_tick_th : thread := thread0 <| time_slice := 1 |> <| bound := 20 |>.
Definition demo_tick : kstate :=
  demo_sched <| current := 2000 |> <| threads ::= <[2000 := demo_tick_th]> |>.

Lemma sched_timer_expiry_witness :
  ∃ s', sched_timer demo_tick = Ret tt s' ∧
    rq_inv s' (<[14%nat := [2000]]> (<[10%nat := [3000]]> demo_qs)) ∧
    (∀ u, u ≠ 2000 → threads s' !! u = threads demo_tick !! u).
Proof.
  destruct (sched_timer_expiry demo_tick demo_qs 2000 demo_tick_th 10 [3000] [] 14 [])
    as (s'&H1&H2&_&H3); try evaluate.
  exact (ex_intro _ s' (conj H1 (conj H2 H3))).
Defined.
