(* ===== verification/Thread.v ===== *)
(** * Threads

    Models microkernel/kernel/thread.c with arch/i386/thread.c
    ([context_create], [arch_thread_init]): the hash table of threads, the
    creation and destruction of threads, and the sleeping primitives.  The page
    of a new thread holds what it held before: the argument [junk] of the
    creating routines.  A freed thread is no longer in the store, so that an
    access to it faults. *)

From S2P Require Import Prelude DList Bits Id Hash KState Sched.

Notation thread_list := (fld F_thread_list).
Notation threads_of p := (fld F_threads (obj p)).

Definition thash_insert (thread : Z) : K unit :=
  th ← get_thread thread;
  let t := hash_fn (tid th) in
  b ← gets (λ s, bucket (thash s) t);
  upd_thread thread (λ th, th <| t_next := b |>);;
  modify (λ s, s <| thash ::= <[t := thread]> |>).

(** [for(link = t->thr; link != NULL; link = link->next)
       if(link->next == thread) link->next = thread->next;] *)
Fixpoint thash_unlink (fuel : nat) (link thread : Z) : K unit :=
  if link =? 0 then mret tt
  else match fuel with
  | O => spin
  | S fuel =>
      n ← get_thread link;
      (if t_next n =? thread then
         th ← get_thread thread;
         upd_thread link (λ n, n <| t_next := t_next th |>)
       else mret tt);;
      n ← get_thread link;
      thash_unlink fuel (t_next n) thread
  end.

(** Enough steps for any chain that does not loop. *)
Definition thash_fuel (s : kstate) : nat := S (size (threads s)).

Definition thash_remove (thread : Z) : K unit :=
  th ← get_thread thread;
  let t := hash_fn (tid th) in
  b ← gets (λ s, bucket (thash s) t);
  if b =? thread then
    modify (λ s, s <| thash ::= <[t := t_next th]> |>)
  else
    fuel ← gets thash_fuel;
    thash_unlink fuel b thread.

Definition change_tid (thread new : Z) : K unit :=
  th ← get_thread thread;
  on_ids (dealloc_tid (tid th));;
  upd_thread thread (λ th, th <| tid := new |>);;
  thash_insert thread.

Definition sleep_interruptible (thr : Z) : K unit :=
  upd_thread thr (λ th, th <| states := THREAD_INT |>);;
  remove_thread thr;;
  schedule.

Definition sleep_uninterruptible (thr : Z) : K unit :=
  upd_thread thr (λ th, th <| states := THREAD_UNINT |>);;
  remove_thread thr;;
  schedule.

(** [for(link=t->thr; link->tid != tid; link=link->next) if(link == NULL) break;] *)
Fixpoint find_loop (fuel : nat) (link id : Z) : K Z :=
  match fuel with
  | O => spin
  | S fuel =>
      n ← get_thread link;
      if tid n =? id then mret link
      else if link =? 0 then mret link
      else find_loop fuel (t_next n) id
  end.

Definition find_by_tid (id : Z) : K Z :=
  b ← gets (λ s, bucket (thash s) (hash_fn id));
  n ← get_thread b;
  if tid n =? id then mret b
  else fuel ← gets thash_fuel; find_loop fuel b id.

(** asm/thread: the context of a new thread *)
Definition context_create (thread : Z) : K unit :=
  th ← get_thread thread;
  p ← get_proc (proc th);
  map ← deref vmaps (p_map p);
  pm ← deref pmaps (m_pmap map);
  upd_thread thread (λ th, th <| ctx ::= λ c,
    c <| esp := stack th |> <| cr3 := pdbr pm |> <| irqflag := 0 |> <| ctx_handler := 0 |> |>).

Definition list_init_at (h : ptr) : K unit := on_links (list_init h).

(** The part [create_thread] and [create_idle] share: the new thread is put
    on the list of the process. *)
Definition add_to_process (process thr : Z) : K unit :=
  get_proc process;;
  on_links (list_enqueue thread_list (threads_of process) (obj thr));;
  upd_thread thr (λ th, th <| proc := process |>).

(** The page of a thread: the structure holds [junk]. *)
Definition alloc_thread (junk : thread) : K Z :=
  thr ← kalloc [F_thread_list; F_runq; F_rcvq; F_sndq];
  if thr =? 0 then mret 0
  else modify (λ s, s <| threads ::= <[thr := junk]> |>);; mret thr.

Definition create_thread (junk : thread) (jbit : Z) (process : Z) (attr_ptr : option thread_attr)
    : K Z :=
  cur ← gets current;
  thr ← alloc_thread junk;
  if thr =? 0 then mret 0
  else
    list_init_at (thread_list (obj thr));;
    list_init_at (runq (obj thr));;
    add_to_process process thr;;
    upd_thread thr (λ th, th <| stack := u32 (thr + PAGE_SIZE - 1) |>);;
    upd_thread thr (λ th, th <| states := THREAD_READY |> <| sigpending := 0 |> <| time_slice := SLICE |>);;
    id ← on_ids (alloc_tid jbit);
    upd_thread thr (λ th, th <| tid := id |>);;
    at_ ← must attr_ptr;
    upd_thread thr (λ th, th <| attr := at_ |>);;
    list_init_at (fld F_rcvq (obj thr));;
    list_init_at (fld F_sndq (obj thr));;
    upd_thread thr (λ th, th <| cpu := 0 |> <| sched_flag := 0 |> <| waiting := 0 |>);;
    modify (λ s, s <| total_threads ::= λ n, s32 (n + 1) |>);;
    thash_insert thr;;
    (match attr_ptr with
     | None =>
         c ← get_thread cur;
         upd_thread thr (λ th, th <| attr ::= λ a, a <| attr_prio := priority_stat c |> |>
           <| priority_dyn := priority_dyn c |>
           <| attr ::= λ a, a <| attr_policy := schedpolicy c |> |>)
     | Some a =>
         upd_thread thr (λ th, th <| attr ::= λ x, x <| attr_prio := attr_prio a |> |>
           <| priority_dyn := attr_prio a |>
           <| attr ::= λ x, x <| attr_policy := attr_policy a |> |>)
     end);;
    context_create thr;;
    mret thr.

(** [memset(thr, 0, sizeof(struct thread))] *)
Definition zero_thread : thread :=
  mk_thread 0 0 0 (mk_context 0 0 0 0 0) 0 0 0 (mk_attr 0 0 0 0 0) 0 0 0 0 0 0 0 msg0 0.

Definition create_idle (cpu_no : Z) : K Z :=
  process ← gets kernel;
  thr ← alloc_thread zero_thread;
  if thr =? 0 then panic
  else
    list_init_at (thread_list (obj thr));;
    list_init_at (runq (obj thr));;
    add_to_process process thr;;
    upd_thread thr (λ th, th <| stack := u32 (thr + PAGE_SIZE - 1) |>);;
    upd_thread thr (λ th, th <| states := THREAD_READY |> <| sigpending := 0 |> <| time_slice := SLICE |>
      <| tid := 0 |> <| cpu := cpu_no |> <| sched_flag := 0 |> <| waiting := 0 |>);;
    upd_thread thr (λ th, th <| attr ::= λ a, a <| attr_prio := PRIO_SYS_MIN |> |>);;
    modify (λ s, s <| idle := thr |>);;
    modify (λ s, s <| total_threads ::= λ n, s32 (n + 1) |>);;
    thash_insert thr;;
    context_create thr;;
    mret thr.

Definition destroy_thread (thread : Z) : K Z :=
  th ← get_thread thread;
  on_ids (dealloc_tid (tid th));;
  thash_remove thread;;
  th ← get_thread thread;
  (if waiting th =? 0 then mret tt else wakeup (waiting th));;
  modify (λ s, s <| total_process ::= λ n, s32 (n - 1) |>);;
  th ← get_thread thread;
  get_proc (proc th);;
  on_links (list_del thread_list (threads_of (proc th)) (obj thread));;
  modify (λ s, s <| threads ::= delete thread |>);;
  mret 0.

(** arch/i386/thread.c; [LTR] loads the task register. *)
Definition arch_thread_init : K Z :=
  i ← gets init_thread;
  th ← get_thread i;
  modify (λ s, s <| tss_esp0 := stack th |>);;
  m ← gets ending_mem;
  mret (Z.quot m (PAGE_SIZE * 4)).

Definition thread_init : K unit :=
  modify (λ s, s <| thash := ∅ |>);;
  modify (λ s, s <| init_thread := current s |>);;
  i ← gets init_thread;
  k ← gets kernel;
  list_init_at (thread_list (obj i));;
  list_init_at (runq (obj i));;
  on_links (list_enqueue thread_list (threads_of k) (obj i));;
  upd_thread i (λ th, th <| stack := u32 (i + PAGE_SIZE - 1) |> <| proc := k |>);;
  context_create i;;
  thash_insert i;;
  upd_thread i (λ th, th <| attr ::= λ a, a <| attr_prio := PRIO_SYS_DEF |> <| attr_policy := SCHED_OTHER |> |>
    <| priority_dyn := PRIO_SYS_DEF |> <| time_slice := SLICE |> <| tid := 0 |>
    <| sigpending := 0 |> <| cpu := 0 |> <| sched_flag := 0 |> <| waiting := 0 |>);;
  list_init_at (fld F_rcvq (obj i));;
  list_init_at (fld F_sndq (obj i));;
  n ← arch_thread_init;
  modify (λ s, s <| max_threads := n |>).

(** The loop of [exit_threads]; [stop] counts how often the current thread was
    met. *)
Fixpoint exit_loop (fuel : nat) (process : ptr) (cur stop : Z) : K unit :=
  match fuel with
  | O => spin
  | S fuel =>
      e ← ask_links (list_isempty process);
      if (e : bool) then mret tt
      else
        p ← on_links' (list_dequeue thread_list process);
        thr ← as_obj p;
        if thr =? cur then
          on_links (list_enqueue thread_list process (obj cur));;
          if stop + 1 <? 2 then exit_loop fuel process cur (stop + 1) else mret tt
        else
          destroy_thread thr;;
          if stop <? 2 then exit_loop fuel process cur stop else mret tt
  end.

Definition exit_threads (process : ptr) : K unit :=
  cur ← gets current;
  fuel ← gets (λ s, S (S (S (size (threads s)))));
  exit_loop fuel process cur 0.

Definition thread_wait (id : Z) : K Z :=
  cur ← gets current;
  thr ← find_by_tid id;
  if thr =? 0 then mret (- ESRCH)
  else
    upd_thread thr (λ th, th <| waiting := cur |>);;
    sleep_uninterruptible thr;;
    mret 0.

Definition exec_thread (thr : Z) : K unit :=
  th ← get_thread thr;
  (if waiting th =? 0 then mret tt else wakeup (waiting th));;
  upd_thread thr (λ th, th <| waiting := 0 |>);;
  list_init_at (fld F_rcvq (obj thr));;
  list_init_at (fld F_sndq (obj thr)).

Definition syscall_gettid : K Z := c ← gets current; th ← get_thread c; mret (tid th).
Definition syscall_get_ustack : K Z :=
  c ← gets current; th ← get_thread c; mret (attr_stackaddr (attr th)).

(** ** The hash table *)

(** Bucket [h] of the table holds the threads [chain_of tb h]. *)
Definition tkey (th : thread) : Z := hash_fn (tid th).
Definition thash_inv (s : kstate) (tb : gmap Z (list Z)) : Prop :=
  table t_next tkey (threads s) (thash s) tb.

Lemma th_null s tb : thash_inv s tb → threads s !! 0 = None.
Proof. apply tab_null. Qed.
Lemma th_chain s tb :
  thash_inv s tb → ∀ h, chain t_next (threads s) (bucket (thash s) h) (chain_of tb h).
Proof. apply tab_chain. Qed.
Lemma th_NoDup s tb : thash_inv s tb → ∀ h, NoDup (chain_of tb h).
Proof. apply tab_NoDup. Qed.
Lemma th_hash s tb :
  thash_inv s tb → ∀ h x, x ∈ chain_of tb h → ∃ th, threads s !! x = Some th ∧ hash_fn (tid th) = h.
Proof. intros HI h x. apply (tab_key _ _ _ _ _ HI h x). Qed.
Lemma th_bucket s tb h x th :
  thash_inv s tb → x ∈ chain_of tb h → threads s !! x = Some th → h = hash_fn (tid th).
Proof. intros HI. apply (tab_bucket _ _ _ _ _ h x th HI). Qed.

(** The table depends on the threads and the buckets only. *)
Lemma thash_inv_proper s s' tb :
  threads s' = threads s → thash s' = thash s → thash_inv s tb → thash_inv s' tb.
Proof. unfold thash_inv. by intros -> ->. Qed.

(** ** find_by_tid *)
Lemma find_loop_spec s id : ∀ l fuel p,
  chain t_next (threads s) p l → (length l < fuel)%nat →
  find_loop fuel p id s =
    match list_find (λ x, tid <$> threads s !! x = Some id) l with
    | Some (_, x) => Ret x s
    | None => match threads s !! 0 with None => Fault | Some _ => find_loop fuel p id s end
    end.
Proof.
  induction l as [|x l IH]; intros fuel p Hc Hf.
  - rewrite chain_nil in Hc. subst. cbn. destruct (threads s !! 0) eqn:E; [done|].
    destruct fuel; [cbn in Hf; lia|]. cbn. unfold mbind, M_bind, get_thread. by rewrite E.
  - rewrite chain_cons in Hc. destruct Hc as (->&Hx&n&En&Hc). cbn [length] in Hf.
    destruct fuel as [|fuel]; [lia|]. cbn [find_loop list_find].
    case_decide as Hd; rewrite En in Hd; cbn in Hd.
    + run. rewrite (proj2 (Z.eqb_eq _ _)) by congruence. done.
    + assert (tid n ≠ id) by congruence.
      assert (Hstep : (get_thread x ≫= λ n, if tid n =? id then mret x
        else if x =? 0 then mret x else find_loop fuel (t_next n) id) s
        = find_loop fuel (t_next n) id s).
      { run. rewrite (proj2 (Z.eqb_neq (tid n) id)), (proj2 (Z.eqb_neq x 0)) by done. done. }
      rewrite Hstep, (IH fuel (t_next n)) by (done || lia).
      destruct (list_find _ l) as [[i y]|]; cbn; [done|].
      destruct (threads s !! 0); done.
Qed.

(** [find_by_tid] is the search for the id in the bucket of its hash. *)
Lemma find_by_tid_spec s tb id :
  thash_inv s tb →
  find_by_tid id s =
    match list_find (λ x, tid <$> threads s !! x = Some id) (chain_of tb (hash_fn id)) with
    | Some (_, x) => Ret x s
    | None => Fault
    end.
Proof.
  intros HI. pose proof (th_chain _ _ HI (hash_fn id)) as Hc.
  pose proof (th_NoDup _ _ HI (hash_fn id)) as ND. unfold find_by_tid. run.
  set (l := chain_of tb (hash_fn id)) in *. set (b := bucket (thash s) (hash_fn id)) in *.
  assert (Hs : (fuel ← gets thash_fuel; find_loop fuel b id) s =
    match list_find (λ x, tid <$> threads s !! x = Some id) l with
    | Some (_, x) => Ret x s | None => Fault end).
  { run. rewrite (find_loop_spec s id l) by
      first [done | unfold thash_fuel; apply (chain_size t_next) in Hc; [lia|done]].
    destruct (list_find _ l) as [[??]|]; [done|]. by rewrite (th_null _ _ HI). }
  destruct l as [|x l']; cbn [list_find] in *.
  - rewrite chain_nil in Hc. unfold mbind, M_bind, get_thread. by rewrite Hc, (th_null _ _ HI).
  - rewrite chain_cons in Hc. destruct Hc as (->&?&n&En&Hc). run.
    destruct (Z.eqb_spec (tid n) id) as [E|E].
    + rewrite decide_True by (rewrite En; cbn; congruence). done.
    + done.
Qed.

Lemma find_by_tid_hit s tb x th :
  thash_inv s tb → hashed tb x → threads s !! x = Some th →
  (∀ y thy, hashed tb y → threads s !! y = Some thy → tid thy = tid th → y = x) →
  find_by_tid (tid th) s = Ret x s.
Proof.
  intros HI [h Hx] E Hu. pose proof (th_bucket _ _ _ _ _ HI Hx E) as ->.
  rewrite (find_by_tid_spec s tb) by done.
  destruct (list_find _ _) as [[i y]|] eqn:Hf.
  - apply list_find_Some in Hf as (Hy&Ht&_). apply list_elem_of_lookup_2 in Hy.
    destruct (th_hash _ _ HI _ _ Hy) as (thy&Ey&_). rewrite Ey in Ht. cbn in Ht.
    f_equal. eapply Hu; [by eexists|done|congruence].
  - apply list_find_None in Hf. rewrite Forall_forall in Hf. destruct (Hf x Hx). by rewrite E.
Qed.

(** ** thash_insert and thash_remove *)
Lemma thash_insert_spec s tb x th :
  thash_inv s tb → threads s !! x = Some th → ¬ hashed tb x →
  ∃ s', thash_insert x s = Ret tt s' ∧
    s' = s <| threads ::= <[x := th <| t_next := bucket (thash s) (hash_fn (tid th)) |>]> |>
           <| thash ::= <[hash_fn (tid th) := x]> |> ∧
    thash_inv s' (<[hash_fn (tid th) := x :: chain_of tb (hash_fn (tid th))]> tb).
Proof.
  intros HI E Hn. eexists. split; [|split; [done|]].
  { unfold thash_insert. run. cbn zeta. run. run. done. }
  apply (tab_push t_next tkey (threads s) (thash s)); try done. by eapply tab_not_null.
Qed.

Lemma thash_unlink_absent s x : x ≠ 0 → ∀ l fuel p,
  chain t_next (threads s) p l → x ∉ l → (length l <= fuel)%nat →
  thash_unlink fuel p x s = Ret tt s.
Proof.
  intros Hx0. induction l as [|y l IH]; intros fuel p Hc Hx Hf.
  - rewrite chain_nil in Hc. subst. by destruct fuel.
  - rewrite chain_cons in Hc. destruct Hc as (->&Hy&n&En&Hc).
    destruct fuel as [|fuel]; [cbn in Hf; lia|]. cbn [thash_unlink].
    rewrite (proj2 (Z.eqb_neq y 0)) by done. run.
    assert (t_next n ≠ x).
    { intros Ex. destruct l as [|z l]; [by rewrite chain_nil in Hc; congruence|].
      rewrite chain_cons in Hc. destruct Hc as (Hz&_). subst. apply Hx. right. by left. }
    rewrite (proj2 (Z.eqb_neq (t_next n) x)) by done. run. run.
    apply IH; [done| |cbn in Hf; lia]. intros ?. apply Hx. by right.
Qed.

Lemma thash_unlink_spec x nx y ny l2 : ∀ l1 s fuel p,
  NoDup (l1 ++ y :: x :: l2) → chain t_next (threads s) p (l1 ++ y :: x :: l2) →
  threads s !! y = Some ny → threads s !! x = Some nx →
  (length (l1 ++ y :: x :: l2) <= fuel)%nat →
  thash_unlink fuel p x s =
    Ret tt (s <| threads ::= <[y := ny <| t_next := t_next nx |>]> |>).
Proof.
  induction l1 as [|z l1 IH]; intros s fuel p ND Hc Ey Ex Hf; cbn [app] in *.
  - pose proof Hc as Hc'. rewrite chain_cons in Hc. destruct Hc as (->&Hy&n&En&Hc). simplify_eq.
    rewrite chain_cons in Hc. destruct Hc as (Hn&Hx&n'&En'&Hc). simplify_eq.
    destruct fuel as [|fuel]; [cbn in Hf; lia|]. cbn [thash_unlink].
    rewrite (proj2 (Z.eqb_neq y 0)) by done. run. rewrite (proj2 (Z.eqb_eq _ _)) by done.
    rewrite bind_assoc. run. run. erewrite bind_Ret by (apply get_thread_Ret; apply lookup_insert_eq).
    apply NoDup_cons in ND as [Hy' [Hx' ND]%NoDup_cons].
    apply (thash_unlink_absent _ _ Hx l2); [|done|cbn in Hf; lia].
    apply chain_insert_out; [|done]. intros ?. apply Hy'. by right.
  - rewrite chain_cons in Hc. destruct Hc as (->&Hz&n&En&Hc).
    apply NoDup_cons in ND as [Hz' ND].
    destruct fuel as [|fuel]; [cbn in Hf; lia|]. cbn [thash_unlink].
    rewrite (proj2 (Z.eqb_neq z 0)) by done. run.
    assert (t_next n ≠ x).
    { intros E. destruct l1 as [|w l1]; cbn [app] in *; rewrite chain_cons in Hc;
        destruct Hc as (Hw&_); rewrite E in Hw; subst.
      - apply NoDup_cons in ND as [ND _]. apply ND. by left.
      - apply NoDup_cons in ND as [ND _]. apply ND. set_solver. }
    rewrite (proj2 (Z.eqb_neq (t_next n) x)) by done. run. run.
    apply IH; try done. cbn in Hf. lia.
Qed.

(** Threads that differ in their hash links only. *)
Definition same_threads (T T' : gmap Z thread) : Prop :=
  ∀ y, (λ th, th <| t_next := 0 |>) <$> T' !! y = (λ th, th <| t_next := 0 |>) <$> T !! y.

#[global] Instance same_threads_equiv : Equivalence same_threads.
Proof. unfold same_threads. split; [done|by intros ???|]. intros ??? H1 H2 y. by rewrite H2. Qed.

Lemma same_threads_insert T y th th' :
  T !! y = Some th → th' <| t_next := 0 |> = th <| t_next := 0 |> → same_threads T (<[y := th']> T).
Proof.
  intros E H z. destruct (decide (z = y)) as [->|]; [|by rewrite lookup_insert_ne].
  rewrite lookup_insert_eq, E. cbn. by rewrite H.
Qed.

Lemma same_threads_tid T T' y th :
  same_threads T T' → T !! y = Some th → ∃ th', T' !! y = Some th' ∧ tid th' = tid th.
Proof.
  intros H E. specialize (H y). rewrite E in H. destruct (T' !! y) as [th'|]; cbn in H; [|done].
  exists th'. split; [done|]. injection H. done.
Qed.

Lemma thash_remove_spec s tb x th l1 l2 :
  thash_inv s tb → threads s !! x = Some th →
  chain_of tb (hash_fn (tid th)) = l1 ++ x :: l2 →
  ∃ T' B', thash_remove x s = Ret tt (s <| threads := T' |> <| thash := B' |>) ∧
    thash_inv (s <| threads := T' |> <| thash := B' |>) (<[hash_fn (tid th) := l1 ++ l2]> tb) ∧
    same_threads (threads s) T' ∧ T' !! x = Some th.
Proof.
  intros HI E Hl. set (h := hash_fn (tid th)) in *.
  pose proof (th_chain _ _ HI h) as Hc. pose proof (th_NoDup _ _ HI h) as ND. rewrite Hl in Hc, ND.
  unfold thash_remove. run. cbn zeta. fold h. run.
  destruct (list_middle_pred l1 x l2) as [->|(l&y&->&Hm)].
  - cbn [app] in Hc. rewrite chain_cons in Hc. destruct Hc as (Hb&Hx&n&En&Hc). simplify_eq.
    rewrite (proj2 (Z.eqb_eq _ _)) by done. exists (threads s), (<[h := t_next th]> (thash s)).
    split_and!; [by rewrite modify_Ret; destruct s| |done|done].
    eapply (tab_remove _ _ (threads s) _ (thash s)); [done|done|apply HI|eauto|..]; fields.
    + rewrite bucket_insert, decide_True by done. exact Hc.
    + intros h' Hh. rewrite bucket_insert, decide_False by done. apply HI.
  - rewrite Hm in *. assert (bucket (thash s) h ≠ x) as Hb.
    { intros Hb. destruct l as [|w l]; cbn [app] in *; rewrite chain_cons in Hc;
        destruct Hc as (Hw&_); apply NoDup_cons in ND as [ND _]; apply ND; subst; set_solver. }
    rewrite (proj2 (Z.eqb_neq _ _)) by done. run.
    destruct (chain_elem t_next _ _ _ y Hc) as [_ [ny Ey]]; [set_solver|].
    rewrite (thash_unlink_spec x th y ny l2 l) by
      first [done | unfold thash_fuel; apply (chain_size t_next) in Hc; [lia|done]].
    exists (<[y := ny <| t_next := t_next th |>]> (threads s)), (thash s).
    assert (y ≠ x) as Hyx by (intros ->; apply NoDup_app in ND as (_&_&[ND _]%NoDup_cons); set_solver).
    split_and!; [by destruct s| |by eapply same_threads_insert|by rewrite lookup_insert_ne].
    assert (HS : same_threads (threads s) (<[y := ny <| t_next := t_next th |>]> (threads s)))
      by (by eapply same_threads_insert).
    eapply (tab_remove _ _ (threads s) _ (thash s)); [done|by rewrite Hl|..].
    + fields. rewrite lookup_insert_ne; [apply HI|]. by eapply tab_not_null.
    + intros z n Ez. destruct (same_threads_tid _ _ _ _ HS Ez) as (n'&?&Hn). exists n'.
      unfold tkey. by rewrite Hn.
    + rewrite <- app_assoc. cbn [app]. by eapply chain_unlink.
    + intros h' Hh. apply chain_insert_out; [|apply HI]. intros Hy.
      assert (y ∈ chain_of tb h) as Hy' by (rewrite Hl; set_solver).
      destruct (th_hash _ _ HI _ _ Hy) as (?&?&?), (th_hash _ _ HI _ _ Hy') as (?&?&?). congruence.
Qed.

(** ** Creation *)

(** The link members of a new thread. *)
Definition thread_fields : list Z := [F_thread_list; F_runq; F_rcvq; F_sndq].

Definition fresh_cells (t : Z) (L : gmap ptr (linked_list ptr)) : gmap ptr (linked_list ptr) :=
  foldr (λ f, <[fld f (obj t) := mk_link NULL NULL]>) L thread_fields.

Lemma fresh_cells_other t L d : d.1 ≠ t → fresh_cells t L !! d = L !! d.
Proof.
  intros Hd. unfold fresh_cells. cbn.
  rewrite !lookup_insert_ne by (intros <-; apply Hd; done). done.
Qed.

Lemma fresh_cells_in t L f : f ∈ thread_fields → is_Some (fresh_cells t L !! fld f (obj t)).
Proof.
  unfold fresh_cells, thread_fields. rewrite !elem_of_cons, elem_of_nil.
  intros [->|[->|[->|[->|[]]]]]; cbn; rewrite ?lookup_insert_is_Some'; auto 10.
Qed.

(** The cells of a list of threads other than [t] under a head that is not in [t]. *)
Lemma cells_other m h l t d :
  h.1 ≠ t → t ∉ l → d ∈ cells (fld m) h (obj <$> l) → d.1 ≠ t.
Proof.
  intros Hh Hl [->|Hd]%elem_of_cons; [done|].
  rewrite <- list_fmap_compose in Hd. apply list_elem_of_fmap in Hd as (x&->&Hx). cbn. congruence.
Qed.

(** The list operations of [create_thread], on the links alone. *)
Lemma new_thread_links L p l t :
  dlist thread_list L (threads_of p) (obj <$> l) → t ∉ l → t ≠ p →
  ∃ L1 L2 L3 L4 L5,
    list_init (thread_list (obj t)) (fresh_cells t L) = Some L1 ∧
    list_init (runq (obj t)) L1 = Some L2 ∧
    list_enqueue thread_list (threads_of p) (obj t) L2 = Some L3 ∧
    list_init (fld F_rcvq (obj t)) L3 = Some L4 ∧
    list_init (fld F_sndq (obj t)) L4 = Some L5 ∧
    dlist thread_list L5 (threads_of p) (obj <$> t :: l) ∧
    is_Some (L5 !! runq (obj t)) ∧
    dlist (fld F_sndq) L5 (fld F_rcvq (obj t)) [] ∧
    (∀ d, d.1 ≠ t → d ∉ cells thread_list (threads_of p) (obj <$> l) → L5 !! d = L !! d).
Proof.
  intros HD Hl Hp.
  assert (Hin : ∀ st st' h cs f, f ∈ thread_fields → rewires (fld 0) st h [] cs st' →
    is_Some (st !! fld f (obj t)) → is_Some (st' !! fld f (obj t))).
  { intros st st' h cs f _ (_&Hdom&_). rewrite <- !elem_of_dom. by rewrite Hdom. }
  pose proof (fresh_cells_in t L) as H0.
  destruct (list_init_spec (fld 0) (fresh_cells t L) (thread_list (obj t))) as (L1&E1&W1);
    [apply H0; set_solver|].
  destruct (list_init_spec (fld 0) L1 (runq (obj t))) as (L2&E2&W2);
    [eapply Hin; [|exact W1|apply H0]; set_solver|].
  assert (Hd2 : ∀ d, d.1 ≠ t → L2 !! d = L !! d).
  { intros d Hd. destruct W1 as (_&_&F1), W2 as (_&_&F2).
    rewrite F2, F1, fresh_cells_other by (done || intros ->%list_elem_of_singleton; done). done. }
  assert (HD2 : dlist thread_list L2 (threads_of p) (obj <$> l)).
  { eapply dlist_frame; [|exact HD]. intros d Hd. apply Hd2. eapply cells_other; [| |exact Hd]; cbn; congruence. }
  assert (HR : ring thread_list (threads_of p) (obj <$> t :: l)).
  { destruct (dlist_ring _ _ _ _ HD2) as [Hr1 Hr2]. split.
    - rewrite fmap_cons, not_elem_of_cons. split; [|done]. intros [=]. congruence.
    - unfold cells in *. cbn. apply NoDup_cons in Hr2 as [Hh ND]. repeat (apply NoDup_cons; split).
      + apply not_elem_of_cons. split; [|done]. intros [=]. congruence.
      + rewrite <- list_fmap_compose. intros (x&[=]&Hx)%list_elem_of_fmap. congruence.
      + done. }
  assert (Hs2 : ∀ f, f ∈ thread_fields → is_Some (L2 !! fld f (obj t))).
  { intros f Hf. eapply Hin; [done|exact W2|]. eapply Hin; [done|exact W1|]. by apply H0. }
  destruct (list_enqueue_spec thread_list L2 (threads_of p) (obj <$> l) (obj t)) as (L3&E3&W3);
    [done..|apply Hs2; set_solver|].
  assert (Hs3 : ∀ f, f ∈ thread_fields → is_Some (L3 !! fld f (obj t))).
  { intros f Hf. destruct W3 as (_&Hdom&_). rewrite <- elem_of_dom, Hdom, elem_of_dom. by apply Hs2. }
  destruct (list_init_spec (fld F_sndq) L3 (fld F_rcvq (obj t))) as (L4&E4&W4); [apply Hs3; set_solver|].
  assert (Hs4 : ∀ f, f ∈ thread_fields → is_Some (L4 !! fld f (obj t))).
  { intros f Hf. destruct W4 as (_&Hdom&_). rewrite <- elem_of_dom, Hdom, elem_of_dom. by apply Hs3. }
  destruct (list_init_spec (fld 0) L4 (fld F_sndq (obj t))) as (L5&E5&W5); [apply Hs4; set_solver|].
  exists L1, L2, L3, L4, L5. split_and!; [done..| | | |].
  - destruct W3 as (HD3&_&_), W4 as (_&_&F4), W5 as (_&_&F5).
    eapply dlist_frame; [|exact HD3]. intros d Hd.
    assert (Hcase : d.1 ≠ t ∨ d = thread_list (obj t)).
    { change (obj <$> t :: l) with ([obj t] ++ (obj <$> l)) in Hd. unfold cells in Hd.
      rewrite fmap_app, elem_of_cons, elem_of_app in Hd. destruct Hd as [->|[Hd|Hd]].
      - left. cbn. congruence.
      - right. by apply list_elem_of_singleton in Hd.
      - left. eapply (cells_other _ (threads_of p)); [|exact Hl|right; exact Hd]. cbn. congruence. }
    rewrite F5, F4; [done|..]; intros ->%list_elem_of_singleton; destruct Hcase as [?|[=]]; done.
  - destruct W5 as (_&Hdom&_). rewrite <- elem_of_dom, Hdom, elem_of_dom. apply Hs4. set_solver.
  - destruct W4 as (HD4&_&_), W5 as (_&_&F5). eapply dlist_frame; [|exact HD4].
    intros d ->%list_elem_of_singleton. apply F5. intros [=]%list_elem_of_singleton.
  - intros d Hd Hc. destruct W3 as (_&_&F3), W4 as (_&_&F4), W5 as (_&_&F5).
    rewrite F5, F4, F3; [by apply Hd2| | |].
    + unfold cells in *. cbn. rewrite !not_elem_of_cons in *.
      destruct Hc as [? ?]. split_and!; [done| |done]. intros ->. done.
    + intros ->%list_elem_of_singleton. done.
    + intros ->%list_elem_of_singleton. done.
Qed.

(** [alloc_tid] while an id is free. *)
Lemma alloc_tid_spec i jb :
  id_wf (tids i) → (∃ j, 0 <= j < id_max ∧ ¬ used (tids i) j) →
  ∃ r m', alloc_tid jb i = Ret (FIRST_USER_TID + r) (i <| tids := m' |>) ∧ id_wf m' ∧
    0 <= r < id_max ∧ ¬ used (tids i) r ∧ (∀ j, used m' j ↔ used (tids i) j ∨ j = r).
Proof.
  intros Hwf (j&Hj&Hn). destruct (alloc_id_cases jb (tids i) Hwf) as (r&m'&E&Hwf'&[(Hr&Hu&Hm)|(_&_&Ha)]).
  - exists r, m'. split_and!; try done; try lia. unfold alloc_tid, within, mbind, M_bind.
    rewrite E. cbn. rewrite s32_id; [done|]. unfold id_max, id_words, FIRST_USER_TID in *. lia.
  - destruct Hn. by apply Ha.
Qed.

(** The structure [create_thread] leaves; [bound], [exitstat], [sa_mask] and
    [msg] are not initialised. *)
Definition new_thread (junk : thread) (t p : Z) (a : thread_attr) (id nxt pd : Z) : thread :=
  mk_thread nxt 0 id (mk_context (eip (ctx junk)) (u32 (t + PAGE_SIZE - 1)) pd 0 0)
    (u32 (t + PAGE_SIZE - 1)) THREAD_READY p a (attr_prio a) (bound junk) SLICE 0
    (exitstat junk) (sa_mask junk) 0 (msg junk) 0.

Lemma create_thread_spec s tb junk jb p pr mp pm a l t rest :
  thash_inv s tb → id_wf (tids (kids s)) → (∃ j, 0 <= j < id_max ∧ ¬ used (tids (kids s)) j) →
  kmem s = t :: rest → 0 < t → threads s !! t = None →
  procs s !! p = Some pr → vmaps s !! p_map pr = Some mp → pmaps s !! m_pmap mp = Some pm →
  dlist thread_list (links s) (threads_of p) (obj <$> l) → t ∉ l → t ≠ p →
  ∃ s' id m', create_thread junk jb p (Some a) s = Ret t s' ∧
    FIRST_USER_TID <= id ∧ ¬ used (tids (kids s)) (id - FIRST_USER_TID) ∧
    kids s' = (kids s) <| tids := m' |> ∧ id_wf m' ∧
    (∀ j, used m' j ↔ used (tids (kids s)) j ∨ j = id - FIRST_USER_TID) ∧
    threads s' = <[t := new_thread junk t p a id (bucket (thash s) (hash_fn id)) (pdbr pm)]> (threads s) ∧
    thash_inv s' (<[hash_fn id := t :: chain_of tb (hash_fn id)]> tb) ∧
    dlist thread_list (links s') (threads_of p) (obj <$> t :: l) ∧
    dlist (fld F_sndq) (links s') (fld F_rcvq (obj t)) [] ∧
    (∀ d, d.1 ≠ t → d ∉ cells thread_list (threads_of p) (obj <$> l) → links s' !! d = links s !! d).
Proof.
  intros HI Hwf Hfree Hk Ht Htn Hp Hm Hpm HD Hl Htp.
  destruct (new_thread_links (links s) p l t HD Hl Htp)
    as (L1&L2&L3&L4&L5&E1&E2&E3&E4&E5&HD5&_&HD6&HF).
  destruct (alloc_tid_spec (kids s) jb Hwf Hfree) as (r&m'&Er&Hwf'&Hr&Hu&Hm').
  set (id := FIRST_USER_TID + r) in *.
  unfold create_thread. run.
  assert (alloc_thread junk s = Ret t (s <| kmem := rest |> <| links := fresh_cells t (links s) |>
    <| threads ::= <[t := junk]> |>)) as Ea.
  { unfold alloc_thread, kalloc. unfold mbind, M_bind. rewrite Hk. cbn.
    rewrite (proj2 (Z.eqb_neq t 0)) by lia. done. }
  run_with ltac:(exact Ea). rewrite (proj2 (Z.eqb_neq t 0)) by lia.
  unfold list_init_at, add_to_process. do 13 step. unfold thash_insert, context_create.
  cbv zeta. repeat step. eexists _, id, m'. split; [done|]. flat. rewrite !insert_insert_eq.
  assert (Hid : id - FIRST_USER_TID = r) by (unfold id; lia). rewrite Hid.
  set (th := new_thread junk t p a id (bucket (thash s) (hash_fn id)) (pdbr pm)).
  match goal with |- context [<[t := ?x]> (threads s) = _] => assert (x = th) as -> by (by destruct a) end.
  split_and!; try done; [unfold id; lia|].
  apply (tab_push t_next tkey (threads s) (thash s)); [done|by eapply tab_fresh|lia|done..].
Qed.

(** ** Destruction *)

(** [dealloc_tid] of an id that [alloc_tid] can hand out. *)
Lemma dealloc_tid_spec i id :
  id_wf (tids i) → FIRST_USER_TID <= id < FIRST_USER_TID + id_max →
  ∃ m', dealloc_tid id i = Ret tt (i <| tids := m' |>) ∧ id_wf m' ∧
    (∀ j, used m' j ↔ used (tids i) j ∧ j ≠ id - FIRST_USER_TID).
Proof.
  intros Hwf Hid. destruct (dealloc_id_spec (tids i) (id - FIRST_USER_TID)) as (m'&E&?&_&?); [done|lia|].
  exists m'. split_and!; try done. unfold dealloc_tid, within.
  rewrite s32_id by (unfold id_max, id_words, FIRST_USER_TID in *; lia). by rewrite E.
Qed.

(** What the destruction of a thread does not touch. *)
Definition thread_mask (s : kstate) : kstate :=
  s <| links := ∅ |> <| threads := ∅ |> <| kids := id_init |> <| thash := ∅ |>
    <| total_process := 0 |>.

Lemma same_threads_delete T T' x :
  same_threads T T' → same_threads (delete x T) (delete x T').
Proof.
  intros H y. destruct (decide (y = x)) as [->|]; [by rewrite !lookup_delete_eq|].
  by rewrite !lookup_delete_ne.
Qed.

(** Destroying a thread that nobody waits for; [L'] are the links after
    [list_del]. *)
Lemma destroy_thread_spec s tb x th l1 l2 pr L' :
  thash_inv s tb → id_wf (tids (kids s)) → threads s !! x = Some th → waiting th = 0 →
  FIRST_USER_TID <= tid th < FIRST_USER_TID + id_max → procs s !! proc th = Some pr →
  chain_of tb (hash_fn (tid th)) = l1 ++ x :: l2 →
  list_del thread_list (threads_of (proc th)) (obj x) (links s) = Some L' →
  ∃ s' m', destroy_thread x s = Ret 0 s' ∧ links s' = L' ∧
    kids s' = (kids s) <| tids := m' |> ∧ id_wf m' ∧
    (∀ j, used m' j ↔ used (tids (kids s)) j ∧ j ≠ tid th - FIRST_USER_TID) ∧
    thash_inv s' (<[hash_fn (tid th) := l1 ++ l2]> tb) ∧
    same_threads (delete x (threads s)) (threads s') ∧ thread_mask s' = thread_mask s.
Proof.
  intros HI Hwf E Hw Hid Hp Hl EL.
  destruct (dealloc_tid_spec (kids s) (tid th) Hwf Hid) as (m'&Em&Hwf'&Hu).
  set (s0 := s <| kids := (kids s) <| tids := m' |> |>).
  destruct (thash_remove_spec s0 tb x th l1 l2) as (T'&B'&Er&HI'&HT&Ex);
    [by eapply thash_inv_proper; [..|exact HI]|done..|].
  set (s1 := s0 <| threads := T' |> <| thash := B' |>) in *.
  eexists _, m'. split.
  { unfold destroy_thread. run. run_with ltac:(apply on_ids_Ret; exact Em). run_with ltac:(exact Er).
    run_with ltac:(apply get_thread_Ret; exact Ex). rewrite Hw. cbn [Z.eqb]. run. run.
    run_with ltac:(apply get_thread_Ret; exact Ex). run.
    run_with ltac:(apply on_links_Ret; exact EL). run. reflexivity. }
  split_and!; try reflexivity; try done.
  - apply (tab_delete t_next tkey T' B'); [exact HI'|].
    intros Hx. by apply (hashed_remove t_next tkey (threads s) (thash s) tb _ x l1 l2) in Hx as [_ ?].
  - by apply same_threads_delete.
Qed.

(** *** All threads of a process but the current one *)

(** The threads [l] of process [p], none of them waited for. *)
Record owned (s : kstate) (tb : gmap Z (list Z)) (p : Z) (l : list Z) : Prop := {
  ow_hash : thash_inv s tb;
  ow_ids : id_wf (tids (kids s));
  ow_proc : is_Some (procs s !! p);
  ow_list : dlist thread_list (links s) (threads_of p) (obj <$> l);
  ow_mem : ∀ x, x ∈ l → ∃ th, threads s !! x = Some th ∧ waiting th = 0 ∧ proc th = p ∧
    FIRST_USER_TID <= tid th < FIRST_USER_TID + id_max ∧ x ∈ chain_of tb (hash_fn (tid th));
}.

(** The threads [l] were freed, the others kept (up to hash links). *)
Definition gone (l : list Z) (s s' : kstate) : Prop :=
  thread_mask s' = thread_mask s ∧
  ∀ y, (λ th, th <| t_next := 0 |>) <$> threads s' !! y =
    if decide (y ∈ l) then None else (λ th, th <| t_next := 0 |>) <$> threads s !! y.

Lemma gone_trans l1 l2 s1 s2 s3 : gone l1 s1 s2 → gone l2 s2 s3 → gone (l2 ++ l1) s1 s3.
Proof.
  intros [M1 H1] [M2 H2]. split; [congruence|]. intros y. rewrite H2, H1.
  repeat case_decide; try done; set_solver.
Qed.

Lemma mask_current s s' : thread_mask s' = thread_mask s → current s' = current s.
Proof. intros E. by apply (f_equal current) in E. Qed.
Lemma mask_procs s s' : thread_mask s' = thread_mask s → procs s' = procs s.
Proof. intros E. by apply (f_equal procs) in E. Qed.

(** Threads that differ in the hash link only agree on the rest. *)
Lemma same_but_next o o' th :
  (λ th, th <| t_next := 0 |>) <$> o' = (λ th, th <| t_next := 0 |>) <$> o → o = Some th →
  ∃ th', o' = Some th' ∧ waiting th' = waiting th ∧ proc th' = proc th ∧ tid th' = tid th.
Proof.
  intros H ->. destruct o' as [th'|]; cbn in H; [|done]. exists th'. split; [done|].
  injection H. intros. done.
Qed.

(** One turn of the loop for a thread that is not the current one. *)
Lemma drop_last s tb p l x :
  owned s tb p (l ++ [x]) →
  ∃ s1 s' tb', on_links' (list_dequeue thread_list (threads_of p)) s = Ret (obj x) s1 ∧
    destroy_thread x s1 = Ret 0 s' ∧ owned s' tb' p l ∧ gone [x] s s' ∧
    (∀ y, hashed tb' y ↔ hashed tb y ∧ y ≠ x).
Proof.
  intros HO. pose proof (ow_list _ _ _ _ HO) as HD. rewrite fmap_app in HD.
  destruct (list_dequeue_del thread_list _ _ _ _ HD) as (L'&E1&(HD'&_&_)&E2).
  destruct (ow_mem _ _ _ _ HO x) as (th&Ex&Hw&Hp&Hid&Hh); [set_solver|].
  destruct (ow_proc _ _ _ _ HO) as [pr Epr].
  apply list_elem_of_split in Hh as (l1&l2&Hl).
  destruct (destroy_thread_spec (s <| links := L' |>) tb x th l1 l2 pr L')
    as (s'&m'&E&HL&Hk&Hwf&_&HI'&HT&HM); try done.
  { eapply thash_inv_proper; [..|apply HO]; done. }
  { apply HO. }
  { by rewrite Hp. }
  { by rewrite Hp. }
  assert (HG : gone [x] s s').
  { split; [exact HM|]. intros y. specialize (HT y). cbn in HT. rewrite HT.
    case_decide as Hy; [apply list_elem_of_singleton in Hy as ->; by rewrite lookup_delete_eq|].
    rewrite lookup_delete_ne; [done|]. intros ->. by destruct Hy; left. }
  pose proof (hashed_remove _ _ _ _ tb _ x l1 l2 (ow_hash _ _ _ _ HO) Hl) as Hrem.
  exists (s <| links := L' |>), s', (<[hash_fn (tid th) := l1 ++ l2]> tb).
  split_and!; [by apply on_links'_Ret|done| |done|done].
  split; [done|by rewrite Hk|by rewrite (mask_procs _ _ HM)|by rewrite HL|].
  intros y Hy. destruct (ow_mem _ _ _ _ HO y) as (thy&Ey&Hwy&Hpy&Hidy&Hhy); [set_solver|].
  assert (y ≠ x) as Hyx.
  { intros ->. pose proof (dlist_ring _ _ _ _ HD) as ND%ring_NoDup.
    apply NoDup_cons in ND as [_ ND]. rewrite <- (fmap_app obj l [x]) in ND.
    apply NoDup_fmap_1 in ND. apply NoDup_app in ND as (_&ND&_). by apply (ND x Hy); left. }
  destruct HG as [_ HG]. specialize (HG y). rewrite decide_False in HG by (by intros ?%list_elem_of_singleton).
  destruct (same_but_next _ _ _ HG Ey) as (th'&E'&W&P&T). exists th'.
  rewrite W, P, T. split_and!; try done; try lia.
  assert (hashed (<[hash_fn (tid th) := l1 ++ l2]> tb) y) as [h Hh].
  { apply Hrem. split; [by exists (hash_fn (tid thy))|done]. }
  destruct (th_hash _ _ HI' _ _ Hh) as (?&?&?). by simplify_eq; rewrite <- T.
Qed.

(** The current thread is put back at the front. *)
Lemma rotate_last s tb p l c :
  owned s tb p (l ++ [c]) →
  ∃ s1 s', on_links' (list_dequeue thread_list (threads_of p)) s = Ret (obj c) s1 ∧
    on_links (list_enqueue thread_list (threads_of p) (obj c)) s1 = Ret tt s' ∧
    owned s' tb p (c :: l) ∧ gone [] s s'.
Proof.
  intros HO. pose proof (ow_list _ _ _ _ HO) as HD. rewrite fmap_app in HD.
  destruct (list_dequeue_spec thread_list _ _ _ _ HD) as (L1&E1&(HD1&Hdom&_)).
  assert (HR : ring thread_list (threads_of p) (obj <$> c :: l)).
  { rewrite fmap_cons, Permutation_cons_append. by eapply dlist_ring. }
  destruct (list_enqueue_spec thread_list L1 (threads_of p) (obj <$> l) (obj c)) as (L2&E2&HD2&_&_); try done.
  { rewrite <- elem_of_dom, Hdom, elem_of_dom.
    rewrite <- (lnk_item thread_list (threads_of p) (obj c)); [eapply dlist_dom; [exact HD|set_solver]|].
    destruct HD as (_&Hh&_). set_solver. }
  exists (s <| links := L1 |>), (s <| links := L2 |>). split_and!.
  - by apply on_links'_Ret.
  - rewrite (on_links_Ret _ L2) by done. by destruct s.
  - split; [eapply thash_inv_proper; [..|apply HO]; done|apply HO|apply HO|done|].
    intros x Hx. apply (ow_mem _ _ _ _ HO). set_solver.
  - split; [by destruct s|]. intros y. by rewrite decide_False by (by intros ?%elem_of_nil).
Qed.

Lemma owned_nonempty s tb p l :
  owned s tb p l →
  ask_links (list_isempty (threads_of p)) s = Ret (bool_decide (l = [])) s.
Proof.
  intros HO. apply ask_links_Ret. erewrite list_isempty_spec by apply HO. f_equal.
  apply bool_decide_ext. split; [apply fmap_nil_inv|by intros ->].
Qed.

Lemma exit_loop_drop s tb p l x fuel cur stop :
  owned s tb p (l ++ [x]) → x ≠ cur → stop < 2 →
  ∃ s' tb', exit_loop (S fuel) (threads_of p) cur stop s = exit_loop fuel (threads_of p) cur stop s' ∧
    owned s' tb' p l ∧ gone [x] s s' ∧ (∀ y, hashed tb' y ↔ hashed tb y ∧ y ≠ x).
Proof.
  intros HO Hx Hs. destruct (drop_last s tb p l x HO) as (s1&s'&tb'&E1&E2&HO'&HG&HH).
  exists s', tb'. split; [|done]. cbn [exit_loop].
  run_with ltac:(by eapply owned_nonempty). rewrite bool_decide_false by (by destruct l).
  run_with ltac:(exact E1). run_with ltac:(apply as_obj_Ret). rewrite (proj2 (Z.eqb_neq x cur)) by done.
  run_with ltac:(exact E2). by rewrite (proj2 (Z.ltb_lt _ _)).
Qed.

(** The loop once the current thread was met: the rest [l] goes. *)
Lemma exit_loop_second p c l : ∀ s tb fuel,
  owned s tb p (c :: l) → c ∉ l → (length l < fuel)%nat →
  ∃ s' tb', exit_loop fuel (threads_of p) c 1 s = Ret tt s' ∧ owned s' tb' p [c] ∧ gone l s s' ∧
    (∀ y, hashed tb' y ↔ hashed tb y ∧ y ∉ l).
Proof.
  induction l as [|x l IH] using rev_ind; intros s tb fuel HO Hc Hf.
  - destruct (rotate_last s tb p [] c HO) as (s1&s'&E1&E2&HO'&HG).
    exists s', tb. split_and!; [|done|done|].
    + destruct fuel as [|fuel]; [cbn in Hf; lia|]. cbn [exit_loop].
      run_with ltac:(by eapply owned_nonempty). rewrite bool_decide_false by done.
      run_with ltac:(exact E1). run_with ltac:(apply as_obj_Ret). rewrite Z.eqb_refl. by run_with ltac:(exact E2).
    + intros y. split; [intros ?; split; [done|by intros ?%elem_of_nil]|by intros [? _]].
  - rewrite length_app in Hf. cbn in Hf. destruct fuel as [|fuel]; [lia|].
    destruct (exit_loop_drop s tb p (c :: l) x fuel c 1) as (s1&tb1&E1&HO1&HG1&HH1); [done|set_solver|lia|].
    destruct (IH s1 tb1 fuel HO1) as (s'&tb'&E'&HO'&HG'&HH'); [set_solver|lia|].
    exists s', tb'. split_and!; [by rewrite E1|done|by eapply gone_trans|].
    intros y. rewrite HH', HH1. set_solver.
Qed.

(** The loop before: [l2] goes, the current thread is moved to the front. *)
Lemma exit_loop_first p c l1 l2 : ∀ s tb fuel,
  owned s tb p (l1 ++ c :: l2) → c ∉ l1 → c ∉ l2 → (length l1 + length l2 + 1 < fuel)%nat →
  ∃ s' tb', exit_loop fuel (threads_of p) c 0 s = Ret tt s' ∧ owned s' tb' p [c] ∧
    gone (l1 ++ l2) s s' ∧ (∀ y, hashed tb' y ↔ hashed tb y ∧ y ∉ l1 ++ l2).
Proof.
  induction l2 as [|x l2 IH] using rev_ind; intros s tb fuel HO Hc1 Hc2 Hf.
  - destruct (rotate_last s tb p l1 c HO) as (s1&s2&E1&E2&HO2&HG2).
    destruct fuel as [|fuel]; [lia|].
    destruct (exit_loop_second p c l1 s2 tb fuel HO2 Hc1) as (s'&tb'&E'&HO'&HG'&HH'); [cbn in Hf; lia|].
    exists s', tb'. split_and!; [|done|by eapply gone_trans|by rewrite app_nil_r].
    cbn [exit_loop]. run_with ltac:(by eapply owned_nonempty). rewrite bool_decide_false by (by destruct l1).
    run_with ltac:(exact E1). run_with ltac:(apply as_obj_Ret). rewrite Z.eqb_refl. by run_with ltac:(exact E2).
  - rewrite length_app in Hf. cbn in Hf. destruct fuel as [|fuel]; [lia|].
    rewrite app_comm_cons, app_assoc in HO.
    destruct (exit_loop_drop s tb p (l1 ++ c :: l2) x fuel c 0) as (s1&tb1&E1&HO1&HG1&HH1); [done|set_solver|lia|].
    destruct (IH s1 tb1 fuel HO1 Hc1) as (s'&tb'&E'&HO'&HG'&HH'); [set_solver|lia|].
    exists s', tb'. split_and!; [by rewrite E1|done|rewrite app_assoc; by eapply gone_trans|].
    intros y. rewrite HH', HH1. set_solver.
Qed.

(** Making a thread sleep: it leaves its queue and [schedule] chooses. *)
Lemma sleep_spec s qs t th i l1 l2 st :
  rq_inv s qs → threads s !! t = Some th → qs !! i = Some (l1 ++ t :: l2) →
  is_Some (threads s !! init_thread s) →
  ∃ s', (upd_thread t (λ th, th <| states := st |>);; remove_thread t;; schedule) s = Ret tt s' ∧
    rq_inv s' (<[i := l1 ++ l2]> qs) ∧
    (∃ th', threads s' !! t = Some th' ∧ states th' = st ∧ waiting th' = waiting th) ∧
    (∀ u, u ≠ t → states <$> threads s' !! u = states <$> threads s !! u).
Proof.
  intros HI Ht Hi Hinit. set (th1 := th <| states := st |>).
  set (s1 := s <| threads ::= <[t := th1]> |>).
  assert (HI1 : rq_inv s1 qs) by (by eapply rq_inv_upd).
  destruct (remove_thread_spec s1 qs t i l1 l2 HI1 Hi) as (s2&E2&HI2&HF2&T2).
  assert (Hinit2 : is_Some (threads s2 !! init_thread s2)).
  { rewrite (sf_field init_thread _ _ (λ _, eq_refl) HF2), T2. apply lookup_insert_is_Some'. by right. }
  destruct (schedule_spec s2 _ HI2 Hinit2) as (c&thc&E3&Hc&HI3).
  exists (s2 <| current := c |> <| threads ::= <[c := thc <| sched_flag := 0 |>]> |>).
  rewrite T2 in Hc. cbn in Hc. split_and!.
  - run. run_with ltac:(exact E2). exact E3.
  - done.
  - fields. rewrite T2. change (threads s1) with (<[t := th1]> (threads s)).
    destruct (decide (c = t)) as [->|].
    + rewrite lookup_insert_eq in Hc. injection Hc as <-. eexists. by rewrite lookup_insert_eq.
    + exists th1. by rewrite lookup_insert_ne, lookup_insert_eq by done.
  - intros u Hu. fields. rewrite T2. change (threads s1) with (<[t := th1]> (threads s)).
    destruct (decide (c = u)) as [->|].
    + rewrite lookup_insert_eq. rewrite lookup_insert_ne in Hc by done. by rewrite Hc.
    + by rewrite !lookup_insert_ne.
Qed.

(** ** Properties of the thread table and of the life of threads *)

(** No hashed thread has the id. *)
Lemma find_by_tid_miss s tb id :
  thash_inv s tb →
  (∀ x th, hashed tb x → threads s !! x = Some th → tid th ≠ id) →
  find_by_tid id s = Fault.
Proof.
  intros HI Hn. rewrite (find_by_tid_spec s tb) by done.
  destruct (list_find _ _) as [[i x]|] eqn:Hf; [|done].
  apply list_find_Some in Hf as (Hx&Ht&_). apply list_elem_of_lookup_2 in Hx.
  destruct (th_hash _ _ HI _ _ Hx) as (th&E&_). rewrite E in Ht. cbn in Ht.
  destruct (Hn x th); [by eexists|done|congruence].
Qed.

(** [find_by_tid] of the id of a hashed thread returns that thread, when no
    other hashed thread has the id, and changes nothing.  Of an id that no hashed
    thread has it does not return NULL: it reads [link->tid] before it tests
    [link], and faults. *)
Theorem find_by_tid_exact s tb id :
  thash_inv s tb →
  (∀ x th, hashed tb x → threads s !! x = Some th → tid th = id →
     (∀ y thy, hashed tb y → threads s !! y = Some thy → tid thy = id → y = x) →
     find_by_tid id s = Ret x s) ∧
  ((∀ x th, hashed tb x → threads s !! x = Some th → tid th ≠ id) → find_by_tid id s = Fault).
Proof. intros HI. split; [intros x th Hx E <-; by apply (find_by_tid_hit s tb)|by apply find_by_tid_miss]. Qed.

(** C15. [create_thread] with attributes, while an id and a page are left:
    returns the new thread, with an id that was free and that the bitmap now
    marks; the thread is ready, has a full slice, the priority and policy of
    the attributes and an empty inbox, is first on the list of its process, and
    [find_by_tid] finds it under its id. *)
Theorem create_thread_ok s tb junk jb p pr mp pm a l t rest :
  thash_inv s tb → id_wf (tids (kids s)) → (∃ j, 0 <= j < id_max ∧ ¬ used (tids (kids s)) j) →
  (∀ y thy, hashed tb y → threads s !! y = Some thy →
     tid thy < FIRST_USER_TID ∨ used (tids (kids s)) (tid thy - FIRST_USER_TID)) →
  kmem s = t :: rest → 0 < t → threads s !! t = None →
  procs s !! p = Some pr → vmaps s !! p_map pr = Some mp → pmaps s !! m_pmap mp = Some pm →
  dlist thread_list (links s) (threads_of p) (obj <$> l) → t ∉ l → t ≠ p →
  ∃ s' th, create_thread junk jb p (Some a) s = Ret t s' ∧
    threads s' !! t = Some th ∧ states th = THREAD_READY ∧ time_slice th = SLICE ∧
    priority_stat th = attr_prio a ∧ priority_dyn th = attr_prio a ∧
    schedpolicy th = attr_policy a ∧ proc th = p ∧ cr3 (ctx th) = pdbr pm ∧
    ¬ used (tids (kids s)) (tid th - FIRST_USER_TID) ∧
    (∀ j, used (tids (kids s')) j ↔ used (tids (kids s)) j ∨ j = tid th - FIRST_USER_TID) ∧
    (∀ y, y ≠ t → threads s' !! y = threads s !! y) ∧
    dlist thread_list (links s') (threads_of p) (obj <$> t :: l) ∧
    dlist (fld F_sndq) (links s') (fld F_rcvq (obj t)) [] ∧
    find_by_tid (tid th) s' = Ret t s'.
Proof.
  intros HI Hwf Hfree Htid Hk Ht Htn Hp Hm Hpm HD Hl Htp.
  destruct (create_thread_spec s tb junk jb p pr mp pm a l t rest)
    as (s'&id&m'&E&Hid&Hu&Hki&_&Hm'&HT&HI'&HD'&HD2&_); try done.
  set (th := new_thread junk t p a id (bucket (thash s) (hash_fn id)) (pdbr pm)) in *.
  assert (Et : threads s' !! t = Some th) by (rewrite HT; apply lookup_insert_eq).
  exists s', th. split_and!; try done.
  - by rewrite Hki.
  - intros y Hy. rewrite HT. by apply lookup_insert_ne.
  - apply (find_by_tid_hit s' _ t th HI'); [exists (hash_fn id); rewrite chain_of_insert, decide_True by done; by left|done|].
    intros y thy [h Hy] Ey Ety. destruct (decide (y = t)) as [|Hne]; [done|].
    rewrite HT, lookup_insert_ne in Ey by done.
    assert (hashed tb y) as Hh.
    { exists h. rewrite chain_of_insert in Hy. case_decide; [|done]. subst. set_solver. }
    cbn in Ety. destruct (Htid y thy Hh Ey) as [?|?]; [lia|]. by rewrite Ety in *.
Qed.

(** C16. [exit_threads] terminates and destroys exactly the threads of the
    process other than the current one (when none is waited for): their
    structures are freed and they leave the hash table, every other thread
    stays as it is, and the current thread is alone on the list. *)
Theorem exit_threads_spares_current s tb p l1 l2 :
  owned s tb p (l1 ++ current s :: l2) →
  ∃ s' tb', exit_threads (threads_of p) s = Ret tt s' ∧ owned s' tb' p [current s] ∧
    (∀ x, x ∈ l1 ++ l2 → threads s' !! x = None) ∧
    (∀ y, y ∉ l1 ++ l2 → (λ th, th <| t_next := 0 |>) <$> threads s' !! y =
                           (λ th, th <| t_next := 0 |>) <$> threads s !! y) ∧
    (∀ y, hashed tb' y ↔ hashed tb y ∧ y ∉ l1 ++ l2).
Proof.
  intros HO. pose proof (ow_list _ _ _ _ HO) as HD.
  assert (ND : NoDup (l1 ++ current s :: l2)).
  { apply dlist_ring, ring_NoDup, NoDup_cons in HD as [_ HD]. by apply NoDup_fmap_1 in HD. }
  assert (Hlen : (length (l1 ++ current s :: l2) <= size (threads s))%nat).
  { rewrite <- size_dom, <- (size_list_to_set (C := gset Z) (l1 ++ current s :: l2)) by done.
    apply subseteq_size. intros x Hx%elem_of_list_to_set. apply elem_of_dom.
    destruct (ow_mem _ _ _ _ HO x Hx) as (?&?&_). eauto. }
  apply NoDup_middle in ND as [Hc _]. rewrite length_app in Hlen. cbn in Hlen.
  destruct (exit_loop_first p (current s) l1 l2 s tb (S (S (S (size (threads s))))))
    as (s'&tb'&E&HO'&[_ HG]&HH); [done|set_solver|set_solver|lia|].
  exists s', tb'. split_and!; [|done| | |done].
  - unfold exit_threads. run. run. exact E.
  - intros x Hx. specialize (HG x). rewrite decide_True in HG by done. by destruct (threads s' !! x).
  - intros y Hy. specialize (HG y). by rewrite decide_False in HG.
Qed.

(** [thread_wait] puts to sleep the thread that is waited for and not the
    caller: the target leaves its run queue, blocked, with the caller recorded
    as its waiter, while the caller keeps its state and its place. *)
Theorem thread_wait_blocks_target s tb qs x th i l1 l2 :
  thash_inv s tb → rq_inv s qs → hashed tb x → threads s !! x = Some th →
  (∀ y thy, hashed tb y → threads s !! y = Some thy → tid thy = tid th → y = x) →
  qs !! i = Some (l1 ++ x :: l2) → is_Some (threads s !! init_thread s) → current s ≠ x →
  ∃ s', thread_wait (tid th) s = Ret 0 s' ∧ rq_inv s' (<[i := l1 ++ l2]> qs) ∧
    (∃ th', threads s' !! x = Some th' ∧ states th' = THREAD_UNINT ∧ waiting th' = current s) ∧
    states <$> threads s' !! current s = states <$> threads s !! current s.
Proof.
  intros HT HI Hx E Hu Hi Hinit Hc.
  destruct (sleep_spec (s <| threads ::= <[x := th <| waiting := current s |>]> |>) qs x
    (th <| waiting := current s |>) i l1 l2 THREAD_UNINT) as (s'&E'&HI'&Hth&Hoth); try done.
  { by eapply rq_inv_upd. }
  { apply lookup_insert_eq. }
  { fields. apply lookup_insert_is_Some'. by right. }
  exists s'. split_and!; [|done|done|].
  - unfold thread_wait. run. run_with ltac:(eapply find_by_tid_hit; done).
    rewrite (proj2 (Z.eqb_neq x 0)) by (intros ->; by rewrite (th_null _ _ HT) in E).
    run. unfold sleep_uninterruptible. by run_with ltac:(exact E').
  - rewrite Hoth by done. fields. by rewrite lookup_insert_ne.
Qed.

(** ** Deciding the invariants *)
Definition thash_ok (s : kstate) (tb : gmap Z (list Z)) : Prop :=
  table_ok t_next tkey (threads s) (thash s) tb.
Lemma thash_inv_ok s tb : thash_ok s tb → thash_inv s tb.
Proof. apply table_if_ok. Qed.
#[global] Instance thash_ok_dec s tb : Decision (thash_ok s tb).
Proof. unfold thash_ok. apply _. Defined.
#[global] Typeclasses Opaque thash_ok.

Definition tid_is (s : kstate) (P : Z → Prop) (x : Z) : Prop :=
  match threads s !! x with Some th => P (tid th) | None => True end.
#[global] Instance tid_is_dec s P x : (∀ i, Decision (P i)) → Decision (tid_is s P x).
Proof. unfold tid_is. destruct (threads s !! x); apply _. Defined.
#[global] Typeclasses Opaque tid_is.

Definition owned_ok (s : kstate) (tb : gmap Z (list Z)) (p : Z) (l : list Z) : Prop :=
  thash_ok s tb ∧ id_wf_b (tids (kids s)) = true ∧ is_Some (procs s !! p) ∧
  dlist thread_list (links s) (threads_of p) (obj <$> l) ∧
  Forall (λ x, match threads s !! x with
    | Some th => waiting th = 0 ∧ proc th = p ∧
        FIRST_USER_TID <= tid th < FIRST_USER_TID + id_max ∧ x ∈ chain_of tb (hash_fn (tid th))
    | None => False end) l.
Lemma owned_if_ok s tb p l : owned_ok s tb p l → owned s tb p l.
Proof.
  intros (HT&HW&HP&HD&HF). split; [by apply thash_inv_ok|by apply id_wf_b_sound|done|done|].
  intros x Hx. rewrite Forall_forall in HF. specialize (HF x Hx).
  destruct (threads s !! x); [eauto|done].
Qed.
#[global] Instance owned_ok_dec s tb p l : Decision (owned_ok s tb p l).
Proof.
  unfold owned_ok. repeat (apply and_dec; [apply _|]). apply Forall_dec. intros x.
  destruct (threads s !! x); apply _.
Defined.

(** ** A process with three threads *)
Definition fd0 : fd_t := mk_fd 32 0 0 (mk_inodev 0 0) [] (replicate 33 0).
Definition proc0 : process :=
  mk_process 7100 600 0 0 0 0 0 0 0 0 0 0 0 0 1 0 (replicate 32 (mk_sigaction 0 0 0))
    (mk_stack 0 0 0) 0 fd0.
Definition demo_proc : kstate :=
  demo_k <| procs := {[ 7000 := proc0 ]} |>
    <| vmaps := {[ 7100 := mk_vmmap 0 7200 0 1 0 0 0 0 0 ]} |> <| pmaps := {[ 7200 := mk_pmap 8192 ]} |>
    <| links ::= <[obj 7000 := mk_link (obj 7000) (obj 7000)]> |>
    <| kmem := [12000; 13000; 14000] |>.
Definition demo_attr : thread_attr := mk_attr 0 40 0 0 SCHED_OTHER.
Definition spawn : K Z := t ← create_thread thread0 0 7000 (Some demo_attr); enqueue_thread t;; mret t.
Definition demo_threads : kstate :=
  after (sched_init;; spawn;; spawn;; spawn;; modify (λ s, s <| current := 13000 |>)) demo_proc.
Definition demo_tb : gmap Z (list Z) :=
  {[ hash_fn 500 := [12000]; hash_fn 501 := [13000]; hash_fn 502 := [14000] ]}.
Definition demo_th (x : Z) : thread := default thread0 (threads demo_threads !! x).

Lemma demo_thash : thash_inv demo_threads demo_tb.
Proof. apply thash_inv_ok. evaluate. Qed.

Lemma demo_unique y thy :
  hashed demo_tb y → threads demo_threads !! y = Some thy → tid thy = 502 → y = 14000.
Proof.
  intros Hy E Ht. pose proof (hashed_forall demo_tb (λ y, tid_is demo_threads (λ i, i = 502 → y = 14000) y)) as H.
  cut (tid_is demo_threads (λ i, i = 502 → y = 14000) y); [unfold tid_is; rewrite E; auto|].
  apply H; [|done]. evaluate.
Qed.

Lemma find_by_tid_exact_witness :
  find_by_tid 502 demo_threads = Ret 14000 demo_threads ∧ find_by_tid 503 demo_threads = Fault.
Proof.
  split.
  - destruct (find_by_tid_exact demo_threads demo_tb 502 demo_thash) as [H _].
    apply (H 14000 (demo_th 14000)).
    + exists (hash_fn 502). evaluate.
    + vm_compute. reflexivity.
    + vm_compute. reflexivity.
    + exact demo_unique.
  - destruct (find_by_tid_exact demo_threads demo_tb 503 demo_thash) as [_ H]. apply H.
    intros x th Hx E Ht. assert (tid_is demo_threads (λ i, i ≠ 503) x) as Hi.
    { revert Hx. apply hashed_forall. evaluate. }
    unfold tid_is in Hi. rewrite E in Hi. exact (Hi Ht).
Defined.

Lemma exit_threads_spares_current_witness :
  ∃ s' tb', exit_threads (threads_of 7000) demo_threads = Ret tt s' ∧ owned s' tb' 7000 [13000] ∧
    (∀ x, x ∈ [14000; 12000] → threads s' !! x = None) ∧
    (∀ y, y ∉ [14000; 12000] → (λ th, th <| t_next := 0 |>) <$> threads s' !! y =
       (λ th, th <| t_next := 0 |>) <$> threads demo_threads !! y) ∧
    (∀ y, hashed tb' y ↔ hashed demo_tb y ∧ y ∉ [14000; 12000]).
Proof.
  apply (exit_threads_spares_current demo_threads demo_tb 7000 [14000] [12000]).
  apply owned_if_ok, (@bool_decide_unpack _ (owned_ok_dec _ _ _ _)). vm_compute. exact I.
Defined.

Definition demo_thread_qs : list (list Z) :=
  replicate 10 [] ++ [[14000; 13000; 12000]] ++ replicate 21 [].

Lemma thread_wait_blocks_target_witness :
  ∃ s', thread_wait 502 demo_threads = Ret 0 s' ∧
    rq_inv s' (<[10%nat := [13000; 12000]]> demo_thread_qs) ∧
    (∃ th', threads s' !! 14000 = Some th' ∧ states th' = THREAD_UNINT ∧ waiting th' = 13000) ∧
    states <$> threads s' !! 13000 = states <$> threads demo_threads !! 13000.
Proof.
  apply (thread_wait_blocks_target demo_threads demo_tb demo_thread_qs 14000 (demo_th 14000) 10
    [] [13000; 12000]).
  - apply demo_thash.
  - evaluate.
  - exists (hash_fn 502). evaluate.
  - vm_compute. reflexivity.
  - exact demo_unique.
  - reflexivity.
  - vm_compute. eexists. reflexivity.
  - vm_compute. discriminate.
Defined.

Lemma create_thread_ok_witness :
  ∃ s' th, create_thread thread0 0 7000 (Some demo_attr) demo_proc = Ret 12000 s' ∧
    threads s' !! 12000 = Some th ∧ states th = THREAD_READY ∧ time_slice th = SLICE ∧
    priority_stat th = 40 ∧ priority_dyn th = 40 ∧ schedpolicy th = SCHED_OTHER ∧ proc th = 7000 ∧
    cr3 (ctx th) = 8192 ∧
    ¬ used (tids (kids demo_proc)) (tid th - FIRST_USER_TID) ∧
    (∀ j, used (tids (kids s')) j ↔ used (tids (kids demo_proc)) j ∨ j = tid th - FIRST_USER_TID) ∧
    (∀ y, y ≠ 12000 → threads s' !! y = threads demo_proc !! y) ∧
    dlist thread_list (links s') (threads_of 7000) [obj 12000] ∧
    dlist (fld F_sndq) (links s') (fld F_rcvq (obj 12000)) [] ∧
    find_by_tid (tid th) s' = Ret 12000 s'.
Proof.
  apply (create_thread_ok demo_proc ∅ thread0 0 7000 proc0 (mk_vmmap 0 7200 0 1 0 0 0 0 0)
    (mk_pmap 8192) demo_attr [] 12000 [13000; 14000]); try evaluate.
  - apply thash_inv_ok. evaluate.
  - apply id_wf_b_sound. vm_compute. reflexivity.
  - exists 0. split; [unfold id_max, id_words; lia|]. intros (w&Hw&Hb). vm_compute in Hw.
    injection Hw as <-. by vm_compute in Hb.
  - intros y thy [h Hy]. by apply elem_of_nil in Hy.
Defined.
