(* ===== verification/VmPage.v ===== *)
(** * Physical pages

    Models the part of microkernel/mm/vm_page.c that manages the structures of
    the physical frames: the list of free pages, the hash table from an object
    and an offset to a page, and the pages of an object; with
    microkernel/mm/vm_object.c.  The routines that also use the page tables or
    the address maps are in VmMap.v.  In [put_to_free_list] and
    [get_from_free_list] the comment markers of the source leave one list in
    use, [PAGE_ALLOC_KER]. *)

From S2P Require Import Prelude DList Hash KState Sched Thread.

Definition PAGE_ALLOC_DMA : Z := 2.
Definition PAGE_ALLOC_KER : Z := 1.
Definition PAGE_ALLOC_OTH : Z := 0.
Definition VM_PAGE_READ : Z := 1.
Definition VM_PAGE_WRITE : Z := 2.
Definition VM_PAGE_EXEC : Z := 4.
Definition VM_PAGE_WIRED : Z := 16.
Definition VM_PAGE_FREE : Z := 1.

(** asm/vm_param.h *)
Definition PTE_SHIFT : Z := 12.
Definition addr_to_page (addr : Z) : Z := Z.shiftr addr PTE_SHIFT.
Definition align_page (addr : Z) : Z := Z.land (u32 (addr + (PAGE_SIZE - 1))) (not32 (PAGE_SIZE - 1)).
Definition page_base (addr : Z) : Z := Z.land addr (not32 (PAGE_SIZE - 1)).

(** [page_hash(object, offset)] *)
Definition page_hash (object offset : Z) : Z :=
  let x := u32 (object + addr_to_page offset) in
  Z.land (Z.lxor (Z.shiftr x 8) x) (1024 - 1).

(** [pagelist] is the first member of struct vm_page; the lists of pages are
    the first members of struct vm_object and struct pmap. *)
Notation pagelist := (fld 0).
Definition free_head (flag : Z) : ptr := (G_free, flag).
Definition page_list_of (owner : Z) : ptr := obj owner.

Definition on_vmg (f : vmglobals → vmglobals) : K unit := modify (λ s, s <| vmg ::= f |>).

(** ** The free list *)
Definition put_to_free_list (page : Z) : K unit :=
  on_links (list_enqueue pagelist (free_head PAGE_ALLOC_KER) (obj page)).

Definition get_from_free_list (flag : Z) : K ptr :=
  on_links' (list_dequeue pagelist (free_head PAGE_ALLOC_KER)).

Definition put_page (pg : Z) : K unit :=
  put_to_free_list pg;;
  on_vmg (λ g, g <| used_mem ::= λ m, u32 (m - PAGE_SIZE) |>);;
  on_vmg (λ g, g <| used_ram := used_mem g |>).

(** The dequeued pointer is compared with the head of the list [flag], not with
    the list it came from; a list head that is used as a page faults. *)
Definition get_page (flag : Z) : K ptr :=
  ok ← gets (λ s, vm_page_initialized (vmg s));
  if negb ok then panic
  else
    p ← get_from_free_list flag;
    if decide (p = NULL ∨ p = free_head flag) then mret NULL
    else
      page ← as_obj p;
      deref pages page;;
      on_vmg (λ g, g <| nfree_pages ::= λ n, s32 (n - 1) |>);;
      on_links (list_init p);;
      upd_page page (λ pg, pg <| pg_next := 0 |> <| pg_flags := 0 |>);;
      on_vmg (λ g, let m := u32 (total_mem g - u32 (nfree_pages g * PAGE_SIZE)) in
                   g <| used_mem := m |> <| used_ram := m |>);;
      mret p.

(** ** The hash table *)
Definition vm_page_insert (page object offset : Z) : K unit :=
  upd_page page (λ pg, pg <| pg_object := object |> <| pg_offset := offset |>);;
  let h := page_hash object offset in
  b ← gets (λ s, bucket (pagehash s) h);
  upd_page page (λ pg, pg <| pg_next := b |>);;
  modify (λ s, s <| pagehash ::= <[h := page]> |>).

Definition page_fuel (s : kstate) : nat := S (size (pages s)).

(** [for(new=bucket->page; new != NULL; new=new->next)
       if(new == page) { new->next = page->next; break; }] *)
Fixpoint page_unlink (fuel : nat) (new page : Z) : K unit :=
  if new =? 0 then mret tt
  else match fuel with
  | O => spin
  | S fuel =>
      if new =? page then
        pg ← deref pages page;
        upd_page new (λ n, n <| pg_next := pg_next pg |>)
      else
        n ← deref pages new;
        page_unlink fuel (pg_next n) page
  end.

Definition vm_page_remove (page : Z) : K unit :=
  pg ← deref pages page;
  let h := page_hash (pg_object pg) (pg_offset pg) in
  b ← gets (λ s, bucket (pagehash s) h);
  if b =? page then modify (λ s, s <| pagehash ::= <[h := pg_next pg]> |>)
  else fuel ← gets page_fuel; page_unlink fuel b page.

Fixpoint page_find (fuel : nat) (new object offset : Z) : K Z :=
  if new =? 0 then mret 0
  else match fuel with
  | O => spin
  | S fuel =>
      n ← deref pages new;
      if (pg_object n =? object) && (pg_offset n =? offset) then mret new
      else page_find fuel (pg_next n) object offset
  end.

Definition vm_page_lookup (object offset : Z) : K Z :=
  b ← gets (λ s, bucket (pagehash s) (page_hash object offset));
  n ← deref pages b;
  if (pg_object n =? object) && (pg_offset n =? offset) then mret b
  else fuel ← gets page_fuel; page_find fuel b object offset.

(** ** Objects (vm_object.c) *)
Definition vm_object_create (junk : vm_object) (size : Z) : K Z :=
  o ← kalloc [0];
  if o =? 0 then fault
  else
    modify (λ s, s <| objects ::= <[o := junk]> |>);;
    upd_object o (λ ob, ob <| ob_size := size |> <| ob_ref := 1 |>);;
    on_links (list_init (page_list_of o));;
    upd_object o (λ ob, ob <| shadow := 0 |>);;
    mret o.

(** ** The pages of an object *)

(** [page_dealloc] *)
Definition page_dealloc (object offset : Z) : K Z :=
  page ← vm_page_lookup object offset;
  if page =? 0 then mret (-1)
  else
    upd_page page (λ pg, pg <| pg_count ::= λ n, s32 (n - 1) |>);;
    pg ← deref pages page;
    if negb (pg_count pg =? 0) then mret 0
    else
      vm_page_remove page;;
      on_links (list_del pagelist (page_list_of object) (obj page));;
      put_page page;;
      mret 0.

Fixpoint free_pages_loop (fuel : nat) (object : Z) : K unit :=
  match fuel with
  | O => spin
  | S fuel =>
      e ← ask_links (list_isempty (page_list_of object));
      if (e : bool) then mret tt
      else
        p ← on_links' (list_remove pagelist (page_list_of object));
        page ← as_obj p;
        if page =? 0 then mret tt
        else
          upd_page page (λ pg, pg <| pg_count ::= λ n, s32 (n - 1) |>);;
          pg ← deref pages page;
          if negb (pg_count pg =? 0) then mret tt
          else
            vm_page_remove page;;
            put_page page;;
            free_pages_loop fuel object
  end.
Definition free_pages (object : Z) : K unit :=
  fuel ← gets page_fuel; free_pages_loop fuel object.

Definition delete_object (object : Z) : K unit :=
  upd_object object (λ ob, ob <| ob_ref ::= λ n, s32 (n - 1) |>);;
  ob ← deref objects object;
  if ob_ref ob =? 0 then mret tt
  else
    free_pages object;;
    modify (λ s, s <| objects ::= delete object |>).

(** A page pointer used as a structure. *)
Definition as_page (p : ptr) : K Z := page ← as_obj p; deref pages page;; mret page.

Definition page_alloc (junk : vm_object) (object offset : Z) : K Z :=
  object ← (if object =? 0 then vm_object_create junk PAGE_SIZE else mret object);
  p ← get_page PAGE_ALLOC_OTH;
  page ← as_page p;
  upd_page page (λ pg, pg <| pg_count := 1 |>);;
  vm_page_insert page object (page_base offset);;
  on_links (list_add pagelist (page_list_of object) (obj page));;
  mret page.

Definition page_free (page : Z) : K unit :=
  vm_page_remove page;;
  pg ← deref pages page;
  on_links (list_del pagelist (page_list_of (pg_object pg)) (obj page));;
  put_page page.

(** [vm_lock_object], [vm_unlock_object]: walk the pages of the object. *)
Fixpoint mark_loop (fuel : nat) (head : ptr) (p : ptr) (lo hi : Z) (f : Z → Z) : K unit :=
  if decide (p = head) then mret tt
  else match fuel with
  | O => spin
  | S fuel =>
      page ← as_obj p;
      pg ← deref pages page;
      (if (lo <=? pg_offset pg) && (pg_offset pg <=? hi)
       then upd_page page (λ pg, pg <| pg_flags ::= f |>) else mret tt);;
      q ← ask_links (rd_next (pagelist (obj page)));
      mark_loop fuel head q lo hi f
  end.
Definition vm_mark_object (f : Z → Z) (entry : Z) : K unit :=
  en ← deref entries entry;
  deref objects (e_object en);;
  fuel ← gets page_fuel;
  p ← ask_links (rd_next (page_list_of (e_object en)));
  mark_loop fuel (page_list_of (e_object en)) p (e_start en) (e_end en) f.
Definition vm_lock_object : Z → K unit := vm_mark_object (λ x, Z.lor x VM_PAGE_WIRED).
Definition vm_unlock_object : Z → K unit := vm_mark_object (λ x, Z.land x (u16 (Z.lnot VM_PAGE_WIRED))).

Lemma page_base_div a : 0 <= a < 2 ^ 32 → page_base a = a / PAGE_SIZE * PAGE_SIZE.
Proof.
  intros Ha. unfold page_base, PAGE_SIZE. change (0x1000) with (2 ^ 12). rewrite <- Z.shiftl_mul_pow2, <- Z.shiftr_div_pow2 by lia.
  apply Z.bits_inj'. intros i Hi. rewrite Z.land_spec. destruct (Z.ltb_spec i 12) as [H|H].
  - rewrite Z.shiftl_spec_low by lia. replace (Z.testbit (not32 (2 ^ 12 - 1)) i) with false; [apply andb_false_r|].
    change (not32 (2 ^ 12 - 1)) with (Z.shiftl (2 ^ 20 - 1) 12). by rewrite Z.shiftl_spec_low by lia.
  - rewrite Z.shiftl_spec, Z.shiftr_spec by lia. replace (i - 12 + 12) with i by lia.
    destruct (Z.ltb_spec i 32) as [H2|H2].
    + replace (Z.testbit (not32 (2 ^ 12 - 1)) i) with true; [by rewrite andb_true_r|].
      change (not32 (2 ^ 12 - 1)) with (Z.shiftl (Z.ones 20) 12). rewrite Z.shiftl_spec, Z.ones_spec_low by lia. done.
    + replace (Z.testbit a i) with false; [done|]. rewrite Z.bits_above_log2; [done|lia|].
      destruct (decide (a = 0)) as [->|]; [cbn; lia|]. apply Z.log2_lt_pow2; [lia|].
      apply Z.lt_le_trans with (2 ^ 32); [lia|]. apply Z.pow_le_mono_r; lia.
Qed.

(** ** The hash table of pages *)
Definition pkey (pg : vm_page) : Z := page_hash (pg_object pg) (pg_offset pg).
Definition ptab (s : kstate) (tb : gmap Z (list Z)) : Prop :=
  table pg_next pkey (pages s) (pagehash s) tb.

(** The page is the one of [object] at [offset]. *)
Definition is_page (s : kstate) (object offset x : Z) : Prop :=
  (λ pg, (pg_object pg, pg_offset pg)) <$> pages s !! x = Some (object, offset).
#[global] Instance is_page_dec s o f x : Decision (is_page s o f x).
Proof. unfold is_page. apply _. Defined.

Lemma is_page_bool s o f x pg :
  pages s !! x = Some pg → (pg_object pg =? o) && (pg_offset pg =? f) = bool_decide (is_page s o f x).
Proof.
  intros E. apply eq_true_iff_eq. rewrite bool_decide_eq_true, andb_true_iff, !Z.eqb_eq.
  unfold is_page. rewrite E. cbn. naive_solver.
Qed.

Lemma page_find_spec s o f : pages s !! 0 = None → ∀ l fuel p,
  chain pg_next (pages s) p l → (length l <= fuel)%nat →
  page_find fuel p o f s = Ret (default 0 (snd <$> list_find (is_page s o f) l)) s.
Proof.
  intros H0. induction l as [|x l IH]; intros fuel p Hc Hf.
  - rewrite chain_nil in Hc. subst. by destruct fuel.
  - rewrite chain_cons in Hc. destruct Hc as (->&Hx&n&En&Hc). cbn [length] in Hf.
    destruct fuel as [|fuel]; [lia|]. cbn [page_find list_find].
    rewrite (proj2 (Z.eqb_neq x 0)) by done. run_with ltac:(apply deref_Ret; exact En).
    rewrite (is_page_bool s o f x n) by done. case_bool_decide as Hd.
    + by rewrite decide_True.
    + rewrite decide_False by done. rewrite (IH fuel (pg_next n)) by (done || lia).
      by destruct (list_find _ l) as [[??]|].
Qed.

(** The answer of [vm_page_lookup]: the first page of the bucket that
    matches, or NULL; an empty bucket faults. *)
Lemma vm_page_lookup_spec s tb o f :
  ptab s tb →
  vm_page_lookup o f s =
    match chain_of tb (page_hash o f) with
    | [] => Fault
    | l => Ret (default 0 (snd <$> list_find (is_page s o f) l)) s
    end.
Proof.
  intros HI. pose proof (tab_chain _ _ _ _ _ HI (page_hash o f)) as Hc.
  pose proof (tab_NoDup _ _ _ _ _ HI (page_hash o f)) as ND. unfold vm_page_lookup. run.
  set (l := chain_of tb (page_hash o f)) in *. set (b := bucket (pagehash s) (page_hash o f)) in *.
  pose proof (tab_null _ _ _ _ _ HI) as H0.
  assert (Hs : (fuel ← gets page_fuel; page_find fuel b o f) s =
    Ret (default 0 (snd <$> list_find (is_page s o f) l)) s).
  { run. apply page_find_spec; [done..|]. unfold page_fuel.
    apply (chain_size pg_next) in Hc; [lia|done]. }
  destruct l as [|x l'].
  - rewrite chain_nil in Hc. unfold mbind, M_bind, deref. by rewrite Hc, H0.
  - rewrite chain_cons in Hc. destruct Hc as (->&?&n&En&Hc).
    run_with ltac:(apply deref_Ret; exact En).
    rewrite (is_page_bool s o f x n) by done. case_bool_decide as Hd; [|done].
    cbn [list_find]. by rewrite decide_True.
Qed.

Lemma vm_page_insert_spec s tb x pg o f :
  ptab s tb → pages s !! x = Some pg → ¬ hashed tb x →
  ∃ s', vm_page_insert x o f s = Ret tt s' ∧
    s' = s <| pages ::= <[x := mk_page (bucket (pagehash s) (page_hash o f)) (pg_base pg) o f
                                       (pg_count pg) (pg_flags pg)]> |>
           <| pagehash ::= <[page_hash o f := x]> |> ∧
    ptab s' (<[page_hash o f := x :: chain_of tb (page_hash o f)]> tb).
Proof.
  intros HI E Hn. eexists. split; [|split; [done|]].
  - unfold vm_page_insert. step. step. step. unfold modify. f_equal. flat. by rewrite insert_insert_eq.
  - apply (tab_push pg_next pkey (pages s) (pagehash s)); try done. by eapply tab_not_null.
Qed.

(** Pages past the first of their bucket are not removed. *)
Lemma page_unlink_same s x nx : pages s !! x = Some nx → ∀ l fuel p,
  chain pg_next (pages s) p l → x ∈ l → (length l <= fuel)%nat →
  page_unlink fuel p x s = Ret tt s.
Proof.
  intros Ex. induction l as [|y l IH]; intros fuel p Hc Hx Hf; [by apply elem_of_nil in Hx|].
  rewrite chain_cons in Hc. destruct Hc as (->&Hy&n&En&Hc).
  destruct fuel as [|fuel]; [cbn in Hf; lia|]. cbn [page_unlink].
  rewrite (proj2 (Z.eqb_neq y 0)) by done. destruct (Z.eqb_spec y x) as [->|Hne].
  - run_with ltac:(apply deref_Ret; exact Ex). rewrite (upd_page_Ret _ _ _ _ Ex).
    f_equal. destruct s. unfold setf. cbn in *. f_equal. rewrite insert_id; [done|].
    rewrite Ex. by destruct nx.
  - run_with ltac:(apply deref_Ret; exact En). apply IH; [done| |cbn in Hf; lia].
    apply elem_of_cons in Hx as [->|?]; done.
Qed.

Lemma list_find_ext_in {A} (P Q : A → Prop) `{∀ x, Decision (P x), ∀ x, Decision (Q x)} l :
  (∀ x, x ∈ l → P x ↔ Q x) → list_find P l = list_find Q l.
Proof.
  induction l as [|x l IH]; intros HPQ; [done|]. cbn.
  rewrite IH by (intros y Hy; apply HPQ; by right).
  assert (P x ↔ Q x) by (apply HPQ; by left). repeat case_decide; naive_solver.
Qed.

(** ** The free list *)

(** The free pages, in the order of [next]: the one freed first is the last. *)
Record free_inv (s : kstate) (fl : list Z) : Prop := {
  fr_init : vm_page_initialized (vmg s) = true;
  fr_list : dlist pagelist (links s) (free_head PAGE_ALLOC_KER) (obj <$> fl);
  fr_page : ∀ x, x ∈ fl → 0 < x ∧ is_Some (pages s !! x) }.

Lemma free_inv_frame s s' fl :
  vmg s' = vmg s → pages s' = pages s →
  (∀ d, d ∈ cells pagelist (free_head PAGE_ALLOC_KER) (obj <$> fl) → links s' !! d = links s !! d) →
  free_inv s fl → free_inv s' fl.
Proof.
  intros Hg Hp HL [H1 H2 H3]. split; rewrite ?Hg, ?Hp; [done| |done].
  by eapply dlist_frame.
Qed.

(** The link cells of a list of pages. *)
Lemma page_cells h l d :
  d ∈ cells pagelist h (obj <$> l) ↔ d = h ∨ ∃ y, d = obj y ∧ y ∈ l.
Proof.
  unfold cells. rewrite <- list_fmap_compose, elem_of_cons, list_elem_of_fmap.
  setoid_rewrite (λ y, eq_refl : (pagelist ∘ obj) y = obj y). done.
Qed.

(** Lists of pages with different heads share no cell. *)
Lemma page_cells_disjoint h h' l l' d :
  h ≠ h' → (∀ y, y ∈ l → obj y ≠ h' ∧ y ∉ l') → (∀ y, y ∈ l' → obj y ≠ h) →
  d ∈ cells pagelist h (obj <$> l) → d ∉ cells pagelist h' (obj <$> l').
Proof.
  rewrite !page_cells. intros Hh Hl Hl' [->|(y&->&Hy)] [E|(z&E&Hz)].
  - contradiction.
  - by destruct (Hl' z Hz).
  - by destruct (Hl y Hy).
  - injection E as ->. by destruct (Hl z Hy).
Qed.

(** What the page routines leave alone. *)
Definition page_mask (s : kstate) : kstate :=
  s <| links := ∅ |> <| pages := ∅ |> <| pagehash := ∅ |>
    <| vmg := mk_vmglobals 0 0 0 0 false 0 0 0 |>.

Lemma get_page_spec s fl x pg flag :
  free_inv s (fl ++ [x]) → pages s !! x = Some pg →
  ∃ s', get_page flag s = Ret (obj x) s' ∧ free_inv s' fl ∧
    pages s' = <[x := mk_page 0 (pg_base pg) (pg_object pg) (pg_offset pg) (pg_count pg) 0]> (pages s) ∧
    nfree_pages (vmg s') = s32 (nfree_pages (vmg s) - 1) ∧
    pagehash s' = pagehash s ∧ is_Some (links s' !! obj x) ∧ page_mask s' = page_mask s ∧
    (∀ d, d ∉ cells pagelist (free_head PAGE_ALLOC_KER) (obj <$> fl ++ [x]) →
       links s' !! d = links s !! d).
Proof.
  intros HI Ex. pose proof (fr_list _ _ HI) as HD. rewrite fmap_app in HD.
  destruct (list_dequeue_spec pagelist _ _ _ _ HD) as (L1&E1&(HD1&Hdom&HF1)).
  destruct (fr_page _ _ HI x) as [Hx _]; [set_solver|].
  assert (Hs : is_Some (L1 !! obj x)).
  { rewrite <- elem_of_dom, Hdom, elem_of_dom. change (obj x) with (pagelist (obj x)).
    rewrite <- (lnk_item pagelist (free_head PAGE_ALLOC_KER) (obj x)) by (unfold free_head, G_free; intros [=]; lia).
    eapply dlist_dom; [exact HD|set_solver]. }
  destruct (list_init_spec pagelist L1 (obj x) Hs) as (L2&E2&(_&Hdom2&HF2)).
  assert (Hne : obj x ≠ NULL ∧ ∀ f, obj x ≠ free_head f) by
    (unfold obj, NULL, free_head, G_free; split; [intros [=]|intros f [=]]; lia).
  unfold get_page. run. rewrite (fr_init _ _ HI). cbn [negb].
  run_with ltac:(apply on_links'_Ret; exact E1).
  rewrite decide_False by (intros [?|?]; naive_solver).
  run_with ltac:(apply as_obj_Ret). unfold on_vmg. do 5 step.
  eexists. split; [done|]. flat. split_and!; try done.
  - split; flat; [apply HI| |].
    + eapply dlist_frame; [|exact HD1]. intros d Hd. apply HF2.
      intros ->%list_elem_of_singleton. revert Hd. unfold cells.
      destruct (dlist_ring _ _ _ _ HD) as [_ ND]. unfold cells in ND.
      rewrite fmap_app, app_comm_cons, NoDup_app in ND. destruct ND as (_&ND&_).
      intros Hd. apply (ND _ Hd). by left.
    + intros y Hy. destruct (fr_page _ _ HI y) as [? ?]; [set_solver|]. split; [done|].
      apply lookup_insert_is_Some'. by right.
  - rewrite <- elem_of_dom, Hdom2, elem_of_dom. done.
  - intros d Hd. unfold cells in *. rewrite !fmap_app, app_comm_cons, not_elem_of_app in Hd.
    destruct Hd as [Hd1 Hd2]. rewrite HF2, HF1 by done. done.
Qed.

Lemma get_page_empty s flag :
  free_inv s [] →
  get_page flag s = if decide (flag = PAGE_ALLOC_KER) then Ret NULL s else Fault.
Proof.
  intros HI. destruct (fr_list _ _ HI) as ([Hf Hb]&_). unfold fwd, bwd in *. rewrite lnk_head in *.
  assert (E : list_dequeue pagelist (free_head PAGE_ALLOC_KER) (links s) =
    Some (free_head PAGE_ALLOC_KER, links s)).
  { unfold list_dequeue. rewrite Hb. cbn [mbind option_bind].
    change (pagelist (free_head PAGE_ALLOC_KER)) with (free_head PAGE_ALLOC_KER). rewrite Hb. cbn [mbind option_bind].
    rewrite wr_prev_same by done. cbn [mbind option_bind]. rewrite decide_True by done.
    by rewrite wr_next_same. }
  unfold get_page. run. rewrite (fr_init _ _ HI). cbn [negb].
  run_with ltac:(apply on_links'_Ret; exact E).
  replace (s <| links := links s |>) with s by (by destruct s).
  repeat case_decide; subst; try done.
  - destruct H as [[=]|[=]]. by destruct H0.
  - destruct H. by right.
Qed.

Lemma put_page_spec s fl x :
  free_inv s fl → 0 < x → x ∉ fl → is_Some (pages s !! x) → is_Some (links s !! obj x) →
  ∃ s', put_page x s = Ret tt s' ∧ free_inv s' (x :: fl) ∧ pages s' = pages s ∧
    pagehash s' = pagehash s.
Proof.
  intros HI Hx Hn Hp Hl. pose proof (fr_list _ _ HI) as HD.
  assert (HR : ring pagelist (free_head PAGE_ALLOC_KER) (obj <$> x :: fl)).
  { apply obj_ring.
    - apply NoDup_cons. split; [done|]. apply dlist_ring, ring_NoDup, NoDup_cons in HD as [_ HD].
      by apply NoDup_fmap_1 in HD.
    - intros t Ht. assert (0 < t) by (apply elem_of_cons in Ht as [->|Ht]; [done|by apply (fr_page _ _ HI)]).
      unfold free_head, G_free, obj, fld. cbn. split; intros [=]; lia. }
  destruct (list_enqueue_spec pagelist (links s) (free_head PAGE_ALLOC_KER) (obj <$> fl) (obj x))
    as (L1&E1&(HD1&_&_)); [done..|].
  unfold put_page, put_to_free_list. step. unfold on_vmg. step. eexists. split; [done|].
  split_and!; try done. split; flat; [apply HI|exact HD1|].
  intros y [->|Hy]%elem_of_cons; [done|]. by apply (fr_page _ _ HI).
Qed.

(** ** Properties of the page structures *)

(** C18. A page inserted for an object and an offset is found by
    [vm_page_lookup]; the answers for all other pairs whose bucket was not
    empty are unchanged. *)
Theorem page_insert_lookup s tb x pg o f :
  ptab s tb → pages s !! x = Some pg → ¬ hashed tb x →
  ∃ s' tb', vm_page_insert x o f s = Ret tt s' ∧ ptab s' tb' ∧
    vm_page_lookup o f s' = Ret x s' ∧
    (∀ o' f', (o', f') ≠ (o, f) → chain_of tb (page_hash o' f') ≠ [] →
       ∃ r, vm_page_lookup o' f' s = Ret r s ∧ vm_page_lookup o' f' s' = Ret r s').
Proof.
  intros HI E Hn. destruct (vm_page_insert_spec s tb x pg o f HI E Hn) as (s'&Ei&Hs'&HI').
  eexists s', _. split_and!; [done|exact HI'| |].
  - rewrite (vm_page_lookup_spec s' _ o f HI'), chain_of_insert, decide_True by done.
    cbn [list_find]. rewrite decide_True; [done|]. subst s'. unfold is_page. fields.
    by rewrite lookup_insert_eq.
  - intros o' f' Hne Hc. rewrite (vm_page_lookup_spec s tb o' f' HI), (vm_page_lookup_spec s' _ o' f' HI').
    set (l := chain_of tb (page_hash o' f')) in *.
    assert (Hx : x ∉ l) by (intros ?; apply Hn; by eexists).
    assert (Hsame : list_find (is_page s' o' f') l = list_find (is_page s o' f') l).
    { apply list_find_ext_in. intros y Hy. subst s'. unfold is_page. fields.
      by rewrite lookup_insert_ne by congruence. }
    exists (default 0 (snd <$> list_find (is_page s o' f') l)). split; [by destruct l|].
    rewrite chain_of_insert. case_decide as Eh.
    + replace (chain_of tb (page_hash o f)) with l by (unfold l; by rewrite Eh).
      cbn [list_find]. rewrite decide_False.
      * rewrite Hsame. by destruct (list_find (is_page s o' f') l) as [[??]|].
      * subst s'. unfold is_page. fields. rewrite lookup_insert_eq. cbn. naive_solver.
    + fold l. clearbody l. destruct l; [done|]. by rewrite Hsame.
Qed.

(** [vm_page_remove] takes the first page of a bucket out of the table,
    but leaves any other page of the bucket in it: the loop looks for the page
    itself and not for its predecessor. *)
Theorem page_remove_first_only s tb x pg y l :
  ptab s tb → pages s !! x = Some pg → chain_of tb (pkey pg) = y :: l → x ∈ y :: l →
  ∃ s', vm_page_remove x s = Ret tt s' ∧
    if decide (x = y) then ptab s' (<[pkey pg := l]> tb) ∧ pages s' = pages s else s' = s.
Proof.
  intros HI E Hl Hx. pose proof (tab_chain _ _ _ _ _ HI (pkey pg)) as Hc. rewrite Hl in Hc.
  pose proof (tab_NoDup _ _ _ _ _ HI (pkey pg)) as ND. rewrite Hl in ND.
  unfold vm_page_remove. run_with ltac:(apply deref_Ret; exact E). cbn zeta. fold (pkey pg). run.
  pose proof Hc as Hc'. rewrite chain_cons in Hc'. destruct Hc' as (Hb&Hy&n&En&Hc').
  rewrite Hb. case_decide as Hxy.
  - destruct Hxy. rewrite Z.eqb_refl. rewrite E in En. injection En as <-.
    eexists. split; [done|]. split; [|done].
    eapply (tab_remove _ _ (pages s) _ (pagehash s) _ _ _ [] x l); [done|done|apply HI|eauto|..]; fields.
    + by rewrite bucket_insert, decide_True.
    + intros h' Hh. rewrite bucket_insert, decide_False by done. apply HI.
  - rewrite (proj2 (Z.eqb_neq y x)) by congruence. run. eexists. split; [|done].
    rewrite Hb in Hc. apply (page_unlink_same s x pg E (y :: l)); [done..|].
    unfold page_fuel. apply (chain_size pg_next) in Hc; [lia|done].
Qed.

(** The free pages form a queue: [put_page] adds a page at the back and
    [get_page] takes the page that has been free the longest, clears its
    flags and hash link and keeps its frame. *)
Theorem free_pages_queue s fl x flag :
  free_inv s fl →
  (0 < x → x ∉ fl → is_Some (pages s !! x) → is_Some (links s !! obj x) →
   ∃ s', put_page x s = Ret tt s' ∧ free_inv s' (x :: fl) ∧ pages s' = pages s) ∧
  (∀ fl' y pg, fl = fl' ++ [y] → pages s !! y = Some pg →
   ∃ s', get_page flag s = Ret (obj y) s' ∧ free_inv s' fl' ∧
     pages s' = <[y := mk_page 0 (pg_base pg) (pg_object pg) (pg_offset pg) (pg_count pg) 0]> (pages s) ∧
     nfree_pages (vmg s') = s32 (nfree_pages (vmg s) - 1)).
Proof.
  intros HI. split.
  - intros Hx Hn Hp Hl. destruct (put_page_spec s fl x) as (s'&?&?&?&_); eauto.
  - intros fl' y pg -> Hy. destruct (get_page_spec s fl' y pg flag) as (s'&?&?&?&?&_); eauto 10.
Qed.

(** When no page is free, [get_page] reports it only to callers that ask
    for kernel pages; [page_alloc], which asks for [PAGE_ALLOC_OTH], uses the
    head of the list as a page and faults. *)
Theorem page_alloc_exhausted s junk object offset :
  free_inv s [] → object ≠ 0 →
  get_page PAGE_ALLOC_KER s = Ret NULL s ∧ page_alloc junk object offset s = Fault.
Proof.
  intros HI Ho. split; [by rewrite get_page_empty|]. unfold page_alloc.
  rewrite (proj2 (Z.eqb_neq object 0)) by done. run. unfold mbind, M_bind.
  by rewrite get_page_empty.
Qed.

(** ** Instances of the theorems *)
Definition page0 (base : Z) : vm_page := mk_page 0 base 0 0 0 0.
Definition object0 : vm_object := mk_object 1 0 0 0 0 (mk_vn 0 0 0 0 0 0 0 0 0 0 0).
(** Two objects, 5000 and 4999, and four pages of which 300 and 400 are free. *)
Definition demo_vm : kstate :=
  k0 <| vmg := mk_vmglobals 4 4 4 0 true 0x4000 0x4000 0x4000 |>
     <| objects := {[ 5000 := object0; 4999 := object0 ]} |>
     <| pages := list_to_map [(100, page0 0x10000); (200, page0 0x11000); (300, page0 0x12000); (400, page0 0x13000)] |>
     <| links := list_to_map ([(free_head 1, mk_link (free_head 1) (free_head 1));
          (obj 5000, mk_link (obj 5000) (obj 5000)); (obj 4999, mk_link (obj 4999) (obj 4999))] ++
          ((λ t, (obj t, mk_link NULL NULL)) <$> [100; 200; 300; 400])) |>.
Definition demo_free : kstate := after (put_page 300;; put_page 400) demo_vm.
(** Pages 100 and 200 in one bucket. *)
Definition demo_hash : kstate := after (vm_page_insert 100 5000 0;; vm_page_insert 200 4999 4096) demo_free.
Definition demo_ptb : gmap Z (list Z) := {[ page_hash 5000 0 := [200; 100] ]}.

Lemma demo_ptab : ptab demo_hash demo_ptb.
Proof. apply table_if_ok. evaluate. Qed.

Lemma page_insert_lookup_witness :
  ∃ s' tb', vm_page_insert 300 5000 4096 demo_hash = Ret tt s' ∧ ptab s' tb' ∧
    vm_page_lookup 5000 4096 s' = Ret 300 s' ∧
    (∀ o' f', (o', f') ≠ (5000, 4096) → chain_of demo_ptb (page_hash o' f') ≠ [] →
       ∃ r, vm_page_lookup o' f' demo_hash = Ret r demo_hash ∧ vm_page_lookup o' f' s' = Ret r s').
Proof.
  apply (page_insert_lookup demo_hash demo_ptb 300 (page0 0x12000)).
  - apply demo_ptab.
  - vm_compute. reflexivity.
  - intros H. cut (300 ≠ 300); [congruence|]. revert H. apply (hashed_forall _ (λ y, y ≠ 300)). evaluate.
Defined.

(** Page 100 stays in its bucket. *)
Lemma page_remove_first_only_witness : vm_page_remove 100 demo_hash = Ret tt demo_hash.
Proof.
  destruct (page_remove_first_only demo_hash demo_ptb 100 (mk_page 0 0x10000 5000 0 0 0) 200 [100])
    as (s'&E&Hs); [apply demo_ptab|evaluate|evaluate|evaluate|]. cbn in Hs. by rewrite E, Hs.
Defined.

Lemma demo_free_inv : free_inv demo_free [400; 300].
Proof.
  split.
  - vm_compute. reflexivity.
  - evaluate.
  - apply Forall_forall. evaluate.
Qed.

Lemma free_pages_queue_witness :
  (∃ s', put_page 200 demo_free = Ret tt s' ∧ free_inv s' [200; 400; 300]) ∧
  (∃ s', get_page PAGE_ALLOC_OTH demo_free = Ret (obj 300) s' ∧ free_inv s' [400]).
Proof.
  destruct (free_pages_queue demo_free [400; 300] 200 PAGE_ALLOC_OTH demo_free_inv) as [H1 H2]. split.
  - destruct H1 as (s'&?&?&_); [evaluate..|]. by exists s'.
  - destruct (H2 [400] 300 (page0 0x12000)) as (s'&?&?&_); [done|evaluate|]. by exists s'.
Defined.

Definition demo_no_pages : kstate := after (get_page 0;; get_page 0) demo_free.
Lemma page_alloc_exhausted_witness :
  get_page PAGE_ALLOC_KER demo_no_pages = Ret NULL demo_no_pages ∧
  page_alloc object0 5000 0 demo_no_pages = Fault.
Proof.
  apply page_alloc_exhausted; [|done]. split.
  - vm_compute. reflexivity.
  - evaluate.
  - intros x Hx%elem_of_nil. done.
Defined.
