(* ===== verification/Pmap.v ===== *)
(** * Page tables

    Models microkernel/arch/i386/pmap.c.  The words of page directories and
    page tables are in [ptmem], by their address; [pdbr] and the entries of the
    directory hold addresses of tables.  [invlpg] only flushes the TLB.
    [pmap_enter] and [page_table_allocate] call each other: the recursion is on
    [fuel]. *)

From S2P Require Import Prelude DList Hash KState Sched Thread VmPage.

Definition KERNEL_BASE : Z := 0xE0000000.
Definition PAGE_PRESENT : Z := 1.
Definition PAGE_RW : Z := 2.
Definition PAGE_USER : Z := 4.
Definition NTABLES : Z := 0x400.
Definition KTABLE_START : Z := NTABLES - 128.
Definition addr_to_pdenum (addr : Z) : Z := Z.land (Z.shiftr addr 22) 0x3FF.
Definition addr_to_ptenum (addr : Z) : Z := Z.land (Z.shiftr addr 12) 0x3FF.
Definition addr_to_pte (addr : Z) : Z := Z.land addr 0xFFFFF000.

(** ** Memory accesses; [base[i]] is the word at [base + 4 i] *)
Definition rd_word (base i : Z) : K Z := deref ptmem (base + 4 * i).
Definition wr_word (a v : Z) : K unit := λ s,
  match ptmem s !! a with
  | Some _ => Ret tt (s <| ptmem ::= <[a := v]> |>)
  | None => Fault
  end.
(** A write at any address: [k] bytes past a word boundary it changes the
    upper bytes of one word and the lower bytes of the next. *)
Definition wr_any (a v : Z) : K unit :=
  let k := a mod 4 in
  if k =? 0 then wr_word a v
  else
    w0 ← deref ptmem (a - k);
    w1 ← deref ptmem (a - k + 4);
    wr_word (a - k) (w0 mod 2 ^ (8 * k) + (v mod 2 ^ (8 * (4 - k))) * 2 ^ (8 * k));;
    wr_word (a - k + 4) (w1 / 2 ^ (8 * k) * 2 ^ (8 * k) + v / 2 ^ (8 * (4 - k))).

(** [memset(addr, 0, 4 * n)] of a table *)
Definition zero_words (base : Z) (n : nat) (mem : gmap Z Z) : gmap Z Z :=
  foldr (λ i, <[base + 4 * i := 0]>) mem (seqZ 0 (Z.of_nat n)).

(** ** Allocation of page tables *)
Definition page_table_allocate_with (enter : Z → Z → Z → Z → K unit) (pmap : Z) : K Z :=
  p ← get_page PAGE_ALLOC_KER;
  page ← as_page p;
  upd_page page (λ pg, pg <| pg_count := 1 |>);;
  pg ← deref pages page;
  vm_page_insert page pmap_object (pg_base pg);;
  on_links (list_add pagelist (page_list_of pmap) (obj page));;
  enter kernel_map (pg_base pg) (u32 (pg_base pg + KERNEL_BASE)) PAGE_RW;;
  modify (λ s, s <| ptmem ::= zero_words (pg_base pg) 1024 |>);;
  mret (pg_base pg).

(** [for(; p != &sysinfo.proclist; p = p->proclist.next) p->map->pmap->pdbr[idx] = pte;] *)
Fixpoint kernel_map_update_loop (fuel : nat) (p : ptr) (pte idx : Z) : K unit :=
  if decide (p = (G_proclist, 0)) then mret tt
  else match fuel with
  | O => spin
  | S fuel =>
      pp ← as_obj p;
      pr ← get_proc pp;
      mp ← deref vmaps (p_map pr);
      pm ← deref pmaps (m_pmap mp);
      wr_word (pdbr pm + 4 * idx) pte;;
      q ← ask_links (rd_next (fld F_proclist (obj pp)));
      kernel_map_update_loop fuel q pte idx
  end.
Definition kernel_map_update (pte idx : Z) : K unit :=
  fuel ← gets (λ s, S (size (procs s)));
  p ← ask_links (rd_next (G_proclist, 0));
  kernel_map_update_loop fuel p pte idx.

Fixpoint pmap_enter (fuel : nat) (map paddr vaddr protection : Z) : K unit :=
  match fuel with
  | O => spin
  | S fuel =>
      pm ← deref pmaps map;
      pde ← (if pdbr pm =? 0 then
               t ← page_table_allocate_with (pmap_enter fuel) map;
               modify (λ s, s <| pmaps ::= <[map := mk_pmap t]> |>);;
               mret t
             else mret (pdbr pm));
      w ← rd_word pde (addr_to_pdenum vaddr);
      pte ← (if w =? 0 then
               pte ← page_table_allocate_with (pmap_enter fuel) map;
               let newpte := Z.lor (Z.lor (addr_to_pte pte) PAGE_PRESENT) protection in
               let idx := addr_to_pdenum vaddr in
               (if map =? kernel_map then kernel_map_update newpte idx else mret tt);;
               wr_word (pde + 4 * idx) newpte;;
               mret pte
             else mret (addr_to_pte w));
      wr_word (pte + 4 * addr_to_ptenum vaddr)
        (Z.lor (Z.lor (addr_to_pte paddr) PAGE_PRESENT) protection)
  end.

Definition page_table_allocate (fuel : nat) (pmap : Z) : K Z :=
  page_table_allocate_with (pmap_enter fuel) pmap.

(** The loop test is [pa <= paddr + size] on unsigned words. *)
Fixpoint enter_range_loop (n : nat) (fuel : nat) (map pa vaddr last protection : Z) : K unit :=
  if last <? pa then mret tt
  else match n with
  | O => spin
  | S n =>
      pmap_enter fuel map pa vaddr protection;;
      enter_range_loop n fuel map (u32 (pa + PAGE_SIZE)) (u32 (vaddr + PAGE_SIZE)) last protection
  end.
Definition pmap_enter_range (fuel : nat) (map paddr vaddr limit protection : Z) : K unit :=
  let size := align_page limit in
  let last := u32 (paddr + size) in
  enter_range_loop (Z.to_nat (size / PAGE_SIZE + 2)) fuel map paddr vaddr last protection.

(** ** Creation and destruction; [junk] is the page directory a recycled
    structure still holds *)
Definition pmap_create (junk : Z) : K Z :=
  p ← kalloc [0];
  if p =? 0 then fault
  else
    modify (λ s, s <| pmaps ::= <[p := mk_pmap junk]> |>);;
    on_links (list_init (page_list_of p));;
    mret p.

Fixpoint pmap_page_free_loop (fuel : nat) (pmap : Z) : K unit :=
  match fuel with
  | O => spin
  | S fuel =>
      e ← ask_links (list_isempty (page_list_of pmap));
      if (e : bool) then mret tt
      else
        p ← on_links' (list_remove pagelist (page_list_of pmap));
        page ← as_page p;
        pg ← deref pages page;
        page_dealloc (pg_object pg) (pg_offset pg);;
        pmap_page_free_loop fuel pmap
  end.
Definition pmap_page_free (pmap : Z) : K unit :=
  fuel ← gets page_fuel; pmap_page_free_loop fuel pmap.

Definition pmap_destroy (map : Z) : K Z :=
  pmap_page_free map;;
  modify (λ s, s <| pmaps ::= delete map |>);;
  mret 0.

(** [for(pde = i; pde < i + n; pde++) if(src[pde]) f pde src[pde]] *)
Fixpoint each_word (n : nat) (i src : Z) (f : Z → Z → K unit) : K unit :=
  match n with
  | O => mret tt
  | S n =>
      w ← rd_word src i;
      (if w =? 0 then mret tt else f i w);;
      each_word n (i + 1) src f
  end.

Definition share_kernel_tables (dest : Z) : K unit :=
  km ← deref pmaps kernel_map;
  each_word 128 KTABLE_START (pdbr km) (λ pde w, wr_word (dest + 4 * pde) w).

Definition pmap_copy (fuel : nat) (junk : Z) (src : Z) : K Z :=
  map ← pmap_create junk;
  on_links (list_init (page_list_of map));;
  dest ← page_table_allocate fuel map;
  modify (λ s, s <| pmaps ::= <[map := mk_pmap dest]> |>);;
  sm ← deref pmaps src;
  each_word (Z.to_nat KTABLE_START) 0 (pdbr sm) (λ pde w,
    dest_pte ← page_table_allocate fuel map;
    each_word (Z.to_nat NTABLES) 0 (addr_to_pte w) (λ pte e, wr_word (dest_pte + 4 * pte) e);;
    wr_word (dest + 4 * pde) (Z.lor (addr_to_pte dest_pte) (Z.land w 0xFFF)));;
  share_kernel_tables dest;;
  mret map.

Definition pmap_share_kernel (fuel : nat) (nmap : Z) : K unit :=
  dest ← page_table_allocate fuel nmap;
  modify (λ s, s <| pmaps ::= <[nmap := mk_pmap dest]> |>);;
  share_kernel_tables dest.

Definition exec_pmap (map : Z) : K unit :=
  pmap_page_free map;;
  pm ← deref pmaps map;
  modify (λ s, s <| ptmem ::= zero_words (pdbr pm) (Z.to_nat KTABLE_START) |>).

(** ** Changing and removing mappings *)

(** [while(sva < eva) { body sva; sva += PAGE_SIZE; }] on unsigned words *)
Fixpoint page_range (n : nat) (sva eva : Z) (body : Z → K unit) : K unit :=
  if sva <? eva then
    match n with
    | O => spin
    | S n => body sva;; page_range n (u32 (sva + PAGE_SIZE)) eva body
    end
  else mret tt.
Definition range_fuel (sva eva : Z) : nat := Z.to_nat ((eva - sva) / PAGE_SIZE + 1).

(** The directory entry is used as a pointer with its flag bits. *)
Definition pmap_remove (map svaddr evaddr : Z) : K unit :=
  pm ← deref pmaps map;
  if pdbr pm =? 0 then mret tt
  else page_range (range_fuel svaddr evaddr) svaddr evaddr (λ va,
    pte ← rd_word (pdbr pm) (addr_to_pdenum va);
    wr_any (pte + 4 * addr_to_ptenum va) 0).

Definition protect_entry (prot e : Z) : Z :=
  let e1 := if has prot VM_PAGE_READ || has prot VM_PAGE_EXEC then Z.land e (not32 PAGE_RW) else e in
  if has prot VM_PAGE_WRITE then Z.lor e1 PAGE_RW else e1.

Definition pmap_protect (map svaddr evaddr prot : Z) : K Z :=
  pm ← deref pmaps map;
  if pdbr pm =? 0 then mret 0
  else
    page_range (range_fuel svaddr evaddr) svaddr evaddr (λ va,
      w ← rd_word (pdbr pm) (addr_to_pdenum va);
      e ← rd_word (addr_to_pte w) (addr_to_ptenum va);
      wr_word (addr_to_pte w + 4 * addr_to_ptenum va) (protect_entry prot e));;
    mret 1.

Definition pmap_cow (map start stop : Z) : K unit :=
  pm ← deref pmaps map;
  if pdbr pm =? 0 then mret tt
  else page_range (range_fuel start stop) start stop (λ va,
    w ← rd_word (pdbr pm) (addr_to_pdenum va);
    e ← rd_word (addr_to_pte w) (addr_to_ptenum va);
    wr_word (addr_to_pte w + 4 * addr_to_ptenum va) (Z.land e (not32 PAGE_RW))).

(** ** Address translation *)

(** The walk of the hardware through the directory [pd]: the table entry of a
    virtual address, when the entries of the directory and of the table are present. *)
Definition walk (s : kstate) (pd va : Z) : option Z :=
  w ← ptmem s !! (pd + 4 * addr_to_pdenum va);
  if has w PAGE_PRESENT then
    e ← ptmem s !! (addr_to_pte w + 4 * addr_to_ptenum va);
    if has e PAGE_PRESENT then Some e else None
  else None.

(** The tables of a directory are present and frames of their own. *)
Record pd_wf (s : kstate) (pd : Z) : Prop := {
  pd_aligned : pd mod PAGE_SIZE = 0;
  pd_present : ∀ i w, 0 <= i < 1024 → ptmem s !! (pd + 4 * i) = Some w → w ≠ 0 → has w PAGE_PRESENT = true;
  pd_not_table : ∀ i w, 0 <= i < 1024 → ptmem s !! (pd + 4 * i) = Some w → w ≠ 0 → addr_to_pte w ≠ pd;
  pd_inj : ∀ i j w w', 0 <= i < 1024 → 0 <= j < 1024 →
    ptmem s !! (pd + 4 * i) = Some w → ptmem s !! (pd + 4 * j) = Some w' → w ≠ 0 → w' ≠ 0 →
    addr_to_pte w = addr_to_pte w' → i = j }.

Lemma pdenum_range va : 0 <= addr_to_pdenum va < 1024.
Proof.
  unfold addr_to_pdenum. change 0x3FF with (Z.ones 10). rewrite Z.land_ones by lia.
  apply Z.mod_pos_bound. lia.
Qed.
Lemma ptenum_range va : 0 <= addr_to_ptenum va < 1024.
Proof.
  unfold addr_to_ptenum. change 0x3FF with (Z.ones 10). rewrite Z.land_ones by lia.
  apply Z.mod_pos_bound. lia.
Qed.

(** [addr & 0xfffff000] clears the low 12 bits of a word. *)
Lemma addr_to_pte_mod a : addr_to_pte a mod PAGE_SIZE = 0.
Proof.
  unfold addr_to_pte, PAGE_SIZE. change 0x1000 with (2 ^ 12). apply Z.bits_inj'. intros n Hn.
  rewrite Z.bits_0. destruct (decide (n < 12)).
  - rewrite Z.mod_pow2_bits_low, Z.land_spec by lia.
    replace (Z.testbit 0xFFFFF000 n) with false; [apply andb_false_r|].
    change 0xFFFFF000 with (Z.shiftl 0xFFFFF 12). rewrite Z.shiftl_spec_low by lia. done.
  - rewrite Z.mod_pow2_bits_high by lia. done.
Qed.

(** Slots of tables at different frames are different addresses. *)
Lemma slot_ne a b i j :
  a mod PAGE_SIZE = 0 → b mod PAGE_SIZE = 0 → 0 <= i < 1024 → 0 <= j < 1024 →
  a + 4 * i = b + 4 * j → a = b ∧ i = j.
Proof. unfold PAGE_SIZE. intros. Z.div_mod_to_equations. lia. Qed.

(** The word [pmap_enter] writes. *)
Definition entry_of (pa prot : Z) : Z := Z.lor (Z.lor (addr_to_pte pa) PAGE_PRESENT) prot.
Lemma entry_present pa prot : has (entry_of pa prot) PAGE_PRESENT = true.
Proof.
  unfold has, entry_of, PAGE_PRESENT. apply negb_true_iff, Z.eqb_neq. intros E.
  apply (f_equal (λ x, Z.testbit x 0)) in E. rewrite Z.land_spec, !Z.lor_spec, Z.bits_0 in E.
  change (Z.testbit 1 0) with true in E. rewrite orb_true_r, orb_true_l in E. done.
Qed.
Lemma entry_frame pa prot : 0 <= pa < 2 ^ 32 → pa mod PAGE_SIZE = 0 → 0 <= prot < PAGE_SIZE → addr_to_pte (entry_of pa prot) = pa.
Proof.
  intros Hpa Ha Hp. unfold entry_of, addr_to_pte, PAGE_PRESENT, PAGE_SIZE in *. apply Z.bits_inj'. intros n Hn.
  change 0xFFFFF000 with (Z.shiftl (Z.ones 20) 12). rewrite Z.land_spec, !Z.lor_spec, Z.land_spec, Z.shiftl_spec by lia.
  destruct (decide (n < 12)) as [Hlt|Hge].
  - rewrite (Z.testbit_neg_r _ (n - 12)), andb_false_r by lia. symmetry.
    replace pa with (pa / 2 ^ 12 * 2 ^ 12) by (Z.div_mod_to_equations; lia). apply Z.mul_pow2_bits_low. lia.
  - rewrite (testbit_small prot 12), orb_false_r by lia. rewrite (testbit_small 1 1), orb_false_r by lia.
    destruct (decide (n < 32)).
    + rewrite Z.ones_spec_low by lia. by rewrite !andb_true_r.
    + rewrite Z.ones_spec_high by lia. rewrite !andb_false_r. symmetry. apply (testbit_small pa 32); lia.
Qed.

(** The same page: equal directory and table indices. *)
Definition same_page (va va' : Z) : Prop :=
  addr_to_pdenum va = addr_to_pdenum va' ∧ addr_to_ptenum va = addr_to_ptenum va'.

Lemma wr_word_Ret s a v u : ptmem s !! a = Some u → wr_word a v s = Ret tt (s <| ptmem ::= <[a := v]> |>).
Proof. intros E. unfold wr_word. by rewrite E. Qed.
(** [pmap_enter] when the directory and the table exist writes one entry. *)
Lemma pmap_enter_present fuel s map pm pa va prot w old :
  pmaps s !! map = Some pm → pdbr pm ≠ 0 →
  ptmem s !! (pdbr pm + 4 * addr_to_pdenum va) = Some w → w ≠ 0 →
  ptmem s !! (addr_to_pte w + 4 * addr_to_ptenum va) = Some old →
  pmap_enter (S fuel) map pa va prot s =
    Ret tt (s <| ptmem ::= <[addr_to_pte w + 4 * addr_to_ptenum va := entry_of pa prot]> |>).
Proof.
  intros Hm Hpd Hw Hw0 Hold. cbn [pmap_enter]. run_with ltac:(apply deref_Ret; exact Hm).
  rewrite (proj2 (Z.eqb_neq (pdbr pm) 0)) by done. run.
  unfold rd_word. run_with ltac:(apply deref_Ret; exact Hw).
  rewrite (proj2 (Z.eqb_neq w 0)) by done. run. unfold wr_word. by rewrite Hold.
Qed.

(** Writing one entry of a table of the directory. *)
Lemma walk_write s pd i w j v :
  pd_wf s pd → 0 <= i < 1024 → 0 <= j < 1024 →
  ptmem s !! (pd + 4 * i) = Some w → w ≠ 0 → has v PAGE_PRESENT = true →
  ∀ va, walk (s <| ptmem ::= <[addr_to_pte w + 4 * j := v]> |>) pd va =
    if decide (addr_to_pdenum va = i ∧ addr_to_ptenum va = j) then Some v else walk s pd va.
Proof.
  intros HW Hi Hj Hw Hw0 Hv va. unfold walk. fields.
  pose proof (pdenum_range va) as Hd. pose proof (ptenum_range va) as Ht.
  rewrite lookup_insert_ne.
  2:{ intros E. apply slot_ne in E as [E _]; [|apply addr_to_pte_mod|apply HW|done|done].
      by eapply (pd_not_table _ _ HW i). }
  destruct (ptmem s !! (pd + 4 * addr_to_pdenum va)) as [w'|] eqn:E'; cbn.
  - destruct (Z.eqb_spec w' 0) as [->|Hw'].
    + rewrite decide_False; [done|]. intros [Ei _]. rewrite Ei in E'. congruence.
    + rewrite (pd_present _ _ HW _ _ Hd E' Hw'). case_decide as Hc.
      * destruct Hc as [Ei Ej]. rewrite Ei in E'. rewrite Ej.
        assert (w' = w) as -> by congruence. rewrite lookup_insert_eq. cbn. by rewrite Hv.
      * rewrite lookup_insert_ne; [done|]. intros E. apply slot_ne in E as [E1 E2];
          [|apply addr_to_pte_mod|apply addr_to_pte_mod|done|done].
        apply Hc. split; [|done]. by eapply (pd_inj _ _ HW (addr_to_pdenum va) i w' w).
  - rewrite decide_False; [done|]. intros [Ei _]. rewrite Ei in E'. congruence.
Qed.

(** ** Page tables of the kernel *)

Lemma free_NoDup s fl : free_inv s fl → NoDup fl.
Proof.
  intros HI. pose proof (fr_list _ _ HI) as HD. apply dlist_ring, ring_NoDup, NoDup_cons in HD as [_ HD].
  by apply NoDup_fmap_1 in HD.
Qed.
(** The pages [ol] on the list of [o], a pmap or an object, none of them free. *)
Record page_owner (s : kstate) (fl : list Z) (o : Z) (ol : list Z) : Prop := {
  ow_owner : o ≠ G_free ∧ o ∉ fl;
  ow_pages : dlist pagelist (links s) (page_list_of o) (obj <$> ol);
  ow_disj : ∀ y, y ∈ ol → 0 < y ∧ y ∉ fl ∧ y ≠ o }.
(** [list_add] of an allocated page to the list of its owner leaves the free list alone. *)
Lemma add_page_spec s fl o ol x :
  free_inv s fl → page_owner s fl o ol → 0 < x → x ∉ fl → x ∉ ol → x ≠ o → is_Some (links s !! obj x) →
  ∃ L', list_add pagelist (page_list_of o) (obj x) (links s) = Some L' ∧
    dlist pagelist L' (page_list_of o) (obj <$> x :: ol) ∧ free_inv (s <| links := L' |>) fl.
Proof.
  intros HI [[Ho Hof] HD Hol] Hx Hxf Hxo Hxo' Hs.
  assert (HR : ring pagelist (page_list_of o) (obj <$> x :: ol)).
  { apply obj_ring.
    - apply NoDup_cons. split; [done|]. apply dlist_ring, ring_NoDup, NoDup_cons in HD as [_ HD].
      by apply NoDup_fmap_1 in HD.
    - intros t Ht. assert (t ≠ o) by (apply elem_of_cons in Ht as [->|Ht]; [done|by apply Hol]).
      unfold page_list_of, obj, fld. cbn. split; intros [=]; lia. }
  destruct (list_enqueue_spec pagelist (links s) (page_list_of o) (obj <$> ol) (obj x))
    as (L'&E&(HD'&_&HF)); [done..|].
  exists L'. rewrite list_add_enqueue. split_and!; [done..|].
  eapply free_inv_frame; [..|exact HI]; [done|done|]. intros d Hd. apply HF. revert Hd.
  apply (page_cells_disjoint _ _ fl (x :: ol)).
  - unfold free_head, page_list_of, obj. intros [=]; lia.
  - intros y Hy. split; [unfold page_list_of; intros [=]; congruence|].
    intros [->|Hk]%elem_of_cons; [done|]. by destruct (Hol y Hk) as (_&?&_).
  - intros y Hy. assert (0 < y) by (apply elem_of_cons in Hy as [->|Hy]; [done|by apply Hol]).
    unfold free_head, obj, G_free. intros [=]; lia.
Qed.
(** Taking the page [x] from the free list keeps the list of another owner. *)
Lemma owner_get_page s s1 fl x o ol :
  free_inv s (fl ++ [x]) → page_owner s (fl ++ [x]) o ol →
  (∀ d, d ∉ cells pagelist (free_head PAGE_ALLOC_KER) (obj <$> fl ++ [x]) → links s1 !! d = links s !! d) →
  page_owner s1 fl o ol.
Proof.
  intros HI [[Ho Hof] HD Hol] HF. split; [split; [done|set_solver]| |].
  - eapply dlist_frame; [|exact HD]. intros d Hd. apply HF. revert Hd. apply page_cells_disjoint.
    + unfold free_head, page_list_of, obj. intros [=]; lia.
    + intros y Hy. destruct (Hol y Hy) as (Hy0&Hyf&_). split; [|done]. unfold free_head, obj, G_free. intros [=]; lia.
    + intros y Hy. unfold page_list_of. intros [=]; congruence.
  - intros y Hy. destruct (Hol y Hy) as (?&?&?). set_solver.
Qed.

(** [page_table_allocate] up to the mapping of the new table [x]. *)
Lemma table_page_spec enter s fl x pg o ol :
  free_inv s (fl ++ [x]) → page_owner s (fl ++ [x]) o ol → x ∉ ol → pages s !! x = Some pg →
  ∃ s', page_table_allocate_with enter o s =
      (enter kernel_map (pg_base pg) (u32 (pg_base pg + KERNEL_BASE)) PAGE_RW;;
       modify (λ s, s <| ptmem ::= zero_words (pg_base pg) 1024 |>);; mret (pg_base pg)) s' ∧
    free_inv s' fl ∧ page_owner s' fl o (x :: ol) ∧ ptmem s' = ptmem s ∧ pmaps s' = pmaps s ∧
    (∀ y, y ≠ x → pages s' !! y = pages s !! y).
Proof.
  intros HI HO Hxo Ex. destruct (fr_page _ _ HI x) as [Hx _]; [set_solver|]. pose proof (free_NoDup _ _ HI) as ND.
  assert (Hxf : x ∉ fl) by (apply NoDup_app in ND as (_&ND&_); intros ?; by eapply ND; [|left]).
  assert (x ≠ o) as Hne by (intros ->; apply (proj2 (ow_owner _ _ _ _ HO)); set_solver).
  destruct (get_page_spec s fl x pg PAGE_ALLOC_KER HI Ex) as (s1&E1&HI1&P1&_&H1&Hs1&HM&HF).
  assert (Epm : pmaps s1 = pmaps s) by (by apply (f_equal pmaps) in HM).
  assert (Ept : ptmem s1 = ptmem s) by (by apply (f_equal ptmem) in HM).
  pose proof (owner_get_page _ _ _ _ _ _ HI HO HF) as HO1.
  set (pg1 := mk_page 0 (pg_base pg) (pg_object pg) (pg_offset pg) (pg_count pg) 0) in *.
  assert (Ex1 : pages s1 !! x = Some pg1) by (rewrite P1; apply lookup_insert_eq).
  destruct (add_page_spec s1 fl o ol x HI1 HO1) as (L'&EL&HDL&HIL); try done.
  eexists. split.
  { unfold page_table_allocate_with, as_page, vm_page_insert.
    run_with ltac:(exact E1). run_with ltac:(run_with ltac:(apply as_obj_Ret);
      run_with ltac:(apply deref_Ret; exact Ex1); reflexivity).
    cbv zeta. do 6 step. unfold pg1. cbn [pg_base]. step. reflexivity. }
  flat. split_and!; [| |done|done|].
  - split; flat; [apply HI1|apply (fr_list _ _ HIL)|].
    intros y Hy. split; [by apply (fr_page _ _ HI1)|].
    rewrite !lookup_insert_is_Some'. right. right. right. by apply (fr_page _ _ HI1).
  - split; flat; [apply HO1|done|].
    intros y [->|Hy]%elem_of_cons; [done|]. apply (ow_disj _ _ _ _ HO1 y Hy).
  - intros y Hy. rewrite !lookup_insert_ne by done. rewrite P1. by apply lookup_insert_ne.
Qed.

(** ** Entering a page *)

(** [pmap_enter] has what it needs for the address [va] in the tables of [map]: a table, or, in
    the map of a process, the page [x] for a new one, whose frame is in no table of the map and gets a
    place in the tables of the kernel.  [win] is the address of the kernel the new table is mapped at. *)
Inductive enterable (s : kstate) (map pd va : Z) : option Z → Prop :=
| old_table w old :
    ptmem s !! (pd + 4 * addr_to_pdenum va) = Some w → w ≠ 0 →
    ptmem s !! (addr_to_pte w + 4 * addr_to_ptenum va) = Some old → enterable s map pd va None
| new_table fl x pg kl kpd wk old :
    map ≠ kernel_map → ptmem s !! (pd + 4 * addr_to_pdenum va) = Some 0 →
    free_inv s (fl ++ [x]) → page_owner s (fl ++ [x]) map kl → x ∉ kl → pages s !! x = Some pg →
    let base := pg_base pg in let win := u32 (base + KERNEL_BASE) in
    0 <= base < 2 ^ 32 → base mod PAGE_SIZE = 0 → base ≠ pd →
    pmaps s !! kernel_map = Some (mk_pmap kpd) → kpd ≠ 0 →
    ptmem s !! (kpd + 4 * addr_to_pdenum win) = Some wk → wk ≠ 0 →
    ptmem s !! (addr_to_pte wk + 4 * addr_to_ptenum win) = Some old → addr_to_pte wk ≠ pd →
    (∀ i w, 0 <= i < 1024 → ptmem s !! (pd + 4 * i) = Some w → w ≠ 0 →
       addr_to_pte w ≠ base ∧ (addr_to_pte w = addr_to_pte wk → i = addr_to_pdenum win)) →
    enterable s map pd va (Some win).

Lemma zero_words_in base (n : nat) mem i : 0 <= i < Z.of_nat n → zero_words base n mem !! (base + 4 * i) = Some 0.
Proof.
  intros Hi. unfold zero_words. assert (Hin : i ∈ seqZ 0 (Z.of_nat n)) by (apply elem_of_seqZ; lia). revert Hin. generalize (seqZ 0 (Z.of_nat n)).
  induction l as [|j l IH]; cbn; [by intros ?%elem_of_nil|]. intros [->|Hin]%elem_of_cons; [apply lookup_insert_eq|].
  destruct (decide (base + 4 * j = base + 4 * i)) as [->|Hne]; [apply lookup_insert_eq|]. rewrite lookup_insert_ne by done. auto.
Qed.
Lemma zero_words_out base (n : nat) mem a : (∀ i, 0 <= i < Z.of_nat n → a ≠ base + 4 * i) → zero_words base n mem !! a = mem !! a.
Proof.
  intros Ha. unfold zero_words. assert (Hin : ∀ i, i ∈ seqZ 0 (Z.of_nat n) → a ≠ base + 4 * i) by (intros i Hi%elem_of_seqZ; apply Ha; lia).
  revert Hin. generalize (seqZ 0 (Z.of_nat n)). induction l as [|j l IH]; cbn; intros Hin; [done|].
  rewrite lookup_insert_ne by (intros E; by apply (Hin j); [left|]). apply IH. intros i Hi. apply Hin. by right.
Qed.

(** The words after a new table at [base] was made for the slot [idx] of the directory. *)
Definition new_words (m : gmap Z Z) (pd base idx tk j ek nw k e : Z) : gmap Z Z :=
  <[base + 4 * k := e]> (<[pd + 4 * idx := nw]> (zero_words base 1024 (<[tk + 4 * j := ek]> m))).
Lemma walk_new s s' pd base idx tk j ek nw k e :
  ptmem s' = new_words (ptmem s) pd base idx tk j ek nw k e → pd_wf s pd →
  0 <= idx < 1024 → 0 <= j < 1024 → 0 <= k < 1024 → ptmem s !! (pd + 4 * idx) = Some 0 →
  base mod PAGE_SIZE = 0 → tk mod PAGE_SIZE = 0 → base ≠ pd → tk ≠ pd →
  has nw PAGE_PRESENT = true → addr_to_pte nw = base → has e PAGE_PRESENT = true →
  (∀ i w, 0 <= i < 1024 → ptmem s !! (pd + 4 * i) = Some w → w ≠ 0 → addr_to_pte w ≠ base) →
  (∀ va, addr_to_pdenum va = idx → addr_to_ptenum va = k → walk s' pd va = Some e) ∧
  (∀ va, ¬ (addr_to_pdenum va = idx ∧ addr_to_ptenum va = k) →
     (∀ w, ptmem s !! (pd + 4 * addr_to_pdenum va) = Some w → w ≠ 0 → addr_to_pte w = tk → addr_to_ptenum va ≠ j) →
     walk s' pd va = walk s pd va).
Proof.
  intros Em HW Hi Hj Hk H0 Hb Ht Hbp Htp Hnw Efr He Hfr. pose proof (pd_aligned _ _ HW) as Ha.
  (* the words of the directory *)
  assert (Hpd : ∀ i, 0 <= i < 1024 → ptmem s' !! (pd + 4 * i) = if decide (i = idx) then Some nw else ptmem s !! (pd + 4 * i)).
  { intros i Hi'. rewrite Em. unfold new_words. rewrite lookup_insert_ne by (intros E; apply slot_ne in E as [??]; done).
    case_decide as Hc; [subst i; apply lookup_insert_eq|]. rewrite lookup_insert_ne by lia.
    rewrite zero_words_out by (intros i' Hi2 E; apply slot_ne in E as [??]; done || lia).
    apply lookup_insert_ne. intros E. by apply slot_ne in E as [??]. }
  (* the words of the other tables *)
  assert (Htb : ∀ t i, t mod PAGE_SIZE = 0 → 0 <= i < 1024 → t ≠ pd → t ≠ base → (t = tk → i ≠ j) → ptmem s' !! (t + 4 * i) = ptmem s !! (t + 4 * i)).
  { intros t i Ht' Hi' H1 H2 H3. rewrite Em. unfold new_words.
    rewrite !lookup_insert_ne by (intros E; apply slot_ne in E as [??]; done).
    rewrite zero_words_out by (intros i' Hi2 E; apply slot_ne in E as [??]; done || lia).
    apply lookup_insert_ne. intros E. apply slot_ne in E as [<- <-]; [|done..]. by apply H3. }
  split.
  - intros va E1 E2. unfold walk. rewrite Hpd, decide_True by (done || apply pdenum_range). cbn. rewrite Hnw, Efr, E2, Em.
    unfold new_words. rewrite lookup_insert_eq. cbn. by rewrite He.
  - intros va Hne Hw. unfold walk. pose proof (pdenum_range va) as R1. pose proof (ptenum_range va) as R2. rewrite Hpd by done.
    case_decide as Hc.
    + rewrite Hc, H0. cbn. rewrite Hnw, Efr, Em. unfold new_words.
      rewrite lookup_insert_ne by (intros E; apply slot_ne in E as [_ ?]; [naive_solver|done..]).
      rewrite lookup_insert_ne by (intros E; by apply slot_ne in E as [??]). rewrite zero_words_in by lia. done.
    + destruct (ptmem s !! (pd + 4 * addr_to_pdenum va)) as [w|] eqn:Ew; [|done]. cbn.
      destruct (decide (w = 0)) as [->|Hw0]; [done|].
      rewrite Htb; [done|apply addr_to_pte_mod|done|apply (pd_not_table _ _ HW _ _ R1 Ew Hw0)|apply (Hfr _ _ R1 Ew Hw0)|].
      intros Et. by apply (Hw w).
Qed.

(** C22. [pmap_enter] for a map that has a directory, when the table of the address exists or, in the map of a
    process, is made of a free page whose frame the kernel's tables have a place for:
    it returns, and the hardware walk translates the virtual address to the frame of
    the physical address with the requested protection and every other page as before, but for the
    address of the kernel at which a new table is mapped. *)
Theorem pmap_enter_translates fuel s map pm pa va prot win :
  pmaps s !! map = Some pm → pdbr pm ≠ 0 → pd_wf s (pdbr pm) → 0 <= prot < PAGE_SIZE →
  enterable s map (pdbr pm) va win →
  ∃ s', pmap_enter (S (S fuel)) map pa va prot s = Ret tt s' ∧
    walk s' (pdbr pm) va = Some (Z.lor (Z.lor (addr_to_pte pa) PAGE_PRESENT) prot) ∧
    (∀ va', ¬ same_page va' va → (∀ k, win = Some k → ¬ same_page va' k) → walk s' (pdbr pm) va' = walk s (pdbr pm) va').
Proof.
  intros Hm Hpd HW Hprot HE. pose proof (pdenum_range va) as R1. pose proof (ptenum_range va) as R2. fold (entry_of pa prot).
  destruct HE as [w old Hw Hw0 Hold|fl x pg kl kpd wk old Hk H0 HI HO Hx Ex base win Hb Hba Hbp Hkm Hkpd Hwk Hwk0 Hold Htp Hfr].
  - eexists. split; [by eapply pmap_enter_present|]. split.
    + rewrite (walk_write s (pdbr pm) (addr_to_pdenum va) w) by (done || apply entry_present). by rewrite decide_True.
    + intros va' Hne _. rewrite (walk_write s (pdbr pm) (addr_to_pdenum va) w) by (done || apply entry_present). by rewrite decide_False.
  - destruct (table_page_spec (pmap_enter (S fuel)) s fl x pg map kl HI HO Hx Ex) as (s1&E1&_&_&Et&Ep&_).
    fold base win in E1. set (T := new_words (ptmem s) (pdbr pm) base (addr_to_pdenum va) (addr_to_pte wk) (addr_to_ptenum win)
      (entry_of base PAGE_RW) (entry_of base prot) (addr_to_ptenum va) (entry_of pa prot)).
    pose proof (ptenum_range win) as R3.
    assert (Hslot : is_Some (zero_words base 1024 (<[addr_to_pte wk + 4 * addr_to_ptenum win := entry_of base PAGE_RW]> (ptmem s))
      !! (pdbr pm + 4 * addr_to_pdenum va))).
    { rewrite zero_words_out by (intros i Hi E; apply slot_ne in E as [??]; [done..|apply HW|done|done|lia]).
      rewrite lookup_insert_ne by (intros E; apply slot_ne in E as [??]; [done|apply addr_to_pte_mod|apply HW|done|done]). eauto. }
    destruct (walk_new s (s1 <| ptmem := T |>) (pdbr pm) base (addr_to_pdenum va) (addr_to_pte wk) (addr_to_ptenum win)
      (entry_of base PAGE_RW) (entry_of base prot) (addr_to_ptenum va) (entry_of pa prot)) as [HW1 HW2];
      try done; try apply addr_to_pte_mod; try apply entry_present; [by apply entry_frame|intros; by eapply Hfr|].
    exists (s1 <| ptmem := T |>). split; [|split; [by apply HW1|]].
    + destruct Hslot as [u Hslot]. set (f := S fuel) in *.
      assert (Ea : page_table_allocate_with (pmap_enter f) map s = Ret base (s1
        <| ptmem ::= <[addr_to_pte wk + 4 * addr_to_ptenum win := entry_of base PAGE_RW]> |> <| ptmem ::= zero_words base 1024 |>)).
      { rewrite E1. run_with ltac:(unfold f; eapply pmap_enter_present; [rewrite Ep; exact Hkm|done|rewrite Et; exact Hwk|done|rewrite Et; exact Hold]).
        by run. }
      cbn [pmap_enter]. run_with ltac:(apply deref_Ret; exact Hm).
      rewrite (proj2 (Z.eqb_neq (pdbr pm) 0)) by done. run. unfold rd_word. run_with ltac:(apply deref_Ret; exact H0).
      rewrite Z.eqb_refl, bind_assoc. run_with ltac:(exact Ea).
      rewrite (proj2 (Z.eqb_neq map kernel_map)) by done. rewrite bind_assoc. run. fold (entry_of base prot).
      run_with ltac:(run_with ltac:(apply (wr_word_Ret _ _ _ u); flat; rewrite Et; exact Hslot); reflexivity).
      erewrite wr_word_Ret by (flat; rewrite lookup_insert_ne by (intros E; apply slot_ne in E as [??]; [done|apply HW|done|done|done]); apply zero_words_in; lia).
      flat. rewrite Et. reflexivity.
    + intros va' Hne Hk'. apply HW2; [done|]. intros w Ew Hw0 Ew' Ej. destruct (Hfr _ _ (pdenum_range va') Ew Hw0) as [_ Hi].
      apply (Hk' win eq_refl). split; [by apply Hi|done].
Qed.

(** The state of the kernel's own page tables that the next theorem is about:
    no directory entry for [va] or for any free frame. *)
Record no_table (s : kstate) (fl kl : list Z) (pd va : Z) : Prop := {
  nt_pmap : pmaps s !! kernel_map = Some (mk_pmap pd);
  nt_pd : pd ≠ 0;
  nt_null : pages s !! 0 = None;
  nt_free : free_inv s fl;
  nt_owner : page_owner s fl kernel_map kl;
  nt_va : ptmem s !! (pd + 4 * addr_to_pdenum va) = Some 0;
  nt_frames : ∀ x pg, x ∈ fl → pages s !! x = Some pg →
    ptmem s !! (pd + 4 * addr_to_pdenum (u32 (pg_base pg + KERNEL_BASE))) = Some 0 }.

(** [page_table_allocate] up to the mapping of the new table. *)
Lemma page_table_allocate_step enter s fl kl pd va x :
  no_table s (fl ++ [x]) kl pd va →
  ∃ s' base, no_table s' fl (x :: kl) pd (u32 (base + KERNEL_BASE)) ∧
    page_table_allocate_with enter kernel_map s =
      (enter kernel_map base (u32 (base + KERNEL_BASE)) PAGE_RW;;
       modify (λ s, s <| ptmem ::= zero_words base 1024 |>);; mret base) s'.
Proof.
  intros HN. destruct (fr_page _ _ (nt_free _ _ _ _ _ HN) x) as [_ [pg Ex]]; [set_solver|].
  assert (Hxk : x ∉ kl) by (intros Hk; destruct (nt_owner _ _ _ _ _ HN) as [_ _ HD]; destruct (HD x Hk); set_solver).
  destruct (table_page_spec enter s fl x pg kernel_map kl (nt_free _ _ _ _ _ HN) (nt_owner _ _ _ _ _ HN) Hxk Ex)
    as (s'&E&HI&HO&Et&Ep&Hpg).
  pose proof (free_NoDup _ _ (nt_free _ _ _ _ _ HN)) as ND. apply NoDup_app in ND as (_&ND&_).
  exists s', (pg_base pg). split; [|exact E]. split; [rewrite Ep; apply HN|apply HN| |done|done| |].
  - rewrite Hpg; [apply HN|]. destruct (fr_page _ _ (nt_free _ _ _ _ _ HN) x); [set_solver|]. lia.
  - rewrite Et. apply (nt_frames _ _ _ _ _ HN x); [set_solver|done].
  - intros y pgy Hy Ey. rewrite Et. rewrite Hpg in Ey by (intros ->; by apply (ND x Hy); left).
    apply (nt_frames _ _ _ _ _ HN y); [set_solver|done].
Qed.

Lemma as_page_NULL s : pages s !! 0 = None → as_page NULL s = Fault.
Proof.
  intros H0. unfold as_page. erewrite bind_Ret by (apply (as_obj_Ret 0)).
  unfold mbind, M_bind, deref. by rewrite H0.
Qed.

(** C23. When the directory of the kernel has no table for an address, and none for the
    place of any free frame in the kernel's region, mapping that address in the kernel never succeeds:
    the page for the missing table is itself mapped first, which needs a missing table
    too, and so on until the frames run out. *)
Theorem kernel_table_never_mapped fuel s fl kl pd pa va prot :
  no_table s fl kl pd va →
  pmap_enter fuel kernel_map pa va prot s = Fault ∨ pmap_enter fuel kernel_map pa va prot s = Spin.
Proof.
  revert s fl kl pa va prot.
  induction fuel as [|fuel IH]; intros s fl kl pa va prot HN; [by right|].
  cut (page_table_allocate_with (pmap_enter fuel) kernel_map s = Fault ∨
       page_table_allocate_with (pmap_enter fuel) kernel_map s = Spin).
  { intros Hcut. cbn [pmap_enter]. erewrite bind_Ret by (apply deref_Ret; apply HN).
    cbn [pdbr]. rewrite (proj2 (Z.eqb_neq pd 0)) by apply HN. erewrite bind_Ret by done.
    unfold rd_word. erewrite bind_Ret by (apply deref_Ret; apply HN). rewrite Z.eqb_refl.
    rewrite bind_assoc. unfold mbind, M_bind. destruct Hcut as [->| ->]; [by left|by right]. }
  destruct (list_snoc_cases fl) as [->|(fl'&x&->)].
  - left. unfold page_table_allocate_with, mbind, M_bind. rewrite get_page_empty by apply HN.
    rewrite decide_True by done. by rewrite as_page_NULL by apply HN.
  - destruct (page_table_allocate_step (pmap_enter fuel) s fl' kl pd va x HN) as (s'&base&HN'&->).
    unfold mbind, M_bind. destruct (IH s' fl' (x :: kl) base _ PAGE_RW HN') as [-> | ->]; auto.
Qed.

(** ** Instances of the theorems *)

(** A directory at 0x2000 with one table at 0x3000, for the addresses below
    4 MB; of the table only its first entries are present in the store. *)
Definition demo_pt : kstate :=
  demo_free <| pmaps := {[ kernel_map := mk_pmap 0x2000; 7200 := mk_pmap 0x2000 ]} |>
    <| links ::= <[obj kernel_map := mk_link (obj kernel_map) (obj kernel_map)]> |>
    <| ptmem := list_to_map ([(0x2000, 0x3007); (0x2000 + 4 * 896, 0)] ++
                             ((λ i, (0x3000 + 4 * i, 0)) <$> seqZ 0 16)) |>.

Definition pd_entries (s : kstate) (pd : Z) : list (Z * Z) :=
  omap (λ i, w ← ptmem s !! (pd + 4 * i); if w =? 0 then None else Some (i, addr_to_pte w)) (seqZ 0 1024).
(** [pd_wf] is decidable: it is about 1024 entries. *)
Lemma pd_wf_ok s pd :
  pd mod PAGE_SIZE = 0 → Forall (λ e, e.2 ≠ pd ∧ has (default 0 (ptmem s !! (pd + 4 * e.1))) PAGE_PRESENT = true) (pd_entries s pd) →
  NoDup ((pd_entries s pd).*2) → pd_wf s pd.
Proof.
  intros Ha Hf ND. assert (Hin : ∀ i w, 0 <= i < 1024 → ptmem s !! (pd + 4 * i) = Some w → w ≠ 0 →
    (i, addr_to_pte w) ∈ pd_entries s pd).
  { intros i w Hi E Hw. apply list_elem_of_omap. exists i. rewrite elem_of_seqZ. split; [lia|].
    rewrite E. cbn. by rewrite (proj2 (Z.eqb_neq w 0)). }
  rewrite Forall_forall in Hf. split; [done|..].
  - intros i w Hi E Hw. destruct (Hf _ (Hin i w Hi E Hw)) as [_ Hp]. cbn in Hp. by rewrite E in Hp.
  - intros i w Hi E Hw. by apply (Hf _ (Hin i w Hi E Hw)).
  - intros i j w w' Hi Hj E E' Hw Hw' Ha'.
    pose proof (Hin i w Hi E Hw) as H1. pose proof (Hin j w' Hj E' Hw') as H2.
    apply list_elem_of_lookup in H1 as [a H1]. apply list_elem_of_lookup in H2 as [b H2].
    assert (a = b) as ->.
    { eapply (NoDup_lookup _ a b (addr_to_pte w) ND); rewrite list_lookup_fmap; [by rewrite H1|].
      rewrite H2. cbn. by rewrite Ha'. }
    congruence.
Qed.

Lemma demo_pd_wf : pd_wf demo_pt 0x2000.
Proof. apply pd_wf_ok; [done|evaluate|evaluate]. Qed.

(** The kernel has a directory of its own, and the tables of its region are shared. *)
Definition demo_two : kstate :=
  demo_pt <| pmaps ::= <[kernel_map := mk_pmap 0x5000]> |>
    <| links ::= <[obj 7200 := mk_link (obj 7200) (obj 7200)]> |>
    <| ptmem ::= λ m, list_to_map [(0x2004, 0); (0x2000 + 4 * 896, 0x6007); (0x5000 + 4 * 896, 0x6007); (0x6000 + 4 * 0x12, 0)] ∪ m |>.
Lemma demo_two_wf : pd_wf demo_two 0x2000.
Proof. apply pd_wf_ok; [done|evaluate|evaluate]. Qed.
Lemma demo_two_tables : ∀ e, e ∈ pd_entries demo_two 0x2000 → e.2 ≠ 0x12000 ∧ (e.2 = 0x6000 → e.1 = 896).
Proof. apply Forall_forall. evaluate. Qed.
Lemma demo_two_new : enterable demo_two 7200 0x2000 0x400123 (Some 0xE0012000).
Proof.
  apply (new_table _ _ _ _ [400] 300 (page0 0x12000) [] 0x5000 0x6007 0).
  - done.
  - vm_compute. reflexivity.
  - split; [vm_compute; reflexivity|evaluate|apply Forall_forall; evaluate].
  - split; [split; [done|evaluate]|evaluate|by intros y ?%elem_of_nil].
  - by intros ?%elem_of_nil.
  - vm_compute. reflexivity.
  - done.
  - done.
  - done.
  - vm_compute. reflexivity.
  - done.
  - vm_compute. reflexivity.
  - done.
  - vm_compute. reflexivity.
  - done.
  - intros i w Hi E Hw. apply (demo_two_tables (i, addr_to_pte w)). apply list_elem_of_omap. exists i.
    rewrite elem_of_seqZ. split; [lia|]. rewrite E. cbn. by rewrite (proj2 (Z.eqb_neq w 0)).
Qed.

(** 0x1234 is mapped to the frame of 0x13000 in the table that exists; for 0x400123 a table is made of the
    frame 0x12000, which the kernel sees at 0xE0012000. *)
Lemma pmap_enter_translates_witness :
  (∃ s', pmap_enter 2 7200 0x13000 0x1234 PAGE_RW demo_two = Ret tt s' ∧ walk s' 0x2000 0x1234 = Some 0x13003 ∧
    (∀ va', ¬ same_page va' 0x1234 → walk s' 0x2000 va' = walk demo_two 0x2000 va')) ∧
  (∃ s', pmap_enter 2 7200 0x13000 0x400123 PAGE_RW demo_two = Ret tt s' ∧ walk s' 0x2000 0x400123 = Some 0x13003 ∧
    (∀ va', ¬ same_page va' 0x400123 → ¬ same_page va' 0xE0012000 → walk s' 0x2000 va' = walk demo_two 0x2000 va')).
Proof.
  split.
  - destruct (pmap_enter_translates 0 demo_two 7200 (mk_pmap 0x2000) 0x13000 0x1234 PAGE_RW None) as (s'&H1&H2&H3).
    + vm_compute. reflexivity.
    + done.
    + apply demo_two_wf.
    + done.
    + apply (old_table _ _ _ _ 0x3007 0); [vm_compute; reflexivity|done|vm_compute; reflexivity].
    + exists s'. split; [exact H1|]. split; [exact H2|]. intros va' Hn. by apply H3.
  - destruct (pmap_enter_translates 0 demo_two 7200 (mk_pmap 0x2000) 0x13000 0x400123 PAGE_RW (Some 0xE0012000)) as (s'&H1&H2&H3).
    + vm_compute. reflexivity.
    + done.
    + apply demo_two_wf.
    + done.
    + exact demo_two_new.
    + exists s'. split; [exact H1|]. split; [exact H2|]. intros va' Hn Hk. apply H3; [done|]. by intros k [= <-].
Defined.

Lemma kernel_table_never_mapped_witness :
  pmap_enter 10 kernel_map 0x12000 0xE0012000 PAGE_RW demo_pt = Fault ∨
  pmap_enter 10 kernel_map 0x12000 0xE0012000 PAGE_RW demo_pt = Spin.
Proof.
  apply (kernel_table_never_mapped 10 demo_pt [400; 300] [] 0x2000). split.
  - vm_compute. reflexivity.
  - done.
  - vm_compute. reflexivity.
  - split; [vm_compute; reflexivity|evaluate|apply Forall_forall; evaluate].
  - split; [split; [done|evaluate]|evaluate|by intros y ?%elem_of_nil].
  - vm_compute. reflexivity.
  - intros x pg [->|[->|[]%elem_of_nil]%elem_of_cons]%elem_of_cons E; vm_compute in E;
      injection E as <-; vm_compute; reflexivity.
Defined.
