(* ===== verification/VmMap.v ===== *)
(** * Address maps

    Models microkernel/mm/vm_map.c, microkernel/mm/vm.c and the routines of
    microkernel/mm/vm_page.c that use address maps or page tables.  The entries
    of a map form a ring of [next_entry] links that starts at [vmentry]; the
    ring has no separate head.  [entries] is the first member of struct
    vm_map_entry.  [junk] is the contents of memory that is allocated and not
    initialised; [fuel] bounds the recursion of [pmap_enter].  The contents of
    mapped pages are not part of the state: [ker_to_usr] in [handle_cow] only
    copies them. *)

From S2P Require Import Prelude DList Hash KState Sched Thread VmPage Pmap.

Definition VM_MAP_ENTRY_ZERO_FILL : Z := 1.
Definition VM_MAP_ENTRY_OBJECT_FIXED : Z := 4.
Definition VM_MAP_ENTRY_ANON : Z := 8.
Definition VM_MAP_ENTRY_FILE : Z := 0x80.
Definition VM_MAP_ENTRY_WRITE : Z := 2.
Definition VM_MAP_ENTRY_LOCKED : Z := 16.
Definition VM_LOCK : Z := 3.
Definition COW_IN_PROGRESS : Z := 1.
Definition COPY_ON_WRITE : Z := 2.
Definition OBJECT_SHADOW : Z := 4.
Definition DUP_ALL : Z := 1.
Definition DUP_NONE : Z := 4.

Notation ent := (fld 0).
(** [entry->next_entry] *)
Definition next_entry (e : Z) : K Z := p ← ask_links (rd_next (ent (obj e))); as_obj p.
Definition entry_fuel (s : kstate) : nat := S (size (entries s)).
Definition object_fuel (s : kstate) : nat := S (size (objects s)).
Definition vmentry_of (map : Z) : K Z := mp ← deref vmaps map; mret (vmentry mp).

(** ** Entries *)
Definition create_vm_entry (junk : vm_map_entry) (map nextentry : Z) : K Z :=
  entry ← kalloc [0];
  (if entry =? 0 then mret tt else modify (λ s, s <| entries ::= <[entry := junk]> |>));;
  first ← vmentry_of map;
  if negb (first =? 0) then
    (if negb (nextentry =? 0) then on_links (list_add_next ent (obj nextentry) (obj entry))
     else on_links (list_add ent (obj first) (obj entry)));;
    mret entry
  else
    upd_vmap map (λ mp, mp <| vmentry := entry |>);;
    on_links (list_init (ent (obj entry)));;
    mret entry.

(** The entry that contains an address, bounds included; the last one found is
    tried first. *)
Definition contains (en : vm_map_entry) (address : Z) : bool :=
  (e_start en <=? address) && (address <=? e_end en).

Fixpoint lookup_loop (fuel : nat) (map tmp address : Z) : K Z :=
  match fuel with
  | O => spin
  | S fuel =>
      if tmp =? 0 then mret 0
      else
        en ← deref entries tmp;
        if contains en address then
          upd_vmap map (λ mp, mp <| m_hint := tmp |>);; mret tmp
        else
          nx ← next_entry tmp;
          first ← vmentry_of map;
          if nx =? first then mret 0 else lookup_loop fuel map nx address
  end.
Definition vm_map_lookup_entry (map address : Z) : K Z :=
  if map =? 0 then mret 0
  else
    mp ← deref vmaps map;
    if vmentry mp =? 0 then mret 0
    else
      found ← (if m_hint mp =? 0 then mret false
               else en ← deref entries (m_hint mp); mret (contains en address));
      if (found : bool) then mret (m_hint mp)
      else fuel ← gets entry_fuel; lookup_loop fuel map (vmentry mp) address.

(** [*dst = *src] copies the links too. *)
Definition copy_entry (dst src : Z) : K unit :=
  en ← deref entries src;
  upd_entry dst (λ _, en);;
  on_links (λ L, lk ← L !! ent (obj src); L !! ent (obj dst);; Some (<[ent (obj dst) := lk]> L)).

Definition vm_map_entry_clip (junk : vm_map_entry) (map entry start : Z) : K Z :=
  en ← deref entries entry;
  if start =? e_start en then mret entry
  else if (e_start en <? start) && (start <? e_end en) then
    nextentry ← create_vm_entry junk map entry;
    copy_entry nextentry entry;;
    en ← deref entries entry;
    upd_object (e_object en) (λ ob, ob <| ob_ref ::= λ n, s32 (n + 1) |>);;
    upd_entry nextentry (λ e, e <| e_start := start |>);;
    upd_entry entry (λ e, e <| e_end := start |>);;
    mret nextentry
  else mret 0.

(** ** Entering a region *)

(** [createntry]: the result and the address of the region. *)
Definition createntry (junk : vm_map_entry) (map newentry start stop object attribute address : Z)
    : K (Z * Z) :=
  mp ← deref vmaps map;
  if m_end mp <? stop then mret (- ENOMEM, address)
  else
    entry ← create_vm_entry junk map newentry;
    upd_entry entry (λ e, e <| e_object := object |> <| e_start := start |>);;
    upd_entry entry (λ e, e <| e_end := stop |> <| e_type := u16 attribute |>);;
    mret (0, start).

(** The search for a gap: [inl] is the address when the entry was extended,
    [inr] the entry after which a new one goes, with its bounds. *)
Fixpoint gap_loop (fuel : nat) (map size object attribute newentry stop : Z) : K (Z + Z * Z * Z) :=
  match fuel with
  | O => spin
  | S fuel =>
      next ← next_entry newentry;
      first ← vmentry_of map;
      fits ← (if next =? first then mret true
              else nen ← deref entries next; mret (stop <? e_start nen));
      en ← deref entries newentry;
      if (fits : bool) then
        if (object =? 0) && has (e_type en) attribute then
          upd_entry newentry (λ e, e <| e_end ::= λ x, u32 (x + size) |>);;
          mret (inl (e_end en))
        else mret (inr (newentry, e_end en, u32 (e_end en + size)))
      else gap_loop fuel map size object attribute next (u32 (e_end en + size))
  end.

(** [handle_fixed]: the entry the new one goes after, or [None] when the
    region is taken. *)
Fixpoint fixed_loop (fuel : nat) (map entry start stop : Z) : K (option Z) :=
  match fuel with
  | O => spin
  | S fuel =>
      en ← deref entries entry;
      if (e_start en <? stop) && (stop <? e_end en) then mret None
      else if start <? e_start en then
        if e_start en <? stop then mret None else mret (Some entry)
      else
        nx ← next_entry entry;
        first ← vmentry_of map;
        if nx =? first then mret (Some nx) else fixed_loop fuel map nx start stop
  end.

Definition vm_map_enter (junk : vm_map_entry) (map address size object attribute : Z) : K (Z * Z) :=
  first ← vmentry_of map;
  if first =? 0 then
    createntry junk map 0 address (u32 (address + size)) object attribute address
  else
    newentry ← vm_map_lookup_entry map address;
    if negb (newentry =? 0) && has attribute VM_MAP_ENTRY_OBJECT_FIXED then mret (- EINVAL, address)
    else
      fuel ← gets entry_fuel;
      if negb (newentry =? 0) then
        en ← deref entries newentry;
        r ← gap_loop fuel map size object attribute newentry (u32 (e_end en + size));
        match r with
        | inl start => mret (0, start)
        | inr (ne, start, stop) => createntry junk map ne start stop object attribute address
        end
      else
        r ← fixed_loop fuel map first address (u32 (address + size));
        match r with
        | None => mret (- ENOMEM, address)
        | Some ne => createntry junk map ne address (u32 (address + size)) object attribute address
        end.

(** ** Removing a region *)
Definition dealloc_vm_map_entry (map entry : Z) : K unit :=
  first ← vmentry_of map;
  on_links (list_del ent (obj first) (obj entry));;
  modify (λ s, s <| entries ::= delete entry |>).

Definition delete_vm_map_entry (map entry : Z) : K Z :=
  en ← deref entries entry;
  delete_object (e_object en);;
  dealloc_vm_map_entry map entry;;
  mret 0.

Definition vm_map_remove (junk : vm_map_entry) (map offset size : Z) : K Z :=
  entry ← vm_map_lookup_entry map offset;
  if entry =? 0 then mret (-1)
  else
    newentry ← vm_map_entry_clip junk map entry offset;
    if newentry =? 0 then mret (-1)
    else
      vm_map_entry_clip junk map newentry (u32 (offset + size));;
      delete_vm_map_entry map newentry;;
      mret 0.

(** ** Locking and protection *)

(** [for(; entry != map->vmentry; entry = entry->next_entry) body] *)
Fixpoint each_entry (fuel : nat) (map entry : Z) (body : Z → K unit) : K unit :=
  first ← vmentry_of map;
  if entry =? first then mret tt
  else match fuel with
  | O => spin
  | S fuel =>
      body entry;;
      nx ← next_entry entry;
      each_entry fuel map nx body
  end.

Definition vm_lock_all (map : Z) : K Z :=
  entry ← vmentry_of map;
  fuel ← gets entry_fuel;
  each_entry fuel map entry (λ e,
    upd_entry e (λ en, en <| e_attr ::= λ a, Z.lor a VM_MAP_ENTRY_LOCKED |>);; vm_lock_object e);;
  mret 0.
Definition vm_unlock_all (map : Z) : K Z :=
  entry ← vmentry_of map;
  fuel ← gets entry_fuel;
  each_entry fuel map entry (λ e,
    upd_entry e (λ en, en <| e_attr ::= λ a, Z.land a (u16 (Z.lnot VM_MAP_ENTRY_LOCKED)) |>);;
    vm_unlock_object e);;
  mret 0.

(** The entry for [offset, offset+size), cut out of the one that holds it:
    the entry found and the one cut out. *)
Definition cut_out (junk : vm_map_entry) (map offset size : Z) : K (option (Z * Z)) :=
  entry ← vm_map_lookup_entry map offset;
  if entry =? 0 then mret None
  else
    newentry ← vm_map_entry_clip junk map entry offset;
    if newentry =? 0 then mret None
    else
      vm_map_entry_clip junk map newentry (u32 (offset + size));;
      mret (Some (entry, newentry)).

Definition vm_lock (junk : vm_map_entry) (map offset size flag : Z) : K Z :=
  su ← superuser;
  if negb su then mret (- EPERM)
  else if negb (flag =? 0) then
    upd_vmap map (λ mp, mp <| m_attr := flag |>);; vm_lock_all map;; mret 0
  else
    r ← cut_out junk map offset size;
    match r with
    | None => mret (- ENOMEM)
    | Some (entry, newentry) =>
        upd_entry newentry (λ en, en <| e_attr ::= λ a, Z.lor a VM_MAP_ENTRY_LOCKED |>);;
        vm_lock_object entry;; mret 0
    end.

Definition vm_unlock (junk : vm_map_entry) (map offset size flag : Z) : K Z :=
  su ← superuser;
  if negb su then mret (- EPERM)
  else if negb (flag =? 0) then
    upd_vmap map (λ mp, mp <| m_attr ::= λ a, Z.land a (Z.lnot VM_LOCK) |>);; vm_unlock_all map;; mret 0
  else
    r ← cut_out junk map offset size;
    match r with
    | None => mret (- ENOMEM)
    | Some (entry, newentry) =>
        upd_entry newentry (λ en, en <| e_attr ::= λ a, Z.land a (u16 (Z.lnot VM_MAP_ENTRY_LOCKED)) |>);;
        vm_unlock_object entry;; mret 0
    end.

Definition vm_protect (junk : vm_map_entry) (map offset size prot : Z) : K Z :=
  r ← cut_out junk map offset size;
  match r with
  | None => mret (- ENOMEM)
  | Some (_, newentry) =>
      upd_entry newentry (λ en, en <| e_attr ::= λ a, u16 (Z.lor a prot) |>);;
      mp ← deref vmaps map;
      pmap_protect (m_pmap mp) offset (u32 (offset + size)) prot;;
      mret 0
  end.

(** ** Kernel address space *)
Fixpoint get_vaddr_loop (fuel : nat) (map mapentry size : Z) : K Z :=
  match fuel with
  | O => spin
  | S fuel =>
      en ← deref entries mapentry;
      let stop := u32 (e_end en + size) in
      nextentry ← next_entry mapentry;
      nen ← deref entries nextentry;
      mp ← deref vmaps map;
      if (stop <? e_start nen) || (nextentry =? vmentry mp) then
        if m_end mp <? stop then mret 0
        else upd_entry mapentry (λ e, e <| e_end := stop |>);; mret (e_end en)
      else get_vaddr_loop fuel map nextentry size
  end.
Definition get_vaddr (map size : Z) : K Z :=
  first ← vmentry_of map;
  fuel ← gets entry_fuel;
  get_vaddr_loop fuel map first size.

Definition free_vaddr (junk : vm_map_entry) (map va size : Z) : K Z :=
  cut_out junk map va size;; mret 1.

(** ** Creation, duplication and destruction of maps *)
Definition vm_map_create (junk : vmmap) : K Z :=
  map ← kalloc [];
  if map =? 0 then fault
  else
    modify (λ s, s <| vmaps ::= <[map := junk]> |>);;
    upd_vmap map (λ mp, mp <| m_start := 0 |> <| m_end := KERNEL_BASE |> <| ref_count := 1 |>);;
    mret map.

Definition vm_map_destroy (map : Z) : K unit :=
  mp ← deref vmaps map;
  if ref_count mp =? 0 then modify (λ s, s <| vmaps ::= delete map |>) else mret tt.

(** [while(object->shadow) object = object->shadow;] *)
Fixpoint deepest (fuel : nat) (object : Z) : K Z :=
  ob ← deref objects object;
  if shadow ob =? 0 then mret object
  else match fuel with O => spin | S fuel => deepest fuel (shadow ob) end.

Fixpoint copy_loop (fuel : nat) (junk : vm_map_entry) (new old iterate niterate : Z) : K unit :=
  match fuel with
  | O => spin
  | S fuel =>
      new_entry ← create_vm_entry junk new niterate;
      it ← deref entries iterate;
      upd_entry new_entry (λ _, it);;
      upd_object (e_object it) (λ ob,
        ob <| ob_attr ::= λ a, Z.lor a (Z.lor COPY_ON_WRITE COW_IN_PROGRESS) |>
           <| ob_ref ::= λ n, s32 (n + 1) |>);;
      nx ← next_entry iterate;
      first ← vmentry_of old;
      if nx =? first then mret tt else copy_loop fuel junk new old nx new_entry
  end.
Fixpoint clear_loop (fuel : nat) (old iterate : Z) : K unit :=
  match fuel with
  | O => spin
  | S fuel =>
      it ← deref entries iterate;
      n ← gets object_fuel;
      object ← deepest n (e_object it);
      upd_object object (λ ob, ob <| ob_attr ::= λ a, Z.land a (Z.lnot COW_IN_PROGRESS) |>);;
      nx ← next_entry iterate;
      first ← vmentry_of old;
      if nx =? first then mret tt else clear_loop fuel old nx
  end.
Definition vm_entry_copy (junk : vm_map_entry) (new old : Z) : K unit :=
  first ← vmentry_of old;
  fuel ← gets entry_fuel;
  copy_loop fuel junk new old first 0;;
  clear_loop fuel old first.

Definition vm_map_fork (fuel : nat) (junk : vmmap) (ejunk : vm_map_entry) (pjunk : Z) (map flag : Z) : K Z :=
  new ← vm_map_create junk;
  if new =? 0 then mret 0
  else
    upd_vmap new (λ mp, mp <| m_start := 0x200000 |> <| m_end := KERNEL_BASE - 1 |> <| m_hint := 0 |>);;
    if has flag DUP_ALL then
      upd_vmap new (λ mp, mp <| m_pmap := 0 |> <| vmentry := 0 |>);;
      vm_entry_copy ejunk new map;;
      mp ← deref vmaps map;
      pm ← pmap_copy fuel pjunk (m_pmap mp);
      upd_vmap new (λ mp, mp <| m_pmap := pm |>);;
      mret new
    else if has flag DUP_NONE then
      upd_vmap new (λ mp, mp <| vmentry := 0 |> <| m_size := KERNEL_BASE |>);;
      pm ← pmap_create pjunk;
      upd_vmap new (λ mp, mp <| m_pmap := pm |>);;
      pmap_share_kernel fuel pm;;
      mret new
    else mret new.

(** [do { next_object = object->shadow; object = next_object; } while(next_object);] *)
Fixpoint shadow_walk (fuel : nat) (object : Z) : K unit :=
  ob ← deref objects object;
  if shadow ob =? 0 then mret tt
  else match fuel with O => spin | S fuel => shadow_walk fuel (shadow ob) end.

Definition exit_vm_map (map : Z) : K unit :=
  entry ← vmentry_of map;
  upd_vmap map (λ mp, mp <| ref_count ::= λ n, s32 (n - 1) |>);;
  mp ← deref vmaps map;
  if 0 <? ref_count mp then mret tt
  else if entry =? 0 then mret tt
  else
    fuel ← gets entry_fuel;
    each_entry fuel map entry (λ e,
      en ← deref entries e;
      n ← gets object_fuel;
      shadow_walk n (e_object en);;
      dealloc_vm_map_entry map e).

(** ** vm.c *)
(** The result and the address. *)
Definition vm_allocate (junk : vm_map_entry) (map size : Z) : K (Z * Z) :=
  mp ← deref vmaps map;
  r ← vm_map_enter junk map (m_start mp) (align_page size) 0 VM_MAP_ENTRY_ZERO_FILL;
  mret (0, r.2).

Definition vm_deallocate (junk : vm_map_entry) (map offset size : Z) : K Z :=
  vm_map_remove junk map (page_base offset) (align_page size).

(** The address, and the caller's structure after the call. *)
Definition vm_map (fuel : nat) (junk : vm_map_entry) (ojunk : vm_object) (map : Z) (vno : vn_object) (type : Z)
    : K (Z * vn_object) :=
  let pa := vn_va vno in
  object ← vm_object_create ojunk (vn_size vno);
  let prot := if has (vn_protection vno) VM_MAP_ENTRY_WRITE then Z.lor PAGE_USER PAGE_RW else PAGE_USER in
  let type := if (vn_va vno =? 0) && negb (has type VM_MAP_ENTRY_ZERO_FILL)
              then Z.lor type VM_MAP_ENTRY_ZERO_FILL else type in
  mp ← deref vmaps map;
  let vno := if has type VM_MAP_ENTRY_OBJECT_FIXED then vno else vno <| vn_va := m_start mp |> in
  upd_object object (λ ob, ob <| ob_vn := vno |>);;
  r ← vm_map_enter junk map (page_base (vn_va vno)) (vn_size vno) object type;
  let vno := vno <| vn_va := r.2 |> in
  (if has type VM_MAP_ENTRY_ANON && negb (has type VM_MAP_ENTRY_ZERO_FILL) then
     let prot := if has (vn_map_type vno) VM_MAP_ENTRY_WRITE then PAGE_RW else prot in
     pmap_enter_range fuel (m_pmap mp) pa (vn_va vno) (vn_size vno) (Z.lor prot PAGE_USER)
   else mret tt);;
  mret (vn_va vno, vno).

(** ** Sharing pages between maps (messages) *)
Fixpoint share_loop (n : nat) (fuel : nat) (rcv snd va nextva times flag : Z) : K Z :=
  match n with
  | O => spin
  | S n =>
      entry ← vm_map_lookup_entry snd va;
      if entry =? 0 then mret (-1)
      else
        let va := page_base va in
        en ← deref entries entry;
        page ← vm_page_lookup (e_object en) va;
        if page =? 0 then mret (-1)
        else
          mp ← deref vmaps rcv;
          pg ← deref pages page;
          pmap_enter fuel (m_pmap mp) (pg_base pg) nextva flag;;
          let times := s32 (times - 1) in
          if times =? 0 then mret 0
          else share_loop n fuel rcv snd (u32 (va + PAGE_SIZE)) (u32 (nextva + PAGE_SIZE)) times flag
  end.
(** The result and the address in [rcv]; [n] bounds the number of pages. *)
Definition vm_share_addr (n fuel : nat) (junk : vm_map_entry) (rcv snd ptr size flag : Z) : K (Z * Z) :=
  let size := align_page size in
  let times := size / PAGE_SIZE in
  let alignedva := u32 (ptr - page_base ptr) in
  r ← vm_allocate junk rcv size;
  ret ← share_loop n fuel rcv snd ptr r.2 times flag;
  if ret =? 0 then mret (0, u32 (r.2 + alignedva)) else mret (ret, r.2).

Definition vm_unshare_addr (junk : vm_map_entry) (target offset size : Z) : K Z :=
  vm_deallocate junk target offset size;;
  mp ← deref vmaps target;
  pmap_remove (m_pmap mp) offset (u32 (offset + size));;
  mret 0.

(** ** The routines of vm_page.c on maps *)

(** [sizeof(struct vm_page)] *)
Definition VM_PAGE_SIZEOF : Z := 36.
Definition create_vm_page (ojunk : vm_object) (pa offset entry : Z) : K Z :=
  en ← deref entries entry;
  (if e_object en =? 0 then
     o ← vm_object_create ojunk PAGE_SIZE; upd_entry entry (λ e, e <| e_object := o |>)
   else mret tt);;
  on_vmg (λ g, g <| vm_nfree ::= λ n, u32 (n + 1) |>);;
  g ← gets vmg;
  if vm_ntotal g <? vm_nfree g then mret (-1)
  else
    let page := page_page g + vm_nfree g * VM_PAGE_SIZEOF in
    upd_page page (λ pg, pg <| pg_base := page_base pa |> <| pg_count := 1 |> <| pg_next := 0 |>);;
    en ← deref entries entry;
    vm_page_insert page (e_object en) (page_base offset);;
    on_links (list_add pagelist (page_list_of (e_object en)) (obj page));;
    mret 0.

Definition remove_pages (entry : Z) : K unit :=
  en ← deref entries entry;
  page_range (range_fuel (page_base (e_start en)) (e_end en)) (page_base (e_start en)) (e_end en) (λ offset,
    page_dealloc (e_object en) offset;; mret tt).

Fixpoint dealloc_loop (fuel : nat) (object vaddr : Z) : K unit :=
  if object =? 0 then mret tt
  else match fuel with
  | O => spin
  | S fuel =>
      page ← vm_page_lookup object vaddr;
      if negb (page =? 0) then page_free page
      else ob ← deref objects object; dealloc_loop fuel (shadow ob) vaddr
  end.
Definition kmem_dealloc (map vaddr : Z) : K unit :=
  ventry ← vm_map_lookup_entry map vaddr;
  if ventry =? 0 then mret tt
  else
    en ← deref entries ventry;
    fuel ← gets object_fuel;
    dealloc_loop fuel (e_object en) vaddr.
Definition kmem_free (va size : Z) : K Z := kmem_dealloc kernel_vmmap va;; mret 0.

(** One page of the kernel: its frame. *)
Definition kmem_page (fuel : nat) : K Z :=
  p ← get_page PAGE_ALLOC_KER;
  page ← as_page p;
  pg ← deref pages page;
  vm_page_insert page kernel_object (pg_base pg);;
  on_links (list_add pagelist (page_list_of kernel_object) (obj page));;
  pmap_enter fuel kernel_map (pg_base pg) (u32 (pg_base pg + KERNEL_BASE)) PAGE_RW;;
  mret (pg_base pg).
Definition kmem_alloc (fuel : nat) (size : Z) : K Z :=
  let npages := align_page size / PAGE_SIZE in
  start ← kmem_page fuel;
  foldr (λ (_ : Z) m, kmem_page fuel;; m) (mret tt) (seqZ 1 (npages - 1));;
  mret start.

Definition alloc_zero_fill_page (fuel : nat) (ojunk : vm_object) (map entry address : Z) : K Z :=
  en ← deref entries entry;
  (if e_object en =? 0 then
     o ← vm_object_create ojunk PAGE_SIZE; upd_entry entry (λ e, e <| e_object := o |>)
   else mret tt);;
  let address := page_base address in
  en ← deref entries entry;
  page ← page_alloc ojunk (e_object en) address;
  if page =? 0 then mret (-1)
  else
    mp ← deref vmaps map;
    pg ← deref pages page;
    pmap_enter fuel (m_pmap mp) (pg_base pg) address (Z.lor PAGE_USER PAGE_RW);;
    mret 0.

(** Copy on write. *)
Definition handle_cow (fuel : nat) (ojunk : vm_object) (map entry offset : Z) : K Z :=
  let addr := page_base offset in
  en ← deref entries entry;
  n ← gets object_fuel;
  object ← deepest n (e_object en);
  page ← vm_page_lookup object addr;
  if page =? 0 then mret (-1)
  else
    mp ← deref vmaps map;
    ob ← deref objects object;
    (if ob_ref ob =? 1 then
       pmap_protect (m_pmap mp) addr (u32 (addr + PAGE_SIZE)) VM_PAGE_WRITE;; mret tt
     else mret tt);;
    sh ← deref objects (e_object en);
    shadow ← (if has (ob_attr sh) OBJECT_SHADOW then mret (e_object en)
              else vm_object_create ojunk PAGE_SIZE);
    page2 ← page_alloc ojunk shadow addr;
    pg2 ← deref pages page2;
    pmap_enter fuel (m_pmap mp) (pg_base pg2) addr (Z.lor PAGE_RW PAGE_USER);;
    pg ← deref pages page;
    pmap_enter fuel (m_pmap mp) (pg_base pg) (u32 (pg_base pg + KERNEL_BASE)) (Z.lor PAGE_RW PAGE_USER);;
    pmap_remove (m_pmap mp) (u32 (pg_base pg + KERNEL_BASE)) (u32 (pg_base pg + PAGE_SIZE + KERNEL_BASE));;
    mret 0.

(** ** The ring of entries *)

(** The entries [l], each linked to the following one and the last to [b]. *)
Fixpoint linked (L : gmap ptr (linked_list ptr)) (l : list Z) (b : Z) : Prop :=
  match l with
  | [] => True
  | x :: l' => rd_next (obj x) L = Some (obj (default b (head l'))) ∧ linked L l' b
  end.

Lemma linked_app L l1 l2 b :
  linked L (l1 ++ l2) b ↔ linked L l1 (default b (head l2)) ∧ linked L l2 b.
Proof.
  induction l1 as [|x l1 IH]; cbn; [naive_solver|]. rewrite IH. destruct l1; naive_solver.
Qed.
Lemma linked_frame L L' l b :
  (∀ x, x ∈ l → L' !! obj x = L !! obj x) → linked L l b → linked L' l b.
Proof.
  induction l as [|x l IH]; intros HL; [done|]. cbn. intros [H1 H2]. split.
  - unfold rd_next. rewrite HL by (by left). done.
  - apply IH; [|done]. intros y Hy. apply HL. by right.
Qed.

Definition covers (s : kstate) (address e : Z) : Prop :=
  match entries s !! e with Some en => contains en address = true | None => False end.
#[global] Instance covers_dec s a e : Decision (covers s a e).
Proof. unfold covers. destruct (entries s !! e); apply _. Defined.

Lemma covers_Some s a e en : entries s !! e = Some en → covers s a e ↔ contains en a = true.
Proof. unfold covers. by intros ->. Qed.

(** The entries of a map, from [vmentry] on. *)
Record vmap_inv (s : kstate) (map : Z) (mp : vmmap) (es : list Z) : Prop := {
  vi_map : map ≠ 0 ∧ vmaps s !! map = Some mp;
  vi_first : head es = Some (vmentry mp);
  vi_ring : linked (links s) es (vmentry mp);
  vi_NoDup : NoDup es;
  vi_entry : ∀ e, e ∈ es → e ≠ 0 ∧ is_Some (entries s !! e);
  vi_hint : m_hint mp = 0 ∨ m_hint mp ∈ es }.

Lemma vi_vmentry s map mp es : vmap_inv s map mp es → vmentry mp ∈ es.
Proof. intros HI. pose proof (vi_first _ _ _ _ HI) as H. destruct es; [done|]. cbn in H. simplify_eq. by left. Qed.

Lemma vmentry_of_Ret s map mp : vmaps s !! map = Some mp → vmentry_of map s = Ret (vmentry mp) s.
Proof. intros E. unfold vmentry_of. by run_with ltac:(apply deref_Ret; exact E). Qed.

Lemma next_entry_Ret s e x : rd_next (obj e) (links s) = Some (obj x) → next_entry e s = Ret x s.
Proof. intros E. unfold next_entry. by run_with ltac:(apply ask_links_Ret; exact E). Qed.

Definition set_hint (map : Z) (mp : vmmap) (r : Z) (s : kstate) : kstate :=
  s <| vmaps ::= <[map := mp <| m_hint := r |>]> |>.

Lemma lookup_loop_spec s map mp a : vmaps s !! map = Some mp → ∀ l x fuel,
  linked (links s) (x :: l) (vmentry mp) → vmentry mp ∉ l →
  (∀ e, e ∈ x :: l → e ≠ 0 ∧ is_Some (entries s !! e)) → (length (x :: l) <= fuel)%nat →
  lookup_loop fuel map x a s =
    match list_find (covers s a) (x :: l) with
    | Some (_, r) => Ret r (set_hint map mp r s)
    | None => Ret 0 s
    end.
Proof.
  intros Hm. induction l as [|y l IH]; intros x fuel Hl Hn He Hf;
    (destruct fuel as [|fuel]; [cbn in Hf; lia|]); cbn [lookup_loop list_find];
    destruct (He x) as [Hx [en En]]; [by left| |by left|];
    rewrite (proj2 (Z.eqb_neq x 0)) by done; run_with ltac:(apply deref_Ret; exact En);
    pose proof (covers_Some s a x en En) as Hc; destruct (contains en a) eqn:Ec.
  - rewrite decide_True by (by apply Hc). by run_with ltac:(apply upd_vmap_Ret; exact Hm).
  - rewrite decide_False by (rewrite Hc; done). cbn in Hl. run_with ltac:(apply next_entry_Ret; apply Hl).
    run_with ltac:(apply vmentry_of_Ret; exact Hm). by rewrite Z.eqb_refl.
  - rewrite decide_True by (by apply Hc). by run_with ltac:(apply upd_vmap_Ret; exact Hm).
  - rewrite decide_False by (rewrite Hc; done). destruct Hl as [H1 Hl]. change (default (vmentry mp) (head (y :: l))) with y in H1.
    run_with ltac:(apply next_entry_Ret; exact H1). run_with ltac:(apply vmentry_of_Ret; exact Hm).
    rewrite not_elem_of_cons in Hn. rewrite (proj2 (Z.eqb_neq y (vmentry mp))) by naive_solver.
    rewrite IH; [|done|naive_solver| |cbn in Hf |- *; lia].
    + cbn [list_find]. by repeat (case_match; simplify_eq/=).
    + intros e Hin. apply He. by right.
Qed.

Lemma set_hint_same s map mp : vmaps s !! map = Some mp → set_hint map mp (m_hint mp) s = s.
Proof.
  intros E. unfold set_hint, setf. destruct s, mp. cbn in *. by rewrite insert_id.
Qed.
Lemma set_hint_inv s map mp es h :
  vmap_inv s map mp es → h = 0 ∨ h ∈ es → vmap_inv (set_hint map mp h s) map (mp <| m_hint := h |>) es.
Proof.
  intros HI Hh. split; fields; try apply HI; [|done].
  split; [apply HI|]. by rewrite lookup_insert_eq.
Qed.

Lemma vm_map_lookup_entry_spec s map mp es a :
  vmap_inv s map mp es →
  ∃ r h, vm_map_lookup_entry map a s = Ret r (set_hint map mp h s) ∧
    vmap_inv (set_hint map mp h s) map (mp <| m_hint := h |>) es ∧
    ((r = 0 ∧ h = m_hint mp ∧ ∀ e, e ∈ es → ¬ covers s a e) ∨ (r ∈ es ∧ h = r ∧ covers s a r)).
Proof.
  intros HI. destruct (vi_map _ _ _ _ HI) as [Hm0 Hm]. unfold vm_map_lookup_entry.
  rewrite (proj2 (Z.eqb_neq map 0)) by done. run_with ltac:(apply deref_Ret; exact Hm).
  pose proof (vi_vmentry _ _ _ _ HI) as Hv. destruct (vi_entry _ _ _ _ HI _ Hv) as [Hv0 _].
  rewrite (proj2 (Z.eqb_neq (vmentry mp) 0)) by done.
  assert (Hscan : ∃ r h, (fuel ← gets entry_fuel; lookup_loop fuel map (vmentry mp) a) s = Ret r (set_hint map mp h s) ∧
    ((r = 0 ∧ h = m_hint mp ∧ ∀ e, e ∈ es → ¬ covers s a e) ∨ (r ∈ es ∧ h = r ∧ covers s a r))).
  { run. destruct es as [|x l]; [by apply elem_of_nil in Hv|].
    pose proof (vi_first _ _ _ _ HI) as Hx. cbn in Hx. injection Hx as Hx. rewrite <- Hx.
    pose proof (vi_NoDup _ _ _ _ HI) as ND. rewrite NoDup_cons in ND.
    rewrite (lookup_loop_spec s map mp a Hm l x); [|apply HI|rewrite <- Hx; apply ND|apply HI|].
    - destruct (list_find (covers s a) (x :: l)) as [[i r]|] eqn:Ef.
      + apply list_find_Some in Ef as (Hi&Hc&_). apply list_elem_of_lookup_2 in Hi. eauto 10.
      + apply list_find_None in Ef. rewrite Forall_forall in Ef.
        exists 0, (m_hint mp). rewrite set_hint_same by done. eauto.
    - unfold entry_fuel. rewrite <- size_dom.
      rewrite <- (size_list_to_set (C := gset Z) (x :: l)) by apply HI.
      apply le_S, subseteq_size. intros e He%elem_of_list_to_set. apply elem_of_dom. by apply HI. }
  assert (Hfin : ∃ r h, (found ← (if m_hint mp =? 0 then mret false
               else en ← deref entries (m_hint mp); mret (contains en a));
      if (found : bool) then mret (m_hint mp)
      else fuel ← gets entry_fuel; lookup_loop fuel map (vmentry mp) a) s = Ret r (set_hint map mp h s) ∧
    ((r = 0 ∧ h = m_hint mp ∧ ∀ e, e ∈ es → ¬ covers s a e) ∨ (r ∈ es ∧ h = r ∧ covers s a r))).
  { destruct (vi_hint _ _ _ _ HI) as [Hh|Hh]; [rewrite (proj2 (Z.eqb_eq (m_hint mp) 0)) by done; run; exact Hscan|].
    destruct (vi_entry _ _ _ _ HI _ Hh) as [Hh0 [en En]].
    rewrite (proj2 (Z.eqb_neq (m_hint mp) 0)) by done. rewrite bind_assoc.
    run_with ltac:(apply deref_Ret; exact En). run. destruct (contains en a) eqn:Ec; [|done].
    exists (m_hint mp), (m_hint mp). rewrite set_hint_same by done. split; [done|]. right.
    by rewrite (covers_Some s a _ en). }
  destruct Hfin as (r&h&E&Hr). exists r, h. split_and!; [exact E| |exact Hr].
  apply set_hint_inv; [done|]. destruct Hr as [(_&->&_)|(?&->&_)]; [apply HI|by right].
Qed.

(** ** Creation of an entry *)
Lemma create_vm_entry_spec s map mp es l1 e l2 p rest junk :
  vmap_inv s map mp es → es = l1 ++ e :: l2 →
  kmem s = p :: rest → p ≠ 0 → entries s !! p = None →
  ∃ L', create_vm_entry junk map e s =
      Ret p (s <| kmem := rest |> <| links := L' |> <| entries ::= <[p := junk]> |>) ∧
    linked L' (l1 ++ e :: p :: l2) (vmentry mp) ∧
    rd_next (obj e) L' = Some (obj p) ∧ is_Some (L' !! obj p).
Proof.
  intros HI Hes Hk Hp Hfresh. destruct (vi_map _ _ _ _ HI) as [Hm0 Hm].
  pose proof (vi_NoDup _ _ _ _ HI) as ND. pose proof (vi_ring _ _ _ _ HI) as HR.
  rewrite Hes in ND, HR. rewrite NoDup_app, NoDup_cons in ND. destruct ND as (_&Hd&He&_).
  rewrite linked_app in HR. destruct HR as [H1 [H2 H3]].
  assert (Hin : ∀ x, x ∈ l1 ++ e :: l2 → x ≠ 0 ∧ x ≠ p).
  { intros x Hx. rewrite <- Hes in Hx. destruct (vi_entry _ _ _ _ HI x Hx) as [? [? ?]]. split; [done|]. congruence. }
  assert (He0 : e ≠ 0 ∧ e ≠ p) by (apply Hin; set_solver). destruct He0 as [He0 Hep].
  destruct (vi_entry _ _ _ _ HI _ (vi_vmentry _ _ _ _ HI)) as [Hv0 _].
  set (L0 := <[obj p := mk_link NULL NULL]> (links s)).
  destruct (links s !! obj e) as [lk|] eqn:Elk; [|by unfold rd_next in H2; rewrite Elk in H2].
  assert (Hnx : next lk = obj (default (vmentry mp) (head l2))).
  { unfold rd_next in H2. rewrite Elk in H2. by injection H2. }
  set (L' := <[obj p := mk_link (next lk) (obj e)]> (<[obj e := mk_link (obj p) (prev lk)]> (links s))).
  assert (EL : list_add_next ent (obj e) (obj p) L0 = Some L').
  { assert (Hne : obj p ≠ obj e) by (intros [=]; congruence).
    assert (E1 : L0 !! obj e = Some lk) by (unfold L0; by rewrite lookup_insert_ne).
    unfold list_add_next, rd_next, wr_next, wr_prev.
    change (ent (obj e)) with (obj e). change (ent (obj p)) with (obj p). rewrite E1.
    cbn [fmap option_fmap option_map mbind option_bind]. unfold L0.
    rewrite lookup_insert_ne, lookup_insert_eq by done. cbn [mbind option_bind].
    rewrite lookup_insert_eq. cbn [mbind option_bind]. unfold L'. f_equal.
    rewrite insert_insert_eq, insert_insert_ne by done. rewrite insert_insert_eq.
    by rewrite insert_insert_ne. }
  exists L'. split_and!.
  - unfold create_vm_entry, kalloc. unfold mbind at 1, M_bind at 1. rewrite Hk.
    rewrite (proj2 (Z.eqb_neq p 0)) by done. run.
    run_with ltac:(apply vmentry_of_Ret; exact Hm).
    rewrite (proj2 (Z.eqb_neq (vmentry mp) 0)) by done. cbn [negb].
    rewrite (proj2 (Z.eqb_neq e 0)) by done. cbn [negb].
    run_with ltac:(apply on_links_Ret; exact EL). reflexivity.
  - rewrite linked_app. cbn [head]. split.
    + eapply linked_frame; [|exact H1]. intros x Hx. unfold L'.
      assert (x ≠ p) by (apply Hin; set_solver). assert (x ≠ e) by (intros ->; by apply (Hd e Hx); left).
      by rewrite !lookup_insert_ne by (intros [=]; congruence).
    + split; [|split].
      * unfold rd_next, L'. rewrite lookup_insert_ne, lookup_insert_eq by (intros [=]; congruence). done.
      * unfold rd_next, L'. rewrite lookup_insert_eq. cbn. by rewrite Hnx.
      * eapply linked_frame; [|exact H3]. intros x Hx. unfold L'.
        assert (x ≠ p) by (apply Hin; set_solver). assert (x ≠ e) by congruence.
        by rewrite !lookup_insert_ne by (intros [=]; congruence).
  - unfold rd_next, L'. rewrite lookup_insert_ne, lookup_insert_eq by (intros [=]; congruence). done.
  - unfold L'. rewrite lookup_insert_eq. eauto.
Qed.

(** ** Entering a region *)
Lemma vmap_succ s map mp es l1 e l2 :
  vmap_inv s map mp es → es = l1 ++ e :: l2 →
  next_entry e s = Ret (default (vmentry mp) (head l2)) s.
Proof.
  intros HI Hes. pose proof (vi_ring _ _ _ _ HI) as HR. rewrite Hes, linked_app in HR.
  apply next_entry_Ret. apply HR.
Qed.

(** The gap after an entry: [stop] is below the next entry, or there is none. *)
Definition gap_after (s : kstate) (stop : Z) (l2 : list Z) : bool :=
  match l2 with
  | [] => true
  | x :: _ => match entries s !! x with Some en => stop <? e_start en | None => false end
  end.

Lemma gap_loop_step fuel s map mp es l1 e en l2 size object attribute stop :
  vmap_inv s map mp es → es = l1 ++ e :: l2 → entries s !! e = Some en → object ≠ 0 →
  gap_loop (S fuel) map size object attribute e stop s =
    if gap_after s stop l2 then Ret (inr (e, e_end en, u32 (e_end en + size))) s
    else gap_loop fuel map size object attribute (default (vmentry mp) (head l2)) (u32 (e_end en + size)) s.
Proof.
  intros HI Hes En Ho. destruct (vi_map _ _ _ _ HI) as [_ Hm]. cbn [gap_loop].
  run_with ltac:(by eapply vmap_succ). run_with ltac:(apply vmentry_of_Ret; exact Hm).
  assert (Ef : ((if default (vmentry mp) (head l2) =? vmentry mp then mret true
    else nen ← deref entries (default (vmentry mp) (head l2)); mret (stop <? e_start nen)) : K bool) s =
    Ret (gap_after s stop l2) s).
  { destruct l2 as [|x l2]; cbn [gap_after]; [by rewrite Z.eqb_refl|].
    change (default (vmentry mp) (head (x :: l2))) with x.
    destruct (vi_entry _ _ _ _ HI x) as [_ [nen Ex]]; [subst; set_solver|].
    assert (x ≠ vmentry mp).
    { pose proof (vi_NoDup _ _ _ _ HI) as ND. pose proof (vi_first _ _ _ _ HI) as Hf. subst es.
      destruct l1 as [|y l1]; cbn in Hf, ND; injection Hf as <-; apply NoDup_cons in ND as [Hn _]; set_solver. }
    rewrite (proj2 (Z.eqb_neq x (vmentry mp))) by done. run_with ltac:(apply deref_Ret; exact Ex).
    by rewrite Ex. }
  run_with ltac:(exact Ef). run_with ltac:(apply deref_Ret; exact En).
  rewrite (proj2 (Z.eqb_neq object 0)) by done. by destruct (gap_after s stop l2).
Qed.

Lemma createntry_spec s map mp es l1 e l2 p rest junk start stop object attribute address :
  vmap_inv s map mp es → es = l1 ++ e :: l2 →
  kmem s = p :: rest → p ≠ 0 → entries s !! p = None → stop <= m_end mp →
  ∃ s', createntry junk map e start stop object attribute address s = Ret (0, start) s' ∧
    vmap_inv s' map mp (l1 ++ e :: p :: l2) ∧
    entries s' = <[p := mk_entry start stop object (u16 attribute) (e_attr junk)]> (entries s).
Proof.
  intros HI Hes Hk Hp Hfresh Hstop. destruct (vi_map _ _ _ _ HI) as [Hm0 Hm].
  destruct (create_vm_entry_spec s map mp es l1 e l2 p rest junk HI Hes Hk Hp Hfresh) as (L'&EC&HL&_).
  unfold createntry. run_with ltac:(apply deref_Ret; exact Hm).
  rewrite (proj2 (Z.ltb_ge (m_end mp) stop)) by lia. run_with ltac:(exact EC). flat. do 2 step.
  eexists. split; [reflexivity|]. flat. split.
  - assert (Hp' : p ∉ l1 ++ e :: l2).
    { rewrite <- Hes. intros Hin. destruct (vi_entry _ _ _ _ HI p Hin) as [_ [? ?]]. congruence. }
    pose proof (vi_NoDup _ _ _ _ HI) as ND. pose proof (vi_first _ _ _ _ HI) as Hf.
    pose proof (vi_hint _ _ _ _ HI) as Hh. pose proof (vi_entry _ _ _ _ HI) as He. subst es.
    split; flat; [done| |exact HL| | |].
    + by destruct l1.
    + replace (l1 ++ e :: p :: l2) with ((l1 ++ [e]) ++ p :: l2) by (by rewrite <- app_assoc).
      apply NoDup_middle. rewrite <- app_assoc. done.
    + intros x Hx. destruct (decide (x = p)) as [->|Hxp].
      * split; [done|]. rewrite lookup_insert_eq. eauto.
      * rewrite !lookup_insert_ne by done. apply He. set_solver.
    + destruct Hh as [?|?]; [by left|right; set_solver].
  - by rewrite !insert_insert_eq.
Qed.

(** The lookup that starts [vm_map_enter], when one entry covers the address. *)
Lemma enter_lookup s map mp es a e :
  vmap_inv s map mp es → e ∈ es → covers s a e → (∀ e', e' ∈ es → covers s a e' → e' = e) →
  vm_map_lookup_entry map a s = Ret e (set_hint map mp e s) ∧
  vmap_inv (set_hint map mp e s) map (mp <| m_hint := e |>) es.
Proof.
  intros HI He Hc Hu. destruct (vm_map_lookup_entry_spec s map mp es a HI) as (r&h&E&HI'&Hr).
  destruct Hr as [(_&_&Hn)|(Hr&->&Hcr)]; [by destruct (Hn e He)|]. by rewrite (Hu r Hr Hcr) in *.
Qed.

(** C24. [vm_map_lookup_entry] terminates and finds an entry of the map that
    covers the address, remembers it as the hint, and answers NULL exactly when
    no entry of the map covers it. *)
Theorem lookup_entry_correct s map mp es a :
  vmap_inv s map mp es →
  ∃ r h, vm_map_lookup_entry map a s = Ret r (set_hint map mp h s) ∧
    vmap_inv (set_hint map mp h s) map (mp <| m_hint := h |>) es ∧
    (r = 0 ↔ ∀ e, e ∈ es → ¬ covers s a e) ∧ (r ≠ 0 → r ∈ es ∧ covers s a r ∧ h = r).
Proof.
  intros HI. destruct (vm_map_lookup_entry_spec s map mp es a HI) as (r&h&E&HI'&Hr).
  exists r, h. split_and!; [done..| |].
  - destruct Hr as [(->&_&Hn)|(Hr&_&Hc)]; [done|]. split; [|intros Hn; by destruct (Hn r Hr)].
    intros ->. by destruct (vi_entry _ _ _ _ HI 0 Hr).
  - destruct Hr as [(->&_)|(?&->&?)]; [done|]. auto.
Qed.

(** C25. [vm_map_enter] at an address that exactly one entry covers places the
    region after that entry when the following gap is large enough: it returns
    the end of the entry, and the ring has one new entry with the region. *)
Theorem vm_map_enter_gap s map mp es l1 e en l2 p rest junk a size object attribute :
  vmap_inv s map mp es → es = l1 ++ e :: l2 → entries s !! e = Some en →
  covers s a e → (∀ e', e' ∈ es → covers s a e' → e' = e) →
  has attribute VM_MAP_ENTRY_OBJECT_FIXED = false → object ≠ 0 →
  0 <= e_end en + size < 2 ^ 32 → gap_after s (e_end en + size) l2 = true → e_end en + size <= m_end mp →
  kmem s = p :: rest → p ≠ 0 → entries s !! p = None →
  ∃ s', vm_map_enter junk map a size object attribute s = Ret (0, e_end en) s' ∧
    vmap_inv s' map (mp <| m_hint := e |>) (l1 ++ e :: p :: l2) ∧
    entries s' = <[p := mk_entry (e_end en) (e_end en + size) object (u16 attribute) (e_attr junk)]> (entries s).
Proof.
  intros HI Hes En Hc Hu Hfix Ho Hsz Hgap Hend Hk Hp Hfr.
  assert (He : e ∈ es) by (subst; set_solver). destruct (vi_map _ _ _ _ HI) as [_ Hm].
  destruct (vi_entry _ _ _ _ HI _ He) as [He0 _].
  destruct (vi_entry _ _ _ _ HI _ (vi_vmentry _ _ _ _ HI)) as [Hv0 _].
  destruct (enter_lookup s map mp es a e HI He Hc Hu) as [EL HI'].
  unfold vm_map_enter. run_with ltac:(apply vmentry_of_Ret; exact Hm).
  rewrite (proj2 (Z.eqb_neq (vmentry mp) 0)) by done. run_with ltac:(exact EL).
  rewrite (proj2 (Z.eqb_neq e 0)) by done. rewrite Hfix. cbn [negb andb]. run.
  run_with ltac:(apply deref_Ret; exact En). rewrite u32_id by done.
  run_with ltac:(unfold entry_fuel; rewrite (gap_loop_step _ _ _ _ es l1 e en l2 _ _ _ _ HI') by done;
    change (gap_after (set_hint map mp e s)) with (gap_after s); rewrite Hgap; reflexivity).
  rewrite u32_id by done.
  by apply (createntry_spec (set_hint map mp e s) map _ es l1 e l2 p rest).
Qed.

(** When the first gap is too small, the next one is tested with the end
    computed for the first: a region that does not fit before the entry [g] is
    entered there and overlaps [g]. *)
Theorem vm_map_enter_overlaps s map mp es l1 e f g en fn gn l2 p rest junk a size object attribute :
  vmap_inv s map mp es → es = l1 ++ e :: f :: g :: l2 →
  entries s !! e = Some en → entries s !! f = Some fn → entries s !! g = Some gn →
  covers s a e → (∀ e', e' ∈ es → covers s a e' → e' = e) →
  has attribute VM_MAP_ENTRY_OBJECT_FIXED = false → object ≠ 0 → 0 <= e_end en + size →
  e_start fn <= e_end en + size < e_start gn → e_start gn < e_end fn + size < 2 ^ 32 →
  e_start gn < 2 ^ 32 → e_end fn <= e_start gn < e_end gn → e_end fn + size <= m_end mp →
  kmem s = p :: rest → p ≠ 0 → entries s !! p = None →
  ∃ s' new, vm_map_enter junk map a size object attribute s = Ret (0, e_end fn) s' ∧
    vmap_inv s' map (mp <| m_hint := e |>) (l1 ++ e :: f :: p :: g :: l2) ∧
    entries s' !! p = Some new ∧ entries s' !! g = Some gn ∧
    e_start new <= e_start gn < e_end new.
Proof.
  intros HI Hes En Ef Eg Hc Hu Hfix Ho Hsz Hgap Hov Hg32 Hg Hend Hk Hp Hfr.
  assert (He : e ∈ es) by (subst; set_solver). destruct (vi_map _ _ _ _ HI) as [_ Hm].
  destruct (vi_entry _ _ _ _ HI _ He) as [He0 _].
  destruct (vi_entry _ _ _ _ HI _ (vi_vmentry _ _ _ _ HI)) as [Hv0 _].
  destruct (enter_lookup s map mp es a e HI He Hc Hu) as [EL HI'].
  assert (Hes' : es = (l1 ++ [e]) ++ f :: g :: l2) by (by rewrite <- app_assoc).
  assert (Hfuel : ∃ n, entry_fuel (set_hint map mp e s) = S (S n)).
  { unfold entry_fuel. fields. rewrite <- (insert_id (entries s) e en En), <- insert_delete_eq.
    rewrite map_size_insert_None by apply lookup_delete_eq. eauto. }
  destruct Hfuel as [n Hn].
  assert (EG : gap_loop (entry_fuel (set_hint map mp e s)) map size object attribute e (e_end en + size)
    (set_hint map mp e s) = Ret (inr (f, e_end fn, e_end fn + size)) (set_hint map mp e s)).
  { rewrite Hn, (gap_loop_step _ _ _ _ es l1 e en (f :: g :: l2) _ _ _ _ HI') by done.
    unfold gap_after at 1. change (entries (set_hint map mp e s)) with (entries s). rewrite Ef.
    rewrite (proj2 (Z.ltb_ge _ _)) by lia. rewrite u32_id by lia. cbn [head].
    rewrite (gap_loop_step _ _ _ _ es (l1 ++ [e]) f fn (g :: l2) _ _ _ _ HI') by done.
    unfold gap_after. change (entries (set_hint map mp e s)) with (entries s). rewrite Eg.
    rewrite (proj2 (Z.ltb_lt _ _)) by lia. by rewrite u32_id by lia. }
  destruct (createntry_spec (set_hint map mp e s) map _ es (l1 ++ [e]) f (g :: l2) p rest junk
    (e_end fn) (e_end fn + size) object attribute a HI' Hes' Hk Hp Hfr Hend) as (s'&EC&HI2&HE).
  eexists s', _. split_and!.
  - unfold vm_map_enter. run_with ltac:(apply vmentry_of_Ret; exact Hm).
    rewrite (proj2 (Z.eqb_neq (vmentry mp) 0)) by done. run_with ltac:(exact EL).
    rewrite (proj2 (Z.eqb_neq e 0)) by done. rewrite Hfix. cbn [negb andb]. run.
    run_with ltac:(apply deref_Ret; exact En). rewrite u32_id by lia. by run_with ltac:(exact EG).
  - by rewrite <- app_assoc in HI2.
  - rewrite HE. apply lookup_insert_eq.
  - rewrite HE, lookup_insert_ne; [done|congruence].
  - cbn. lia.
  - cbn. lia.
Qed.

(** ** Clipping *)
Lemma lookup_self_loop s map mp b p en :
  vmaps s !! map = Some mp → entries s !! p = Some en → p ≠ 0 → p ≠ vmentry mp →
  rd_next (obj p) (links s) = Some (obj p) → ¬ covers s b p →
  ∀ fuel, lookup_loop fuel map p b s = Spin.
Proof.
  intros Hm En Hp Hv Hl Hc. induction fuel as [|fuel IH]; [done|]. cbn [lookup_loop].
  rewrite (proj2 (Z.eqb_neq p 0)) by done. run_with ltac:(apply deref_Ret; exact En).
  rewrite (covers_Some s b p en En) in Hc. destruct (contains en b); [done|].
  run_with ltac:(apply next_entry_Ret; exact Hl). run_with ltac:(apply vmentry_of_Ret; exact Hm).
  by rewrite (proj2 (Z.eqb_neq p (vmentry mp))).
Qed.
Lemma lookup_into_loop s map mp b p :
  vmaps s !! map = Some mp → (∀ fuel, lookup_loop fuel map p b s = Spin) → p ≠ vmentry mp →
  ∀ l x fuel, linked (links s) (x :: l) p → vmentry mp ∉ l →
  (∀ y, y ∈ x :: l → y ≠ 0 ∧ is_Some (entries s !! y) ∧ ¬ covers s b y) →
  lookup_loop fuel map x b s = Spin.
Proof.
  intros Hm Hp Hpv. induction l as [|y l IH]; intros x fuel [Hl Hl'] Hn Hc;
    (destruct fuel as [|fuel]; [done|]); cbn [lookup_loop];
    destruct (Hc x) as (Hx&[en En]&Hcx); [by left| |by left|];
    rewrite (proj2 (Z.eqb_neq x 0)) by done; run_with ltac:(apply deref_Ret; exact En);
    rewrite (covers_Some s b x en En) in Hcx; (destruct (contains en b); [done|]);
    run_with ltac:(apply next_entry_Ret; exact Hl); run_with ltac:(apply vmentry_of_Ret; exact Hm).
  - cbn [head default]. by rewrite (proj2 (Z.eqb_neq p (vmentry mp))).
  - change (default p (head (y :: l))) with y. apply not_elem_of_cons in Hn as [Hy Hn].
    rewrite (proj2 (Z.eqb_neq y (vmentry mp))) by congruence. apply IH; [done..|].
    intros z Hz. apply Hc. by right.
Qed.

Lemma vm_map_entry_clip_spec s map mp es l1 e en ob l2 p rest junk a :
  vmap_inv s map mp es → es = l1 ++ e :: l2 →
  entries s !! e = Some en → objects s !! e_object en = Some ob → e_start en < a < e_end en →
  kmem s = p :: rest → p ≠ 0 → entries s !! p = None →
  ∃ s', vm_map_entry_clip junk map e a s = Ret p s' ∧
    entries s' = <[e := en <| e_end := a |>]> (<[p := en <| e_start := a |>]> (entries s)) ∧
    objects s' = <[e_object en := ob <| ob_ref := s32 (ob_ref ob + 1) |>]> (objects s) ∧
    vmaps s' = vmaps s ∧ linked (links s') (l1 ++ [e]) p ∧ rd_next (obj p) (links s') = Some (obj p).
Proof.
  intros HI Hes En Eo Ha Hk Hp Hfr.
  destruct (create_vm_entry_spec s map mp es l1 e l2 p rest junk HI Hes Hk Hp Hfr) as (L'&EC&HL&Hnx&Hsp).
  assert (Hep : e ≠ p) by congruence.
  assert (Hpn : p ∉ l1 ++ [e]).
  { intros Hin. destruct (vi_entry _ _ _ _ HI p) as [_ [? ?]]; [subst; set_solver|congruence]. }
  unfold rd_next in Hnx. destruct (L' !! obj e) as [lk|] eqn:Elk; [|done]. injection Hnx as Hnx.
  assert (ECP : (λ L : gmap ptr (linked_list ptr), lk ← L !! ent (obj e);
    L !! ent (obj p);; Some (<[ent (obj p) := lk]> L)) L' = Some (<[obj p := lk]> L')).
  { cbv beta. change (ent (obj e)) with (obj e). change (ent (obj p)) with (obj p). rewrite Elk.
    destruct Hsp as [q Hq]. cbn [mbind option_bind]. by rewrite Hq. }
  unfold vm_map_entry_clip. run_with ltac:(apply deref_Ret; exact En).
  rewrite (proj2 (Z.eqb_neq a (e_start en))) by lia.
  rewrite (proj2 (Z.ltb_lt (e_start en) a)), (proj2 (Z.ltb_lt a (e_end en))) by lia. cbn [andb].
  run_with ltac:(exact EC). flat. unfold copy_entry. do 7 step.
  eexists. split; [reflexivity|]. flat. split_and!; try done.
  - by rewrite !insert_insert_eq.
  - replace (l1 ++ e :: p :: l2) with ((l1 ++ [e]) ++ p :: l2) in HL by (by rewrite <- app_assoc).
    rewrite linked_app in HL. destruct HL as [HL _]. eapply linked_frame; [|exact HL].
    intros x Hx. rewrite lookup_insert_ne; [done|]. intros [=]. congruence.
  - unfold rd_next. rewrite lookup_insert_eq. cbn. by rewrite Hnx.
Qed.

(** [vm_map_entry_clip] divides an entry in two that share its object,
    with one more reference.  The copy [*nextentry = *entry] also copies the
    links, so the new entry is its own successor: from then on the search for
    an address that the entries up to the new one do not cover never ends. *)
Theorem clip_breaks_ring s map mp es l1 e en ob l2 p rest junk a :
  vmap_inv s map mp es → es = l1 ++ e :: l2 →
  entries s !! e = Some en → objects s !! e_object en = Some ob → e_start en < a < e_end en →
  kmem s = p :: rest → p ≠ 0 → entries s !! p = None →
  ∃ s', vm_map_entry_clip junk map e a s = Ret p s' ∧
    entries s' = <[e := en <| e_end := a |>]> (<[p := en <| e_start := a |>]> (entries s)) ∧
    objects s' = <[e_object en := ob <| ob_ref := s32 (ob_ref ob + 1) |>]> (objects s) ∧
    ∀ b, (∀ x, x ∈ l1 ++ [e; p] → ¬ covers s' b x) →
    ∀ fuel, lookup_loop fuel map (vmentry mp) b s' = Spin.
Proof.
  intros HI Hes En Eo Ha Hk Hp Hfr.
  destruct (vm_map_entry_clip_spec s map mp es l1 e en ob l2 p rest junk a) as (s'&E&HE&HO&HV&HL&Hpp); [done..|].
  exists s'. split_and!; [done..|]. intros b Hb fuel. destruct (vi_map _ _ _ _ HI) as [_ Hm].
  assert (Hpn : p ∉ es) by (intros Hin; destruct (vi_entry _ _ _ _ HI p Hin) as [_ [? ?]]; congruence).
  assert (Hpv : p ≠ vmentry mp) by (intros ->; by apply Hpn, (vi_vmentry _ _ _ _ HI)).
  assert (Hall : ∀ y, y ∈ l1 ++ [e] → y ≠ 0 ∧ is_Some (entries s' !! y) ∧ ¬ covers s' b y).
  { intros y Hy. destruct (vi_entry _ _ _ _ HI y) as [? ?]; [subst; set_solver|]. split_and!; [done| |apply Hb; set_solver].
    rewrite HE, !lookup_insert_is_Some'. auto. }
  assert (Hpe : entries s' !! p = Some (en <| e_start := a |>)).
  { rewrite HE, lookup_insert_ne, lookup_insert_eq by congruence. done. }
  rewrite <- HV in Hm.
  assert (Hloop : ∀ fuel, lookup_loop fuel map p b s' = Spin).
  { eapply lookup_self_loop; try done. apply Hb. set_solver. }
  pose proof (vi_first _ _ _ _ HI) as Hf. pose proof (vi_NoDup _ _ _ _ HI) as ND. subst es.
  destruct l1 as [|x l1]; cbn in Hf; injection Hf as Hf.
  - rewrite <- Hf. apply (lookup_into_loop s' map mp b p Hm Hloop Hpv []); [done|apply not_elem_of_nil|done].
  - rewrite <- Hf. apply (lookup_into_loop s' map mp b p Hm Hloop Hpv (l1 ++ [e])); [done| |done].
    rewrite <- Hf. apply NoDup_cons in ND as [Hx _]. set_solver.
Qed.

(** [vm_map_remove] of a region that is exactly one entry unlinks and
    frees the entry, but the lookup at its start has made the entry the hint of
    the map: every later lookup reads the freed entry.  The object, whose last
    reference this was, is not freed. *)
Theorem vm_map_remove_dangling_hint s map mp e0 l1 e l2 en ob junk :
  vmap_inv s map mp (e0 :: l1 ++ e :: l2) → vmentry mp = e0 →
  dlist ent (links s) (obj e0) (obj <$> l1 ++ e :: l2) →
  entries s !! e = Some en → e_start en < e_end en < 2 ^ 32 →
  (∀ e', e' ∈ e0 :: l1 ++ e :: l2 → covers s (e_start en) e' → e' = e) →
  objects s !! e_object en = Some ob → ob_ref ob = 1 → 0 <= e_start en →
  ∃ s', vm_map_remove junk map (e_start en) (e_end en - e_start en) s = Ret 0 s' ∧
    entries s' = delete e (entries s) ∧
    dlist ent (links s') (obj e0) (obj <$> l1 ++ l2) ∧
    objects s' !! e_object en = Some (ob <| ob_ref := 0 |>) ∧
    ∀ b, vm_map_lookup_entry map b s' = Fault.
Proof.
  intros HI Hv HD En Hr Hu Eo Href H0. set (es := e0 :: l1 ++ e :: l2) in *.
  assert (He : e ∈ es) by set_solver. destruct (vi_map _ _ _ _ HI) as [Hm0 Hm].
  destruct (vi_entry _ _ _ _ HI _ He) as [He0 _].
  destruct (vi_entry _ _ _ _ HI _ (vi_vmentry _ _ _ _ HI)) as [Hv0 _].
  assert (Hc : covers s (e_start en) e).
  { rewrite (covers_Some s _ e en En). unfold contains. apply andb_true_intro. split; apply Z.leb_le; lia. }
  destruct (enter_lookup s map mp es _ e HI He Hc Hu) as [EL HI'].
  rewrite fmap_app, fmap_cons in HD.
  destruct (list_del_spec ent (links s) (obj e0) (obj <$> l1) (obj e) (obj <$> l2) HD) as (L'&ED&HD'&_).
  assert (Hm' : vmaps (set_hint map mp e s) !! map = Some (mp <| m_hint := e |>)) by apply HI'.
  eexists. split.
  - unfold vm_map_remove. run_with ltac:(exact EL). rewrite (proj2 (Z.eqb_neq e 0)) by done.
    unfold vm_map_entry_clip. rewrite bind_assoc. run_with ltac:(apply deref_Ret; exact En). rewrite Z.eqb_refl.
    run. rewrite (proj2 (Z.eqb_neq e 0)) by done. rewrite bind_assoc. run_with ltac:(apply deref_Ret; exact En).
    rewrite u32_id by lia. replace (e_start en + (e_end en - e_start en)) with (e_end en) by lia.
    rewrite (proj2 (Z.eqb_neq (e_end en) (e_start en))) by lia. rewrite Z.ltb_irrefl, andb_false_r. run.
    unfold delete_vm_map_entry, delete_object, dealloc_vm_map_entry.
    rewrite !bind_assoc. run_with ltac:(apply deref_Ret; exact En).
    rewrite !bind_assoc. run_with ltac:(apply upd_object_Ret; exact Eo).
    rewrite !bind_assoc. run_with ltac:(apply deref_Ret; apply lookup_insert_eq).
    change (ob_ref (ob <| ob_ref ::= λ n, s32 (n - 1) |>)) with (s32 (ob_ref ob - 1)). rewrite Href. cbn [Z.eqb s32].
    change (s32 (1 - 1) =? 0) with true. cbv iota. run. rewrite !bind_assoc.
    run_with ltac:(apply vmentry_of_Ret; exact Hm'). change (vmentry (mp <| m_hint := e |>)) with (vmentry mp).
    rewrite Hv. rewrite ?bind_assoc. run_with ltac:(apply on_links_Ret; exact ED). reflexivity.
  - flat. split_and!; [done|by rewrite fmap_app| |].
    + rewrite lookup_insert_eq. by rewrite Href.
    + intros b. unfold vm_map_lookup_entry. rewrite (proj2 (Z.eqb_neq map 0)) by done.
      run_with ltac:(apply deref_Ret; exact Hm'). change (vmentry (mp <| m_hint := e |>)) with (vmentry mp).
      change (m_hint (mp <| m_hint := e |>)) with e.
      rewrite (proj2 (Z.eqb_neq (vmentry mp) 0)), (proj2 (Z.eqb_neq e 0)) by done.
      unfold mbind, M_bind, deref. fields. by rewrite lookup_delete_eq.
Qed.

(** ** Instances of the theorems *)
#[global] Instance linked_dec L l b : Decision (linked L l b).
Proof. induction l; cbn; apply _. Defined.

(** A map 7100 with the entries 6000, 6010 and 6020, all of object 5000. *)
Definition entry0 (a b : Z) : vm_map_entry := mk_entry a b 5000 0 0.
Definition demo_mp : vmmap := mk_vmmap 6000 7200 0 1 0 (KERNEL_BASE - 1) 0 0 0.
Definition demo_map : kstate :=
  demo_pt <| vmaps := {[ 7100 := demo_mp ]} |>
    <| entries := list_to_map [(6000, entry0 0x200000 0x210000); (6010, entry0 0x220000 0x230000);
                               (6020, entry0 0x250000 0x260000)] |>
    <| links ::= λ L, <[obj 6000 := mk_link (obj 6010) (obj 6020)]> (<[obj 6010 := mk_link (obj 6020) (obj 6000)]>
                      (<[obj 6020 := mk_link (obj 6000) (obj 6010)]> L)) |>
    <| kmem := [6030; 6040] |>.

Lemma demo_vmap_inv : vmap_inv demo_map 7100 demo_mp [6000; 6010; 6020].
Proof.
  split.
  - split; [done|vm_compute; reflexivity].
  - done.
  - evaluate.
  - evaluate.
  - apply Forall_forall. evaluate.
  - by left.
Qed.
Lemma demo_covers_one a e :
  Forall (λ e', covers demo_map a e' → e' = e) [6000; 6010; 6020] →
  ∀ e', e' ∈ [6000; 6010; 6020] → covers demo_map a e' → e' = e.
Proof. exact (proj1 (Forall_forall _ _)). Qed.

Lemma lookup_entry_correct_witness :
  ∃ r h, vm_map_lookup_entry 7100 0x225000 demo_map = Ret r (set_hint 7100 demo_mp h demo_map) ∧
    vmap_inv (set_hint 7100 demo_mp h demo_map) 7100 (demo_mp <| m_hint := h |>) [6000; 6010; 6020] ∧
    (r = 0 ↔ ∀ e, e ∈ [6000; 6010; 6020] → ¬ covers demo_map 0x225000 e) ∧
    (r ≠ 0 → r ∈ [6000; 6010; 6020] ∧ covers demo_map 0x225000 r ∧ h = r).
Proof. exact (lookup_entry_correct _ _ _ _ 0x225000 demo_vmap_inv). Defined.

Lemma vm_map_enter_gap_witness :
  ∃ s', vm_map_enter (entry0 0 0) 7100 0x200000 0x8000 5000 0 demo_map = Ret (0, 0x210000) s' ∧
    vmap_inv s' 7100 (demo_mp <| m_hint := 6000 |>) [6000; 6030; 6010; 6020].
Proof.
  destruct (vm_map_enter_gap demo_map 7100 demo_mp [6000; 6010; 6020] [] 6000 (entry0 0x200000 0x210000)
    [6010; 6020] 6030 [6040] (entry0 0 0) 0x200000 0x8000 5000 0 demo_vmap_inv)
    as (s'&H1&H2&_); try evaluate.
  - apply demo_covers_one. evaluate.
  - exact (ex_intro _ s' (conj H1 H2)).
Defined.

(** A region of 0x38000 bytes is entered at 0x230000, across 0x250000. *)
Lemma vm_map_enter_overlaps_witness :
  ∃ s' new, vm_map_enter (entry0 0 0) 7100 0x200000 0x38000 5000 0 demo_map = Ret (0, 0x230000) s' ∧
    vmap_inv s' 7100 (demo_mp <| m_hint := 6000 |>) [6000; 6010; 6030; 6020] ∧
    entries s' !! 6030 = Some new ∧ entries s' !! 6020 = Some (entry0 0x250000 0x260000) ∧
    e_start new <= 0x250000 < e_end new.
Proof.
  apply (vm_map_enter_overlaps demo_map 7100 demo_mp [6000; 6010; 6020] [] 6000 6010 6020
    (entry0 0x200000 0x210000) (entry0 0x220000 0x230000) (entry0 0x250000 0x260000) []
    6030 [6040] (entry0 0 0) 0x200000 0x38000 5000 0 demo_vmap_inv); try evaluate.
  apply demo_covers_one. evaluate.
Defined.

(** After a clip of the first entry even an address of the last is not found. *)
Lemma clip_breaks_ring_witness :
  ∃ s', vm_map_entry_clip (entry0 0 0) 7100 6000 0x205000 demo_map = Ret 6030 s' ∧
    ∀ fuel, lookup_loop fuel 7100 6000 0x255000 s' = Spin.
Proof.
  destruct (clip_breaks_ring demo_map 7100 demo_mp [6000; 6010; 6020] [] 6000 (entry0 0x200000 0x210000)
    object0 [6010; 6020] 6030 [6040] (entry0 0 0) 0x205000 demo_vmap_inv) as (s'&H1&HE&_&H2); try evaluate.
  exists s'. split; [exact H1|]. intros fuel. apply (H2 0x255000). unfold covers. rewrite HE.
  intros x [->|[->|[]%elem_of_nil]%elem_of_cons]%elem_of_cons; vm_compute; congruence.
Defined.

Lemma vm_map_remove_dangling_hint_witness :
  ∃ s', vm_map_remove (entry0 0 0) 7100 0x220000 0x10000 demo_map = Ret 0 s' ∧
    ∀ b, vm_map_lookup_entry 7100 b s' = Fault.
Proof.
  destruct (vm_map_remove_dangling_hint demo_map 7100 demo_mp 6000 [] 6010 [6020] (entry0 0x220000 0x230000)
    object0 (entry0 0 0) demo_vmap_inv) as (s'&H1&_&_&_&H2); try evaluate.
  - apply demo_covers_one. evaluate.
  - exact (ex_intro _ s' (conj H1 H2)).
Defined.
