(* ===== verification/Message.v ===== *)
(** * Messages

    Models microkernel/kernel/message.c.  A call that blocks ends in
    [schedule], which makes another thread current; the rest of the call runs
    when the thread is current again.  So each call is split there: its first
    part answers [Blocked], and [send_return] is what is left of
    [send_message]; a blocked [receive_message] starts again ([goto again]). *)

From S2P Require Import Prelude DList Hash KState Sched Thread VmPage Pmap VmMap.

Definition MSG_SHORT : Z := 1.
Definition MSG_MAP_SEND : Z := 4.
Definition MSG_MAP_RECEIVE : Z := 8.
Definition MSG_NOREPLY : Z := 0x20.

Notation sndq := (fld F_sndq).
(** [&thr->rcvq] *)
Definition rcvq_of (thr : Z) : ptr := fld F_rcvq (obj thr).

(** The result of a call that may block. *)
Inductive call (A : Type) : Type := Done (a : A) | Blocked.
Arguments Done {A} a.
Arguments Blocked {A}.

Definition make_blocked (st thr : Z) : K unit :=
  upd_thread thr (λ th, th <| states := st |>);;
  remove_thread thr;;
  schedule.
Definition make_send_blocked : Z → K unit := make_blocked SEND_BLOCKED.
Definition make_reply_blocked : Z → K unit := make_blocked REPLY_BLOCKED.
Definition make_receive_blocked : Z → K unit := make_blocked RECEIVE_BLOCKED.

(** [rcv_ptr] is [w4], [rcv_bufsize] [w5], [snd_ptr] [w2], [snd_bufsize] [w3]. *)
Definition transfer_msg (n fuel : nat) (junk : vm_map_entry) (rcv snd : Z) : K Z :=
  sth ← get_thread snd;
  let m := msg sth in
  if has (m_flags m) MSG_SHORT then mret 0
  else if has (m_flags m) MSG_MAP_RECEIVE then
    rth ← get_thread rcv; rp ← get_proc (proc rth); sp ← get_proc (proc sth);
    r ← vm_share_addr n fuel junk (p_map rp) (p_map sp) (w4 m) (w5 m) (Z.lor PAGE_RW PAGE_USER);
    upd_thread snd (λ th, th <| msg ::= λ m, m <| w4 := r.2 |> |>);;
    mret r.1
  else if has (m_flags m) MSG_MAP_SEND then
    rth ← get_thread rcv; rp ← get_proc (proc rth); sp ← get_proc (proc sth);
    r ← vm_share_addr n fuel junk (p_map rp) (p_map sp) (w2 m) (w3 m) PAGE_USER;
    upd_thread snd (λ th, th <| msg ::= λ m, m <| w2 := r.2 |> |>);;
    mret r.1
  else mret 0.

(** Of [unmap_message] only the copy of short messages is not commented out. *)
Definition unmap_message (snd rcv : Z) (message : message) : K Z :=
  (if has (m_flags message) MSG_SHORT then upd_thread rcv (λ th, th <| msg := message |>) else mret tt);;
  mret 0.

Definition send_message (n fuel : nat) (junk : vm_map_entry) (id : Z) (mesg : message) : K (call Z) :=
  sender ← gets current;
  r_thr ← find_by_tid id;
  if r_thr =? 0 then mret (Done (- ESRCH))
  else
    upd_thread sender (λ th, th <| msg := mesg |>);;
    upd_thread sender (λ th, th <| msg ::= λ m, m <| m_tid := tid th |> |>);;
    on_links (list_enqueue sndq (rcvq_of r_thr) (obj sender));;
    ret ← transfer_msg n fuel junk r_thr sender;
    if ret <? 0 then mret (Done (- ENOMEM))
    else
      rth ← get_thread r_thr;
      (if has (states rth) RECEIVE_BLOCKED then wakeup r_thr else mret tt);;
      make_send_blocked sender;;
      mret Blocked.
(** [*mesg = sender->msg; return sender->msg.w1;] *)
Definition send_return : K (message * Z) :=
  sender ← gets current;
  th ← get_thread sender;
  mret (msg th, s32 (w1 (msg th))).

(** The result and the message stored at [msg]. *)
Definition receive_message : K (call (Z * option message)) :=
  rcv ← gets current;
  e ← ask_links (list_isempty (rcvq_of rcv));
  if (e : bool) then make_receive_blocked rcv;; mret Blocked
  else
    p ← on_links' (list_dequeue sndq (rcvq_of rcv));
    snd ← as_obj p;
    if snd =? 0 then mret (Done (-1, None))
    else
      sth ← get_thread snd;
      if has (m_flags (msg sth)) MSG_NOREPLY then wakeup snd;; mret (Done (0, Some (msg sth)))
      else
        upd_thread snd (λ th, th <| states := REPLY_BLOCKED |>);;
        mret (Done (tid sth, Some (msg sth))).

Definition reply_message (id : Z) (message : message) : K Z :=
  snd ← gets current;
  wait ← find_by_tid id;
  if wait =? 0 then mret (- ESRCH)
  else
    wth ← get_thread wait;
    if negb (has (states wth) REPLY_BLOCKED) then mret (- ESRCH)
    else
      upd_thread wait (λ th, th <| msg := message |>);;
      ret ← unmap_message snd wait message;
      wakeup wait;;
      mret ret.

(** ** Queues of senders *)

(** The threads whose messages wait for [r], the latest first. *)
Record mailbox (s : kstate) (r : Z) (q : list Z) : Prop := {
  mb_pos : 0 < r ∧ ∀ t, t ∈ q → 0 < t;
  mb_list : dlist sndq (links s) (rcvq_of r) (obj <$> q) }.

Lemma snd_ring r q : NoDup q → ring sndq (rcvq_of r) (obj <$> q).
Proof.
  intros ND. apply obj_ring; [done|]. intros t _. split; intros [=].
Qed.

Lemma mailbox_cells r q d :
  d ∈ cells sndq (rcvq_of r) (obj <$> q) → d = rcvq_of r ∨ ∃ t, t ∈ q ∧ d = sndq (obj t).
Proof.
  unfold cells. rewrite elem_of_cons, <- list_fmap_compose, list_elem_of_fmap. naive_solver.
Qed.

(** The run queues do not see changes to the queues of senders. *)
Lemma rq_inv_links s qs L :
  (∀ t, L !! runq (obj t) = links s !! runq (obj t)) → (∀ i, L !! run_head i = links s !! run_head i) →
  rq_inv s qs → rq_inv (s <| links := L |>) qs.
Proof.
  intros H1 H2 HI. split; fields; try apply HI.
  intros i l Hi. eapply dlist_frame; [|by apply (rq_ring _ _ HI)].
  intros d [->|(t&_&->)]%elem_of_run_cells; auto.
Qed.
(** The scheduler does not touch the queues of senders. *)
Lemma mailbox_frame s s' r q : sched_frame s s' → mailbox s r q → mailbox s' r q.
Proof.
  intros HF [[Hr Hq] HD]. split; [done|]. eapply dlist_frame; [|exact HD].
  intros d Hd. apply (sf_links _ _ HF).
  - intros t. by apply mailbox_cells in Hd as [->|(u&_&->)]; intros [=].
  - intros i. unfold run_head, G_run.
    apply mailbox_cells in Hd as [->|(u&Hu&->)]; intros [=]; [lia|]. specialize (Hq u Hu). lia.
Qed.

(** Taking a thread out of the run queues. *)
Definition unqueue (t : Z) (qs : list (list Z)) : list (list Z) := filter (λ u, u ≠ t) <$> qs.

Lemma filter_notin t (l : list Z) : t ∉ l → filter (λ u, u ≠ t) l = l.
Proof.
  intros Hn. induction l as [|x l IH]; [done|]. apply not_elem_of_cons in Hn as [? Hn].
  rewrite filter_cons_True by congruence. by rewrite IH.
Qed.
Lemma unqueue_eq s qs i l1 t l2 :
  rq_inv s qs → qs !! i = Some (l1 ++ t :: l2) → <[i := l1 ++ l2]> qs = unqueue t qs.
Proof.
  intros HI Hi. pose proof (lookup_lt_Some _ _ _ Hi) as Hlt. unfold unqueue.
  apply list_eq. intros j. rewrite list_lookup_fmap.
  destruct (decide (j = i)) as [->|Hj].
  - rewrite list_lookup_insert_eq by done. rewrite Hi. cbn. f_equal.
    pose proof (rq_NoDup _ _ _ _ HI Hi) as [Hn _]%NoDup_middle. apply not_elem_of_app in Hn as [H1 H2].
    rewrite filter_app, filter_cons_False by naive_solver. by rewrite !filter_notin.
  - rewrite list_lookup_insert_ne by done. destruct (qs !! j) as [l|] eqn:Ej; [|done].
    cbn. f_equal. symmetry. apply filter_notin. intros Hin. apply Hj.
    eapply (rq_queue_unique s); eauto. set_solver.
Qed.

(** ** Waking up and blocking *)
Definition awake (th : thread) : thread :=
  th <| states := THREAD_READY |> <| priority_dyn := priority_stat th |> <| cpu := 0 |>.
Definition level_of (prio : Z) : nat := Z.to_nat (PRIOQ prio).
Definition requeue (t prio : Z) (qs : list (list Z)) : list (list Z) := alter (cons t) (level_of prio) qs.
(** A thread that can be put on a run queue. *)
Record can_run (s : kstate) (t : Z) (th : thread) : Prop := {
  cr_thread : threads s !! t = Some th;
  cr_pos : 0 < t;
  cr_link : is_Some (links s !! runq (obj t));
  cr_prio : 0 <= PRIOQ (priority_stat th) < 32 }.

Lemma wakeup_ready s qs t th :
  rq_inv s qs → can_run s t th → ¬ queued qs t →
  ∃ s', wakeup t s = Ret tt s' ∧ rq_inv s' (requeue t (priority_stat th) qs) ∧ sched_frame s s' ∧
    threads s' = <[t := awake th]> (threads s).
Proof.
  intros HI [Ht Hp Hl Hr] Hnq.
  destruct (lookup_lt_is_Some_2 qs (level_of (priority_stat th))) as [l Hi].
  { rewrite (rq_len _ _ HI). unfold level_of. lia. }
  destruct (wakeup_spec s qs t th (level_of (priority_stat th)) l) as (s'&E&HI'&HF&HT); try done.
  { unfold level_of. lia. }
  exists s'. split_and!; try done. unfold requeue.
  replace (alter (cons t) (level_of (priority_stat th)) qs)
    with (<[level_of (priority_stat th) := t :: l]> qs); [done|].
  apply list_eq. intros j. rewrite list_lookup_alter. pose proof (lookup_lt_Some _ _ _ Hi).
  case_decide as Hj; [subst; by rewrite list_lookup_insert_eq, Hi|by rewrite list_lookup_insert_ne].
Qed.

(** Threads up to the flag that asks for a new schedule. *)
Definition noflag (th : thread) : thread := th <| sched_flag := 0 |>.
Definition alike (T T' : gmap Z thread) : Prop := ∀ u, noflag <$> T' !! u = noflag <$> T !! u.

Lemma alike_lookup T T' u th :
  alike T T' → T !! u = Some th → ∃ th', T' !! u = Some th' ∧ noflag th' = noflag th.
Proof.
  intros HA E. specialize (HA u). rewrite E in HA. destruct (T' !! u) as [th'|]; [|done].
  exists th'. split; [done|]. exact (inj Some _ _ HA).
Qed.
(** A property of a thread that does not look at the flag. *)
Lemma noflag_eq {A} (f : thread → A) th th' :
  (∀ x, f (noflag x) = f x) → noflag th' = noflag th → f th' = f th.
Proof. intros Hf E. by rewrite <- (Hf th'), E, Hf. Qed.

Lemma make_blocked_spec s qs st t th :
  rq_inv s qs → threads s !! t = Some th → queued qs t → is_Some (threads s !! init_thread s) →
  ∃ s', make_blocked st t s = Ret tt s' ∧ rq_inv s' (unqueue t qs) ∧
    sched_frame (s <| current := current s' |>) s' ∧
    alike (<[t := th <| states := st |>]> (threads s)) (threads s').
Proof.
  intros HI Ht (i&l&Hi&Htl) Hinit. apply list_elem_of_split in Htl as (l1&l2&->).
  set (th1 := th <| states := st |>). set (s1 := s <| threads ::= <[t := th1]> |>).
  assert (HI1 : rq_inv s1 qs) by (by eapply rq_inv_upd).
  destruct (remove_thread_spec s1 qs t i l1 l2 HI1 Hi) as (s2&E2&HI2&HF2&T2).
  rewrite (unqueue_eq s qs i l1 t l2 HI Hi) in HI2.
  assert (Hinit2 : is_Some (threads s2 !! init_thread s2)).
  { rewrite (sf_field init_thread _ _ (λ _, eq_refl) HF2), T2. apply lookup_insert_is_Some'. by right. }
  destruct (schedule_spec s2 _ HI2 Hinit2) as (c&thc&E3&Hc&HI3).
  eexists. split_and!; [|exact HI3| |].
  - unfold make_blocked. run. run_with ltac:(exact E2). exact E3.
  - fields. destruct HF2 as [Hm Hd Hl]. split; fields.
    + apply (f_equal (λ x, x <| current := c |>)) in Hm. done.
    + done.
    + done.
  - intros u. fields. change (threads s1) with (<[t := th1]> (threads s)) in T2. rewrite T2 in *.
    destruct (decide (u = c)) as [->|]; [rewrite lookup_insert_eq, Hc|by rewrite lookup_insert_ne]. done.
Qed.

(** ** Sending *)

(** A sender [c] and a receiver [r] that the kernel finds by its id. *)
Record peers (s : kstate) (tb : gmap Z (list Z)) (qs : list (list Z)) (c r : Z) (th rth : thread) (q : list Z) : Prop := {
  pe_hash : thash_inv s tb;
  pe_rq : rq_inv s qs;
  pe_sender : threads s !! c = Some th;
  pe_pos : 0 < c;
  pe_running : queued qs c;
  pe_link : is_Some (links s !! sndq (obj c));
  pe_receiver : threads s !! r = Some rth;
  pe_ne : r ≠ c;
  pe_found : hashed tb r;
  pe_unique : ∀ y thy, hashed tb y → threads s !! y = Some thy → tid thy = tid rth → y = r;
  pe_box : mailbox s r q;
  pe_new : c ∉ q;
  pe_init : is_Some (threads s !! init_thread s) }.

(** The message as the receiver sees it. *)
Definition stamped (m : message) (id : Z) : message := m <| m_tid := id |>.

Lemma transfer_short n fuel junk r c s th :
  threads s !! c = Some th → has (m_flags (msg th)) MSG_SHORT = true →
  transfer_msg n fuel junk r c s = Ret 0 s.
Proof. intros E Hs. unfold transfer_msg. run. by rewrite Hs. Qed.

(** Putting the sender on the receiver's queue. *)
Lemma mailbox_push s qs c r q L :
  rq_inv s qs → mailbox s r q → 0 < c → c ∉ q →
  list_enqueue sndq (rcvq_of r) (obj c) (links s) = Some L → is_Some (links s !! sndq (obj c)) →
  mailbox (s <| links := L |>) r (c :: q) ∧ rq_inv (s <| links := L |>) qs ∧ dom L = dom (links s).
Proof.
  intros HI [[Hr Hq] HD] Hc Hn E Hs.
  assert (ND : NoDup (c :: q)).
  { apply NoDup_cons. split; [done|]. apply dlist_ring, ring_NoDup, NoDup_cons in HD as [_ HD].
    by apply NoDup_fmap_1 in HD. }
  destruct (list_enqueue_spec sndq (links s) (rcvq_of r) (obj <$> q) (obj c)) as (L'&E'&HD'&Hdom&HF);
    [done|by apply (snd_ring r (c :: q))|done|].
  rewrite E in E'. injection E' as <-. split_and!; [|apply rq_inv_links; [..|done]|done].
  - split; [|done]. split; [done|]. intros t [->|Ht]%elem_of_cons; auto.
  - intros t. apply HF. by intros [[=]|(u&_&[=])]%(mailbox_cells r (c :: q)).
  - intros i. apply HF. unfold run_head, G_run.
    intros [[=]|(u&Hu&[=])]%(mailbox_cells r (c :: q)); [lia|].
    apply elem_of_cons in Hu as [->|Hu]; [lia|]. specialize (Hq u Hu). lia.
Qed.

Lemma queued_upd qs (t u prio : Z) : queued qs t → queued (requeue u prio qs) t.
Proof.
  intros (i&l&Hi&Ht). exists i. unfold requeue. rewrite list_lookup_alter. case_decide; subst.
  - rewrite Hi. cbn. eexists. split; [done|]. by right.
  - eauto.
Qed.

(** A receiver that is blocked is woken up. *)
Definition wake_queue (r : Z) (rth : thread) (qs : list (list Z)) : list (list Z) :=
  if has (states rth) RECEIVE_BLOCKED then requeue r (priority_stat rth) qs else qs.
Definition wake_thread (rth : thread) : thread :=
  if has (states rth) RECEIVE_BLOCKED then awake rth else rth.

Lemma send_spec n fuel junk s tb qs c r th rth q m :
  peers s tb qs c r th rth q → current s = c → has (m_flags m) MSG_SHORT = true →
  (has (states rth) RECEIVE_BLOCKED = true → can_run s r rth ∧ ¬ queued qs r) →
  ∃ s', send_message n fuel junk (tid rth) m s = Ret Blocked s' ∧
    mailbox s' r (c :: q) ∧ rq_inv s' (unqueue c (wake_queue r rth qs)) ∧
    alike (<[c := th <| msg := stamped m (tid th) |> <| states := SEND_BLOCKED |>]>
            (<[r := wake_thread rth]> (threads s))) (threads s') ∧
    thash s' = thash s ∧ dom (links s') = dom (links s) ∧ init_thread s' = init_thread s.
Proof.
  intros HP Hc Hshort Hw. pose proof (pe_hash _ _ _ _ _ _ _ _ HP) as HT.
  pose proof (pe_sender _ _ _ _ _ _ _ _ HP) as Ec. pose proof (pe_receiver _ _ _ _ _ _ _ _ HP) as Er.
  pose proof (pe_ne _ _ _ _ _ _ _ _ HP) as Hrc.
  set (th1 := th <| msg := stamped m (tid th) |>).
  set (s1 := s <| threads ::= <[c := th1]> |>).
  assert (HI1 : rq_inv s1 qs) by (eapply rq_inv_upd; [apply HP|done..]).
  assert (E1 : upd_thread c (λ th, th <| msg ::= λ m, m <| m_tid := tid th |> |>)
    (s <| threads ::= <[c := th <| msg := m |>]> |>) = Ret tt s1).
  { rewrite (upd_thread_Ret _ _ (th <| msg := m |>)) by apply lookup_insert_eq.
    rewrite threads_twice. reflexivity. }
  destruct (list_enqueue_spec sndq (links s) (rcvq_of r) (obj <$> q) (obj c)) as (L&EL&_).
  { apply HP. }
  { apply (snd_ring r (c :: q)). apply NoDup_cons. split; [apply HP|].
    pose proof (mb_list _ _ _ (pe_box _ _ _ _ _ _ _ _ HP)) as HD.
    apply dlist_ring, ring_NoDup, NoDup_cons in HD as [_ HD]. by apply NoDup_fmap_1 in HD. }
  { apply HP. }
  destruct (mailbox_push s1 qs c r q L HI1) as (HB2&HI2&Hdom);
    [destruct (pe_box _ _ _ _ _ _ _ _ HP); by split|apply HP..|exact EL|apply HP|].
  set (s2 := s1 <| links := L |>) in *.
  assert (Er2 : threads s2 !! r = Some rth) by (unfold s2, s1; fields; by rewrite lookup_insert_ne).
  assert (Hwake : ∃ s3, (if has (states rth) RECEIVE_BLOCKED then wakeup r else mret tt) s2 = Ret tt s3 ∧
    rq_inv s3 (wake_queue r rth qs) ∧ sched_frame s2 s3 ∧ threads s3 = <[r := wake_thread rth]> (threads s2)).
  { unfold wake_queue, wake_thread. destruct (has (states rth) RECEIVE_BLOCKED).
    - destruct (Hw eq_refl) as [[_ ?? ?] Hnq].
      apply (wakeup_ready s2 qs r rth HI2); [|done]. split; [done..| |done].
      unfold s2; fields. by rewrite <- elem_of_dom, Hdom, elem_of_dom.
    - exists s2. split_and!; [done..|]. by rewrite insert_id. }
  destruct Hwake as (s3&E3&HI3&HF3&T3).
  assert (Ec3 : threads s3 !! c = Some th1).
  { rewrite T3, lookup_insert_ne by done. apply lookup_insert_eq. }
  destruct (make_blocked_spec s3 _ SEND_BLOCKED c th1 HI3 Ec3) as (s4&E4&HI4&HF4&HA4).
  { unfold wake_queue. destruct (has (states rth) RECEIVE_BLOCKED); [apply queued_upd|]; apply HP. }
  { rewrite (sf_field init_thread _ _ (λ _, eq_refl) HF3), T3. unfold s2, s1; fields.
    apply lookup_insert_is_Some'. right. apply lookup_insert_is_Some'. right. apply HP. }
  exists s4. split_and!.
  - unfold send_message. run. rewrite Hc.
    run_with ltac:(eapply find_by_tid_hit; [exact HT|apply HP|exact Er|apply HP]).
    rewrite (proj2 (Z.eqb_neq r 0)) by (intros ->; by rewrite (th_null _ _ HT) in Er).
    run_with ltac:(apply upd_thread_Ret; exact Ec). run_with ltac:(exact E1). run_with ltac:(apply on_links_Ret; exact EL). fold s2.
    run_with ltac:(apply (transfer_short _ _ _ _ _ _ th1); [apply lookup_insert_eq|exact Hshort]).
    change (0 <? 0) with false. cbv iota. run. run_with ltac:(exact E3). by run_with ltac:(exact E4).
  - eapply mailbox_frame; [exact HF4|]. destruct (mailbox_frame _ _ _ _ HF3 HB2). by split.
  - done.
  - intros u. rewrite (HA4 u), T3. unfold s2, s1; fields. f_equal.
    destruct (decide (u = c)) as [->|]; [by rewrite !lookup_insert_eq|]. rewrite !(lookup_insert_ne _ c) by done.
    destruct (decide (u = r)) as [->|]; [by rewrite !lookup_insert_eq|]. by rewrite !(lookup_insert_ne _ r), (lookup_insert_ne _ c).
  - rewrite (sf_field thash _ _ (λ _, eq_refl) HF4). fields. by rewrite (sf_field thash _ _ (λ _, eq_refl) HF3).
  - rewrite (sf_dom _ _ HF4). fields. by rewrite (sf_dom _ _ HF3).
  - rewrite (sf_field init_thread _ _ (λ _, eq_refl) HF4). fields. by rewrite (sf_field init_thread _ _ (λ _, eq_refl) HF3).
Qed.

(** ** Receiving and replying *)
Lemma mailbox_pop s qs r q x :
  rq_inv s qs → mailbox s r (q ++ [x]) →
  ∃ L, list_dequeue sndq (rcvq_of r) (links s) = Some (obj x, L) ∧
    list_isempty (rcvq_of r) (links s) = Some false ∧ 0 < x ∧
    mailbox (s <| links := L |>) r q ∧ rq_inv (s <| links := L |>) qs ∧ dom L = dom (links s).
Proof.
  intros HI [[Hr Hq] HD]. rewrite fmap_app in HD.
  destruct (list_dequeue_spec sndq _ _ _ _ HD) as (L&E&HD'&Hdom&HF).
  exists L. split_and!; try done.
  - rewrite (list_isempty_spec sndq _ _ _ HD). f_equal. apply bool_decide_false. by destruct q.
  - apply Hq. set_solver.
  - split; [|done]. split; [done|]. intros t Ht. apply Hq. set_solver.
  - apply rq_inv_links; [..|done].
    + intros t. apply HF. by intros [[=]|(u&_&[=])]%mailbox_cells.
    + intros i. apply HF. unfold run_head, G_run.
      intros [[=]|(u&Hu&[=])]%mailbox_cells; [lia|]. assert (0 < u) by (apply Hq; set_solver). lia.
Qed.

Lemma receive_spec s qs r q x xth :
  rq_inv s qs → mailbox s r (q ++ [x]) → current s = r → threads s !! x = Some xth →
  has (m_flags (msg xth)) MSG_NOREPLY = false →
  ∃ s', receive_message s = Ret (Done (tid xth, Some (msg xth))) s' ∧
    mailbox s' r q ∧ rq_inv s' qs ∧ dom (links s') = dom (links s) ∧ thash s' = thash s ∧
    init_thread s' = init_thread s ∧ current s' = current s ∧
    threads s' = <[x := xth <| states := REPLY_BLOCKED |>]> (threads s).
Proof.
  intros HI HB Hc Ex Hf. destruct (mailbox_pop s qs r q x HI HB) as (L&EL&Ee&Hx&HB'&HI'&Hdom).
  eexists. split_and!.
  - unfold receive_message. run. rewrite Hc. run_with ltac:(apply ask_links_Ret; exact Ee).
    cbv iota. run_with ltac:(apply on_links'_Ret; exact EL). run_with ltac:(apply as_obj_Ret).
    rewrite (proj2 (Z.eqb_neq x 0)) by lia. run. rewrite Hf. by run.
  - destruct HB'. by split.
  - by eapply rq_inv_upd.
  - done.
  - done.
  - done.
  - done.
  - done.
Qed.

Lemma reply_spec s tb qs x xth m :
  thash_inv s tb → rq_inv s qs → hashed tb x → can_run s x xth → ¬ queued qs x →
  (∀ y thy, hashed tb y → threads s !! y = Some thy → tid thy = tid xth → y = x) →
  has (states xth) REPLY_BLOCKED = true →
  ∃ s', reply_message (tid xth) m s = Ret 0 s' ∧ rq_inv s' (requeue x (priority_stat xth) qs) ∧
    sched_frame s s' ∧ threads s' = <[x := awake (xth <| msg := m |>)]> (threads s).
Proof.
  intros HT HI Hx [Ex Hpos Hl Hp] Hnq Hu Hb.
  set (xth1 := xth <| msg := m |>). set (s1 := s <| threads ::= <[x := xth1]> |>).
  assert (HI1 : rq_inv s1 qs) by (by eapply rq_inv_upd).
  assert (E1 : threads s1 !! x = Some xth1) by apply lookup_insert_eq.
  destruct (wakeup_ready s1 qs x xth1 HI1) as (s2&E2&HI2&HF2&T2); [by split|done|].
  assert (EU : unmap_message (current s) x m s1 = Ret 0 s1).
  { unfold unmap_message. destruct (has (m_flags m) MSG_SHORT); [|done].
    run_with ltac:(apply upd_thread_Ret; exact E1). unfold s1. by rewrite threads_twice. }
  exists s2. split_and!; [|done|etrans; [|exact HF2]; by apply sched_frame_threads|].
  - unfold reply_message. run. run_with ltac:(by eapply find_by_tid_hit).
    rewrite (proj2 (Z.eqb_neq x 0)) by lia. run. rewrite Hb. cbn [negb].
    run_with ltac:(apply upd_thread_Ret; exact Ex). run_with ltac:(exact EU). by run_with ltac:(exact E2).
  - rewrite T2. unfold s1; fields. by rewrite insert_insert_eq.
Qed.

(** The table of threads does not see the changes of the message calls. *)
Lemma thash_inv_ext s s' tb :
  thash s' = thash s →
  (∀ u, (λ th, (t_next th, tid th)) <$> threads s' !! u = (λ th, (t_next th, tid th)) <$> threads s !! u) →
  thash_inv s tb → thash_inv s' tb.
Proof.
  intros HT HK HI. unfold thash_inv in *. rewrite HT. eapply tab_ext; [|exact HI].
  intros u. specialize (HK u). unfold tkey.
  destruct (threads s' !! u), (threads s !! u); try done. cbn in *. by injection HK as -> ->.
Qed.
Lemma alike_keep {A} (f : thread → A) T T' u :
  (∀ x, f (noflag x) = f x) → alike T T' → f <$> T' !! u = f <$> T !! u.
Proof.
  intros Hf HA. specialize (HA u). destruct (T' !! u), (T !! u); try done. cbn in *.
  f_equal. apply (noflag_eq f); [done|]. exact (inj Some _ _ HA).
Qed.

Lemma not_queued_unqueue t qs : ¬ queued (unqueue t qs) t.
Proof.
  intros (i&l&Hi&Ht). unfold unqueue in Hi. rewrite list_lookup_fmap in Hi.
  destruct (qs !! i); [|done]. cbn in Hi. injection Hi as <-. by apply list_elem_of_filter in Ht as [? _].
Qed.

(** What the send leaves of the identities of all threads. *)
Lemma send_keeps s tb qs c r th rth q m T' :
  peers s tb qs c r th rth q →
  alike (<[c := th <| msg := stamped m (tid th) |> <| states := SEND_BLOCKED |>]>
            (<[r := wake_thread rth]> (threads s))) T' →
  ∀ u, (λ th, (t_next th, tid th)) <$> T' !! u = (λ th, (t_next th, tid th)) <$> threads s !! u.
Proof.
  intros HP HA u.
  rewrite (alike_keep (λ th, (t_next th, tid th)) _ _ u (λ _, eq_refl) HA).
  destruct (decide (u = c)) as [->|]; [by rewrite lookup_insert_eq, (pe_sender _ _ _ _ _ _ _ _ HP)|].
  rewrite lookup_insert_ne by done.
  destruct (decide (u = r)) as [->|]; [|by rewrite lookup_insert_ne].
  rewrite lookup_insert_eq, (pe_receiver _ _ _ _ _ _ _ _ HP). unfold wake_thread. by destruct (has _ _).
Qed.

(** ** Properties of message passing *)

(** C29. The round trip of a short message: the receiver gets the message of
    the sender, stamped with the sender's id, and the id to answer to; the
    reply to that id makes the sender runnable again, and its [send_message]
    returns the reply and its first word.  Between the calls the scheduler
    makes the receiver and then the sender current. *)
Theorem ipc_round_trip n fuel junk s tb qs c r th rth m m' :
  peers s tb qs c r th rth [] → current s = c →
  has (m_flags m) MSG_SHORT = true → has (m_flags m) MSG_NOREPLY = false →
  (has (states rth) RECEIVE_BLOCKED = true → can_run s r rth ∧ ¬ queued qs r) →
  can_run s c th → hashed tb c →
  (∀ y thy, hashed tb y → threads s !! y = Some thy → tid thy = tid th → y = c) →
  ∃ s1 s2 s3, send_message n fuel junk (tid rth) m s = Ret Blocked s1 ∧
    receive_message (s1 <| current := r |>) = Ret (Done (tid th, Some (stamped m (tid th)))) s2 ∧
    reply_message (tid th) m' s2 = Ret 0 s3 ∧
    rq_inv s3 (requeue c (priority_stat th) (unqueue c (wake_queue r rth qs))) ∧ mailbox s3 r [] ∧
    send_return (s3 <| current := c |>) = Ret (m', s32 (w1 m')) (s3 <| current := c |>).
Proof.
  intros HP Hc Hs Hn Hw Hcr Hh Hu.
  destruct (send_spec n fuel junk s tb qs c r th rth [] m HP Hc Hs Hw)
    as (s1&E1&HB1&HI1&HA1&HH1&HD1&Hin1).
  destruct (alike_lookup _ _ c _ HA1 (lookup_insert_eq _ _ _)) as (th1&Ec1&Hf1).
  assert (Hmsg : msg th1 = stamped m (tid th)) by (by apply (noflag_eq msg _ _ (λ _, eq_refl)) in Hf1).
  assert (Htid : tid th1 = tid th) by (by apply (noflag_eq tid _ _ (λ _, eq_refl)) in Hf1).
  assert (Hps : priority_stat th1 = priority_stat th) by
    (by apply (noflag_eq priority_stat _ _ (λ _, eq_refl)) in Hf1).
  destruct (receive_spec (s1 <| current := r |>) _ r [] c th1 (rq_inv_current _ _ r HI1))
    as (s2&E2&HB2&HI2&HD2&HH2&_&_&T2); [destruct HB1; by split|done|done|by rewrite Hmsg|].
  set (th2 := th1 <| states := REPLY_BLOCKED |>) in *.
  assert (HK : ∀ u, (λ th, (t_next th, tid th)) <$> threads s2 !! u =
    (λ th, (t_next th, tid th)) <$> threads s !! u).
  { intros u. rewrite T2. fields. destruct (decide (u = c)) as [->|Hne].
    - rewrite lookup_insert_eq, <- (send_keeps _ _ _ _ _ _ _ _ _ _ HP HA1), Ec1. done.
    - rewrite lookup_insert_ne by done. by rewrite <- (send_keeps _ _ _ _ _ _ _ _ _ _ HP HA1). }
  assert (Ec2 : threads s2 !! c = Some th2) by (rewrite T2; apply lookup_insert_eq).
  destruct (reply_spec s2 tb _ c th2 m' ltac:(eapply thash_inv_ext; [|exact HK|apply HP]; by rewrite HH2)
    HI2 Hh) as (s3&E3&HI3&HF3&T3).
  { split; [done|apply Hcr|..].
    - rewrite <- elem_of_dom, HD2. fields. rewrite HD1, elem_of_dom. apply Hcr.
    - change (priority_stat th2) with (priority_stat th1). rewrite Hps. apply Hcr. }
  { apply not_queued_unqueue. }
  { intros y thy Hy Ey Ht. specialize (HK y). rewrite Ey in HK. destruct (threads s !! y) as [thy0|] eqn:Ey0; [|done].
    apply (Hu y thy0 Hy Ey0). cbn in HK. injection HK as _ HK. change (tid th2) with (tid th1) in Ht. congruence. }
  { done. }
  change (tid th2) with (tid th1) in E3. change (priority_stat th2) with (priority_stat th1) in HI3.
  rewrite Hmsg, Htid in *. rewrite Hps in HI3.
  exists s1, s2, s3. split_and!; [done..| |].
  - by eapply mailbox_frame.
  - unfold send_return. run. run_with ltac:(apply get_thread_Ret; fields; rewrite T3; apply lookup_insert_eq). done.
Qed.

(** [receive_message] takes the oldest waiting message, answers with the id
    of its sender and blocks the sender until the reply; the other messages stay
    in order.  With no message waiting the receiver leaves the run queues and
    is blocked. *)
Theorem receive_oldest_or_blocks s qs r l :
  rq_inv s qs → mailbox s r l → current s = r →
  (∀ q x xth, l = q ++ [x] → threads s !! x = Some xth → has (m_flags (msg xth)) MSG_NOREPLY = false →
   ∃ s', receive_message s = Ret (Done (tid xth, Some (msg xth))) s' ∧ mailbox s' r q ∧ rq_inv s' qs ∧
     threads s' = <[x := xth <| states := REPLY_BLOCKED |>]> (threads s)) ∧
  (∀ rth, l = [] → threads s !! r = Some rth → queued qs r → is_Some (threads s !! init_thread s) →
   ∃ s' rth', receive_message s = Ret Blocked s' ∧ mailbox s' r [] ∧ rq_inv s' (unqueue r qs) ∧
     threads s' !! r = Some rth' ∧ states rth' = RECEIVE_BLOCKED).
Proof.
  intros HI HB Hc. split.
  - intros q x xth -> Ex Hf. destruct (receive_spec s qs r q x xth HI HB Hc Ex Hf) as (s'&?&?&?&_&_&_&_&?). eauto.
  - intros rth -> Er Hq Hinit.
    destruct (make_blocked_spec s qs RECEIVE_BLOCKED r rth HI Er Hq Hinit) as (s'&E&HI'&HF&HA).
    destruct (alike_lookup _ _ r _ HA (lookup_insert_eq _ _ _)) as (rth'&Er'&Hf).
    exists s', rth'. split_and!; [| |done|done|by apply (noflag_eq states _ _ (λ _, eq_refl)) in Hf].
    + unfold receive_message. run. rewrite Hc.
      run_with ltac:(apply ask_links_Ret; rewrite (list_isempty_spec sndq _ _ _ (mb_list _ _ _ HB)); reflexivity).
      cbn. by run_with ltac:(exact E).
    + eapply mailbox_frame; [exact HF|]. destruct HB. by split.
Qed.

(** A message to a thread that waits for the reply to its own message
    makes that thread ready: the test [states & RECEIVE_BLOCKED] shares the bits
    of [THREAD_UNINT] with every other blocked state.  When the thread runs, its
    [send_message] returns its own message as the reply. *)
Theorem send_wakes_reply_blocked n fuel junk s tb qs c r th rth q m :
  peers s tb qs c r th rth q → current s = c → has (m_flags m) MSG_SHORT = true →
  states rth = REPLY_BLOCKED ∨ states rth = SEND_BLOCKED → can_run s r rth → ¬ queued qs r →
  ∃ s', send_message n fuel junk (tid rth) m s = Ret Blocked s' ∧
    rq_inv s' (unqueue c (requeue r (priority_stat rth) qs)) ∧
    states <$> threads s' !! r = Some THREAD_READY ∧
    send_return (s' <| current := r |>) = Ret (msg rth, s32 (w1 (msg rth))) (s' <| current := r |>).
Proof.
  intros HP Hc Hs Hst Hcr Hnq.
  assert (Hb : has (states rth) RECEIVE_BLOCKED = true) by (by destruct Hst as [-> | ->]).
  destruct (send_spec n fuel junk s tb qs c r th rth q m HP Hc Hs) as (s'&E&_&HI&HA&_); [done|].
  unfold wake_queue in HI. unfold wake_thread in HA. rewrite Hb in HI, HA.
  assert (Er : <[c := th <| msg := stamped m (tid th) |> <| states := SEND_BLOCKED |>]>
    (<[r := awake rth]> (threads s)) !! r = Some (awake rth)).
  { rewrite lookup_insert_ne by (apply not_eq_sym, HP). apply lookup_insert_eq. }
  destruct (alike_lookup _ _ r _ HA Er) as (rth'&Er'&Hf).
  exists s'. split_and!; [done..| |].
  - rewrite Er'. cbn. f_equal. by apply (noflag_eq states _ _ (λ _, eq_refl)) in Hf.
  - unfold send_return. run. run_with ltac:(apply get_thread_Ret; exact Er').
    by rewrite (noflag_eq msg _ _ (λ _, eq_refl) Hf).
Qed.

(** ** Instances of the theorems *)

(** Thread 14000 waits for a message, thread 13000 runs. *)
Definition demo_ipc : kstate :=
  after (modify (λ s, s <| current := 14000 |>);; receive_message;; modify (λ s, s <| current := 13000 |>)) demo_threads.
Definition demo_ipc_qs : list (list Z) := replicate 10 [] ++ [[13000; 12000]] ++ replicate 21 [].
Definition ipc_th (x : Z) : thread := default thread0 (threads demo_ipc !! x).

Lemma demo_ipc_hash : thash_inv demo_ipc demo_tb.
Proof. apply thash_inv_ok. evaluate. Qed.
Lemma demo_ipc_unique s id x :
  map_Forall (λ _, Forall (λ y, tid_is s (λ i, i = id → y = x) y)) demo_tb →
  ∀ y thy, hashed demo_tb y → threads s !! y = Some thy → tid thy = id → y = x.
Proof.
  intros HF y thy Hy E Ht. pose proof (hashed_forall _ _ HF y Hy) as H. cbv beta in H.
  unfold tid_is in H. rewrite E in H. auto.
Qed.
#[global] Instance mailbox_dec s r q : Decision (mailbox s r q).
Proof.
  refine (cast_if (decide ((0 < r ∧ Forall (λ t, 0 < t) q) ∧ dlist sndq (links s) (rcvq_of r) (obj <$> q)))).
  - destruct a as [[? HF] ?]. split; [|done]. split; [done|]. by apply Forall_forall.
  - intros [[? HF] ?]. apply n. split; [|done]. split; [done|]. by apply Forall_forall.
Defined.

Lemma demo_peers : peers demo_ipc demo_tb demo_ipc_qs 13000 14000 (ipc_th 13000) (ipc_th 14000) [].
Proof.
  split.
  - apply demo_ipc_hash.
  - evaluate.
  - vm_compute. reflexivity.
  - done.
  - evaluate.
  - vm_compute. eexists. reflexivity.
  - vm_compute. reflexivity.
  - done.
  - exists (hash_fn 502). evaluate.
  - apply demo_ipc_unique. evaluate.
  - evaluate.
  - apply not_elem_of_nil.
  - vm_compute. eexists. reflexivity.
Qed.
Lemma demo_can_run x : 
  threads demo_ipc !! x = Some (ipc_th x) → 0 < x → is_Some (links demo_ipc !! runq (obj x)) →
  0 <= PRIOQ (priority_stat (ipc_th x)) < 32 → can_run demo_ipc x (ipc_th x).
Proof. by split. Qed.

Definition demo_msg : message := mk_message 3 4 5 0 0 2 1 0 MSG_SHORT.

Lemma ipc_round_trip_witness :
  ∃ s1 s2 s3, send_message 0 0 (entry0 0 0) 502 demo_msg demo_ipc = Ret Blocked s1 ∧
    receive_message (s1 <| current := 14000 |>) = Ret (Done (501, Some (stamped demo_msg 501))) s2 ∧
    reply_message 501 (demo_msg <| w1 := 7 |>) s2 = Ret 0 s3 ∧
    send_return (s3 <| current := 13000 |>) = Ret (demo_msg <| w1 := 7 |>, 7) (s3 <| current := 13000 |>).
Proof.
  destruct (ipc_round_trip 0 0 (entry0 0 0) demo_ipc demo_tb demo_ipc_qs 13000 14000 (ipc_th 13000) (ipc_th 14000)
    demo_msg (demo_msg <| w1 := 7 |>) demo_peers) as (s1&s2&s3&H1&H2&H3&_&_&H4).
  - vm_compute. reflexivity.
  - vm_compute. reflexivity.
  - vm_compute. reflexivity.
  - intros _. split; [|evaluate]. apply demo_can_run; [vm_compute; reflexivity|done|vm_compute; eexists; reflexivity|vm_compute; intuition congruence].
  - apply demo_can_run; [vm_compute; reflexivity|done|vm_compute; eexists; reflexivity|vm_compute; intuition congruence].
  - exists (hash_fn 501). evaluate.
  - apply demo_ipc_unique. evaluate.
  - exact (ex_intro _ s1 (ex_intro _ s2 (ex_intro _ s3 (conj H1 (conj H2 (conj H3 H4)))))).
Defined.

Lemma receive_oldest_or_blocks_witness :
  ∃ s' rth', receive_message demo_ipc = Ret Blocked s' ∧ mailbox s' 13000 [] ∧
    threads s' !! 13000 = Some rth' ∧ states rth' = RECEIVE_BLOCKED.
Proof.
  destruct (receive_oldest_or_blocks demo_ipc demo_ipc_qs 13000 []) as [_ H]; [evaluate|evaluate|vm_compute; reflexivity|].
  destruct (H (ipc_th 13000)) as (s'&rth'&H1&H2&_&H3&H4);
    [reflexivity|vm_compute; reflexivity|evaluate|vm_compute; eexists; reflexivity|].
  exact (ex_intro _ s' (ex_intro _ rth' (conj H1 (conj H2 (conj H3 H4))))).
Defined.

(** Thread 14000 waits for a reply to its message. *)
Definition waiting_th : thread := (ipc_th 14000) <| states := REPLY_BLOCKED |> <| msg := demo_msg |>.
Definition demo_waits : kstate := demo_ipc <| threads ::= <[14000 := waiting_th]> |>.

Lemma demo_waits_peers : peers demo_waits demo_tb demo_ipc_qs 13000 14000 (ipc_th 13000) waiting_th [].
Proof.
  split.
  - apply thash_inv_ok. evaluate.
  - evaluate.
  - vm_compute. reflexivity.
  - done.
  - evaluate.
  - vm_compute. eexists. reflexivity.
  - vm_compute. reflexivity.
  - done.
  - exists (hash_fn 502). evaluate.
  - apply demo_ipc_unique. evaluate.
  - evaluate.
  - apply not_elem_of_nil.
  - vm_compute. eexists. reflexivity.
Qed.

(** The answer thread 14000 gets is the message it sent. *)
Lemma send_wakes_reply_blocked_witness :
  ∃ s', send_message 0 0 (entry0 0 0) 502 (demo_msg <| w1 := 9 |>) demo_waits = Ret Blocked s' ∧
    states <$> threads s' !! 14000 = Some THREAD_READY ∧
    send_return (s' <| current := 14000 |>) = Ret (demo_msg, 1) (s' <| current := 14000 |>).
Proof.
  destruct (send_wakes_reply_blocked 0 0 (entry0 0 0) demo_waits demo_tb demo_ipc_qs 13000 14000 (ipc_th 13000)
    waiting_th [] (demo_msg <| w1 := 9 |>) demo_waits_peers) as (s'&H1&_&H2&H3).
  - vm_compute. reflexivity.
  - vm_compute. reflexivity.
  - left. reflexivity.
  - split; [vm_compute; reflexivity|done|vm_compute; eexists; reflexivity|vm_compute; intuition congruence].
  - evaluate.
  - exact (ex_intro _ s' (conj H1 (conj H2 H3))).
Defined.
