(* ===== verification/Pool.v ===== *)
(** * The pool of threads of a server

    Models soft/libc/kernel/svrpool.c, through which the servers receive their
    messages, with the loop of a worker ([fs_worker] of servers/fs-io/main.c,
    [tty_worker] of servers/console/tty.c).  The dispatcher reserves a slot of the
    pool in a bitmap, receives a message into it and signals the thread of the
    slot, which handles the message and clears the bit.

    The routines are functions on the pool; the threads of a server are a step
    relation between their calls that block ([receive_message], [sigwait]).  The
    theorem: in every state that can be reached each message that was accepted is
    handled once or still in its slot, and never overwritten. *)

From S2P Require Import Prelude Bits KState.

(** ** Data: svrpool.h *)
Definition POOL_INIT : Z := 0.
Definition POOL_BUSY : Z := 2.
Record poolstruct := mk_poolstruct { pl_flag : Z; owner_id : Z; request : Z; pl_msg : message }.
#[global] Instance eta_poolstruct : Settable poolstruct := λ x, mk_poolstruct (pl_flag x) (owner_id x) (request x) (pl_msg x).
Record thrpool := mk_thrpool { pl_pool : list poolstruct; pool_bitmap : Z }.
#[global] Instance eta_thrpool : Settable thrpool := λ x, mk_thrpool (pl_pool x) (pool_bitmap x).
Abbreviation T := (M thrpool).

(** ** Operations *)
(** The threads are those [pthread_create] answers, in order; [msg0] is cleared memory. *)
Definition pool_init (owners : list Z) : T Z :=
  modify (λ s, s <| pl_pool := (λ t, mk_poolstruct POOL_INIT t 0 msg0) <$> owners |>);; mret 0.
(** A turn of [msg_loop] up to [receive_message]: the slot, or [None] when the alternative worker is called.
    The pool has as many slots as threads, whatever the width of the bitmap. *)
Definition reserve (junk : Z) : T (option Z) :=
  bm ← gets pool_bitmap;
  let bitpos := if bm =? 0 then 0 else ffc junk bm in
  if (bitpos <? 0) || (31 <? bitpos) then mret None
  else
    bm' ← must (set_bit bm bitpos);
    modify (λ s, s <| pool_bitmap := bm' |>);;
    p ← gets pl_pool;
    must (p !! Z.to_nat bitpos);;
    mret (Some bitpos).
(** The rest of the turn, with the message that was received: the thread to signal and its signal. *)
Definition deliver_to (bitpos : Z) (m : message) : T Z :=
  p ← gets pl_pool;
  thr ← must (p !! Z.to_nat bitpos);
  modify (λ s, s <| pl_pool ::= <[Z.to_nat bitpos := thr <| pl_msg := m |> <| pl_flag ::= λ f, Z.lor f POOL_BUSY |> <| request := w1 m |>]> |>);;
  mret (owner_id thr).
(** What the worker of slot [off] does after [sigwait]: the number of the handler and its message. *)
Definition worker_take (off : nat) : T (Z * message) :=
  p ← gets pl_pool; thr ← must (p !! off); mret (request thr, pl_msg thr).
(** [clear_bit(&thrpool.pool_bitmap, off)] *)
Definition worker_done (off : nat) : T unit :=
  bm ← gets pool_bitmap; bm' ← must (clear_bit bm (Z.of_nat off)); modify (λ s, s <| pool_bitmap := bm' |>).

(** ** The threads of a server *)
(** A worker: has its signal been sent, and the message it is handling. *)
Record wthread := mk_wthread { w_signal : bool; w_run : option message }.
(** [pc] is the slot the dispatcher is receiving into. *)
Record server := mk_server {
  sv_pool : thrpool; sv_pc : option Z; sv_workers : list wthread; accepted : list message; handled : list message }.
Inductive step (junk : Z) : server → server → Prop :=
| step_reserve tp tp' b ws a h :
    reserve junk tp = Ret (Some b) tp' → step junk (mk_server tp None ws a h) (mk_server tp' (Some b) ws a h)
| step_full tp tp' ws a h :
    reserve junk tp = Ret None tp' → step junk (mk_server tp None ws a h) (mk_server tp' None ws a h)
| step_message tp tp' b m t ws w a h :
    deliver_to b m tp = Ret t tp' → ws !! Z.to_nat b = Some w →
    step junk (mk_server tp (Some b) ws a h)
      (mk_server tp' None (<[Z.to_nat b := mk_wthread true (w_run w)]> ws) (a ++ [m]) h)
| step_start tp tp' pc i r m ws a h :
    ws !! i = Some (mk_wthread true None) → worker_take i tp = Ret (r, m) tp' →
    step junk (mk_server tp pc ws a h) (mk_server tp' pc (<[i := mk_wthread false (Some m)]> ws) a h)
| step_finish tp tp' pc i s m ws a h :
    ws !! i = Some (mk_wthread s (Some m)) → worker_done i tp = Ret tt tp' →
    step junk (mk_server tp pc ws a h) (mk_server tp' pc (<[i := mk_wthread s None]> ws) a (h ++ [m])).
(** A server that has just started its threads. *)
Definition started (owners : list Z) : server :=
  mk_server (mk_thrpool ((λ t, mk_poolstruct POOL_INIT t 0 msg0) <$> owners) 0) None
    (replicate (length owners) (mk_wthread false None)) [] [].

(** ** The slots and the bitmap *)
Definition busy (w : wthread) : bool := w_signal w || bool_decide (is_Some (w_run w)).
(** The message a worker has not finished. *)
Definition unfinished (p : list poolstruct) (i : nat) (w : wthread) : list message :=
  match w_run w with
  | Some m => [m]
  | None => if w_signal w then match p !! i with Some t => [pl_msg t] | None => [] end else []
  end.
Definition in_slots (p : list poolstruct) (ws : list wthread) : list message := mjoin (imap (unfinished p) ws).
Record server_inv (s : server) : Prop := {
  si_len : length (sv_workers s) = length (pl_pool (sv_pool s)) ∧ (length (sv_workers s) < 32)%nat;
  si_range : 0 <= pool_bitmap (sv_pool s) < 2 ^ 32;
  si_bits : ∀ i w, sv_workers s !! i = Some w →
    Z.testbit (pool_bitmap (sv_pool s)) (Z.of_nat i) = busy w || bool_decide (sv_pc s = Some (Z.of_nat i));
  si_above : ∀ i, (length (sv_workers s) <= i)%nat → Z.testbit (pool_bitmap (sv_pool s)) (Z.of_nat i) = false;
  si_pc : ∀ b, sv_pc s = Some b → 0 <= b ∧ sv_workers s !! Z.to_nat b = Some (mk_wthread false None);
  si_once : ∀ i w, sv_workers s !! i = Some w → ¬ (w_signal w = true ∧ is_Some (w_run w));
  si_messages : accepted s ≡ₚ handled s ++ in_slots (pl_pool (sv_pool s)) (sv_workers s) }.

Lemma imap_split {A} (ws : list A) w w' : ∀ (f g : nat → A → list message) i,
  ws !! i = Some w → (∀ k x, k ≠ i → g k x = f k x) →
  ∃ rest, mjoin (imap f ws) ≡ₚ f i w ++ rest ∧ mjoin (imap g (<[i := w']> ws)) ≡ₚ g i w' ++ rest.
Proof.
  induction ws as [|x ws IH]; intros f g i Hi HE; [done|]. destruct i as [|i]; cbn in Hi.
  - change (<[0%nat := w']> (x :: ws)) with (w' :: ws). rewrite !imap_cons. cbn [mjoin list_join]. simplify_eq. exists (mjoin (imap (f ∘ S) ws)). split; [done|]. f_equiv. erewrite imap_ext; [reflexivity|]. intros k y _. by apply HE.
  - change (<[S i := w']> (x :: ws)) with (x :: <[i := w']> ws). rewrite !imap_cons. cbn [mjoin list_join].
    destruct (IH (f ∘ S) (g ∘ S) i Hi) as (rest&H1&H2); [intros k y Hk; apply HE; lia|].
    exists (f 0%nat x ++ rest). rewrite H1, H2, (HE 0%nat x) by lia. cbn. split; solve_Permutation.
Qed.
Lemma in_slots_split p p' ws i w w' : ws !! i = Some w → (∀ k, k ≠ i → p' !! k = p !! k) →
  ∃ rest, in_slots p ws ≡ₚ unfinished p i w ++ rest ∧ in_slots p' (<[i := w']> ws) ≡ₚ unfinished p' i w' ++ rest.
Proof.
  intros Hi HE. apply imap_split; [done|]. intros k x Hk. unfold unfinished. by rewrite HE.
Qed.

(** Rewriting with a field of the invariant of an explicit server. *)
Ltac known_bit H := let X := fresh in pose proof H as X; cbn in X; rewrite X; clear X.

Section Invariant.
Variable junk : Z.

(** [reserve] takes the lowest clear bit. *)
Lemma reserve_bit tp : 0 <= pool_bitmap tp < 2 ^ 32 → pool_bitmap tp ≠ 2 ^ 32 - 1 →
  ∃ b, 0 <= b < 32 ∧ Z.testbit (pool_bitmap tp) b = false ∧ (∀ k, 0 <= k < b → Z.testbit (pool_bitmap tp) k = true) ∧
    reserve junk tp = match pl_pool tp !! Z.to_nat b with
      | Some _ => Ret (Some b) (tp <| pool_bitmap := Z.setbit (pool_bitmap tp) b |>) | None => Fault end.
Proof.
  intros HR Hne. set (b := if pool_bitmap tp =? 0 then 0 else ffc junk (pool_bitmap tp)).
  assert (HF : 0 <= b < 32 ∧ Z.testbit (pool_bitmap tp) b = false ∧ ∀ k, 0 <= k < b → Z.testbit (pool_bitmap tp) k = true).
  { unfold b. destruct (Z.eqb_spec (pool_bitmap tp) 0) as [->|]; [split_and!; [lia..|done|lia]|by apply ffc_spec]. }
  destruct HF as (Hb&Ht&Hk). exists b. split_and!; [lia..|done|done|]. unfold reserve.
  rewrite (bind_Ret _ _ _ _ _ (gets_Ret _ _)). cbv zeta. fold b.
  rewrite (proj2 (Z.ltb_ge b 0)), (proj2 (Z.ltb_ge 31 b)) by lia. cbn [orb]. unfold set_bit. rewrite bool_decide_true by lia.
  unfold mbind, M_bind, must, modify, gets, mret, M_ret. cbn. by destruct (pl_pool tp !! Z.to_nat b).
Qed.
Lemma inv_not_full s : server_inv s → pool_bitmap (sv_pool s) ≠ 2 ^ 32 - 1.
Proof.
  intros HI E. pose proof (si_above _ HI 31) as H. rewrite E in H. destruct (si_len _ HI).
  specialize (H ltac:(lia)). vm_compute in H. done.
Qed.
Lemma inv_reserve tp r tp' ws a h :
  server_inv (mk_server tp None ws a h) → reserve junk tp = Ret r tp' → server_inv (mk_server tp' r ws a h) ∧ r ≠ None.
Proof.
  intros HI E. pose proof (si_range _ HI) as HR. cbn in HR. destruct (reserve_bit tp HR (inv_not_full _ HI)) as (b&Hb&Ht&_&E').
  rewrite E' in E. destruct (pl_pool tp !! Z.to_nat b) as [t|] eqn:Et; [|done]. injection E as <- <-. split; [|done].
  destruct (si_len _ HI) as [Hl Hl2]. cbn in Hl, Hl2.
  assert (is_Some (ws !! Z.to_nat b)) as [w Ew] by (apply lookup_lt_is_Some; rewrite Hl; by eapply lookup_lt_Some).
  pose proof (si_bits _ HI _ _ Ew) as Hbit. cbn in Hbit. rewrite Z2Nat.id, Ht in Hbit by lia. rewrite bool_decide_false, orb_false_r in Hbit by done.
  split; cbn.
  - done.
  - by apply setbit_range.
  - intros i v Ev. rewrite setbit_testbit by lia. pose proof (si_bits _ HI _ _ Ev) as Hv. cbn in Hv. rewrite bool_decide_false, orb_false_r in Hv by done.
    rewrite Hv. repeat case_bool_decide; cbn; rewrite ?orb_true_r, ?orb_false_r; try done; exfalso; naive_solver lia.
  - intros i Hi. rewrite setbit_testbit by lia. rewrite (si_above _ HI) by done.
    apply lookup_lt_Some in Ew. case_bool_decide; [lia|done].
  - intros b' [= <-]. split; [lia|]. rewrite Ew. destruct w as [[] [m|]]; done.
  - apply HI.
  - apply (si_messages _ HI).
Qed.
Lemma inv_message tp tp' b m t ws w a h :
  server_inv (mk_server tp (Some b) ws a h) → deliver_to b m tp = Ret t tp' → ws !! Z.to_nat b = Some w →
  server_inv (mk_server tp' None (<[Z.to_nat b := mk_wthread true (w_run w)]> ws) (a ++ [m]) h).
Proof.
  intros HI E Ew. destruct (si_pc _ HI b eq_refl) as [Hb Hidle]. cbn in Hidle. rewrite Ew in Hidle. injection Hidle as ->. cbn [w_run].
  unfold deliver_to in E. apply bind_Ret_inv in E as (p&s1&[= <- <-]&E). apply bind_Ret_inv in E as (th&s2&E1&E).
  destruct (pl_pool tp !! Z.to_nat b) as [th'|] eqn:Et; [|done]. injection E1 as <- <-.
  apply bind_Ret_inv in E as ([]&s3&[= <-]&[= <- <-]). set (th1 := th' <| pl_msg := m |> <| pl_flag ::= _ |> <| request := _ |>).
  destruct (si_len _ HI) as [Hl Hl2]. cbn in Hl, Hl2.
  pose proof (lookup_lt_Some _ _ _ Ew) as Hlt. split; cbn.
  - rewrite !length_insert. done.
  - apply (si_range _ HI).
  - intros i v Ev. rewrite bool_decide_false, orb_false_r by done. apply list_lookup_insert_Some in Ev as [(<-&<-&_)|(Hne&Ev)].
    + known_bit (si_bits _ HI _ _ Ew). cbn. rewrite Z2Nat.id by lia. by rewrite bool_decide_true.
    + known_bit (si_bits _ HI _ _ Ev). cbn. rewrite bool_decide_false, orb_false_r; [done|]. intros [= ->]. lia.
  - intros i Hi. rewrite length_insert in Hi. by apply (si_above _ HI).
  - done.
  - intros i v Ev. apply list_lookup_insert_Some in Ev as [(<-&<-&_)|(Hne&Ev)]; [|by apply (si_once _ HI i)]. cbn. intros [_ [? ?]]. done.
  - destruct (in_slots_split (pl_pool tp) (<[Z.to_nat b := th1]> (pl_pool tp)) ws (Z.to_nat b) (mk_wthread false None) (mk_wthread true None) Ew)
      as (rest&H1&H2). { intros k Hk. by apply list_lookup_insert_ne. }
    rewrite H2. pose proof (si_messages _ HI) as HMs. cbn in HMs. rewrite HMs, H1. unfold unfinished. cbn.
    rewrite list_lookup_insert_eq by lia. cbn. solve_Permutation.
Qed.
Lemma pool_inv_start tp tp' pc i r m ws a h :
  server_inv (mk_server tp pc ws a h) → ws !! i = Some (mk_wthread true None) → worker_take i tp = Ret (r, m) tp' →
  server_inv (mk_server tp' pc (<[i := mk_wthread false (Some m)]> ws) a h).
Proof.
  intros HI Ew E. unfold worker_take in E. apply bind_Ret_inv in E as (p&s1&[= <- <-]&E). apply bind_Ret_inv in E as (th&s2&E1&E).
  destruct (pl_pool tp !! i) as [th'|] eqn:Et; [|done]. injection E1 as <- <-. injection E as <- <- <-.
  assert (Hpc : pc ≠ Some (Z.of_nat i)).
  { intros ->. destruct (si_pc _ HI _ eq_refl) as [_ H]. cbn in H. rewrite Nat2Z.id, Ew in H. done. }
  pose proof (lookup_lt_Some _ _ _ Ew) as Hlt. split; cbn.
  - rewrite length_insert. apply (si_len _ HI).
  - apply (si_range _ HI).
  - intros k v Ev. apply list_lookup_insert_Some in Ev as [(<-&<-&_)|(Hne&Ev)]; [known_bit (si_bits _ HI _ _ Ew); done|by apply (si_bits _ HI)].
  - intros k Hk. rewrite length_insert in Hk. by apply (si_above _ HI).
  - intros b Eb. destruct (si_pc _ HI b Eb) as [Hb H]. split; [done|]. rewrite list_lookup_insert_ne; [done|]. intros ->.
    apply Hpc. cbn in Eb. rewrite Eb. f_equal. lia.
  - intros k v Ev. apply list_lookup_insert_Some in Ev as [(<-&<-&_)|(Hne&Ev)]; [by intros [? _]|by apply (si_once _ HI k)].
  - destruct (in_slots_split (pl_pool tp) (pl_pool tp) ws i (mk_wthread true None) (mk_wthread false (Some (pl_msg th'))) Ew) as (rest&H1&H2); [done|].
    rewrite H2. pose proof (si_messages _ HI) as HMs. cbn in HMs. rewrite HMs, H1. unfold unfinished. cbn. by rewrite Et.
Qed.
Lemma inv_finish tp tp' pc i sg m ws a h :
  server_inv (mk_server tp pc ws a h) → ws !! i = Some (mk_wthread sg (Some m)) → worker_done i tp = Ret tt tp' →
  server_inv (mk_server tp' pc (<[i := mk_wthread sg None]> ws) a (h ++ [m])).
Proof.
  intros HI Ew E. unfold worker_done in E. apply bind_Ret_inv in E as (p&s1&[= <- <-]&E). apply bind_Ret_inv in E as (bm&s2&E1&[= <-]).
  destruct (si_len _ HI) as [Hl Hl2]. cbn in Hl, Hl2. pose proof (lookup_lt_Some _ _ _ Ew) as Hlt.
  unfold clear_bit in E1. rewrite bool_decide_true in E1 by lia. injection E1 as <- <-.
  assert (sg = false) as -> by (destruct sg; [destruct (si_once _ HI _ _ Ew); split; eauto|done]).
  assert (Hpc : pc ≠ Some (Z.of_nat i)).
  { intros ->. destruct (si_pc _ HI _ eq_refl) as [_ H]. cbn in H. rewrite Nat2Z.id, Ew in H. done. }
  split; cbn.
  - rewrite length_insert. done.
  - apply clearbit_range; [lia|apply (si_range _ HI)].
  - intros k v Ev. rewrite clearbit_testbit by lia. apply list_lookup_insert_Some in Ev as [(<-&<-&_)|(Hne&Ev)].
    + rewrite bool_decide_false by tauto. rewrite andb_false_r. cbn. by rewrite bool_decide_false.
    + rewrite bool_decide_true, andb_true_r by lia. by apply (si_bits _ HI).
  - intros k Hk. rewrite length_insert in Hk. rewrite clearbit_testbit by lia. known_bit (si_above _ HI k Hk); done.
  - intros b Eb. destruct (si_pc _ HI b Eb) as [Hb H]. split; [done|]. rewrite list_lookup_insert_ne; [done|]. intros ->.
    apply Hpc. cbn in Eb. rewrite Eb. f_equal. lia.
  - intros k v Ev. apply list_lookup_insert_Some in Ev as [(<-&<-&_)|(Hne&Ev)]; [by intros [? _]|by apply (si_once _ HI k)].
  - destruct (in_slots_split (pl_pool tp) (pl_pool tp) ws i (mk_wthread false (Some m)) (mk_wthread false None) Ew) as (rest&H1&H2); [done|].
    rewrite H2. pose proof (si_messages _ HI) as HMs. cbn in HMs. rewrite HMs, H1. unfold unfinished. cbn. by rewrite <- app_assoc.
Qed.

Lemma inv_step s s' : server_inv s → step junk s s' → server_inv s'.
Proof.
  intros HI HS. revert HI.
  destruct HS as [tp tp' b ws a h E|tp tp' ws a h E|tp tp' b m t ws w a h E Ew|tp tp' pc i r m ws a h Ew E|tp tp' pc i sg m ws a h Ew E]; intros HI.
  - exact (proj1 (inv_reserve _ _ _ _ _ _ HI E)).
  - exact (proj1 (inv_reserve _ _ _ _ _ _ HI E)).
  - by eapply inv_message.
  - by eapply pool_inv_start.
  - by eapply inv_finish.
Qed.
Lemma inv_started owners : (length owners < 32)%nat → server_inv (started owners).
Proof.
  intros Hn. split; cbn.
  - rewrite length_replicate, length_fmap. done.
  - lia.
  - intros i w Ew. apply lookup_replicate in Ew as [-> _]. by rewrite Z.testbit_0_l.
  - intros i _. apply Z.testbit_0_l.
  - done.
  - intros i w Ew. apply lookup_replicate in Ew as [-> _]. by intros [? _].
  - assert (∀ k f, (∀ i, f i (mk_wthread false None) = []) → mjoin (imap f (replicate k (mk_wthread false None))) = ([] : list message)) as HE.
    { induction k as [|k IH]; intros f Hf; [done|]. cbn [replicate]. rewrite imap_cons. change (mjoin (?x :: ?l)) with (x ++ mjoin l). rewrite Hf.
      apply (IH (f ∘ S)). intros i. apply Hf. }
    unfold in_slots. by rewrite HE.
Qed.
End Invariant.

(** C27. In every state that a server with fewer than 32 workers can reach, in any interleaving: the messages accepted
    are, as a multiset, those handled and those in the slots of busy workers, so that none is lost, repeated or
    overwritten; a bit of the bitmap is set exactly when the slot is reserved or its worker busy; the slot
    that is received into is that of an idle worker; and the dispatcher, when it is about to reserve a slot,
    takes the lowest free one, or accesses the pool beyond its end when all workers are busy. *)
Theorem pool_serves junk owners s :
  (length owners < 32)%nat → rtc (step junk) (started owners) s →
  accepted s ≡ₚ handled s ++ in_slots (pl_pool (sv_pool s)) (sv_workers s) ∧
  (∀ i w, sv_workers s !! i = Some w →
     Z.testbit (pool_bitmap (sv_pool s)) (Z.of_nat i) = busy w || bool_decide (sv_pc s = Some (Z.of_nat i))) ∧
  (∀ b, sv_pc s = Some b → sv_workers s !! Z.to_nat b = Some (mk_wthread false None)) ∧
  (sv_pc s = None →
     if forallb busy (sv_workers s) then reserve junk (sv_pool s) = Fault
     else ∃ b w s', reserve junk (sv_pool s) = Ret (Some b) s' ∧ sv_workers s !! Z.to_nat b = Some w ∧ busy w = false ∧
       ∀ k v, (k < Z.to_nat b)%nat → sv_workers s !! k = Some v → busy v = true).
Proof.
  intros Hn HR. assert (HI : server_inv s).
  { revert HR. apply (rtc_ind_r (λ s, server_inv s)); [by apply inv_started|]. intros x y _ Hs Hx. by eapply inv_step. }
  split_and!; [apply HI|apply HI|intros b Hb; by destruct (si_pc _ HI b Hb)|]. intros Hpc.
  destruct (reserve_bit junk (sv_pool s) (si_range _ HI) (inv_not_full _ HI)) as (b&Hb&Ht&Hk&E).
  destruct (si_len _ HI) as [Hl Hl2].
  assert (Hbits : ∀ i w, sv_workers s !! i = Some w → Z.testbit (pool_bitmap (sv_pool s)) (Z.of_nat i) = busy w).
  { intros i w Ew. rewrite (si_bits _ HI i w Ew), Hpc. by rewrite bool_decide_false, orb_false_r. }
  destruct (forallb busy (sv_workers s)) eqn:EF.
  - rewrite E. destruct (pl_pool (sv_pool s) !! Z.to_nat b) as [t|] eqn:Et; [|done]. exfalso.
    assert (is_Some (sv_workers s !! Z.to_nat b)) as [w Ew] by (apply lookup_lt_is_Some; rewrite Hl; by eapply lookup_lt_Some).
    pose proof (Hbits _ _ Ew) as Hw. rewrite Z2Nat.id, Ht in Hw by lia. rewrite forallb_forall in EF.
    rewrite EF in Hw; [done|]. apply list_elem_of_In. by eapply list_elem_of_lookup_2.
  - assert (∃ i w, sv_workers s !! i = Some w ∧ busy w = false) as (i&w&Ei&Hw).
    { clear -EF. induction (sv_workers s) as [|x l IH]; [done|]. cbn in EF. destruct (busy x) eqn:Ex; [|by exists 0%nat, x].
      destruct (IH EF) as (i&w&?&?). by exists (S i), w. }
    assert (Hle : b <= Z.of_nat i).
    { destruct (decide (Z.of_nat i < b)); [|lia]. rewrite <- (Hbits i w Ei) in Hw. rewrite Hk in Hw by lia. done. }
    apply lookup_lt_Some in Ei as Hlt. assert (is_Some (sv_workers s !! Z.to_nat b)) as [v Ev] by (apply lookup_lt_is_Some; lia).
    assert (is_Some (pl_pool (sv_pool s) !! Z.to_nat b)) as [t Et] by (apply lookup_lt_is_Some; lia). rewrite Et in E.
    exists b, v. eexists. split_and!; [exact E|done| |].
    + rewrite <- (Hbits _ _ Ev), Z2Nat.id by lia. done.
    + intros k u Hkb Eu. rewrite <- (Hbits _ _ Eu). apply Hk. lia.
Qed.

(** ** Instance of the theorem *)
(** Two workers: a message for the first, then one for the second while the first is at work. *)
Definition demo_m (w : Z) : message := msg0 <| w1 := w |>.
Definition demo_served : server :=
  mk_server (mk_thrpool [mk_poolstruct POOL_BUSY 501 3 (demo_m 3); mk_poolstruct POOL_BUSY 502 4 (demo_m 4)] 3) None
    [mk_wthread false (Some (demo_m 3)); mk_wthread true None] [demo_m 3; demo_m 4] [].
Lemma demo_served_reached : rtc (step 0) (started [501; 502]) demo_served.
Proof.
  eapply rtc_l; [eapply step_reserve; vm_compute; reflexivity|].
  eapply rtc_l; [eapply (step_message 0 _ _ _ (demo_m 3)); [vm_compute; reflexivity|reflexivity]|].
  eapply rtc_l; [eapply (step_start 0 _ _ _ 0); [reflexivity|vm_compute; reflexivity]|].
  eapply rtc_l; [eapply step_reserve; vm_compute; reflexivity|].
  eapply rtc_l; [eapply (step_message 0 _ _ _ (demo_m 4)); [vm_compute; reflexivity|reflexivity]|].
  apply rtc_refl.
Qed.
Lemma pool_serves_witness :
  [demo_m 3; demo_m 4] ≡ₚ [] ++ in_slots (pl_pool (sv_pool demo_served)) (sv_workers demo_served) ∧ reserve 0 (sv_pool demo_served) = Fault.
Proof.
  destruct (pool_serves 0 [501; 502] demo_served ltac:(cbn; lia) demo_served_reached) as (H1&_&_&H2).
  exact (conj H1 (H2 eq_refl)).
Defined.
