(* ===== verification/Fd.v ===== *)
(** * File descriptors

    Models microkernel/kernel/fd.c.  The table of a process has 32 pointers to
    open files and, in slot 32, a pointer to a page of 1024 more ([ftables]).
    [junk] is the contents of a recycled structure and [jbit] what [bsfl] leaves
    in its destination for a full bitmap.  Freeing what is not allocated
    faults. *)

From S2P Require Import Prelude DList Bits Hash KState Sched Thread VmPage Pmap VmMap.

Definition MAX_DEF_FD : Z := 32.

(** ** Accesses *)
Definition get_fd (p : Z) : K fd_t := pr ← get_proc p; mret (p_fd pr).
Definition upd_fd (p : Z) (f : fd_t → fd_t) : K unit := upd_proc p (λ pr, pr <| p_fd ::= f |>).
(** [l[i]] of an array *)
Definition at_index (l : list Z) (i : Z) : option Z := if i <? 0 then None else l !! Z.to_nat i.
Definition get_slot (p i : Z) : K Z := fd ← get_fd p; must (at_index (fileptr fd) i).
Definition set_slot (p i v : Z) : K unit :=
  get_slot p i;; upd_fd p (λ fd, fd <| fileptr ::= <[Z.to_nat i := v]> |>).
Definition get_table (t i : Z) : K Z := l ← deref ftables t; must (at_index l i).
Definition set_table (t i v : Z) : K unit :=
  get_table t i;; modify (λ s, s <| ftables ::= alter <[Z.to_nat i := v]> t |>).

(** [kmem_cache_alloc(ftable_cache)] and [kmem_cache_free(ftable_cache)] *)
Definition new_file (junk : file) : K Z :=
  f ← kalloc [];
  (if f =? 0 then mret tt else modify (λ s, s <| files ::= <[f := junk]> |>));;
  mret f.
Definition free_file (f : Z) : K unit :=
  deref files f;; modify (λ s, s <| files ::= delete f |>).

(** [for(i = from; i < from + n; i++) body i] *)
Fixpoint for_range {A} (n : nat) (i : Z) (body : Z → K (option A)) : K (option A) :=
  match n with
  | O => mret None
  | S n =>
      r ← body i;
      match r with Some a => mret (Some a) | None => for_range n (i + 1) body end
  end.

(** ** fork and exit *)

(** The copies are not stored in the child's table. *)
Definition copy_file (junk : file) (f : Z) : K (option Z) :=
  if f =? 0 then mret None
  else
    pf ← deref files f;
    cf ← new_file junk;
    if cf =? 0 then mret (Some (- ENOMEM))
    else modify (λ s, s <| files ::= <[cf := pf]> |>);; mret None.
Definition fd_fork (junk : file) (chld par : Z) : K Z :=
  fd ← get_fd par;
  r ← for_range (Z.to_nat MAX_DEF_FD) 0 (λ i, f ← get_slot par i; copy_file junk f);
  match r with
  | Some e => mret e
  | None =>
      t ← get_slot par MAX_DEF_FD;
      if t =? 0 then mret 0
      else
        r ← for_range (Z.to_nat (fd_max fd - MAX_DEF_FD)) 0 (λ i, f ← get_table t i; copy_file junk f);
        mret (default 0 r)
  end.

Definition drop_file (f : Z) : K (option unit) :=
  if f =? 0 then mret None else free_file f;; mret None.
Definition fd_free (p : Z) : K unit :=
  fd ← get_fd p;
  for_range (Z.to_nat MAX_DEF_FD) 0 (λ i, f ← get_slot p i; drop_file f);;
  t ← get_slot p MAX_DEF_FD;
  for_range (Z.to_nat (fd_max fd - MAX_DEF_FD)) 0 (λ i, f ← get_table t i; drop_file f);;
  kmem_free t PAGE_SIZE;;
  mret tt.

(** ** Allocation *)
Definition alloc_fdesc (junk : file) (jbit : Z) (p : Z) : K Z :=
  fd ← get_fd p;
  let desc := ffc jbit (fd_bitmap fd) in
  if (desc <? MAX_DEF_FD) && (0 <=? desc) then
    bm ← must (set_bit (fd_bitmap fd) desc);
    upd_fd p (λ fd, fd <| fd_bitmap := bm |>);;
    f ← new_file junk;
    set_slot p desc f;;
    mret desc
  else if fd_max fd <=? MAX_DEF_FD then mret (-1)
  else
    t ← get_slot p MAX_DEF_FD;
    if t =? 0 then mret (-1)
    else
      w ← get_table t (fd_hint fd);
      if w =? 0 then
        f ← new_file junk;
        set_table t (fd_hint fd) f;;
        upd_fd p (λ fd, fd <| fd_hint ::= λ h, s32 (h + 1) |>);;
        mret (s32 (fd_hint fd + MAX_DEF_FD))
      else
        r ← for_range (Z.to_nat (fd_max fd)) 0 (λ i,
          w ← get_table t i;
          if w =? 0 then
            upd_fd p (λ fd, fd <| fd_hint := i + 1 |>);;
            f ← new_file junk;
            set_table t i f;;
            mret (Some (i + MAX_DEF_FD))
          else mret None);
        mret (default (-1) r).

Definition free_fdesc (p desc : Z) : K Z :=
  fd ← get_fd p;
  if (desc <? 0) || (fd_max fd <? desc) then mret (-1)
  else
    upd_fd p (λ fd, fd <| fd_hint := desc |>);;
    if desc <? MAX_DEF_FD then
      bm ← must (clear_bit (fd_bitmap fd) desc);
      upd_fd p (λ fd, fd <| fd_bitmap := bm |>);;
      f ← get_slot p desc;
      free_file f;;
      mret 0
    else
      t ← get_slot p MAX_DEF_FD;
      f ← get_table t (desc - MAX_DEF_FD);
      free_file f;;
      mret 0.

Definition grow_fd (fuel : nat) (p fdmax : Z) : K Z :=
  if fdmax <=? MAX_DEF_FD then mret 0
  else
    t ← kmem_alloc fuel PAGE_SIZE;
    if t =? 0 then mret (- ENOMEM)
    else
      modify (λ s, s <| ftables ::= <[t := replicate 1024 0]> |>);;
      set_slot p MAX_DEF_FD t;;
      upd_fd p (λ fd, fd <| fd_max := fdmax |>);;
      mret 0.

(** [table] is NULL when the descriptor is not among the first 32: the rest of
    the routine reads [table[MAX_DEF_FD]] through it. *)
Definition syscall_dup (jbit : Z) (fd1 fd2 : Z) : K Z :=
  c ← gets current; th ← get_thread c;
  let p := proc th in
  fd ← get_fd p;
  if (fd1 <? 0) || (fd_max fd <? fd1) then mret (- EBADF)
  else if (fd2 <? 0) || (fd_max fd <? fd2) then mret (- EBADF)
  else
    f ← (if fd1 <? MAX_DEF_FD then get_slot p fd1
         else t ← get_slot p fd1; get_table t (fd1 - MAX_DEF_FD));
    if f =? 0 then mret (- EBADF)
    else
      let desc := ffc jbit (fd_bitmap fd) in
      if (desc <? MAX_DEF_FD) && (0 <=? desc) then
        bm ← must (set_bit (fd_bitmap fd) desc);
        upd_fd p (λ fd, fd <| fd_bitmap := bm |>);;
        set_slot p desc f;;
        mret desc
      else if fd_max fd <=? MAX_DEF_FD then mret (-1)
      else fault.

(** ** Specifications *)
Lemma get_fd_Ret p pr s : procs s !! p = Some pr → get_fd p s = Ret (p_fd pr) s.
Proof. intros E. unfold get_fd. by run. Qed.
Lemma upd_fd_Ret p f pr s :
  procs s !! p = Some pr →
  upd_fd p f s = Ret tt (s <| procs ::= <[p := pr <| p_fd ::= f |>]> |>).
Proof. intros E. unfold upd_fd. by rewrite (upd_proc_Ret _ _ pr). Qed.
Lemma get_slot_Ret p pr i v s :
  procs s !! p = Some pr → at_index (fileptr (p_fd pr)) i = Some v → get_slot p i s = Ret v s.
Proof. intros E Ei. unfold get_slot. run_with ltac:(by apply get_fd_Ret). by rewrite Ei. Qed.
Lemma set_slot_Ret p pr i v w s :
  procs s !! p = Some pr → at_index (fileptr (p_fd pr)) i = Some w →
  set_slot p i v s =
    Ret tt (s <| procs ::= <[p := pr <| p_fd ::= λ fd, fd <| fileptr ::= <[Z.to_nat i := v]> |> |>]> |>).
Proof. intros E Ei. unfold set_slot. run_with ltac:(by eapply get_slot_Ret). by apply upd_fd_Ret. Qed.
Lemma get_table_Ret t l i v s :
  ftables s !! t = Some l → at_index l i = Some v → get_table t i s = Ret v s.
Proof. intros E Ei. unfold get_table. run_with ltac:(apply deref_Ret; exact E). by rewrite Ei. Qed.
Lemma set_table_Ret t l i v w s :
  ftables s !! t = Some l → at_index l i = Some w →
  set_table t i v s = Ret tt (s <| ftables ::= alter <[Z.to_nat i := v]> t |>).
Proof. intros E Ei. unfold set_table. by run_with ltac:(by eapply get_table_Ret). Qed.
Lemma new_file_Ret junk f rest s :
  kmem s = f :: rest → f ≠ 0 →
  new_file junk s = Ret f (s <| kmem := rest |> <| files ::= <[f := junk]> |>).
Proof.
  intros E Hf. unfold new_file, kalloc. unfold mbind at 1, M_bind at 1. rewrite E.
  rewrite (proj2 (Z.eqb_neq f 0)) by done. reflexivity.
Qed.
Lemma at_index_Some l i : 0 <= i < Z.of_nat (length l) → ∃ v, at_index l i = Some v.
Proof.
  intros Hi. unfold at_index. rewrite (proj2 (Z.ltb_ge i 0)) by lia.
  apply lookup_lt_is_Some_2. lia.
Qed.

(** While one of the first 32 descriptors is free, [alloc_fdesc] returns the
    lowest free one, marks it used and stores a new open file in its slot; every
    other slot, and every file, is as before. *)
Theorem alloc_fdesc_lowest s p pr junk jbit f rest :
  procs s !! p = Some pr → length (fileptr (p_fd pr)) = 33%nat →
  0 <= fd_bitmap (p_fd pr) < 2 ^ 32 - 1 → kmem s = f :: rest → f ≠ 0 →
  ∃ s' d pr', alloc_fdesc junk jbit p s = Ret d s' ∧ 0 <= d < 32 ∧
    Z.testbit (fd_bitmap (p_fd pr)) d = false ∧
    (∀ k, 0 <= k < d → Z.testbit (fd_bitmap (p_fd pr)) k = true) ∧
    procs s' = <[p := pr']> (procs s) ∧
    fd_bitmap (p_fd pr') = Z.setbit (fd_bitmap (p_fd pr)) d ∧
    fileptr (p_fd pr') = <[Z.to_nat d := f]> (fileptr (p_fd pr)) ∧
    files s' = <[f := junk]> (files s).
Proof.
  intros E Hlen Hb Hk Hf. set (bm := fd_bitmap (p_fd pr)) in *.
  destruct (ffc_spec jbit bm) as (Hd&Hbit&Hlow); [lia..|]. set (d := ffc jbit bm) in *.
  destruct (at_index_Some (fileptr (p_fd pr)) d) as [w Hw]; [rewrite Hlen; lia|].
  eexists _, d, _. split.
  - unfold alloc_fdesc. run_with ltac:(by apply get_fd_Ret). fold bm. fold d. cbv zeta.
    rewrite (proj2 (Z.ltb_lt d MAX_DEF_FD)), (proj2 (Z.leb_le 0 d)) by (unfold MAX_DEF_FD; lia). cbn [andb].
    unfold set_bit. rewrite bool_decide_true by lia. run.
    run_with ltac:(by apply upd_fd_Ret). run_with ltac:(by eapply new_file_Ret).
    run_with ltac:(eapply set_slot_Ret; [apply lookup_insert_eq|exact Hw]). flat. rewrite insert_insert_eq.
    reflexivity.
  - by split_and!; try lia.
Qed.

Lemma for_range_find {A} (body : Z → K (option A)) s a s' (k : nat) : ∀ n i,
  (∀ j, i <= j < i + Z.of_nat k → body j s = Ret None s) →
  body (i + Z.of_nat k) s = Ret (Some a) s' → (k < n)%nat →
  for_range n i body s = Ret (Some a) s'.
Proof.
  induction k as [|k IH]; intros n i Hn Hk Hlt; (destruct n as [|n]; [lia|]); cbn [for_range].
  - rewrite Z.add_0_r in Hk. by run_with ltac:(exact Hk).
  - run_with ltac:(apply Hn; lia). apply IH; [|by replace (i + 1 + Z.of_nat k) with (i + Z.of_nat (S k)) by lia|lia].
    intros j Hj. apply Hn. lia.
Qed.

(** The search for a descriptor above 31 runs over [fd_max] slots of the
    second table instead of [fd_max - 32]: with those in use it returns a
    descriptor that is not below [fd_max], which [free_fdesc] then refuses to
    close when it is above it. *)
Theorem alloc_fdesc_beyond_max s p pr junk jbit f rest t l h k :
  procs s !! p = Some pr → length (fileptr (p_fd pr)) = 33%nat →
  fd_bitmap (p_fd pr) = 2 ^ 32 - 1 → ¬ 0 <= jbit < 32 → MAX_DEF_FD < fd_max (p_fd pr) →
  at_index (fileptr (p_fd pr)) MAX_DEF_FD = Some t → t ≠ 0 → ftables s !! t = Some l →
  at_index l (fd_hint (p_fd pr)) = Some h → h ≠ 0 →
  fd_max (p_fd pr) - MAX_DEF_FD < k < fd_max (p_fd pr) → at_index l k = Some 0 →
  (∀ j, 0 <= j < k → ∃ w, at_index l j = Some w ∧ w ≠ 0) →
  kmem s = f :: rest → f ≠ 0 →
  ∃ s', alloc_fdesc junk jbit p s = Ret (k + MAX_DEF_FD) s' ∧ fd_max (p_fd pr) < k + MAX_DEF_FD ∧
    files s' !! f = Some junk ∧ free_fdesc p (k + MAX_DEF_FD) s' = Ret (-1) s'.
Proof.
  intros E Hlen Hbm Hj Hmax Ht Ht0 El Eh Hh Hk Ek Hall Hkm Hf.
  assert (Hffc : ffc jbit (fd_bitmap (p_fd pr)) = jbit) by (rewrite Hbm; reflexivity).
  unfold MAX_DEF_FD in *.
  set (s1 := s <| procs ::= <[p := pr <| p_fd ::= λ fd, fd <| fd_hint := k + 1 |> |>]> |>).
  set (s2 := s1 <| kmem := rest |> <| files ::= <[f := junk]> |>).
  exists (s2 <| ftables ::= alter <[Z.to_nat k := f]> t |>). split_and!.
  - unfold alloc_fdesc, MAX_DEF_FD. run_with ltac:(by apply get_fd_Ret). rewrite Hffc. cbv zeta.
    replace ((jbit <? 32) && (0 <=? jbit)) with false by (symmetry; apply andb_false_iff; zbool; lia).
    rewrite (proj2 (Z.leb_gt (fd_max (p_fd pr)) 32)) by lia.
    run_with ltac:(by eapply get_slot_Ret). rewrite (proj2 (Z.eqb_neq t 0)) by done.
    run_with ltac:(by eapply get_table_Ret). rewrite (proj2 (Z.eqb_neq h 0)) by done.
    run_with ltac:(apply (for_range_find _ _ (k + 32) (s2 <| ftables ::= alter <[Z.to_nat k := f]> t |>) (Z.to_nat k));
      [ intros j Hjk; destruct (Hall j) as (w&Ew&Hw); [lia|]; run_with ltac:(by eapply get_table_Ret);
        by rewrite (proj2 (Z.eqb_neq w 0))
      | rewrite Z.add_0_l, Z2Nat.id by lia; run_with ltac:(by eapply get_table_Ret); rewrite Z.eqb_refl;
        run_with ltac:(by apply upd_fd_Ret); run_with ltac:(by eapply (new_file_Ret junk f rest s1));
        by run_with ltac:(by eapply (set_table_Ret t l k f 0 s2))
      | lia]). reflexivity.
  - lia.
  - fields. apply lookup_insert_eq.
  - unfold free_fdesc. run_with ltac:(apply get_fd_Ret; apply lookup_insert_eq). fields.
    replace ((k + 32 <? 0) || (fd_max (p_fd pr) <? k + 32)) with true; [done|].
    symmetry. apply orb_true_iff. right. apply Z.ltb_lt. lia.
Qed.

(** ** Instances of the theorems *)
Definition file0 : file := mk_file 0 0 1 (mk_inodev 0 0).
Definition demo_fd : kstate := demo_proc <| procs := {[ 7000 := proc0 <| p_fd := fd0 <| fd_bitmap := 5 |> |> ]} |>.

(** Descriptors 0 and 2 are in use: 1 is allocated. *)
Lemma alloc_fdesc_lowest_witness :
  ∃ s' d, alloc_fdesc file0 99 7000 demo_fd = Ret d s' ∧ d = 1 ∧ files s' = <[12000 := file0]> (files demo_fd).
Proof.
  destruct (alloc_fdesc_lowest demo_fd 7000 (proc0 <| p_fd := fd0 <| fd_bitmap := 5 |> |>) file0 99 12000 [13000; 14000])
    as (s'&d&pr'&H1&H2&H3&H4&_&_&_&H5); [vm_compute; reflexivity|done|vm_compute; intuition congruence|done|done|].
  exists s', d. split; [exact H1|]. split; [|exact H5].
  assert (d ≠ 0) by (intros ->; discriminate H3).
  destruct (decide (d = 1)) as [|]; [done|]. specialize (H4 1 ltac:(lia)). discriminate H4.
Defined.

(** A table of 40 descriptors, of which all 32 + 8 and one more are in use. *)
Definition demo_full : kstate :=
  demo_proc <| procs := {[ 7000 := proc0 <| p_fd := fd0 <| fd_bitmap := 2 ^ 32 - 1 |> <| fd_max := 40 |>
                                                  <| fileptr := replicate 32 500 ++ [900] |> |> ]} |>
    <| ftables := {[ 900 := replicate 9 501 ++ replicate 1015 0 ]} |>.
Lemma alloc_fdesc_beyond_max_witness :
  ∃ s', alloc_fdesc file0 99 7000 demo_full = Ret 41 s' ∧ free_fdesc 7000 41 s' = Ret (-1) s'.
Proof.
  destruct (alloc_fdesc_beyond_max demo_full 7000
    (proc0 <| p_fd := fd0 <| fd_bitmap := 2 ^ 32 - 1 |> <| fd_max := 40 |> <| fileptr := replicate 32 500 ++ [900] |> |>)
    file0 99 12000 [13000; 14000] 900 (replicate 9 501 ++ replicate 1015 0) 501 9) as (s'&H1&_&_&H2);
    try (vm_compute; intuition congruence).
  - intros j Hj. assert (Hc : j = 0 ∨ j = 1 ∨ j = 2 ∨ j = 3 ∨ j = 4 ∨ j = 5 ∨ j = 6 ∨ j = 7 ∨ j = 8) by lia.
    exists 501. split; [|done]. by repeat destruct Hc as [->|Hc]; [..|rewrite Hc].
  - exact (ex_intro _ s' (conj H1 H2)).
Defined.
