(* ===== verification/Signal.v ===== *)
(** * Signals

    Models microkernel/kernel/signal.c, except [handle_signal], which runs process
    exit and the machine's signal frames (SigFrame.v), and [signal_wait].
    Signals wait in the queue of the process; [queue] is a member of struct
    sigqueue and [sigqueue] the head in struct process. *)

From S2P Require Import Prelude DList Bits Hash KState Sched Thread.

Definition MAX_SIGNAL : Z := 32.
Definition SIG_DFL : Z := 0.
Definition SIG_IGN : Z := 1.
Definition SIGCHLD : Z := 4.
Definition SIGKILL : Z := 10.
Definition SIGSTOP : Z := 15.
Definition SIG_BLOCK : Z := 1.
Definition SIG_UNBLOCK : Z := 2.
Definition SIG_SETMASK : Z := 4.
Definition SS_ONSTACK : Z := 1.
Definition SS_DISABLE : Z := 2.
Definition MINSIGSTKSZ : Z := 512.

Notation queue := (fld F_queue).
Definition sigqueue_of (p : Z) : ptr := fld F_sigqueue (obj p).
Definition sig_fuel (s : kstate) : nat := S (size (sigqs s)).

Definition is_queued (p : Z) : K bool :=
  n ← ask_links (rd_next (sigqueue_of p)); mret (negb (bool_decide (n = sigqueue_of p))).

Definition blocked_by (mask signal : Z) : bool := negb (check_set mask signal =? 0).
Definition is_blocked (thread signal : Z) : K bool := th ← get_thread thread; mret (blocked_by (sa_mask th) signal).

(** ** The queue *)
Definition allocate_sigqueue (junk : sigqueue) : K Z :=
  sq ← kalloc [F_queue];
  (if sq =? 0 then mret tt else modify (λ s, s <| sigqs ::= <[sq := junk]> |>));;
  mret sq.
Definition deallocate_sigqueue (sq : Z) : K unit :=
  deref sigqs sq;; modify (λ s, s <| sigqs ::= delete sq |>).
Definition enqueue_signal (sq p : Z) : K unit := on_links (list_enqueue queue (sigqueue_of p) (obj sq)).

Fixpoint dequeue_loop (fuel : nat) (thr p : Z) (sq : ptr) : K Z :=
  if decide (sq = sigqueue_of p) then mret 0
  else match fuel with
  | O => spin
  | S fuel =>
      q ← as_obj sq;
      sg ← deref sigqs q;
      b ← is_blocked thr (sq_signal sg);
      if (b : bool) then n ← ask_links (rd_next (queue sq)); dequeue_loop fuel thr p n
      else on_links (list_del queue (sigqueue_of p) sq);; mret q
  end.
Definition dequeue_signal (thr : Z) : K Z :=
  th ← get_thread thr;
  fuel ← gets sig_fuel;
  sq ← ask_links (rd_next (sigqueue_of (proc th)));
  dequeue_loop fuel thr (proc th) sq.

(** [for(sq=p->nextq; sq->queue.next != &p->sigqueue; sq=sq->queue.next)]: the
    last signal of the queue is not looked at. *)
Fixpoint pending_loop (fuel : nat) (thr p : Z) (sq : ptr) : K bool :=
  match fuel with
  | O => spin
  | S fuel =>
      q ← as_obj sq;
      n ← ask_links (rd_next (queue sq));
      if decide (n = sigqueue_of p) then mret false
      else
        sg ← deref sigqs q;
        b ← is_blocked thr (sq_signal sg);
        if (b : bool) then pending_loop fuel thr p n else mret true
  end.
Definition is_pending (thr : Z) : K bool :=
  th ← get_thread thr;
  fuel ← gets sig_fuel;
  sq ← ask_links (rd_next (sigqueue_of (proc th)));
  pending_loop fuel thr (proc th) sq.

(** ** Sending *)
Definition get_action (p i : Z) : K sigaction_t :=
  pr ← get_proc p; must (if i <? 0 then None else action pr !! Z.to_nat i).

(** The label [noque] *)
Definition noque (thr : Z) : K Z :=
  th ← get_thread thr;
  (if states th =? THREAD_INT then wakeup thr else mret tt);; mret 0.
Definition send_signal (junk : sigqueue) (thr signal : Z) (si : option siginfo) : K Z :=
  if (signal <? 0) || (MAX_SIGNAL <? signal) then mret (- EINVAL)
  else
    b ← is_blocked thr signal;
    if (b : bool) then noque thr
    else
      th ← get_thread thr;
      act ← get_action (proc th) (signal - 1);
      if act_handler act =? SIG_IGN then noque thr
      else
        sq ← allocate_sigqueue junk;
        if sq =? 0 then mret (- EAGAIN)
        else
          modify (λ s, s <| sigqs ::= <[sq := mk_sigqueue signal (default (sinfo junk) si)]> |>);;
          enqueue_signal sq (proc th);;
          upd_thread thr (λ th, th <| sigpending := 1 |>);;
          noque thr.

(** The first thread of the process that does not block the signal. *)
Fixpoint send_any_loop (fuel : nat) (junk : sigqueue) (p : Z) (t : ptr) (signal : Z) (si : option siginfo) : K Z :=
  if decide (t = threads_of p) then mret 0
  else match fuel with
  | O => spin
  | S fuel =>
      thr ← as_obj t;
      b ← is_blocked thr signal;
      if negb b then send_signal junk thr signal si
      else n ← ask_links (rd_next (thread_list t)); send_any_loop fuel junk p n signal si
  end.
Definition send_signal_any (junk : sigqueue) (p signal : Z) (si : option siginfo) : K Z :=
  get_proc p;;
  fuel ← gets thash_fuel;
  t ← ask_links (rd_next (threads_of p));
  send_any_loop fuel junk p t signal si.

Fixpoint exit_signals_loop (fuel : nat) (p : Z) (sq : ptr) : K unit :=
  if decide (sq = sigqueue_of p) then mret tt
  else match fuel with
  | O => spin
  | S fuel =>
      q ← as_obj sq;
      deallocate_sigqueue q;;
      n ← ask_links (rd_next (queue sq));
      exit_signals_loop fuel p n
  end.
Definition exit_signals (p : Z) : K unit :=
  fuel ← gets sig_fuel;
  sq ← ask_links (rd_next (sigqueue_of p));
  exit_signals_loop fuel p sq.

(** ** Actions and masks *)
Definition init_signals (p : Z) : K unit :=
  upd_proc p (λ pr, pr <| action := replicate (Z.to_nat MAX_SIGNAL) (mk_sigaction SIG_DFL 0 0) |>).

(** The result, and the action stored at [oact]. *)
Definition sigaction (signal : Z) (act : option sigaction_t) : K (Z * option sigaction_t) :=
  c ← gets current; th ← get_thread c;
  if (signal <=? 0) || (MAX_SIGNAL <? signal) then mret (- EINVAL, None)
  else if (signal =? SIGKILL) || (signal =? SIGSTOP) then mret (- EINVAL, None)
  else
    old ← get_action (proc th) (signal - 1);
    match act with
    | None => mret (0, Some old)
    | Some a =>
        upd_proc (proc th) (λ pr, pr <| action ::= <[Z.to_nat (signal - 1) := a]> |>);;
        mret (0, Some old)
    end.

Definition addmask (set mask : Z) : Z := Z.lor set mask.
Definition delmask (set mask : Z) : Z := Z.land set (not32 mask).
(** The result, and the mask stored at [oset]. *)
Definition sigprocmask (how : Z) (set : option Z) : K (Z * Z) :=
  c ← gets current; th ← get_thread c;
  let old := sa_mask th in
  match set with
  | None => mret (0, old)
  | Some m =>
      if how =? SIG_BLOCK then upd_thread c (λ th, th <| sa_mask ::= λ x, addmask x m |>);; mret (0, old)
      else if how =? SIG_UNBLOCK then upd_thread c (λ th, th <| sa_mask ::= λ x, delmask x m |>);; mret (0, old)
      else if how =? SIG_SETMASK then upd_thread c (λ th, th <| sa_mask := m |>);; mret (0, old)
      else mret (- EINVAL, old)
  end.

Definition sigsuspend (set : Z) : K Z :=
  thr ← gets current;
  upd_thread thr (λ th, th <| sa_mask := set |> <| states := THREAD_INT |>);;
  remove_thread thr;;
  schedule;;
  mret 0.

(** The result, and the stack stored at [oss]. *)
Definition sigaltstack (ss : option stack_t) : K (Z * stack_t) :=
  c ← gets current; th ← get_thread c; pr ← get_proc (proc th);
  let old := p_ss pr in
  match ss with
  | None => mret (0, old)
  | Some n =>
      if has (ss_flags n) SS_DISABLE then mret (- EINVAL, old)
      else if has (ss_flags old) SS_ONSTACK then mret (- EPERM, old)
      else if ss_size old <? MINSIGSTKSZ then mret (- ENOMEM, old)
      else upd_proc (proc th) (λ pr, pr <| p_ss := n |>);; mret (0, old)
  end.

(** [set & signal]: the number of the signal is used as a mask. *)
Definition set_has_signal (set signal : Z) : bool := has set signal.
Fixpoint find_queued_loop (fuel : nat) (p : Z) (sq : ptr) (set : Z) : K Z :=
  if decide (sq = sigqueue_of p) then mret 0
  else match fuel with
  | O => spin
  | S fuel =>
      q ← as_obj sq;
      sg ← deref sigqs q;
      if set_has_signal set (sq_signal sg) then mret q
      else n ← ask_links (rd_next (queue sq)); find_queued_loop fuel p n set
  end.
Definition find_queued (p set : Z) : K Z :=
  b ← is_queued p;
  if negb b then mret 0
  else
    fuel ← gets sig_fuel;
    sq ← ask_links (rd_next (sigqueue_of p));
    find_queued_loop fuel p sq set.

(** ** The queue as a list of signals, the latest first *)
Record sig_inv (s : kstate) (p : Z) (l : list Z) : Prop := {
  sg_list : dlist queue (links s) (sigqueue_of p) (obj <$> l);
  sg_alloc : ∀ q, q ∈ l → 0 < q ∧ is_Some (sigqs s !! q) }.

Definition sig_blocked (s : kstate) (mask q : Z) : Prop :=
  match sigqs s !! q with Some sg => blocked_by mask (sq_signal sg) = true | None => False end.

Lemma sig_head_ne p q : obj q ≠ sigqueue_of p.
Proof. by intros [=]. Qed.
Lemma sig_ring p l : NoDup l → ring queue (sigqueue_of p) (obj <$> l).
Proof. intros ND. apply obj_ring; [done|]. intros t _. split; by intros [=]. Qed.
Lemma sig_NoDup s p l : sig_inv s p l → NoDup l.
Proof.
  intros HI. pose proof (sg_list _ _ _ HI) as HD%dlist_ring%ring_NoDup.
  apply NoDup_cons in HD as [_ HD]. by apply NoDup_fmap_1 in HD.
Qed.
Lemma sig_fuel_ok s p l : sig_inv s p l → (length l < sig_fuel s)%nat.
Proof.
  intros HI. unfold sig_fuel. apply Nat.lt_succ_r. rewrite <- size_dom.
  rewrite <- (size_list_to_set (C := gset Z) l) by (by eapply sig_NoDup).
  apply subseteq_size. intros x Hx%elem_of_list_to_set. apply elem_of_dom. by apply HI.
Qed.

(** The walk of [dequeue_signal] over the blocked signals [l1] to [x]. *)
Lemma dequeue_loop_spec s thr th p sg x l2 L' : threads s !! thr = Some th →
  sigqs s !! x = Some sg → blocked_by (sa_mask th) (sq_signal sg) = false →
  list_del queue (sigqueue_of p) (obj x) (links s) = Some L' →
  ∀ l1 l0 fuel, dlist queue (links s) (sigqueue_of p) (obj <$> l0 ++ l1 ++ x :: l2) →
  (∀ q, q ∈ l1 → sig_blocked s (sa_mask th) q) → (length l1 < fuel)%nat →
  dequeue_loop fuel thr p (default (sigqueue_of p) (head (obj <$> l1 ++ x :: l2))) s =
    Ret x (s <| links := L' |>).
Proof.
  intros Et Ex Hb EL. induction l1 as [|q l1 IH]; intros l0 fuel HD Hbl Hf;
    (destruct fuel as [|fuel]; [lia|]).
  - change (default (sigqueue_of p) (head (obj <$> [] ++ x :: l2))) with (obj x). cbn [dequeue_loop].
    rewrite decide_False by apply sig_head_ne. run_with ltac:(apply as_obj_Ret).
    run_with ltac:(apply deref_Ret; exact Ex). unfold is_blocked. rewrite bind_assoc. run. run.
    rewrite Hb. by run_with ltac:(apply on_links_Ret; exact EL).
  - change (default (sigqueue_of p) (head (obj <$> (q :: l1) ++ x :: l2))) with (obj q). cbn [dequeue_loop].
    rewrite decide_False by apply sig_head_ne. run_with ltac:(apply as_obj_Ret).
    assert (Hq := Hbl q ltac:(by left)). unfold sig_blocked in Hq.
    destruct (sigqs s !! q) as [sq|] eqn:Eq; [|done]. run_with ltac:(apply deref_Ret; exact Eq).
    unfold is_blocked. rewrite bind_assoc. run. run. rewrite Hq.
    assert (Hnx : rd_next (queue (obj q)) (links s) = Some (default (sigqueue_of p) (head (obj <$> l1 ++ x :: l2)))).
    { rewrite fmap_app in HD. by apply dlist_next in HD. }
    run_with ltac:(apply ask_links_Ret; exact Hnx).
    apply (IH (l0 ++ [q])); [by rewrite <- app_assoc|set_solver|cbn in Hf; lia].
Qed.

(** The first signal of the queue that the thread does not block. *)
Lemma dequeue_signal_spec s thr th p l1 x sg l2 :
  sig_inv s p (l1 ++ x :: l2) → threads s !! thr = Some th → proc th = p →
  (∀ q, q ∈ l1 → sig_blocked s (sa_mask th) q) →
  sigqs s !! x = Some sg → blocked_by (sa_mask th) (sq_signal sg) = false →
  ∃ L', dequeue_signal thr s = Ret x (s <| links := L' |>) ∧ sig_inv (s <| links := L' |>) p (l1 ++ l2).
Proof.
  intros HI Et Hp Hbl Ex Hb. pose proof (sg_list _ _ _ HI) as HD.
  pose proof HD as HD1. rewrite fmap_app, fmap_cons in HD1.
  destruct (list_del_spec queue _ _ _ _ _ HD1) as (L'&EL&HD'&_).
  exists L'. split.
  - unfold dequeue_signal. run. run. rewrite Hp.
    destruct (dlist_succ queue _ _ _ HD) as (y&Ey&_&Hy).
    run_with ltac:(apply ask_links_Ret; exact Ey).
    replace y with (default (sigqueue_of p) (head (obj <$> l1 ++ x :: l2))).
    + apply (dequeue_loop_spec s thr th p sg x l2 L' Et Ex Hb EL l1 []); [done..|].
      pose proof (sig_fuel_ok _ _ _ HI) as Hf. rewrite length_app in Hf. cbn in Hf. lia.
    + destruct Hy as [[Hn _]|(l'&Hn)]; [by destruct l1|]. by rewrite Hn.
  - split; fields; [by rewrite fmap_app|]. intros q Hq. apply (sg_alloc _ _ _ HI). set_solver.
Qed.

(** ** Sending *)

(** The run queues [qs]; a thread that waits interruptibly is in none of them. *)
Record wakeable (s : kstate) (qs : list (list Z)) (thr : Z) (th : thread) : Prop := {
  wk_rq : rq_inv s qs;
  wk_waits : states th = THREAD_INT →
    0 < thr ∧ ¬ queued qs thr ∧ is_Some (links s !! runq (obj thr)) ∧ 0 <= PRIOQ (priority_stat th) < 32 }.
(** The run queues and the thread after [noque]. *)
Definition woken (qs : list (list Z)) (thr : Z) (th : thread) : list (list Z) :=
  if states th =? THREAD_INT then let i := Z.to_nat (PRIOQ (priority_stat th)) in <[i := thr :: (qs !!! i)]> qs else qs.
Definition woken_thread (th : thread) : thread :=
  if states th =? THREAD_INT
  then th <| states := THREAD_READY |> <| priority_dyn := priority_stat th |> <| cpu := 0 |> else th.

Lemma noque_spec s qs thr th :
  threads s !! thr = Some th → wakeable s qs thr th →
  ∃ s', noque thr s = Ret 0 s' ∧ rq_inv s' (woken qs thr th) ∧ sched_frame s s' ∧
    threads s' = <[thr := woken_thread th]> (threads s).
Proof.
  intros Et [HI HW]. unfold noque, woken, woken_thread. destruct (Z.eqb_spec (states th) THREAD_INT) as [Hst|Hst].
  - destruct (HW Hst) as (H0&Hq&Hl&Hp). set (i := Z.to_nat (PRIOQ (priority_stat th))).
    destruct (lookup_lt_is_Some_2 qs i) as [l Hi]; [rewrite (rq_len _ _ HI); unfold i; lia|].
    destruct (wakeup_spec s qs thr th i l) as (s'&E&HI'&HF&HT); [done..|unfold i; lia|done|].
    exists s'. split_and!; [|cbv zeta; fold i; by rewrite (list_lookup_total_correct qs i l)|done|done].
    run. rewrite (proj2 (Z.eqb_eq _ _) Hst). by run_with ltac:(exact E).
  - exists s. split_and!; [|done|done|by rewrite insert_id]. run. rewrite (proj2 (Z.eqb_neq _ _) Hst). by run.
Qed.
(** The queues of signals are not seen by the scheduler. *)
Lemma sig_inv_frame s s' p l : 0 < p → sched_frame s s' → sig_inv s p l → sig_inv s' p l.
Proof.
  intros Hp HF [HD HA]. split.
  - eapply dlist_frame; [|exact HD]. intros d Hd. apply (sf_links _ _ HF).
    + intros t ->. unfold cells in Hd. rewrite <- list_fmap_compose, elem_of_cons, list_elem_of_fmap in Hd.
      destruct Hd as [[=]|(y&[=]&_)].
    + intros i ->. unfold cells in Hd. rewrite <- list_fmap_compose, elem_of_cons, list_elem_of_fmap in Hd.
      destruct Hd as [[=]|(y&[= E]&Hy)]; [unfold G_run in *; lia|]. destruct (HA y Hy). unfold G_run in E. lia.
  - intros q Hq. rewrite (sf_field sigqs _ _ (λ _, eq_refl) HF). by apply HA.
Qed.

(** The signal is not queued. *)
Definition dropped (th : thread) (act : sigaction_t) (sig : Z) : bool :=
  blocked_by (sa_mask th) sig || (act_handler act =? SIG_IGN).

Section Send.
Variables (s : kstate) (qs : list (list Z)) (thr : Z) (th : thread) (p : Z) (pr : process) (act : sigaction_t)
  (l : list Z) (sig : Z) (si : option siginfo) (junk : sigqueue).
Hypothesis HI : sig_inv s p l.
Hypothesis HW : wakeable s qs thr th.
Hypothesis Et : threads s !! thr = Some th.
Hypothesis Hp : proc th = p.
Hypothesis Hp0 : 0 < p.
Hypothesis Ep : procs s !! p = Some pr.
Hypothesis Ea : action pr !! Z.to_nat (sig - 1) = Some act.
Hypothesis Hsig : 1 <= sig <= MAX_SIGNAL.

Lemma is_blocked_Ret : is_blocked thr sig s = Ret (blocked_by (sa_mask th) sig) s.
Proof. unfold is_blocked. by run. Qed.
Lemma get_action_Ret : get_action p (sig - 1) s = Ret act s.
Proof. unfold get_action. run. rewrite (proj2 (Z.ltb_ge (sig - 1) 0)) by lia. by rewrite Ea. Qed.
Lemma send_signal_dropped : dropped th act sig = true → send_signal junk thr sig si s = noque thr s.
Proof.
  intros Hd. unfold send_signal. rewrite (proj2 (Z.ltb_ge sig 0)), (proj2 (Z.ltb_ge MAX_SIGNAL sig)) by lia. cbn [orb].
  run_with ltac:(apply is_blocked_Ret). unfold dropped in Hd. destruct (blocked_by _ _); [done|]. cbn [orb] in Hd.
  run. rewrite Hp. run_with ltac:(apply get_action_Ret). by rewrite Hd.
Qed.
(** The routine up to the allocation. *)
Lemma send_signal_kept : dropped th act sig = false →
  send_signal junk thr sig si s =
    (sq ← allocate_sigqueue junk;
     if sq =? 0 then mret (- EAGAIN)
     else
       modify (λ s, s <| sigqs ::= <[sq := mk_sigqueue sig (default (sinfo junk) si)]> |>);;
       enqueue_signal sq p;;
       upd_thread thr (λ th, th <| sigpending := 1 |>);;
       noque thr) s.
Proof.
  intros [Hb Ha]%orb_false_iff. unfold send_signal.
  rewrite (proj2 (Z.ltb_ge sig 0)), (proj2 (Z.ltb_ge MAX_SIGNAL sig)) by lia. cbn [orb].
  run_with ltac:(apply is_blocked_Ret). rewrite Hb. run. rewrite Hp. run_with ltac:(apply get_action_Ret). by rewrite Ha.
Qed.

(** A signal that is kept is in the queue before the thread is woken. *)
Lemma send_signal_queues sq rest : dropped th act sig = false → kmem s = sq :: rest → 0 < sq → sigqs s !! sq = None →
  ∃ L, let s1 := s <| kmem := rest |> <| links := L |> <| sigqs ::= <[sq := mk_sigqueue sig (default (sinfo junk) si)]> |>
                   <| threads ::= <[thr := th <| sigpending := 1 |>]> |> in
    send_signal junk thr sig si s = noque thr s1 ∧ sig_inv s1 p (sq :: l) ∧ wakeable s1 qs thr (th <| sigpending := 1 |>).
Proof.
  intros Hd Hk Hsq Hfr.
  assert (Hnl : sq ∉ l) by (intros Hin; destruct (sg_alloc _ _ _ HI _ Hin) as [_ [? ?]]; congruence).
  set (L0 := <[queue (obj sq) := mk_link NULL NULL]> (links s)).
  assert (HD0 : dlist queue L0 (sigqueue_of p) (obj <$> l)).
  { eapply dlist_frame; [|apply HI]. intros d Hc. unfold L0. rewrite lookup_insert_ne; [done|]. intros <-.
    unfold cells in Hc. rewrite <- list_fmap_compose, elem_of_cons, list_elem_of_fmap in Hc.
    destruct Hc as [[=]|(y&[=->]&Hy)]; done. }
  destruct (list_enqueue_spec queue L0 (sigqueue_of p) (obj <$> l) (obj sq)) as (L1&EL&HD1&_&HF);
    [done|apply (sig_ring p (sq :: l)); apply NoDup_cons; split; [done|by eapply sig_NoDup]| |].
  { unfold L0. rewrite lookup_insert_eq. eauto. }
  assert (HL : ∀ d : ptr, d ≠ sigqueue_of p → (∀ q, 0 < q → d ≠ queue (obj q)) → L1 !! d = links s !! d).
  { intros d H1 H2. rewrite HF; [unfold L0; apply lookup_insert_ne; by apply not_eq_sym, H2|].
    change (obj sq :: (obj <$> l)) with (obj <$> sq :: l). unfold cells.
    rewrite <- list_fmap_compose, elem_of_cons, list_elem_of_fmap. intros [->|(y&->&Hy)]; [done|].
    apply (H2 y); [|done]. apply elem_of_cons in Hy as [->|Hy]; [done|]. by apply (sg_alloc _ _ _ HI). }
  exists L1. cbv zeta. split_and!.
  - rewrite send_signal_kept by done. unfold allocate_sigqueue, kalloc. rewrite bind_assoc.
    unfold mbind at 1, M_bind at 1. rewrite Hk. flat. cbn [foldr].
    change (<[fld F_queue (obj sq) := mk_link NULL NULL]> (links s)) with L0.
    rewrite (proj2 (Z.eqb_neq sq 0)) by lia. do 2 step.
    rewrite (proj2 (Z.eqb_neq sq 0)) by lia. unfold enqueue_signal. do 3 step. flat. by rewrite insert_insert_eq.
  - split; flat; [done|]. intros q [->|Hq]%elem_of_cons; [split; [done|]; rewrite lookup_insert_eq; eauto|].
    destruct (sg_alloc _ _ _ HI q Hq) as [? ?]. split; [done|]. rewrite lookup_insert_is_Some'. auto.
  - destruct HW as [HR HWt]. split.
    + apply (rq_inv_upd (s <| kmem := rest |> <| links := L1 |> <| sigqs ::= <[sq := mk_sigqueue sig (default (sinfo junk) si)]> |>) qs thr th); [|exact Et|reflexivity..].
      assert (HR1 : rq_inv (s <| links := L1 |>) qs).
      { apply rq_inv_links_free; [..|done].
        - intros t _. apply HL; [by intros [=]|]. by intros q _ [=].
        - intros i. apply HL; [intros [=]|intros q Hq [= E]]; unfold G_run in *; lia. }
      destruct HR1 as [H1 H2 H3 H4 H5 H6]. split; assumption.
    + intros Hst. destruct (HWt Hst) as (?&?&?&?). split; [done|]. split; [done|]. split; [|done].
      flat. rewrite HL; [done|by intros [=]|by intros q _ [=]].
Qed.
End Send.

(** What [send_signal] leaves: nothing for a signal that is dropped or cannot be allocated, else
    the signal at the front of the queue; in the first and the last case a thread that waits interruptibly is woken. *)
Lemma send_signal_spec s qs thr th p pr act l sig si junk :
  sig_inv s p l → wakeable s qs thr th → threads s !! thr = Some th → proc th = p → 0 < p → procs s !! p = Some pr →
  action pr !! Z.to_nat (sig - 1) = Some act → 1 <= sig <= MAX_SIGNAL →
  (∀ sq, head (kmem s) = Some sq → 0 < sq ∧ sigqs s !! sq = None) →
  ∃ r s', send_signal junk thr sig si s = Ret r s' ∧ pages s' = pages s ∧ pmaps s' = pmaps s ∧ ptmem s' = ptmem s ∧
    match dropped th act sig, kmem s with
    | true, _ => r = 0 ∧ sig_inv s' p l ∧ sigqs s' = sigqs s ∧
        threads s' = <[thr := woken_thread th]> (threads s) ∧ rq_inv s' (woken qs thr th)
    | false, [] => r = - EAGAIN ∧ s' = s
    | false, sq :: _ => r = 0 ∧ sig_inv s' p (sq :: l) ∧
        sigqs s' = <[sq := mk_sigqueue sig (default (sinfo junk) si)]> (sigqs s) ∧
        threads s' = <[thr := woken_thread (th <| sigpending := 1 |>)]> (threads s) ∧ rq_inv s' (woken qs thr th)
    end.
Proof.
  intros HI HW Et Hp Hp0 Ep Ea Hsig Hk. destruct (dropped th act sig) eqn:Hd.
  - destruct (noque_spec s qs thr th Et HW) as (s'&E&HR&HF&HT). exists 0, s'.
    split_and!; [by rewrite (send_signal_dropped s thr th p pr act)|by apply (sf_field pages)|by apply (sf_field pmaps)|
      by apply (sf_field ptmem)|done|by apply (sig_inv_frame s)|by apply (sf_field sigqs)|done|done].
  - destruct (kmem s) as [|sq rest] eqn:Ek.
    + exists (- EAGAIN), s. split_and!; try done. rewrite (send_signal_kept s thr th p pr act) by done.
      unfold allocate_sigqueue, kalloc. rewrite bind_assoc. unfold mbind at 1, M_bind at 1. by rewrite Ek.
    + destruct (Hk sq eq_refl) as [Hsq Hfr].
      destruct (send_signal_queues s qs thr th p pr act l sig si junk HI HW Et Hp Hp0 Ep Ea Hsig sq rest) as (L&E1&HI1&HW1); [done..|].
      set (s1 := s <| kmem := rest |> <| links := L |> <| sigqs ::= _ |> <| threads ::= _ |>) in *.
      destruct (noque_spec s1 qs thr (th <| sigpending := 1 |>)) as (s'&E2&HR&HF&HT); [apply lookup_insert_eq|done|].
      exists 0, s'. split_and!; [by rewrite E1|by apply (sf_field pages _ _ (λ _, eq_refl) HF)|by apply (sf_field pmaps _ _ (λ _, eq_refl) HF)|
        by apply (sf_field ptmem _ _ (λ _, eq_refl) HF)|done|by apply (sig_inv_frame s1)|by apply (sf_field sigqs _ _ (λ _, eq_refl) HF)| |done].
      rewrite HT. unfold s1. flat. by rewrite insert_insert_eq.
Qed.

(** C34. A signal that the thread neither blocks nor ignores is queued with its
    information and marked pending, and the thread's next [dequeue_signal]
    returns it before every signal sent earlier; taking it restores the queue.  A thread
    that waits interruptibly is made ready and put behind the others of its level; no other thread changes. *)
Theorem signal_newest_first s qs thr th p pr act l sig si junk sq rest :
  sig_inv s p l → wakeable s qs thr th → threads s !! thr = Some th → proc th = p → 0 < p → procs s !! p = Some pr →
  action pr !! Z.to_nat (sig - 1) = Some act → act_handler act ≠ SIG_IGN → 1 <= sig <= MAX_SIGNAL →
  blocked_by (sa_mask th) sig = false → kmem s = sq :: rest → 0 < sq → sigqs s !! sq = None →
  ∃ s1 s2, send_signal junk thr sig si s = Ret 0 s1 ∧ sig_inv s1 p (sq :: l) ∧
    threads s1 = <[thr := woken_thread (th <| sigpending := 1 |>)]> (threads s) ∧ rq_inv s1 (woken qs thr th) ∧
    dequeue_signal thr s1 = Ret sq s2 ∧ sig_inv s2 p l ∧
    sigqs s2 !! sq = Some (mk_sigqueue sig (default (sinfo junk) si)).
Proof.
  intros HI HW Et Hp Hp0 Ep Ea Hact Hsig Hb Hk Hsq Hfr.
  assert (Hd : dropped th act sig = false) by (unfold dropped; rewrite Hb; by apply Z.eqb_neq).
  destruct (send_signal_spec s qs thr th p pr act l sig si junk) as (r&s1&E1&_&_&_&H); [done..| |].
  { rewrite Hk. by intros ? [= <-]. }
  rewrite Hd, Hk in H. destruct H as (->&HI1&Hq1&HT1&HR1).
  destruct (dequeue_signal_spec s1 thr (woken_thread (th <| sigpending := 1 |>)) p [] sq
    (mk_sigqueue sig (default (sinfo junk) si)) l) as (L2&E2&HI2).
  - exact HI1.
  - rewrite HT1. apply lookup_insert_eq.
  - unfold woken_thread. by case_match.
  - by intros q ?%elem_of_nil.
  - rewrite Hq1. apply lookup_insert_eq.
  - unfold woken_thread. by case_match.
  - exists s1, (s1 <| links := L2 |>). split_and!; try done. fields. rewrite Hq1. apply lookup_insert_eq.
Qed.

(** ** Instances of the theorems *)
Definition sigqueue0 : sigqueue := mk_sigqueue 0 (mk_siginfo 0 0 0 0 0 0 0).
(** One signal, at 500, waits for the process of the threads; thread 14000 waits interruptibly. *)
Definition demo_sig : kstate :=
  after (upd_thread 14000 (λ th, th <| states := THREAD_INT |>);; remove_thread 14000)
    (demo_threads <| kmem := [600] |> <| sigqs := {[ 500 := sigqueue0 ]} |>
      <| links ::= λ L, <[sigqueue_of 7000 := mk_link (obj 500) (obj 500)]>
                        (<[queue (obj 500) := mk_link (sigqueue_of 7000) (sigqueue_of 7000)]> L) |>).
Definition sig_qs (l : list Z) : list (list Z) := replicate 10 [] ++ [l] ++ replicate 21 [].
Lemma demo_sig_wakeable : wakeable demo_sig (sig_qs [13000; 12000]) 14000 ((demo_th 14000) <| states := THREAD_INT |>).
Proof.
  split; [evaluate|]. intros _. split; [done|]. split; [|split; [by vm_compute; eexists|vm_compute; intuition congruence]].
  intros (i&l&Hi&Hl). apply (proj1 (Forall_forall (λ l, 14000 ∉ l) (sig_qs [13000; 12000])) ltac:(evaluate) l); [|done].
  by eapply list_elem_of_lookup_2.
Qed.
Lemma signal_newest_first_witness :
  ∃ s1 s2, send_signal sigqueue0 14000 9 None demo_sig = Ret 0 s1 ∧ sig_inv s1 7000 [600; 500] ∧
    rq_inv s1 (sig_qs [14000; 13000; 12000]) ∧ dequeue_signal 14000 s1 = Ret 600 s2 ∧ sig_inv s2 7000 [500].
Proof.
  destruct (signal_newest_first demo_sig (sig_qs [13000; 12000]) 14000 ((demo_th 14000) <| states := THREAD_INT |>) 7000 proc0
    (mk_sigaction 0 0 0) [500] 9 None sigqueue0 600 []) as (s1&s2&H1&H2&_&H3&H4&H5&_).
  - split; [evaluate|apply Forall_forall; evaluate].
  - exact demo_sig_wakeable.
  - vm_compute. reflexivity.
  - vm_compute. reflexivity.
  - lia.
  - vm_compute. reflexivity.
  - reflexivity.
  - discriminate.
  - unfold MAX_SIGNAL. lia.
  - vm_compute. reflexivity.
  - vm_compute. reflexivity.
  - lia.
  - vm_compute. reflexivity.
  - exact (ex_intro _ s1 (ex_intro _ s2 (conj H1 (conj H2 (conj H3 (conj H4 H5)))))).
Defined.
