(* ===== verification/Sync.v ===== *)
(** * Locks

    Models microkernel/kernel/sync.c.  The table [shash] is one page of 1024
    buckets; an index outside it is outside the page.  Threads wait in the
    queue [wq] of a lock through the link they use in the run queues. *)

From S2P Require Import Prelude DList Bits Hash KState Sched Thread.

Notation sync_link := (fld F_sync_link).
Definition syncs_of (p : Z) : ptr := fld F_syncs (obj p).
Definition wq_of (sn : Z) : ptr := fld F_wq (obj sn).

(** [sync_fn(owner, id)] *)
Definition sync_fn (owner id : Z) : Z := s32 (owner * id).
(** [&shash[i]] *)
Definition in_table (i : Z) : bool := (0 <=? i) && (i <? 1024).
Definition shash_get (i : Z) : K Z := if in_table i then gets (λ s, bucket (shash s) i) else fault.
Definition shash_set (i v : Z) : K unit := if in_table i then modify (λ s, s <| shash ::= <[i := v]> |>) else fault.
Definition sync_fuel (s : kstate) : nat := S (size (syncs s)).
Definition same_sync (n : sync) (owner id : Z) : bool := (sn_owner n =? owner) && (sync_id n =? id).

Definition shash_insert (sn : Z) : K unit :=
  n ← deref syncs sn;
  let i := sync_fn (sn_owner n) (sync_id n) in
  b ← shash_get i;
  upd_sync sn (λ n, n <| sn_next := b |>);;
  shash_set i sn.

(** [for(link = p; link->next != NULL; link = link->next)
       if(link->next is s) link->next = s->next;] *)
Fixpoint shash_unlink (fuel : nat) (link sn : Z) : K unit :=
  match fuel with
  | O => spin
  | S fuel =>
      n ← deref syncs sn;
      k ← deref syncs link;
      if sn_next k =? 0 then mret tt
      else
        x ← deref syncs (sn_next k);
        (if same_sync x (sn_owner n) (sync_id n)
         then upd_sync link (λ k, k <| sn_next := sn_next n |>) else mret tt);;
        k ← deref syncs link;
        if sn_next k =? 0 then fault else shash_unlink fuel (sn_next k) sn
  end.
(** The first of the bucket is not unlinked: the assignment is to the local
    variable. *)
Definition shash_remove (sn : Z) : K unit :=
  n ← deref syncs sn;
  p ← shash_get (sync_fn (sn_owner n) (sync_id n));
  k ← deref syncs p;
  if same_sync k (sn_owner n) (sync_id n) then mret tt
  else fuel ← gets sync_fuel; shash_unlink fuel p sn.

(** [for(link=p->next; (link->owner != pid) && (link->sync_id != sync_id); link=link->next)
       if(link->next == NULL) return NULL;] *)
Fixpoint find_sync_loop (fuel : nat) (link owner id : Z) : K Z :=
  match fuel with
  | O => spin
  | S fuel =>
      n ← deref syncs link;
      if negb (sn_owner n =? owner) && negb (sync_id n =? id) then
        if sn_next n =? 0 then mret 0 else find_sync_loop fuel (sn_next n) owner id
      else mret link
  end.
Definition find_sync (owner id : Z) : K Z :=
  p ← shash_get (sync_fn owner id);
  n ← deref syncs p;
  if same_sync n owner id then mret p
  else fuel ← gets sync_fuel; find_sync_loop fuel (sn_next n) owner id.

Definition current_proc : K Z := c ← gets current; th ← get_thread c; mret (proc th).

Definition syscall_sync_create (junk : sync) (type : Z) : K Z :=
  p ← current_proc;
  sn ← kalloc [F_wq; F_sync_link];
  if sn =? 0 then mret (- ENOMEM)
  else
    pr ← get_proc p;
    modify (λ s, s <| syncs ::= <[sn := mk_sync type (sync_flags junk) (s32 (sync_next_id pr)) (pid pr) 0]> |>);;
    upd_proc p (λ pr, pr <| sync_next_id ::= λ i, s32 (i + 1) |>);;
    on_links (list_init (wq_of sn));;
    shash_insert sn;;
    on_links (list_add sync_link (syncs_of p) (obj sn));;
    mret (s32 (sync_next_id pr)).

Definition syscall_sync_destroy (id : Z) : K Z :=
  p ← current_proc; pr ← get_proc p;
  sn ← find_sync (pid pr) id;
  if sn =? 0 then mret (- EINVAL)
  else
    on_links (list_del sync_link (syncs_of p) (obj sn));;
    shash_remove sn;;
    modify (λ s, s <| syncs ::= delete sn |>);;
    mret 0.

Definition syscall_sync_lock (id : Z) : K Z :=
  thr ← gets current; p ← current_proc; pr ← get_proc p;
  sn ← find_sync (pid pr) id;
  if sn =? 0 then mret (- EINVAL)
  else
    upd_thread thr (λ th, th <| states := SYNC_BLOCKED |>);;
    remove_thread thr;;
    on_links (list_enqueue runq (wq_of sn) (obj thr));;
    schedule;;
    mret 0.

Definition syscall_sync_unlock (id : Z) : K Z :=
  p ← current_proc; pr ← get_proc p;
  sn ← find_sync (pid pr) id;
  if sn =? 0 then mret (- EINVAL)
  else
    t ← on_links' (list_dequeue runq (wq_of sn));
    thr ← as_obj t;
    upd_thread thr (λ th, th <| states := THREAD_RUNNING |>);;
    enqueue_thread thr;;
    mret 0.

Fixpoint delete_sync_loop (fuel : nat) (p : Z) : K unit :=
  match fuel with
  | O => spin
  | S fuel =>
      e ← ask_links (list_isempty (syncs_of p));
      if (e : bool) then mret tt
      else
        t ← on_links' (list_dequeue sync_link (syncs_of p));
        sn ← as_obj t;
        if sn =? 0 then mret tt
        else
          shash_remove sn;;
          modify (λ s, s <| syncs ::= delete sn |>);;
          delete_sync_loop fuel p
  end.
Definition delete_sync (p : Z) : K unit := fuel ← gets sync_fuel; delete_sync_loop fuel p.

(** ** Waiting threads *)

(** The links [enqueue_thread] leaves. *)
Lemma enqueue_thread_links s s' t th :
  threads s !! t = Some th → enqueue_thread t s = Ret tt s' →
  list_enqueue runq (run_head (PRIOQ (priority_dyn th))) (obj t) (links s) = Some (links s').
Proof.
  intros Et E. unfold enqueue_thread in E. rewrite (bind_Ret _ _ _ _ _ (get_thread_Ret _ _ _ Et)) in E.
  cbv zeta in E. rewrite (bind_Ret _ _ _ _ _ (modify_Ret _ _)) in E.
  apply bind_Ret_inv in E as ([]&s1&E1&E). unfold on_links in E1. cbn in E1.
  destruct (list_enqueue _ _ _ (links s)) as [L|]; [|done]. injection E1 as <-.
  rewrite (bind_Ret _ _ _ _ _ (gets_Ret _ _)) in E.
  apply bind_Ret_inv in E as (bm&s2&E2&E). destruct (set_bit _ _); [|done]. injection E2 as _ <-.
  rewrite (bind_Ret _ _ _ _ _ (modify_Ret _ _)) in E. unfold upd_thread in E.
  destruct (_ !! t) in E; [|done]. by injection E as <-.
Qed.

(** [sn] is the lock [id] of process [owner]: the first of its bucket, or, when neither the process nor the number
    is 0, the first such lock in the chain of the bucket, whose locks all have the same product of process and number. *)
Inductive found (s : kstate) (owner id sn : Z) : Prop :=
| found_first n :
    in_table (sync_fn owner id) = true → bucket (shash s) (sync_fn owner id) = sn → 0 < sn →
    syncs s !! sn = Some n → same_sync n owner id = true → found s owner id sn
| found_later l1 n l2 :
    in_table (sync_fn owner id) = true → owner * id ≠ 0 → 0 < sn →
    chain sn_next (syncs s) (bucket (shash s) (sync_fn owner id)) (l1 ++ sn :: l2) → NoDup (l1 ++ sn :: l2) →
    (∀ x k, x ∈ l1 → syncs s !! x = Some k → sn_owner k * sync_id k = owner * id ∧ same_sync k owner id = false) →
    syncs s !! sn = Some n → same_sync n owner id = true → found s owner id sn.
Lemma found_pos s owner id sn : found s owner id sn → 0 < sn.
Proof. by intros []. Qed.
(** Of the locks of one bucket, only the lock itself has the same process or the same number. *)
Lemma same_sync_or k owner id : owner * id ≠ 0 → sn_owner k * sync_id k = owner * id →
  same_sync k owner id = false → negb (sn_owner k =? owner) && negb (sync_id k =? id) = true.
Proof.
  intros Hne Hp. unfold same_sync. destruct (Z.eqb_spec (sn_owner k) owner) as [E|E], (Z.eqb_spec (sync_id k) id) as [E'|E'];
    try done; intros _; exfalso; rewrite ?E, ?E' in Hp; [apply E', (Z.mul_reg_l _ _ owner)|apply E, (Z.mul_reg_r _ _ id)]; try done; intros ->; lia.
Qed.
Lemma same_sync_stop k owner id : same_sync k owner id = true → negb (sn_owner k =? owner) && negb (sync_id k =? id) = false.
Proof. unfold same_sync. by destruct (sn_owner k =? owner). Qed.
Lemma find_sync_loop_Ret s owner id sn n l2 : owner * id ≠ 0 → syncs s !! sn = Some n → same_sync n owner id = true →
  ∀ l1 link fuel, chain sn_next (syncs s) link (l1 ++ sn :: l2) → (length l1 < fuel)%nat →
  (∀ x k, x ∈ l1 → syncs s !! x = Some k → sn_owner k * sync_id k = owner * id ∧ same_sync k owner id = false) →
  find_sync_loop fuel link owner id s = Ret sn s.
Proof.
  intros Hne En Hs. induction l1 as [|y l1 IH]; intros link fuel Hc Hf HL; (destruct fuel as [|fuel]; [lia|]); cbn [app] in Hc;
    apply chain_cons in Hc as (->&Hy&k&Ek&Hc); cbn [find_sync_loop]; run_with ltac:(apply deref_Ret; exact Ek).
  - assert (k = n) as -> by congruence. by rewrite same_sync_stop.
  - destruct (HL y k) as [H1 H2]; [by left|done|]. rewrite same_sync_or by done.
    destruct (Z.eqb_spec (sn_next k) 0) as [E|E]; [rewrite E in Hc; apply chain_0 in Hc; by destruct l1|].
    apply IH; [done|cbn in Hf; lia|]. intros x kx Hx. apply HL. by right.
Qed.
Lemma find_sync_Ret s owner id sn : found s owner id sn → find_sync owner id s = Ret sn s.
Proof.
  intros [n Ht Hb _ En Hn|l1 n l2 Ht Hne _ Hc ND HL En Hn]; unfold find_sync, shash_get; rewrite Ht; run.
  { rewrite Hb. run_with ltac:(apply deref_Ret; exact En). by rewrite Hn. }
  pose proof (chain_size sn_next _ _ _ Hc ND) as Hsz. destruct l1 as [|y l1]; cbn [app] in Hc;
    apply chain_cons in Hc as (->&_&k&Ek&Hc); run_with ltac:(apply deref_Ret; exact Ek).
  - assert (k = n) as -> by congruence. by rewrite Hn.
  - destruct (HL y k) as [_ ->]; [by left|done|]. run. apply (find_sync_loop_Ret s owner id sn n l2 Hne En Hn l1); [done| |].
    + unfold sync_fuel. rewrite length_app in Hsz. cbn in Hsz. lia.
    + intros x kx Hx. apply HL. by right.
Qed.
(** The locks of number 0 of all processes are in bucket 0, and the test of the loop stops at any of them: a process
    whose lock is not the first gets the second, whoever owns it. *)
Lemma find_sync_zero_second s owner p y np ny :
  bucket (shash s) 0 = p → syncs s !! p = Some np → sn_owner np ≠ owner → sn_next np = y →
  syncs s !! y = Some ny → sync_id ny = 0 → find_sync owner 0 s = Ret y s.
Proof.
  intros Hb Ep Ho Hy Ey Hid. unfold find_sync, shash_get, sync_fn. rewrite Z.mul_0_r. change (in_table (s32 0)) with true. run.
  change (s32 0) with 0. rewrite Hb. run_with ltac:(apply deref_Ret; exact Ep). unfold same_sync.
  rewrite (proj2 (Z.eqb_neq _ _) Ho). cbn [andb]. run. unfold sync_fuel. cbn [find_sync_loop]. rewrite Hy.
  run_with ltac:(apply deref_Ret; exact Ey). rewrite Hid. by rewrite andb_false_r.
Qed.

Lemma wq_cells sn q d :
  d ∈ cells runq (wq_of sn) (obj <$> q) → d = wq_of sn ∨ ∃ t, t ∈ q ∧ d = runq (obj t).
Proof. unfold cells. rewrite elem_of_cons, <- list_fmap_compose, list_elem_of_fmap. naive_solver. Qed.

(** C35. [syscall_sync_unlock] of a lock of the process, when it is the first of its bucket or has a
    number other than 0, lets the thread that has waited longest for this lock run
    again: it leaves the queue of the lock, is marked running and joins the run
    queue of its priority; the other waiting threads keep their order.  A lock of number 0 behind
    others is excluded: [find_sync_zero_second]. *)
Theorem sync_unlock_wakes_oldest s qs c th pr id sn q x xth i l :
  rq_inv s qs → current s = c → threads s !! c = Some th → procs s !! proc th = Some pr →
  found s (pid pr) id sn → dlist runq (links s) (wq_of sn) (obj <$> q ++ [x]) →
  (∀ t, t ∈ q ++ [x] → 0 < t ∧ ¬ queued qs t) → threads s !! x = Some xth →
  PRIOQ (priority_dyn xth) = Z.of_nat i → qs !! i = Some l →
  ∃ s', syscall_sync_unlock id s = Ret 0 s' ∧ rq_inv s' (<[i := x :: l]> qs) ∧
    dlist runq (links s') (wq_of sn) (obj <$> q) ∧
    threads s' = <[x := xth <| states := THREAD_RUNNING |> <| cpu := 0 |>]> (threads s).
Proof.
  intros HI Hc Ec Ep HF HD Hq Ex Hpr Hi. pose proof (found_pos _ _ _ _ HF) as Hsn.
  destruct (Hq x) as [Hx Hnq]; [set_solver|].
  rewrite fmap_app in HD. destruct (list_dequeue_spec runq _ _ _ _ HD) as (L&EL&HDL&Hdom&HFL).
  assert (HNx : x ∉ q).
  { destruct (dlist_ring _ _ _ _ HD) as [_ ND]. unfold cells in ND. rewrite fmap_app, app_comm_cons, NoDup_app in ND.
    destruct ND as (_&ND&_). intros Hin. apply (ND (runq (obj x))); [|by left]. right.
    apply list_elem_of_fmap_2, list_elem_of_fmap_2. done. }
  set (s1 := s <| links := L |>).
  assert (HI1 : rq_inv s1 qs).
  { apply rq_inv_links_free; [..|done].
    - intros t Ht. apply HFL. intros [[=]|(u&Hu&[= ->])]%wq_cells. by apply (Hq u); [set_solver|].
    - intros j. apply HFL. unfold run_head, G_run, wq_of. intros [[=]|(u&Hu&[=])]%wq_cells; [lia|].
      assert (0 < u) by (apply Hq; set_solver). lia. }
  set (xth1 := xth <| states := THREAD_RUNNING |>). set (s2 := s1 <| threads ::= <[x := xth1]> |>).
  assert (HI2 : rq_inv s2 qs) by (by eapply rq_inv_upd).
  assert (Ex2 : threads s2 !! x = Some xth1) by apply lookup_insert_eq.
  assert (Hl2 : is_Some (links s2 !! runq (obj x))).
  { change (is_Some (L !! runq (obj x))). rewrite <- elem_of_dom, Hdom, elem_of_dom.
    rewrite <- (lnk_item runq (wq_of sn) (obj x)) by (by intros [=]).
    eapply dlist_dom; [exact HD|set_solver]. }
  destruct (enqueue_thread_spec s2 qs x xth1 i l) as (s3&E3&HI3&_&T3); try done.
  assert (HL3 := enqueue_thread_links s2 s3 x xth1 Ex2 E3).
  change (priority_dyn xth1) with (priority_dyn xth) in HL3. rewrite Hpr in HL3.
  exists s3. split_and!.
  - unfold syscall_sync_unlock, current_proc. rewrite !bind_assoc. run. rewrite Hc. rewrite bind_assoc. run. run. run.
    run_with ltac:(by apply find_sync_Ret). rewrite (proj2 (Z.eqb_neq sn 0)) by lia.
    run_with ltac:(apply on_links'_Ret; exact EL). run_with ltac:(apply as_obj_Ret).
    run_with ltac:(apply upd_thread_Ret; exact Ex). by run_with ltac:(exact E3).
  - done.
  - destruct (list_enqueue_spec runq (links s2) (run_head (Z.of_nat i)) (obj <$> l) (obj x)) as (L3&E3'&_&_&HF3).
    { by apply (rq_ring _ _ HI2). }
    { apply (run_ring _ (x :: l)); [apply NoDup_cons; split; [|exact (rq_NoDup _ _ _ _ HI Hi)]|].
      - intros Hin. apply Hnq. by exists i, l.
      - intros t [->|Ht]%elem_of_cons; [done|]. by eapply (rq_mem _ _ HI). }
    { done. }
    rewrite HL3 in E3'. injection E3' as <-. eapply dlist_frame; [|exact HDL].
    intros d Hd. rewrite HF3; [done|]. change (obj x :: (obj <$> l)) with (obj <$> x :: l). rewrite elem_of_run_cells.
    apply wq_cells in Hd as [->|(t&Ht&->)]; unfold wq_of, run_head, G_run; intros [[=]|(u&Hu&[=])]; [lia|..].
    + assert (0 < t) by (apply Hq; set_solver). lia.
    + subst u. apply elem_of_cons in Hu as [->|Hu]; [done|]. apply (Hq t); [set_solver|]. by exists i, l.
  - rewrite T3. unfold s2, s1. fields. by rewrite insert_insert_eq.
Qed.

(** The table has 1024 buckets and its index is not reduced: a lock whose
    process and number have a product outside it is entered outside the page. *)
Lemma sync_create_outside_table s c th pr junk type sn rest :
  current s = c → threads s !! c = Some th → procs s !! proc th = Some pr →
  kmem s = sn :: rest → sn ≠ 0 → in_table (sync_fn (pid pr) (s32 (sync_next_id pr))) = false →
  syscall_sync_create junk type s = Fault.
Proof.
  intros Hc Ec Ep Hk Hsn Hout. unfold syscall_sync_create, current_proc. rewrite !bind_assoc. run. rewrite Hc.
  rewrite bind_assoc. run. run. unfold kalloc. unfold mbind at 1, M_bind at 1. rewrite Hk.
  rewrite (proj2 (Z.eqb_neq sn 0)) by done. flat. cbn [foldr]. do 3 step.
  assert (∃ L, list_init (wq_of sn) (<[fld F_wq (obj sn) := mk_link NULL NULL]>
    (<[fld F_sync_link (obj sn) := mk_link NULL NULL]> (links s))) = Some L) as [L EL].
  { destruct (list_init_spec runq (<[fld F_wq (obj sn) := mk_link NULL NULL]>
      (<[fld F_sync_link (obj sn) := mk_link NULL NULL]> (links s))) (wq_of sn)) as (L&EL&_); [|eauto].
    unfold wq_of. rewrite lookup_insert_eq. eauto. }
  step. unfold shash_insert. rewrite bind_assoc. step. flat. cbv zeta.
  unfold shash_get. rewrite Hout. reflexivity.
Qed.

(** ** Instances of the theorems *)

(** Lock 1 of process 600, behind lock 2 of process 300 in bucket 600; threads 12000 and then 14000 wait for it. *)
Definition as_thread {A} (t : Z) (m : K A) : K A := modify (λ s, s <| current := t |>);; m.
Definition demo_lock : kstate :=
  after (as_thread 12000 (syscall_sync_lock 1);; as_thread 14000 (syscall_sync_lock 1);; as_thread 13000 (mret tt))
    (demo_threads <| syncs := {[ 800 := mk_sync 0 0 1 600 0; 810 := mk_sync 0 0 2 300 800 ]} |> <| shash := {[ 600 := 810 ]} |>
       <| links ::= <[wq_of 800 := mk_link (wq_of 800) (wq_of 800)]> |>).
Definition demo_lock_qs : list (list Z) := replicate 10 [] ++ [[13000]] ++ replicate 21 [].
Lemma demo_found : found demo_lock 600 1 800.
Proof.
  apply (found_later _ _ _ _ [810] (mk_sync 0 0 1 600 0) []); [done|done|done|evaluate|evaluate| |vm_compute; reflexivity|done].
  intros x k [->|[]%elem_of_nil]%elem_of_cons E. vm_compute in E. by injection E as <-.
Qed.

Lemma sync_unlock_wakes_oldest_witness :
  ∃ s', syscall_sync_unlock 1 demo_lock = Ret 0 s' ∧ rq_inv s' (<[10%nat := [12000; 13000]]> demo_lock_qs) ∧
    dlist runq (links s') (wq_of 800) [obj 14000].
Proof.
  destruct (sync_unlock_wakes_oldest demo_lock demo_lock_qs 13000 (default thread0 (threads demo_lock !! 13000))
    proc0 1 800 [14000] 12000 (default thread0 (threads demo_lock !! 12000)) 10 [13000]) as (s'&H1&H2&H3&_).
  - evaluate.
  - vm_compute. reflexivity.
  - vm_compute. reflexivity.
  - vm_compute. reflexivity.
  - exact demo_found.
  - evaluate.
  - apply Forall_forall. evaluate.
  - vm_compute. reflexivity.
  - vm_compute. reflexivity.
  - reflexivity.
  - exact (ex_intro _ s' (conj H1 (conj H2 H3))).
Defined.

(** The third lock of process 600 is entered at index 1200 of 1024. *)
Lemma sync_create_outside_table_witness :
  syscall_sync_create (mk_sync 0 0 0 0 0) 0
    (demo_lock <| procs := {[ 7000 := proc0 <| sync_next_id := 2 |> ]} |> <| kmem := [850] |>) = Fault.
Proof.
  apply (sync_create_outside_table _ 13000 (default thread0 (threads demo_lock !! 13000))
    (proc0 <| sync_next_id := 2 |>) _ _ 850 []); vm_compute; congruence.
Defined.
