(* ===== verification/Timer.v ===== *)
(** * Timers

    Models microkernel/kernel/timer.c.  The list of pending timers has its head
    in the global structure [tmlist], which is itself a struct timer and is in
    the store [timers] at [G_tmlist].  The table [tmhash] is a page that is
    filled with zeros when the system starts and that no routine writes:
    [tmhash_insert] assigns to a local variable.  [delay_nb] only waits. *)

From S2P Require Import Prelude DList Bits Id Hash KState Sched Thread Signal.

Definition TM_SLEEP : Z := 1.
Definition TM_TIMER : Z := 2.
Definition TM_ONESHOT : Z := 4.
Definition TM_NOACTION : Z := 8.
Definition CLOCK_REALTIME : Z := 0.
Definition SIGEV_SIGNAL : Z := 1.
Definition SIGALRM : Z := 2.
Definition u64 (x : Z) : Z := x mod 2 ^ 64.

Notation tlist := (fld F_tlist).
Notation pproc := (fld F_pproc).
Definition tmlist : Z := G_tmlist.
Definition timers_of (p : Z) : ptr := fld F_timer (obj p).
Definition tm_fuel (s : kstate) : nat := S (size (timers s)).

(** ** The hash table: an array of struct timer of 60 bytes in one page *)
Definition zero_timer : timer := mk_timer 0 0 (mk_sigevent 0 0 0) 0 0 0 0 0.
Definition TIMER_SIZEOF : Z := 60.
Definition tmhash_ptr (h : Z) : Z := -1000 - h.
Definition tmhash_at (h : Z) : option timer :=
  if h * TIMER_SIZEOF + TIMER_SIZEOF <=? PAGE_SIZE then Some zero_timer else None.

Definition tmhash_insert (t : Z) : K unit :=
  upd_timer t (λ tm, tm <| tm_hnext := tmhash_ptr (hash_fn (timer_id tm)) |>).

Fixpoint timer_find (fuel : nat) (link id : Z) : K Z :=
  if link =? 0 then mret 0
  else match fuel with
  | O => spin
  | S fuel =>
      tm ← deref timers link;
      if timer_id tm =? id then mret link else timer_find fuel (tm_hnext tm) id
  end.
Definition timer_by_id (id : Z) : K Z :=
  tm ← must (tmhash_at (hash_fn id));
  if timer_id tm =? id then mret (tmhash_ptr (hash_fn id))
  else fuel ← gets tm_fuel; timer_find fuel (tm_hnext tm) id.

(** ** The list of pending timers *)

(** [for(tm = head->next; tm->timeout > item->timeout; tm = tm->next);] *)
Fixpoint skip_later (fuel : nat) (tm limit : Z) : K Z :=
  match fuel with
  | O => spin
  | S fuel =>
      t ← deref timers tm;
      if limit <? timeout t then
        p ← ask_links (rd_next (tlist (obj tm))); n ← as_obj p; skip_later fuel n limit
      else mret tm
  end.
Definition insert_timer_with (fuel : nat) (head item : Z) : K unit :=
  e ← ask_links (list_isempty (tlist (obj head)));
  (if (e : bool) then on_links (list_enqueue tlist (tlist (obj head)) (obj item)) else mret tt);;
  it ← deref timers item;
  p ← ask_links (rd_next (tlist (obj head)));
  first ← as_obj p;
  tm ← skip_later fuel first (timeout it);
  pv ← ask_links (rd_prev (tlist (obj tm)));
  on_links (list_add_next tlist pv (obj item)).
Definition insert_timer (head item : Z) : K unit :=
  fuel ← gets tm_fuel; insert_timer_with fuel head item.

(** ** Creation and deletion *)
Definition timer_create (junk : timer) (jbit : Z) (clk flags : Z) (sig : option sigevent) : K Z :=
  c ← gets current; th ← get_thread c;
  t ← kalloc [F_tlist; F_pproc];
  if t =? 0 then mret (- EAGAIN)
  else
    modify (λ s, s <| timers ::= <[t := junk]> |>);;
    if negb (clk =? CLOCK_REALTIME) then mret (- EINVAL)
    else
      id ← on_ids (alloc_timerid jbit);
      upd_timer t (λ tm, tm <| timer_id := id |> <| clkid := clk |> <| tm_flag := flags |>);;
      upd_timer t (λ tm, tm <| tm_owner := c |>);;
      match sig with
      | None => if flags =? TM_TIMER
                then upd_timer t (λ tm, tm <| sigv := mk_sigevent SIGEV_SIGNAL SIGALRM id |>) else mret tt
      | Some sg => upd_timer t (λ tm, tm <| sigv := sg |>)
      end;;
      on_links (list_add pproc (timers_of (proc th)) (obj t));;
      tmhash_insert t;;
      mret t.

Definition delete_timer (id : Z) : K Z :=
  t ← timer_by_id id;
  if t =? 0 then mret (-1)
  else
    tm ← deref timers t;
    th ← get_thread (tm_owner tm);
    on_links (list_del pproc (timers_of (proc th)) (obj t));;
    modify (λ s, s <| timers ::= delete t |>);;
    mret 0.

Fixpoint exit_timers_loop (fuel : nat) (p : Z) (t : ptr) : K unit :=
  if decide (t = timers_of p) then mret tt
  else match fuel with
  | O => spin
  | S fuel =>
      tm ← as_obj t;
      x ← deref timers tm;
      delete_timer (timer_id x);;
      n ← ask_links (rd_next (pproc t));
      exit_timers_loop fuel p n
  end.
Definition exit_timers (p : Z) : K unit :=
  fuel ← gets tm_fuel;
  t ← ask_links (rd_next (timers_of p));
  exit_timers_loop fuel p t.

(** ** Expiry; [thr] is the local variable that starts as NULL *)
Fixpoint check_loop (fuel : nat) (junk : sigqueue) (thr : Z) : K unit :=
  match fuel with
  | O => spin
  | S fuel =>
      e ← ask_links (list_isempty (tlist (obj tmlist)));
      if (e : bool) then mret tt
      else
        p ← ask_links (last_entry (tlist (obj tmlist)));
        le ← as_obj p;
        t ← deref timers le;
        now ← gets ticks;
        if now <=? timeout t then
          on_links' (list_dequeue tlist (tlist (obj tmlist)));;
          if has (tm_flag t) TM_SLEEP then
            upd_thread (tm_owner t) (λ th, th <| states := THREAD_RUNNING |>);;
            enqueue_thread (tm_owner t);;
            delete_timer (timer_id t);;
            check_loop fuel junk (tm_owner t)
          else if has (tm_flag t) TM_TIMER then
            (if sigev_notify (sigv t) =? SIGEV_SIGNAL then
               th ← get_thread (tm_owner t);
               send_signal_any junk (proc th) (sigev_signo (sigv t)) None;; mret tt
             else mret tt);;
            (if has (tm_flag t) TM_ONESHOT then
               delete_timer (timer_id t);;
               th ← get_thread thr;
               upd_proc (proc th) (λ pr, pr <| alarm := 0 |>)
             else mret tt);;
            if nextarm t =? 0 then check_loop fuel junk thr
            else
              upd_timer le (λ t, t <| timeout ::= λ x, u64 (x + nextarm t) |>);;
              insert_timer tmlist le;;
              check_loop fuel junk thr
          else check_loop fuel junk thr
        else mret tt
  end.
Definition check_timeouts (fuel : nat) (junk : sigqueue) : K unit := check_loop fuel junk 0.

Definition timer_int (fuel : nat) (junk : sigqueue) : K unit :=
  modify (λ s, s <| ticks ::= λ n, u64 (n + 1) |>);;
  check_timeouts fuel junk;;
  sched_timer;;
  schedule.

(** ** Sleeping *)
Record timespec := mk_timespec { tv_sec : Z; tv_nsec : Z }.
Definition timespec_to_tick (tm : timespec) : Z :=
  s32 (tv_sec tm * HZ + Z.quot (Z.quot (tv_nsec tm) 1000000) HZ).

Definition do_nsleep (junk : timer) (jbit : Z) (rqtp : timespec) : K Z :=
  if ((tv_sec rqtp =? 0) && (tv_nsec rqtp =? 0)) || (tv_nsec rqtp <? 0) || (1000000 <? tv_nsec rqtp)
  then mret (- EINVAL)
  else
    t ← timer_create junk jbit CLOCK_REALTIME (Z.lor TM_NOACTION TM_SLEEP) None;
    if s32 t <? 0 then mret (s32 t)
    else
      now ← gets ticks;
      upd_timer t (λ tm, tm <| timeout := u64 (now + timespec_to_tick rqtp) |>);;
      insert_timer tmlist t;;
      c ← gets current;
      upd_thread c (λ th, th <| states := THREAD_INT |>);;
      remove_thread c;;
      schedule;;
      mret 0.

(** The result and the time stored. *)
Definition getresolution (clk : Z) : Z * option timespec :=
  if negb (clk =? CLOCK_REALTIME) then (- EINVAL, None)
  else (0, Some (mk_timespec 0 (Z.quot 1000000000 HZ))).

(** ** Insertion *)

(** The pending timers, the one that expires first last. *)
Definition pending (s : kstate) (l : list Z) : Prop := dlist tlist (links s) (obj tmlist) (obj <$> l).

(** After the first insertion the timer is its own successor. *)
Lemma insert_first s x tx lk :
  pending s [] → timers s !! x = Some tx → 0 < x → links s !! obj x = Some lk →
  ∃ L, insert_timer tmlist x s = Ret tt (s <| links := L |>) ∧
    L !! obj x = Some (mk_link (obj x) (obj tmlist)) ∧ L !! obj tmlist = Some (mk_link (obj x) (obj x)).
Proof.
  intros HD Ex Hx Elk. apply dlist_nil in HD as [Hn Hp]. unfold rd_next, rd_prev in Hn, Hp.
  destruct (links s !! obj tmlist) as [[hn hp]|] eqn:Eh; [|done]. injection Hn as ->. injection Hp as ->.
  assert (Hne : obj x ≠ obj tmlist) by (unfold tmlist, G_tmlist; intros [=]; lia).
  set (L1 := <[obj tmlist := mk_link (obj x) (obj x)]> (<[obj x := mk_link (obj tmlist) (obj tmlist)]> (links s))).
  assert (E1 : list_enqueue tlist (obj tmlist) (obj x) (links s) = Some L1).
  { unfold list_enqueue, rd_next, wr_next, wr_prev. change (tlist (obj x)) with (obj x). rewrite Eh.
    cbn [fmap option_fmap option_map mbind option_bind]. rewrite lookup_insert_ne, Elk by done.
    cbn [mbind option_bind]. rewrite lookup_insert_eq. cbn [mbind option_bind]. rewrite decide_True by done.
    rewrite lookup_insert_ne, lookup_insert_ne, lookup_insert_eq by done. cbn [mbind option_bind]. f_equal.
    unfold L1. rewrite insert_insert_eq. rewrite (insert_insert_ne _ (obj x) (obj tmlist)) by done.
    by rewrite insert_insert_eq. }
  set (L2 := <[obj x := mk_link (obj x) (obj tmlist)]> L1).
  assert (E2 : list_add_next tlist (obj tmlist) (obj x) L1 = Some L2).
  { unfold list_add_next, rd_next, wr_next, wr_prev. change (tlist (obj x)) with (obj x).
    change (tlist (obj tmlist)) with (obj tmlist).
    assert (Eh1 : L1 !! obj tmlist = Some (mk_link (obj x) (obj x))) by apply lookup_insert_eq.
    assert (Ex1 : L1 !! obj x = Some (mk_link (obj tmlist) (obj tmlist)))
      by (unfold L1; by rewrite lookup_insert_ne, lookup_insert_eq).
    rewrite Eh1. cbn [fmap option_fmap option_map mbind option_bind next prev].
    rewrite (insert_id L1 _ _ Eh1), Ex1. cbn [mbind option_bind next prev].
    rewrite lookup_insert_eq. cbn [mbind option_bind next prev]. by rewrite insert_insert_eq. }
  exists L2. split_and!.
  - unfold insert_timer, insert_timer_with. run.
    run_with ltac:(apply ask_links_Ret; unfold list_isempty, rd_next; change (tlist (obj tmlist)) with (obj tmlist);
      rewrite Eh; cbn; rewrite bool_decide_true by done; reflexivity).
    run_with ltac:(apply on_links_Ret; exact E1). run_with ltac:(apply deref_Ret; exact Ex).
    run_with ltac:(apply ask_links_Ret; unfold rd_next; fields; unfold L1; rewrite lookup_insert_eq; reflexivity).
    run_with ltac:(apply as_obj_Ret). unfold tm_fuel.
    run_with ltac:(cbn [skip_later]; run_with ltac:(apply deref_Ret; exact Ex); rewrite Z.ltb_irrefl; reflexivity).
    run_with ltac:(apply ask_links_Ret; unfold rd_prev; fields; unfold L1;
      rewrite lookup_insert_ne, lookup_insert_eq by done; reflexivity).
    rewrite (on_links_Ret _ L2) by exact E2. reflexivity.
  - unfold L2. apply lookup_insert_eq.
  - unfold L2, L1. by rewrite lookup_insert_ne, lookup_insert_eq.
Qed.

(** Inserting the first timer falls through to the insertion after a
    search and links the timer to itself; inserting a second timer that expires
    earlier then never ends, however long it runs. *)
Theorem second_timer_hangs s x y tx ty lk :
  pending s [] → timers s !! x = Some tx → timers s !! y = Some ty → 0 < x →
  links s !! obj x = Some lk → timeout ty < timeout tx →
  ∃ s1, insert_timer tmlist x s = Ret tt s1 ∧ ∀ fuel, insert_timer_with fuel tmlist y s1 = Spin.
Proof.
  intros HD Ex Ey Hx Elk Hlt. destruct (insert_first s x tx lk HD Ex Hx Elk) as (L&E&HLx&HLh).
  eexists. split; [exact E|]. intros fuel.
  assert (Hsp : ∀ n, skip_later n x (timeout ty) (s <| links := L |>) = Spin).
  { induction n as [|n IH]; [reflexivity|]. cbn [skip_later]. run_with ltac:(apply deref_Ret; exact Ex).
    rewrite (proj2 (Z.ltb_lt _ _)) by done.
    run_with ltac:(apply ask_links_Ret; unfold rd_next; change (tlist (obj x)) with (obj x); fields;
      rewrite HLx; reflexivity). run_with ltac:(apply as_obj_Ret). exact IH. }
  unfold insert_timer_with.
  run_with ltac:(apply ask_links_Ret; unfold list_isempty, rd_next; change (tlist (obj tmlist)) with (obj tmlist);
    fields; rewrite HLh; reflexivity).
  rewrite bool_decide_false by (unfold tmlist, G_tmlist; intros [=]; lia). run.
  run_with ltac:(apply deref_Ret; exact Ey).
  run_with ltac:(apply ask_links_Ret; unfold rd_next; change (tlist (obj tmlist)) with (obj tmlist);
    fields; rewrite HLh; reflexivity).
  run_with ltac:(apply as_obj_Ret). unfold mbind, M_bind. by rewrite Hsp.
Qed.

(** ** Expiry *)

(** No timer is ever found by its number. *)
Lemma delete_timer_fails s id :
  id ≠ 0 → is_Some (tmhash_at (hash_fn id)) → delete_timer id s = Ret (-1) s.
Proof.
  intros Hid [t Ht]. unfold tmhash_at in Ht. destruct (_ <=? _) eqn:Eb in Ht; [|done]. injection Ht as <-.
  unfold delete_timer, timer_by_id, tmhash_at. rewrite Eb. rewrite bind_assoc. run.
  change (timer_id zero_timer) with 0. rewrite (proj2 (Z.eqb_neq 0 id)) by congruence.
  rewrite bind_assoc. run. unfold tm_fuel. run. reflexivity.
Qed.

(** The head of the timer list is not a link of the scheduler. *)
Lemma pending_frame s s' : sched_frame s s' → pending s [] → pending s' [].
Proof.
  intros HF HD. eapply dlist_frame; [|exact HD]. intros d Hd. apply (sf_links _ _ HF).
  - intros t ->. apply list_elem_of_singleton in Hd. injection Hd. done.
  - intros i ->. apply list_elem_of_singleton in Hd. unfold run_head, G_run, tmlist, G_tmlist in Hd. injection Hd. lia.
Qed.

(** The test of [check_timeouts] is the wrong way round: a timer whose time
    has passed never fires, and the timer of a sleeping thread fires at the
    next tick although its time is still to come, making the thread run. *)
Theorem timers_fire_early s qs x t oth i l fuel junk :
  timers s !! x = Some t → 0 < x →
  (timeout t < ticks s → ∀ l', pending s (l' ++ [x]) → check_timeouts (S fuel) junk s = Ret tt s) ∧
  (ticks s <= timeout t → pending s [x] → rq_inv s qs → has (tm_flag t) TM_SLEEP = true →
   timer_id t ≠ 0 → is_Some (tmhash_at (hash_fn (timer_id t))) →
   threads s !! tm_owner t = Some oth → 0 < tm_owner t → ¬ queued qs (tm_owner t) →
   is_Some (links s !! runq (obj (tm_owner t))) → PRIOQ (priority_dyn oth) = Z.of_nat i → qs !! i = Some l →
   ∃ s', check_timeouts (S (S fuel)) junk s = Ret tt s' ∧ pending s' [] ∧
     rq_inv s' (<[i := tm_owner t :: l]> qs) ∧
     threads s' = <[tm_owner t := oth <| states := THREAD_RUNNING |> <| cpu := 0 |>]> (threads s)).
Proof.
  intros Ex Hx. split.
  - intros Hlt l' HD. unfold pending in HD. unfold check_timeouts. cbn [check_loop].
    run_with ltac:(apply ask_links_Ret; exact (list_isempty_spec tlist _ _ _ HD)).
    rewrite bool_decide_false by (by destruct l'). rewrite fmap_app in HD. apply dlist_last in HD as [HD _].
    run_with ltac:(apply ask_links_Ret; exact HD). run_with ltac:(apply as_obj_Ret).
    run_with ltac:(apply deref_Ret; exact Ex). run. by rewrite (proj2 (Z.leb_gt _ _)).
  - intros Hle HD HI Hfl Hid Hh Eo Ho Hnq Hlo Hpr Hi. set (o := tm_owner t) in *.
    pose proof (dlist_last tlist (links s) (obj tmlist) [] (obj x) HD) as [Hlast _].
    destruct (list_dequeue_spec tlist (links s) (obj tmlist) [] (obj x) HD) as (L&EL&HDL&Hdom&HFL).
    set (s1 := s <| links := L |>).
    assert (Hrun : ∀ d, (∃ u, d = runq (obj u)) ∨ (∃ j, d = run_head j) → L !! d = links s !! d).
    { intros d Hd. apply HFL. unfold cells. cbn. rewrite !elem_of_cons, elem_of_nil.
      unfold tmlist, G_tmlist, run_head, G_run, obj, fld in *.
      destruct Hd as [[u ->]|[j ->]]; cbn; intros [E|[]]; simplify_eq. }
    assert (HI1 : rq_inv s1 qs).
    { split; unfold s1; fields; try apply HI. intros j lj Hj. eapply dlist_frame; [|by apply (rq_ring _ _ HI)].
      intros d [->|(u&_&->)]%elem_of_run_cells; apply Hrun; eauto. }
    set (oth1 := oth <| states := THREAD_RUNNING |>). set (s2 := s1 <| threads ::= <[o := oth1]> |>).
    assert (HI2 : rq_inv s2 qs) by (by eapply rq_inv_upd).
    destruct (enqueue_thread_spec s2 qs o oth1 i l) as (s3&E3&HI3&HF3&T3); try done.
    { apply lookup_insert_eq. }
    { unfold s2, s1; fields. rewrite Hrun by eauto. done. }
    assert (HP3 : pending s3 []) by (eapply pending_frame; [exact HF3|exact HDL]).
    exists s3. split_and!; [|done|done|rewrite T3; unfold s2, s1; fields; by rewrite insert_insert_eq].
    unfold check_timeouts. cbn [check_loop].
    run_with ltac:(apply ask_links_Ret; exact (list_isempty_spec tlist _ _ _ HD)).
    rewrite bool_decide_false by done.
    run_with ltac:(apply ask_links_Ret; exact Hlast). run_with ltac:(apply as_obj_Ret).
    run_with ltac:(apply deref_Ret; exact Ex). run. rewrite (proj2 (Z.leb_le _ _)) by done.
    run_with ltac:(apply on_links'_Ret; exact EL). rewrite Hfl. fold o.
    run_with ltac:(apply upd_thread_Ret; exact Eo). run_with ltac:(exact E3).
    run_with ltac:(by apply delete_timer_fails).
    run_with ltac:(apply ask_links_Ret; exact (list_isempty_spec tlist _ _ _ HP3)). reflexivity.
Qed.

(** Two timers of thread 4000, which is not running; the first is due at tick 90. *)
Definition demo_timer (id at_ : Z) : timer := mk_timer at_ 0 (mk_sigevent 0 0 0) 4000 TM_SLEEP 0 id 0.
Definition demo_idle_timers : kstate :=
  demo_sched <| ticks := 50 |>
    <| timers := {[ 700 := demo_timer 5 90; 740 := demo_timer 6 80; tmlist := zero_timer ]} |>
    <| links ::= λ l, <[obj tmlist := mk_link (obj tmlist) (obj tmlist)]> (<[obj 700 := mk_link NULL NULL]> l) |>.
Definition demo_pending : kstate :=
  demo_idle_timers <| links ::= λ l,
    <[obj tmlist := mk_link (obj 700) (obj 700)]> (<[obj 700 := mk_link (obj tmlist) (obj tmlist)]> l) |>.

Lemma second_timer_hangs_witness :
  ∃ s1, insert_timer tmlist 700 demo_idle_timers = Ret tt s1 ∧
    ∀ fuel, insert_timer_with fuel tmlist 740 s1 = Spin.
Proof.
  apply (second_timer_hangs demo_idle_timers 700 740 (demo_timer 5 90) (demo_timer 6 80) (mk_link NULL NULL)).
  - evaluate.
  - vm_compute. reflexivity.
  - vm_compute. reflexivity.
  - lia.
  - vm_compute. reflexivity.
  - reflexivity.
Defined.

Lemma timers_fire_early_witness :
  check_timeouts 1 (mk_sigqueue 0 (mk_siginfo 0 0 0 0 0 0 0)) (demo_pending <| ticks := 91 |>)
    = Ret tt (demo_pending <| ticks := 91 |>) ∧
  ∃ s', check_timeouts 2 (mk_sigqueue 0 (mk_siginfo 0 0 0 0 0 0 0)) demo_pending = Ret tt s' ∧
    rq_inv s' (<[10%nat := [4000; 3000; 2000]]> demo_qs).
Proof.
  set (junk := mk_sigqueue 0 (mk_siginfo 0 0 0 0 0 0 0)). split.
  - destruct (timers_fire_early (demo_pending <| ticks := 91 |>) demo_qs 700 (demo_timer 5 90) thread0 10 [3000; 2000]
      0 junk) as [H _]; [vm_compute; reflexivity|lia|]. apply (H eq_refl []). evaluate.
  - destruct (timers_fire_early demo_pending demo_qs 700 (demo_timer 5 90) thread0 10 [3000; 2000] 0 junk)
      as [_ H]; [vm_compute; reflexivity|lia|].
    destruct H as (s'&H1&_&H2&_); [vm_compute; discriminate|evaluate|evaluate|reflexivity|discriminate
      |vm_compute; by eexists|vm_compute; reflexivity|reflexivity|evaluate|vm_compute; by eexists|reflexivity|reflexivity|].
    exact (ex_intro _ s' (conj H1 H2)).
Defined.
