(* ===== verification/Process.v ===== *)
(** * Processes

    Models microkernel/kernel/process.c with the inline helpers of process.h
    and info.h, [get_clock] of timer.c, and [sched_get] and [sched_set] of
    scheduling.c.  The member [child] of a process is both the head of the list
    of its children and its own link in the list of its parent: the two are one
    cell of the store.  [junk] arguments are the contents of recycled
    structures; [fuel] is passed to the page-table code. *)

From S2P Require Import Prelude DList Bits Id Hash KState Sched Thread VmPage Pmap VmMap Fd Signal Sync Timer.

Definition DUP_SHARE : Z := 2.
Definition PROCESS_ACTIVE : Z := 1.
Definition PROCESS_ZOMBIE : Z := 2.
Definition STAT_VFORKED : Z := 8.
Definition WNOHANG : Z := 1.
Definition WIFEXIT : Z := 0x010000.
Definition SA_NOCLDWAIT : Z := 0x20.
Definition sysinfo_proclist : ptr := obj G_proclist.

Notation child := (fld F_child).
Notation proclist := (fld F_proclist).
Definition proc_fuel (s : kstate) : nat := S (size (procs s)).

(** ** The hash table *)
Definition phash_insert (process : Z) : K unit :=
  p ← get_proc process;
  let h := hash_fn (pid p) in
  b ← gets (λ s, bucket (phash s) h);
  upd_proc process (λ p, p <| p_next := b |>);;
  modify (λ s, s <| phash ::= <[h := process]> |>).

(** [for(link=p; (link->next!=process) || (link->next != NULL); link = link->next);] *)
Fixpoint phash_walk (fuel : nat) (link process : Z) : K Z :=
  match fuel with
  | O => spin
  | S fuel =>
      l ← get_proc link;
      if negb (p_next l =? process) || negb (p_next l =? 0) then phash_walk fuel (p_next l) process
      else mret link
  end.
(** In the first branch only the local variable [p] is assigned. *)
Definition phash_remove (process : Z) : K unit :=
  pr ← get_proc process;
  b ← gets (λ s, bucket (phash s) (hash_fn (pid pr)));
  if b =? process then mret tt
  else
    fuel ← gets proc_fuel;
    link ← phash_walk fuel b process;
    pr ← get_proc process;
    upd_proc link (λ l, l <| p_next := p_next pr |>).

(** [for(link=p->next; link->pid!=pid; link=link->next) if(link->next == NULL) goto errp;] *)
Fixpoint find_pid_loop (fuel : nat) (link id : Z) : K Z :=
  match fuel with
  | O => spin
  | S fuel =>
      l ← get_proc link;
      if pid l =? id then mret link
      else if p_next l =? 0 then mret 0
      else find_pid_loop fuel (p_next l) id
  end.
Definition find_by_pid (id : Z) : K Z :=
  b ← gets (λ s, bucket (phash s) (hash_fn id));
  p ← get_proc b;
  if pid p =? id then mret b
  else fuel ← gets proc_fuel; find_pid_loop fuel (p_next p) id.

Definition change_pid (process new : Z) : K unit :=
  p ← get_proc process;
  on_ids (dealloc_pid (pid p));;
  upd_proc process (λ p, p <| pid := new |>);;
  phash_insert process.

(** ** Children *)
Definition have_threads (p : Z) : K bool := e ← ask_links (list_isempty (threads_of p)); mret (negb e).
Definition have_children (p : Z) : K bool := e ← ask_links (list_isempty (child (obj p))); mret (negb e).

Fixpoint zombie_loop (fuel : nat) (p : Z) (c : ptr) : K Z :=
  if decide (c = child (obj p)) then mret 0
  else match fuel with
  | O => spin
  | S fuel =>
      ch ← as_obj c;
      if ch =? 0 then mret 0
      else
        pr ← get_proc ch;
        if has (p_status pr) PROCESS_ZOMBIE then mret ch
        else n ← ask_links (rd_next (child c)); zombie_loop fuel p n
  end.
Definition get_zombie_child (p : Z) : K Z :=
  fuel ← gets proc_fuel;
  c ← ask_links (rd_next (child (obj p)));
  zombie_loop fuel p c.

(** The loop of [get_childs_utime] and [get_childs_stime]. *)
Fixpoint sum_loop (fuel : nat) (time : process → Z) (p : Z) (c : ptr) (total : Z) : K Z :=
  if decide (c = child (obj p)) then mret total
  else match fuel with
  | O => spin
  | S fuel =>
      ch ← as_obj c;
      pr ← get_proc ch;
      n ← ask_links (rd_next (child c));
      sum_loop fuel time p n (s32 (total + time pr))
  end.
Definition get_childs (time : process → Z) (p : Z) : K Z :=
  e ← ask_links (list_isempty (child (obj p)));
  if (e : bool) then mret 0
  else
    fuel ← gets proc_fuel;
    c ← ask_links (rd_next (child (obj p)));
    sum_loop fuel time p c 0.
Definition get_childs_utime : Z → K Z := get_childs user_time.
Definition get_childs_stime : Z → K Z := get_childs system_time.

(** struct tms and the result of [get_clock] (timer.c) *)
Record tms := mk_tms { tms_utime : Z; tms_stime : Z; tms_cutime : Z; tms_cstime : Z }.
Definition get_clock : K (Z * tms) :=
  p ← current_proc;
  pr ← get_proc p;
  cu ← get_childs_utime p;
  cs ← get_childs_stime p;
  mret (s32 (user_time pr + system_time pr), mk_tms (user_time pr) (system_time pr) cu cs).

(** ** info.h *)
Definition sysinfo_add_process (p : Z) : K unit :=
  modify (λ s, s <| total_process ::= λ n, s32 (n + 1) |>);;
  on_links (list_add proclist sysinfo_proclist (obj p)).
Definition sysinfo_del_process (p : Z) : K unit :=
  modify (λ s, s <| total_process ::= λ n, s32 (n - 1) |>);;
  on_links (list_del proclist sysinfo_proclist (obj p)).

(** ** Creation *)

(** [kmem_cache_free(process_cache, process)] *)
Definition process_free (process : Z) : K unit :=
  get_proc process;; modify (λ s, s <| procs ::= delete process |>).

(** The new structure is a copy of the parent's; its links are all set below. *)
Definition copy_process (par : Z) : K Z :=
  p ← kalloc [F_threads; F_child; F_proclist; F_timer; F_sigqueue; F_syncs];
  if p =? 0 then mret 0
  else pr ← get_proc par; modify (λ s, s <| procs ::= <[p := pr]> |>);; mret p.

Definition init_heads (p : Z) : K unit :=
  list_init_at (threads_of p);;
  list_init_at (sigqueue_of p);;
  list_init_at (timers_of p);;
  list_init_at (child (obj p));;
  list_init_at (syncs_of p).

(** The members of [attr] other than the policy and the priority are not set. *)
Definition dup_thread (junk : thread) (ajunk : thread_attr) (jbit : Z) (new_process : Z) : K Z :=
  c ← gets current;
  par ← get_thread c;
  chld ← create_thread junk jbit new_process
    (Some (ajunk <| attr_policy := schedpolicy par |> <| attr_prio := priority_stat par |>));
  mret (if chld =? 0 then -1 else 0).

Record recycled := mk_recycled {
  r_thread : thread; r_attr : thread_attr; r_file : file; r_map : vmmap; r_entry : vm_map_entry;
  r_pdbr : Z; r_pbit : Z; r_tbit : Z }.

Definition do_fork (fuel : nat) (j : recycled) (par flag : Z) : K Z :=
  p ← copy_process par;
  if p =? 0 then mret (- ENOMEM)
  else
    id ← on_ids (alloc_pid (r_pbit j));
    upd_proc p (λ x, x <| parent := par |> <| pid := id |> <| start_time := 0 |>);;
    upd_proc p (λ x, x <| user_time := 0 |> <| system_time := 0 |> <| alarm := 0 |>);;
    init_heads p;;
    on_links (list_add child (child (obj par)) (obj p));;
    sysinfo_add_process p;;
    ret ← fd_fork (r_file j) p par;
    if ret <? 0 then process_free p;; mret ret
    else
      init_signals p;;
      phash_insert p;;
      list_init_at (threads_of p);;
      if has flag DUP_SHARE then
        pr ← get_proc par;
        upd_vmap (p_map pr) (λ m, m <| ref_count ::= λ n, s32 (n + 1) |>);;
        upd_proc p (λ x, x <| p_status := STAT_VFORKED |>);;
        dup_thread (r_thread j) (r_attr j) (r_tbit j) p;;
        upd_proc p (λ x, x <| p_flag := flag |>);;
        mret p
      else
        pr ← get_proc par;
        map ← vm_map_fork fuel (r_map j) (r_entry j) (r_pdbr j) (p_map pr) flag;
        upd_proc p (λ x, x <| p_map := map |>);;
        if map =? 0 then process_free p;; mret (- ENOMEM)
        else
          dup_thread (r_thread j) (r_attr j) (r_tbit j) p;;
          upd_proc p (λ x, x <| p_flag := flag |>);;
          mret p.

(** The table of descriptors after [strcpy] of "/" and [memset] of 32 slots. *)
Definition spawn_fd (fd : fd_t) : fd_t :=
  fd <| fd_max := MAX_DEF_FD |> <| fd_hint := 0 |> <| fd_bitmap := 0 |>
     <| cwdstr ::= λ c, <[0%nat := 47]> (<[1%nat := 0]> c) |>
     <| fileptr ::= λ l, replicate 32 0 ++ drop 32 l |>.

Definition do_spawn (fuel : nat) (j : recycled) (par : Z) (at_ : option thread_attr) : K Z :=
  p ← copy_process par;
  if p =? 0 then mret (- ENOMEM)
  else
    id ← on_ids (alloc_pid (r_pbit j));
    upd_proc p (λ x, x <| parent := par |> <| pid := id |> <| start_time := 0 |>);;
    upd_proc p (λ x, x <| user_time := 0 |> <| system_time := 0 |> <| p_status := PROCESS_ACTIVE |>);;
    init_heads p;;
    on_links (list_add child (child (obj par)) (obj p));;
    sysinfo_add_process p;;
    upd_fd p spawn_fd;;
    init_signals p;;
    phash_insert p;;
    pr ← get_proc par;
    map ← vm_map_fork fuel (r_map j) (r_entry j) (r_pdbr j) (p_map pr) DUP_NONE;
    upd_proc p (λ x, x <| p_map := map |>);;
    thread ← create_thread (r_thread j) (r_tbit j) p at_;
    if map =? 0 then mret (- ENOMEM)
    else enqueue_thread thread;; mret p.

(** ** Waiting: the result and the status stored *)
Definition waitpid (id flags : Z) : K (Z * option Z) :=
  thr ← gets current;
  th ← get_thread thr;
  let p := proc th in
  h ← have_children p;
  if negb h then mret (- ECHILD, None)
  else
    chld ← (if 0 <? id then
              c ← find_by_pid id;
              if c =? 0 then mret None
              else pr ← get_proc c; mret (if parent pr =? p then Some c else None)
            else mret (Some 0));
    match chld with
    | None => mret (- ECHILD, None)
    | Some chld =>
        z ← (if chld =? 0 then mret false else pr ← get_proc chld; mret (p_status pr =? PROCESS_ZOMBIE));
        if (z : bool) then
          pr ← get_proc chld;
          on_links (list_del child (child (obj p)) (obj chld));;
          process_free chld;;
          mret (pid pr, Some (exit_status pr))
        else if has flags WNOHANG then mret (- ECHILD, None)
        else
          h ← have_children p;
          if negb h then mret (- ECHILD, None)
          else
            th ← get_thread thr;
            (if sigpending th =? 0 then sleep_interruptible thr else mret tt);;
            mret (0, None)
    end.

(** ** Exit *)
Definition syscall_exit (tm_junk : sigqueue) (status : Z) : K Z :=
  thr ← gets current;
  th ← get_thread thr;
  let p := proc th in
  phash_remove p;;
  delete_sync p;;
  exit_timers p;;
  exit_signals p;;
  pr ← get_proc p;
  on_ids (dealloc_pid (pid pr));;
  fd_free p;;
  sysinfo_del_process p;;
  upd_thread thr (λ th, th <| states := PROCESS_EXITING |>);;
  exit_threads (threads_of p);;
  remove_thread thr;;
  sig ← get_action p (SIGCHLD - 1);
  (if has (act_flags sig) SA_NOCLDWAIT || (act_handler sig =? SIG_IGN) then mret tt
   else
     upd_proc p (λ x, x <| exit_status ::= λ e, Z.lor (Z.lor e (Z.land status 0xFF)) WIFEXIT |>
       <| p_status ::= λ n, Z.lor n PROCESS_ZOMBIE |>);;
     pr ← get_proc p;
     send_signal_any tm_junk (parent pr) SIGCHLD None;;
     destroy_thread thr;; mret tt);;
  pr ← get_proc p;
  (if has (p_status pr) STAT_VFORKED then
     upd_proc p (λ x, x <| p_status ::= λ n, Z.land n (not32 STAT_VFORKED) |>);;
     get_proc (parent pr);;
     q ← ask_links (rd_next (threads_of (parent pr)));
     par ← as_obj q;
     enqueue_thread par;;
     upd_vmap (p_map pr) (λ m, m <| ref_count ::= λ n, s32 (n - 1) |>)
   else exit_vm_map (p_map pr));;
  m ← deref vmaps (p_map pr);
  (if ref_count m =? 0 then pmap_destroy (m_pmap m);; vm_map_destroy (p_map pr) else mret tt);;
  destroy_thread thr;;
  pr ← get_proc p;
  (if has (p_status pr) PROCESS_ZOMBIE then process_free p else mret tt);;
  schedule;;
  panic.

(** ** Identities *)
Definition get_main_thread (p : Z) : K Z := t ← ask_links (last_entry (threads_of p)); as_obj t.
Definition get_uid (p : Z) : K Z := pr ← get_proc p; mret (uid pr).
Definition get_euid (p : Z) : K Z := pr ← get_proc p; mret (euid pr).
Definition get_gid (p : Z) : K Z := pr ← get_proc p; mret (gid pr).
Definition get_egid (p : Z) : K Z := pr ← get_proc p; mret (egid pr).
Definition set_pgrp (p : Z) : K unit :=
  upd_proc p (λ x, x <| gid := pid x |>);;
  upd_proc p (λ x, x <| egid := pid x |>);;
  pr ← get_proc p;
  if negb (session pr =? pid pr) then upd_proc p (λ x, x <| session := pid x |>) else mret tt.
Definition set_uid (p u : Z) : K unit := upd_proc p (λ x, x <| uid := u |> <| euid := u |>).
Definition set_euid (p u : Z) : K unit :=
  pr ← get_proc p;
  ok ← (if u =? uid pr then mret true else superuser);
  if (ok : bool) then upd_proc p (λ x, x <| euid := u |>) else mret tt.
Definition set_egid (p g : Z) : K unit :=
  pr ← get_proc p;
  ok ← (if g =? gid pr then mret true else superuser);
  if (ok : bool) then upd_proc p (λ x, x <| egid := g |>) else mret tt.

Definition syscall_getpid (id : Z) : K Z :=
  let own := (p ← current_proc; pr ← get_proc p; mret (pid pr)) in
  if id =? 0 then own
  else
    thr ← find_by_tid id;
    if thr =? 0 then own
    else th ← get_thread thr; pr ← get_proc (proc th); mret (pid pr).
Definition syscall_getppid : K Z :=
  p ← current_proc; pr ← get_proc p; pp ← get_proc (parent pr); mret (pid pp).

(** ** Scheduling parameters (scheduling.c) *)
Definition sched_target (id flag : Z) : K Z :=
  if id =? 0 then gets current
  else if flag =? ID_THREAD then find_by_tid id
  else p ← find_by_pid id; get_main_thread p.
(** The result and the priority stored. *)
Definition sched_get (id flag : Z) : K (Z * option Z) :=
  su ← superuser;
  if negb su then mret (- EPERM, None)
  else
    thr ← sched_target id flag;
    th ← get_thread thr;
    mret (schedpolicy th, Some (priority_stat th)).
Definition sched_set (id pol : Z) (parm : option Z) (flag : Z) : K Z :=
  if SCHED_OTHER <? pol then mret (-1)
  else
  prio ← must parm;
  if (MIN_PRIO <? prio) || (prio <? MAX_PRIO) then mret (-1)
  else
    thr ← sched_target id flag;
    su ← superuser;
    if negb su then mret (- EPERM)
    else
      remove_thread thr;;
      (if pol =? 0 then mret tt
       else upd_thread thr (λ th, th <| attr ::= λ a, a <| attr_policy := pol |> |>));;
      upd_thread thr (λ th, th <| attr ::= λ a, a <| attr_prio := prio |> |> <| priority_dyn := prio |>
        <| bound := 0 |>);;
      enqueue_thread thr;;
      th ← get_thread thr;
      mret (schedpolicy th).

(** ** The hash table of processes *)
Definition pkey (p : process) : Z := hash_fn (pid p).
Definition phash_inv (s : kstate) (tb : gmap Z (list Z)) : Prop :=
  table p_next pkey (procs s) (phash s) tb.

Lemma proc_fuel_ok s tb h : phash_inv s tb → (length (chain_of tb h) < proc_fuel s)%nat.
Proof.
  intros HI. unfold proc_fuel. pose proof (chain_size p_next _ _ _ (tab_chain _ _ _ _ _ HI h) (tab_NoDup _ _ _ _ _ HI h)).
  lia.
Qed.

(** The condition of the walk never ends it. *)
Lemma phash_walk_faults s x : x ≠ 0 → procs s !! 0 = None → ∀ l fuel p,
  chain p_next (procs s) p l → (length l < fuel)%nat → phash_walk fuel p x s = Fault.
Proof.
  intros Hx H0. induction l as [|y l IH]; intros fuel p Hc Hf; (destruct fuel as [|fuel]; [cbn in Hf; lia|]);
    cbn [phash_walk].
  - rewrite chain_nil in Hc. subst. unfold mbind, M_bind, get_proc. by rewrite H0.
  - rewrite chain_cons in Hc. destruct Hc as (->&Hy&n&En&Hc). run.
    assert (negb (p_next n =? x) || negb (p_next n =? 0) = true) as ->.
    { destruct (Z.eqb_spec (p_next n) x), (Z.eqb_spec (p_next n) 0); cbn; congruence. }
    apply IH; [done|cbn in Hf; lia].
Qed.

Lemma phash_remove_spec s tb x pr :
  phash_inv s tb → procs s !! x = Some pr →
  phash_remove x s = if bucket (phash s) (hash_fn (pid pr)) =? x then Ret tt s else Fault.
Proof.
  intros HI E. unfold phash_remove. run. run. destruct (_ =? x); [done|]. run.
  unfold mbind, M_bind.
  rewrite (phash_walk_faults s x (tab_not_null _ _ _ _ _ _ _ HI E) (tab_null _ _ _ _ _ HI)
    (chain_of tb (hash_fn (pid pr)))); [done|apply HI|by eapply proc_fuel_ok].
Qed.

Lemma find_pid_loop_spec s id x pr : procs s !! x = Some pr → pid pr = id → ∀ l1 fuel p l2,
  chain p_next (procs s) p (l1 ++ x :: l2) → (length (l1 ++ x :: l2) < fuel)%nat →
  (∀ y pry, y ∈ l1 → procs s !! y = Some pry → pid pry ≠ id) →
  find_pid_loop fuel p id s = Ret x s.
Proof.
  intros E Hid. induction l1 as [|y l1 IH]; intros fuel p l2 Hc Hf Hne; cbn [app] in *;
    (destruct fuel as [|fuel]; [cbn in Hf; lia|]); cbn [find_pid_loop];
    rewrite chain_cons in Hc; destruct Hc as (->&Hy&n&En&Hc); run.
  - simplify_eq. by rewrite Z.eqb_refl.
  - rewrite (proj2 (Z.eqb_neq (pid n) id)) by (eapply Hne; [by left|done]).
    assert (p_next n ≠ 0). { intros E0. rewrite E0 in Hc. apply chain_0 in Hc. by destruct l1. }
    rewrite (proj2 (Z.eqb_neq (p_next n) 0)) by done.
    eapply IH; [done|cbn in Hf; lia|]. intros z prz Hz. apply Hne. by right.
Qed.

Lemma find_by_pid_hit s tb x pr :
  phash_inv s tb → hashed tb x → procs s !! x = Some pr →
  (∀ y pry, hashed tb y → procs s !! y = Some pry → pid pry = pid pr → y = x) →
  find_by_pid (pid pr) s = Ret x s.
Proof.
  intros HI [h Hx] E Hu. pose proof (tab_bucket _ _ _ _ _ _ _ _ HI Hx E) as ->. fold (pkey pr) in *.
  pose proof (tab_chain _ _ _ _ _ HI (pkey pr)) as Hc. pose proof (tab_NoDup _ _ _ _ _ HI (pkey pr)) as ND.
  pose proof (proc_fuel_ok s tb (pkey pr) HI) as Hf.
  assert (Hh : ∀ y, y ∈ chain_of tb (pkey pr) → hashed tb y) by (intros y; by exists (pkey pr)).
  apply list_elem_of_split in Hx as (l1&l2&El). rewrite El in *. unfold find_by_pid. run.
  fold (pkey pr). destruct l1 as [|y l1]; cbn [app] in *; rewrite chain_cons in Hc; destruct Hc as (->&Hy&n&En&Hc); run.
  - simplify_eq. by rewrite Z.eqb_refl.
  - apply NoDup_cons in ND as [Hy1 ND]. rewrite (proj2 (Z.eqb_neq (pid n) (pid pr))).
    2:{ intros Ep. assert (y = x) as -> by (eapply Hu; [apply Hh; by left|done|done]). set_solver. }
    run. eapply (find_pid_loop_spec s (pid pr) x pr E eq_refl l1); [done|cbn in Hf; lia|].
    intros z prz Hz Ez Ep. assert (z = x) as -> by (eapply Hu; [apply Hh; set_solver|done|done]).
    apply NoDup_middle in ND as [ND _]. set_solver.
Qed.

(** [phash_remove] never takes a process out of the table: if the process
    is the first of its bucket nothing changes and [find_by_pid] still finds it;
    if not, the search runs off the end of the bucket. *)
Theorem phash_remove_keeps s tb x pr :
  phash_inv s tb → hashed tb x → procs s !! x = Some pr →
  (∀ y pry, hashed tb y → procs s !! y = Some pry → pid pry = pid pr → y = x) →
  find_by_pid (pid pr) s = Ret x s ∧
  phash_remove x s = if bucket (phash s) (hash_fn (pid pr)) =? x then Ret tt s else Fault.
Proof. intros HI Hh E Hu. split; [by eapply find_by_pid_hit|by eapply phash_remove_spec]. Qed.

(** ** Children *)

(** The list of the children of a process [p] that has a parent is the rest of
    the list of its parent, so that the walk leaves the structures. *)
Lemma child_walk_faults s time par p : p ≠ par → ∀ l l1 fuel total,
  dlist child (links s) (child (obj par)) (obj <$> l1 ++ l) → p ∉ l →
  Forall (λ c, is_Some (procs s !! c)) l → (length l < fuel)%nat →
  sum_loop fuel time p (default (child (obj par)) (head (obj <$> l))) total s = Fault.
Proof.
  intros Hp. induction l as [|c l IH]; intros l1 fuel total HD Hpl HF Hfu;
    (destruct fuel as [|fuel]; [cbn in Hfu; lia|]); cbn [sum_loop fmap list_fmap head default].
  - rewrite decide_False by (intros [=]; congruence). reflexivity.
  - rewrite decide_False by (intros [=]; unfold F_child in *; lia).
    apply not_elem_of_cons in Hpl as [_ Hpl]. apply Forall_cons in HF as [[prc Ec] HF].
    run_with ltac:(apply as_obj_Ret). run.
    assert (HD' : dlist child (links s) (child (obj par)) ((obj <$> l1) ++ obj c :: (obj <$> l)))
      by (by rewrite fmap_app in HD).
    apply dlist_next in HD'.
    run_with ltac:(apply ask_links_Ret; exact HD').
    apply (IH (l1 ++ [c])); [by rewrite <- app_assoc|done|done|cbn in Hfu; lia].
Qed.

(** [sched_set] rejects every priority: none is both at most 4 and at least 127. *)
Lemma sched_set_rejects s id pol prio flag : sched_set id pol (Some prio) flag s = Ret (-1) s.
Proof.
  unfold sched_set. destruct (_ <? _); [done|]. run. unfold MIN_PRIO, MAX_PRIO, PRIO_OTHER_MIN, PRIO_RT_MAX.
  destruct (Z.ltb_spec 4 prio), (Z.ltb_spec prio 127); cbn; (done || lia).
Qed.

(** A process that has a parent cannot add up the times of its children. *)
Lemma get_childs_faults s time par p l1 l2 :
  dlist child (links s) (child (obj par)) (obj <$> l1 ++ p :: l2) → p ≠ par → p ∉ l2 → NoDup l2 →
  Forall (λ c, is_Some (procs s !! c)) l2 → get_childs time p s = Fault.
Proof.
  intros HD Hp Hp2 ND HF.
  assert (Hn : rd_next (child (obj p)) (links s) = Some (default (child (obj par)) (head (obj <$> l2)))).
  { rewrite fmap_app in HD. exact (dlist_next child _ _ _ _ _ HD). }
  unfold get_childs.
  run_with ltac:(apply ask_links_Ret; unfold list_isempty; rewrite Hn; reflexivity).
  rewrite bool_decide_false by (destruct l2; cbn; unfold child, obj, fld, F_child; intros [=]; (lia || congruence)).
  run. run_with ltac:(apply ask_links_Ret; exact Hn).
  apply (child_walk_faults s time par p Hp l2 (l1 ++ [p])); [by rewrite <- app_assoc|done|done|].
  unfold proc_fuel. rewrite <- size_dom, <- (size_list_to_set (C := gset Z) l2) by done.
  apply le_n_S, subseteq_size. intros x Hx%elem_of_list_to_set. rewrite Forall_forall in HF.
  by apply elem_of_dom, HF.
Qed.

(** Processes 500 and 1520 share bucket 501 of the table. *)
Definition demo_ph : kstate :=
  k0 <| procs := {[ 7000 := proc0 <| pid := 500 |>; 7500 := proc0 <| pid := 1520 |> <| p_next := 7000 |> ]} |>
     <| phash := {[ hash_fn 500 := 7500 ]} |>.

Lemma phash_remove_keeps_witness :
  (find_by_pid 1520 demo_ph = Ret 7500 demo_ph ∧ phash_remove 7500 demo_ph = Ret tt demo_ph) ∧
  (find_by_pid 500 demo_ph = Ret 7000 demo_ph ∧ phash_remove 7000 demo_ph = Fault).
Proof.
  assert (HI : phash_inv demo_ph {[ hash_fn 500 := [7500; 7000] ]}) by (apply table_if_ok; evaluate).
  assert (HU : ∀ id x, (id = 1520 ∧ x = 7500 ∨ id = 500 ∧ x = 7000) → ∀ y, hashed {[ hash_fn 500 := [7500; 7000] ]} y →
    ∀ pry, procs demo_ph !! y = Some pry → pid pry = id → y = x).
  { intros id x Hid. apply (hashed_forall _ (λ y, ∀ pry, procs demo_ph !! y = Some pry → pid pry = id → y = x)).
    intros h l [_ <-]%lookup_singleton_Some.
    repeat (apply Forall_cons; split; [vm_compute; intros pry [= <-]; cbn; intuition congruence|]). constructor. }
  split.
  - destruct (phash_remove_keeps demo_ph _ 7500 (proc0 <| pid := 1520 |> <| p_next := 7000 |>) HI) as [H1 H2].
    + exists 501. evaluate.
    + vm_compute. reflexivity.
    + intros y pry Hy. exact (HU 1520 7500 ltac:(vm_compute; intuition congruence) y Hy pry).
    + split; [exact H1|]. refine (eq_trans H2 _). vm_compute. reflexivity.
  - destruct (phash_remove_keeps demo_ph _ 7000 (proc0 <| pid := 500 |>) HI) as [H1 H2].
    + exists 501. evaluate.
    + vm_compute. reflexivity.
    + intros y pry Hy. exact (HU 500 7000 ltac:(vm_compute; intuition congruence) y Hy pry).
    + split; [exact H1|]. refine (eq_trans H2 _). vm_compute. reflexivity.
Defined.
