(* ===== verification/Pager.v ===== *)
(** * Page faults and the kernel's side of the pager

    Models mm/vm_pager.c, the page fault handler and the system calls on memory of
    arch/i386/memory.c, and [exec_kludge] of kernel/process.c.  The allocation of frames at
    boot is in Frames.v.

    A fault on a page of a file or program sends a message to the pager and
    blocks; [Blocked] stands for that, as in Message.v, and [data_request_return] is
    the rest of the routine after the reply.

    The theorems: where the page table exists, a fault on zero-fill memory ends with a fresh page mapped at the
    address and nothing else changed, and a request for pages of a file maps them before the
    message is sent; a fault outside every entry sends a signal unless it is blocked or ignored. *)

From S2P Require Import Prelude DList Hash KState Sched Thread VmPage Pmap VmMap Message Signal Sync Timer Process.

(** ** vm_pager.c *)
Definition FS_DATA_REQ : Z := 0.
Definition MSG_LONG_SEND : Z := 2.
Definition VM_MAP_ENTRY_LOWMEM : Z := 0x40.
Definition SIGSEGV : Z := 14.
Definition USER_STACK_ENTRY_SIZE : Z := 0x200000.
(** The offset of [vn] in struct vm_object and its size. *)
Definition VN_OFFSET : Z := 28.
Definition VN_SIZEOF : Z := 44.
Definition upd_vn (object : Z) (f : vn_object → vn_object) : K unit :=
  upd_object object (λ ob, ob <| ob_vn ::= f |>).
Definition current_map : K Z :=
  c ← gets current; th ← get_thread c; pr ← get_proc (proc th); mret (p_map pr).

(** The contents of recycled structures and of local variables. *)
Record pager_junk := mk_pager_junk { j_object : vm_object; j_entry : vm_map_entry; j_msg : message; j_sig : sigqueue }.

(** [do { } while(--pages)]; the macro [page_base] changes [addr]. *)
Fixpoint data_pages (n fuel : nat) (ojunk : vm_object) (object pmap addr npages : Z) : K unit :=
  match n with
  | O => spin
  | S n =>
      let addr := page_base addr in
      page ← page_alloc ojunk object addr;
      pg ← deref pages page;
      pmap_enter fuel pmap (pg_base pg) addr (Z.lor PAGE_RW PAGE_USER);;
      let npages := s32 (npages - 1) in
      if npages =? 0 then mret tt else data_pages n fuel ojunk object pmap (u32 (addr + PAGE_SIZE)) npages
  end.
Definition pager_msg (junk : message) (vno : vn_object) (object va size : Z) : message :=
  mk_message VN_SIZEOF (page_base va) size (dummy1 junk) (vn_pager_id vno) (u32 (object + VN_OFFSET)) FS_DATA_REQ
    (dummy junk) (Z.lor MSG_LONG_SEND MSG_MAP_RECEIVE).
(** The pages are mapped before the message is sent; the answer is that of [send_message]. *)
Definition fill_and_send (n fuel : nat) (j : pager_junk) (map object va size : Z) : K (call Z) :=
  ob ← deref objects object;
  mp ← deref vmaps map;
  data_pages n fuel (j_object j) object (m_pmap mp) va (s32 (size / PAGE_SIZE));;
  send_message n fuel (j_entry j) (vn_pager_id (ob_vn ob)) (pager_msg (j_msg j) (ob_vn ob) object va size).
(** The rest of [data_request], after [send_message] returned. *)
Definition data_request_return (object size : Z) : K Z :=
  ob ← deref objects object;
  (if has (vn_map_type (ob_vn ob)) VM_MAP_ENTRY_FILE then upd_vn object (λ v, v <| vn_offset ::= λ o, u32 (o + size) |>)
   else mret tt);;
  mret 0.
(** [data_request] *)
Definition vm_data_request (n fuel : nat) (j : pager_junk) (entry va : Z) : K (call Z) :=
  map ← current_map;
  en ← deref entries entry;
  ob ← deref objects (e_object en);
  let vno := ob_vn ob in
  if (noload_start vno <=? va) && (va <=? noload_end vno) then
    r ← alloc_zero_fill_page fuel (j_object j) map entry va; mret (Done r)
  else
    upd_vn (e_object en) (λ v, v <| vn_va := va |> <| vn_page_size := PAGE_SIZE |>);;
    let size := if PAGE_SIZE <? vn_blk_size vno then vn_blk_size vno else PAGE_SIZE in
    r ← fill_and_send n fuel j map (e_object en) va size;
    match r with
    | Blocked => mret Blocked
    | Done _ => r ← data_request_return (e_object en) size; mret (Done r)
    end.
(** The macro [align_page] changes the size of the object too.  There is nothing left to do after the reply. *)
Definition data_request_all (n fuel : nat) (j : pager_junk) (entry va : Z) : K (call Z) :=
  map ← current_map;
  en ← deref entries entry;
  upd_vn (e_object en) (λ v, v <| vn_va := va |> <| vn_page_size := PAGE_SIZE |>);;
  upd_vn (e_object en) (λ v, v <| vn_size ::= align_page |>);;
  ob ← deref objects (e_object en);
  r ← fill_and_send n fuel j map (e_object en) va (vn_size (ob_vn ob));
  match r with Blocked => mret Blocked | Done _ => mret (Done 0) end.

(** ** Page faults *)
Definition do_page_fault (n fuel : nat) (j : pager_junk) (address error_code : Z) : K (call unit) :=
  thr ← gets current;
  map ← current_map;
  let segv := send_signal (j_sig j) thr SIGSEGV None;; mret (Done tt) in
  let zero_fill := λ entry, alloc_zero_fill_page fuel (j_object j) map entry address;; mret (Done tt) in
  entry ← vm_map_lookup_entry map address;
  if entry =? 0 then segv
  else
    en ← deref entries entry;
    if has (e_type en) VM_MAP_ENTRY_ZERO_FILL then zero_fill entry
    else if has (e_type en) VM_MAP_ENTRY_ANON then segv
    else if negb (has error_code 1) then
      r ← vm_data_request n fuel j entry address;
      match r with Blocked => mret Blocked | Done r => if r <? 0 then segv else mret (Done tt) end
    else if has error_code 2 then handle_cow fuel (j_object j) map entry address;; mret (Done tt)
    else zero_fill entry.

(** ** System calls on memory; the arguments are the registers *)
(** [vn] is the structure copied from the caller, [None] when the pointer is NULL. *)
Definition syscall_vm_map (fuel : nat) (j : pager_junk) (vn : option vn_object) (ecx : Z) : K Z :=
  map ← current_map;
  if has ecx VM_MAP_ENTRY_LOWMEM then
    mp ← deref vmaps map;
    (if private mp =? 0 then upd_vmap map (λ m, m <| private := 0x1000 |>) else mret tt);;
    mp ← deref vmaps map;
    v ← must vn;
    pmap_enter_range fuel (m_pmap mp) (private mp) (private mp) (vn_size v) (Z.lor PAGE_RW PAGE_USER);;
    upd_vmap map (λ m, m <| private ::= λ p, u32 (p + vn_size v) |>);;
    mret (private mp)
  else
    v ← must vn;
    r ← vm_map fuel (j_entry j) (j_object j) map v ecx;
    mret r.1.
(** The result and the new value of the register ebx. *)
Definition syscall_vm_allocate (j : pager_junk) (ecx : Z) : K (Z * Z) :=
  map ← current_map; vm_allocate (j_entry j) map ecx.
Definition syscall_vm_lock (j : pager_junk) (ebx ecx edx : Z) : K Z :=
  map ← current_map; vm_lock (j_entry j) map ebx ecx edx.
Definition syscall_vm_unlock (j : pager_junk) (ebx ecx edx : Z) : K Z :=
  map ← current_map; vm_unlock (j_entry j) map ebx ecx edx.
Definition syscall_vm_protect (j : pager_junk) (ebx ecx edx : Z) : K Z :=
  map ← current_map; vm_protect (j_entry j) map ebx ecx edx.
(** It is the address of the saved register, [ebx_addr], that is passed. *)
Definition syscall_vm_deallocate (j : pager_junk) (ebx_addr ecx : Z) : K Z :=
  map ← current_map; vm_deallocate (j_entry j) map ebx_addr ecx.

(** ** Execution of a program (process.c) *)
Definition exec_kludge (n fuel : nat) (j : pager_junk) (jm : vmmap) (jp : Z) (vn : vn_object) (stack : Z) : K (call Z) :=
  thr ← gets current;
  th ← get_thread thr;
  let p := proc th in
  pr ← get_proc p;
  (if has (p_status pr) STAT_VFORKED then
     get_proc (parent pr);;
     q ← ask_links (rd_next (threads_of (parent pr)));
     par ← as_obj q;
     enqueue_thread par;;
     upd_vmap (p_map pr) (λ m, m <| ref_count ::= λ n, s32 (n - 1) |>);;
     upd_proc p (λ x, x <| p_status := 0 |>)
   else exit_vm_map (p_map pr));;
  map ← vm_map_fork fuel jm (j_entry j) jp (p_map pr) DUP_NONE;
  upd_proc p (λ x, x <| p_map := map |>);;
  if map =? 0 then mret (Done (-1))
  else
    exit_threads (threads_of p);;
    delete_sync p;;
    init_signals p;;
    exit_timers p;;
    exec_thread thr;;
    r ← vm_map fuel (j_entry j) (j_object j) map vn VM_MAP_ENTRY_OBJECT_FIXED;
    let vn := r.2 in
    vm_map_enter (j_entry j) map stack USER_STACK_ENTRY_SIZE 0 (Z.lor VM_MAP_ENTRY_OBJECT_FIXED VM_MAP_ENTRY_ZERO_FILL);;
    entry ← vm_map_lookup_entry map (vn_va vn);
    r ← data_request_all n fuel j entry (vn_va vn);
    match r with Blocked => mret Blocked | Done _ => mret (Done 0) end.

(** ** Allocation of the pages of an object *)

(** The free pages [fl], the hash table, and the pages [ol] of the object [o]. *)
Record pool (s : kstate) (tb : gmap Z (list Z)) (fl : list Z) (o : Z) (ol : list Z) : Prop := {
  po_free : free_inv s fl;
  po_hash : ptab s tb;
  po_out : ∀ y, y ∈ fl → ¬ hashed tb y;
  po_owner : 0 < o ∧ o ∉ fl;
  po_list : dlist pagelist (links s) (page_list_of o) (obj <$> ol);
  po_disj : ∀ y, y ∈ ol → 0 < y ∧ y ∉ fl ∧ y ≠ o }.

Lemma hashed_push tb h x y : hashed (<[h := x :: chain_of tb h]> tb) y → y = x ∨ hashed tb y.
Proof.
  intros [k Hk]. rewrite chain_of_insert in Hk. case_decide; [|right; by exists k].
  apply elem_of_cons in Hk as [->|Hk]; [by left|right; by exists h].
Qed.

Lemma pool_owner s tb fl o ol : pool s tb fl o ol → page_owner s fl o ol.
Proof. intros HP. destruct (po_owner _ _ _ _ _ HP). split; [split; [unfold G_free; lia|done]|apply HP|apply HP]. Qed.

Lemma page_alloc_spec s tb fl x pg o ol junk off :
  pool s tb (fl ++ [x]) o ol → pages s !! x = Some pg →
  ∃ s' tb', page_alloc junk o off s = Ret x s' ∧ pool s' tb' fl o (x :: ol) ∧
    (∃ nx, pages s' !! x = Some (mk_page nx (pg_base pg) o (page_base off) 1 0)) ∧
    head (chain_of tb' (page_hash o (page_base off))) = Some x ∧
    (∀ y, y ≠ x → pages s' !! y = pages s !! y) ∧ page_mask s' = page_mask s.
Proof.
  intros HP Ex. pose proof (po_free _ _ _ _ _ HP) as HI. destruct (po_owner _ _ _ _ _ HP) as [Ho Hof].
  destruct (fr_page _ _ HI x) as [Hx _]; [set_solver|]. pose proof (free_NoDup _ _ HI) as ND.
  assert (Hxf : x ∉ fl) by (apply NoDup_app in ND as (_&ND&_); intros ?; by eapply ND; [|left]).
  destruct (get_page_spec s fl x pg PAGE_ALLOC_OTH HI Ex) as (s1&E1&HI1&P1&_&H1&Hs1&HM&HF).
  set (pg1 := mk_page 0 (pg_base pg) (pg_object pg) (pg_offset pg) (pg_count pg) 0) in *.
  assert (Ex1 : pages s1 !! x = Some pg1) by (rewrite P1; apply lookup_insert_eq).
  pose proof (owner_get_page s s1 fl x o ol HI (pool_owner _ _ _ _ _ HP) HF) as HO1.
  destruct (add_page_spec s1 fl o ol x HI1 HO1) as (L'&EL&HDL&HIL); try done; [|set_solver|].
  { intros Hk. destruct (po_disj _ _ _ _ _ HP x Hk). set_solver. }
  assert (HT1 : ptab (s1 <| pages ::= <[x := pg1 <| pg_count := 1 |>]> |>) tb).
  { unfold ptab in *. flat. rewrite P1, insert_insert_eq, H1. apply tab_out; [apply HP|apply HP; set_solver|lia]. }
  destruct (vm_page_insert_spec _ tb x (pg1 <| pg_count := 1 |>) o (page_base off) HT1) as (s2&E2&->&HT2);
    [flat; apply lookup_insert_eq|apply HP; set_solver|]. flat. unfold ptab in HT2. revert HT2. flat. intros HT2. rewrite insert_insert_eq in *.
  eexists _, _. split; [|split; [split|]].
  - unfold page_alloc. rewrite (proj2 (Z.eqb_neq o 0)) by lia. run. run_with ltac:(exact E1).
    unfold as_page. run_with ltac:(run_with ltac:(apply as_obj_Ret); run_with ltac:(apply deref_Ret; exact Ex1); reflexivity).
    step. run_with ltac:(exact E2). flat. rewrite insert_insert_eq. step. reflexivity.
  - split; flat; [apply HI1|apply (fr_list _ _ HIL)|]. intros y Hy. split; [by apply (fr_page _ _ HI1)|].
    apply lookup_insert_is_Some'. right. by apply (fr_page _ _ HI1).
  - unfold ptab. flat. exact HT2.
  - intros y Hy [->|Hh]%hashed_push; [done|]. by apply (po_out _ _ _ _ _ HP y); [set_solver|].
  - split; [done|set_solver].
  - exact HDL.
  - intros y [->|Hy]%elem_of_cons; [split_and!; [done|done|set_solver]|].
    destruct (po_disj _ _ _ _ _ HP y Hy) as (?&?&?). set_solver.
  - flat. split_and!; [|by rewrite chain_of_insert, decide_True|intros y Hy; by rewrite lookup_insert_ne, P1, lookup_insert_ne|].
    + eexists. rewrite lookup_insert_eq. reflexivity.
    + by rewrite <- HM.
Qed.
Lemma lookup_head s tb o f x :
  ptab s tb → head (chain_of tb (page_hash o f)) = Some x → is_page s o f x → vm_page_lookup o f s = Ret x s.
Proof.
  intros HT Hh Hx. rewrite (vm_page_lookup_spec s tb o f HT). destruct (chain_of tb _) as [|y l]; [done|].
  cbn in Hh. simplify_eq. cbn [list_find]. by rewrite decide_True.
Qed.
Lemma pool_ext s s' tb fl o ol :
  links s' = links s → pages s' = pages s → pagehash s' = pagehash s → vmg s' = vmg s → pool s tb fl o ol → pool s' tb fl o ol.
Proof.
  intros EL EP EH EV [[H1 H2 H3] H4 H5 H6 H7 H8]. split; [split|..]; unfold ptab in *; rewrite ?EL, ?EP, ?EH, ?EV; done.
Qed.

(** ** Zero-fill memory *)
Lemma page_base_idem a : 0 <= a < 2 ^ 32 → page_base (page_base a) = page_base a.
Proof.
  intros Ha. rewrite (page_base_div a) by done. rewrite page_base_div; [by rewrite Z.div_mul|]. unfold PAGE_SIZE. Z.div_mod_to_equations. lia.
Qed.
Lemma page_base_same a : 0 <= a < 2 ^ 32 → same_page (page_base a) a.
Proof.
  intros Ha. rewrite page_base_div by done. unfold same_page, addr_to_pdenum, addr_to_ptenum, PAGE_SIZE.
  rewrite !Z.shiftr_div_pow2 by lia. change (2 ^ 12) with 0x1000. change (2 ^ 22) with (0x1000 * 1024).
  rewrite <- !Z.div_div by lia. by rewrite Z.div_mul by lia.
Qed.

(** The table of the address exists in the page tables [pm]. *)
Record has_table (s : kstate) (map : Z) (pm : pmap_t) (a : Z) : Prop := {
  ht_pmap : pmaps s !! map = Some pm;
  ht_pd : pdbr pm ≠ 0;
  ht_wf : pd_wf s (pdbr pm);
  ht_table : ∃ w old, ptmem s !! (pdbr pm + 4 * addr_to_pdenum a) = Some w ∧ w ≠ 0 ∧
    ptmem s !! (addr_to_pte w + 4 * addr_to_ptenum a) = Some old }.
Lemma has_table_ext s s' map pm a :
  pmaps s' = pmaps s → ptmem s' = ptmem s → has_table s map pm a → has_table s' map pm a.
Proof.
  intros E1 E2 [H1 H2 [H3 H4 H5 H6] H7]. split; [by rewrite E1|done|split|]; rewrite ?E2; done.
Qed.
Lemma walk_ext s s' pd a : ptmem s' = ptmem s → walk s' pd a = walk s pd a.
Proof. intros E. unfold walk. by rewrite E. Qed.
(** [pmap_enter] at the base of the page of [a]. *)
Lemma enter_page fuel s map pm a pa prot :
  has_table s map pm a → 0 <= a < 2 ^ 32 →
  ∃ T, let s' := s <| ptmem := T |> in pmap_enter (S fuel) map pa (page_base a) prot s = Ret tt s' ∧
    walk s' (pdbr pm) a = Some (Z.lor (Z.lor (addr_to_pte pa) PAGE_PRESENT) prot) ∧
    (∀ a', ¬ same_page a' a → walk s' (pdbr pm) a' = walk s (pdbr pm) a') ∧
    (∀ a', has_table s map pm a' → has_table s' map pm a').
Proof.
  intros HT Ha. destruct (ht_table _ _ _ _ HT) as (w&old&Hw&Hw0&Hold). destruct (page_base_same a Ha) as [E1 E2].
  fold (entry_of pa prot). set (v := entry_of pa prot). pose proof (pdenum_range a) as R1. pose proof (ptenum_range a) as R2.
  exists (<[addr_to_pte w + 4 * addr_to_ptenum a := v]> (ptmem s)). cbv zeta.
  pose proof (walk_write s (pdbr pm) (addr_to_pdenum a) w (addr_to_ptenum a) v (ht_wf _ _ _ _ HT) R1 R2 Hw Hw0 (entry_present pa prot)) as HW.
  change (s <| ptmem ::= <[addr_to_pte w + 4 * addr_to_ptenum a := v]> |>)
    with (s <| ptmem := <[addr_to_pte w + 4 * addr_to_ptenum a := v]> (ptmem s) |>) in HW.
  assert (Hd : ∀ i, 0 <= i < 1024 → <[addr_to_pte w + 4 * addr_to_ptenum a := v]> (ptmem s) !! (pdbr pm + 4 * i) = ptmem s !! (pdbr pm + 4 * i)).
  { intros i Hi. rewrite lookup_insert_ne; [done|]. intros E.
    apply slot_ne in E as [E _]; [|apply addr_to_pte_mod|apply (ht_wf _ _ _ _ HT)|done|done].
    by eapply (pd_not_table _ _ (ht_wf _ _ _ _ HT) (addr_to_pdenum a)). }
  split_and!.
  - erewrite pmap_enter_present; [|apply HT|apply HT|rewrite E1; exact Hw|done|rewrite E2; exact Hold]. by rewrite E2.
  - by rewrite HW, decide_True.
  - intros a' Hne. by rewrite HW, decide_False.
  - intros a' HT'. destruct (ht_table _ _ _ _ HT') as (w'&old'&Hw'&Hw0'&Hold'). split; [apply HT|apply HT| |].
    + destruct (ht_wf _ _ _ _ HT) as [P1 P2 P3 P4]. split; [done|..]; flat.
      * intros i u Hi. rewrite Hd by done. by apply P2.
      * intros i u Hi. rewrite Hd by done. by apply P3.
      * intros i k u u' Hi Hk. rewrite !Hd by done. by apply P4.
    + exists w'. flat. rewrite Hd by apply pdenum_range.
      destruct (decide (addr_to_pte w + 4 * addr_to_ptenum a = addr_to_pte w' + 4 * addr_to_ptenum a')) as [->|Hn].
      * exists v. by rewrite lookup_insert_eq.
      * exists old'. by rewrite lookup_insert_ne.
Qed.

(** The entry has the object [o] with the pages [ol], or none and [o] is the next structure
    the allocator returns. *)
Inductive backed (s : kstate) (tb : gmap Z (list Z)) (fl : list Z) (en : vm_map_entry) (o : Z) : list Z → Prop :=
| backed_object ol : e_object en = o → pool s tb fl o ol → backed s tb fl en o ol
| backed_none : e_object en = 0 → head (kmem s) = Some o → 0 < o → o ∉ fl → free_inv s fl → ptab s tb →
    (∀ y, y ∈ fl → ¬ hashed tb y) → backed s tb fl en o [].

(** A new object has no pages. *)
Lemma object_created s tb fl o rest junk size :
  kmem s = o :: rest → 0 < o → o ∉ fl → free_inv s fl → ptab s tb → (∀ y, y ∈ fl → ¬ hashed tb y) →
  ∃ s', vm_object_create junk size s = Ret o s' ∧ pool s' tb fl o [] ∧ entries s' = entries s ∧ vmaps s' = vmaps s ∧
    pmaps s' = pmaps s ∧ ptmem s' = ptmem s ∧ pages s' = pages s.
Proof.
  intros Hk Ho Hf HI HT Hh. set (L0 := <[obj o := mk_link NULL NULL]> (links s)).
  destruct (list_init_spec pagelist L0 (page_list_of o)) as (L1&E1&HD&_&HF).
  { unfold L0, page_list_of. rewrite lookup_insert_eq. eauto. }
  assert (HI1 : free_inv (s <| links := L1 |>) fl).
  { eapply free_inv_frame; [..|exact HI]; [done|done|]. intros d Hd. flat.
    assert (d ≠ obj o).
    { intros ->. rewrite page_cells in Hd. destruct Hd as [E|(y&[= <-]&Hy)]; [|done].
      revert E. unfold free_head, obj, G_free. intros [=]; lia. }
    rewrite HF by set_solver. unfold L0. by rewrite lookup_insert_ne. }
  eexists. split.
  - unfold vm_object_create, kalloc. unfold mbind at 1, M_bind at 1. rewrite Hk. flat. cbn [foldr].
    change (<[fld 0 (obj o) := mk_link NULL NULL]> (links s)) with L0.
    rewrite (proj2 (Z.eqb_neq o 0)) by lia. do 4 step. reflexivity.
  - flat. split_and!; try done. destruct HI1 as [H1 H2 H3]. split; [by split|done|done|done|exact HD|by intros y ?%elem_of_nil].
Qed.
Lemma zero_fill_spec fuel s tb fl x pg o ol junk map mp pm e en a :
  entries s !! e = Some en → backed s tb (fl ++ [x]) en o ol → pages s !! x = Some pg →
  vmaps s !! map = Some mp → has_table s (m_pmap mp) pm a → 0 <= a < 2 ^ 32 →
  ∃ s' tb', alloc_zero_fill_page (S fuel) junk map e a s = Ret 0 s' ∧ pool s' tb' fl o (x :: ol) ∧
    e_object <$> entries s' !! e = Some o ∧ vm_page_lookup o (page_base a) s' = Ret x s' ∧
    walk s' (pdbr pm) a = Some (Z.lor (Z.lor (addr_to_pte (pg_base pg)) PAGE_PRESENT) (Z.lor PAGE_USER PAGE_RW)) ∧
    (∀ a', ¬ same_page a' a → walk s' (pdbr pm) a' = walk s (pdbr pm) a').
Proof.
  intros Ee HB Ex Em HT Ha.
  assert (∃ s1 en1, (if e_object en =? 0 then o ← vm_object_create junk PAGE_SIZE; upd_entry e (λ e, e <| e_object := o |>) else mret tt) s = Ret tt s1 ∧
    entries s1 !! e = Some en1 ∧ e_object en1 = o ∧ pool s1 tb (fl ++ [x]) o ol ∧ vmaps s1 = vmaps s ∧ pmaps s1 = pmaps s ∧
    ptmem s1 = ptmem s ∧ pages s1 = pages s) as (s1&en1&E1&Ee1&Eo1&HP1&Ev&Ep&Et&Eg).
  { destruct HB as [ol Eo HP|Eo Hk Ho Hof HI Hpt Hh].
    - exists s, en. rewrite (proj2 (Z.eqb_neq _ 0)) by (rewrite Eo; destruct (po_owner _ _ _ _ _ HP); lia). by split_and!.
    - rewrite Eo. cbn [Z.eqb]. destruct (kmem s) as [|o' rest] eqn:Ek; [done|]. cbn in Hk. simplify_eq.
      destruct (object_created s tb (fl ++ [x]) o rest junk PAGE_SIZE) as (s1&E1&HP1&Hen&?&?&?&?); [done..|].
      eexists _, (en <| e_object := o |>). split_and!; [run_with ltac:(exact E1); apply upd_entry_Ret; rewrite Hen; exact Ee|flat; apply lookup_insert_eq|done| |done..].
      by apply (pool_ext s1). }
  destruct (page_alloc_spec s1 tb fl x pg o ol junk (page_base a) HP1) as (s2&tb'&E2&HP2&(nx&Ex2)&Hh&_&HM); [by rewrite Eg|].
  rewrite page_base_idem in * by done.
  assert (HT2 : has_table s2 (m_pmap mp) pm a).
  { eapply has_table_ext; [..|exact HT]; [by rewrite <- Ep; apply (f_equal pmaps) in HM|by rewrite <- Et; apply (f_equal ptmem) in HM]. }
  destruct (enter_page fuel s2 (m_pmap mp) pm a (pg_base pg) (Z.lor PAGE_USER PAGE_RW) HT2 Ha) as (T&E3&HW&HO&_).
  assert (Een : entries s2 = entries s1) by (by apply (f_equal entries) in HM).
  assert (Evm : vmaps s2 = vmaps s1) by (by apply (f_equal vmaps) in HM).
  eexists _, tb'. split_and!.
  - unfold alloc_zero_fill_page. run_with ltac:(apply deref_Ret; exact Ee). run_with ltac:(exact E1). cbv zeta.
    run_with ltac:(apply deref_Ret; exact Ee1). rewrite Eo1. run_with ltac:(exact E2).
    destruct (po_disj _ _ _ _ _ HP2 x) as (Hx&_&_); [by left|]. rewrite (proj2 (Z.eqb_neq x 0)) by lia.
    run_with ltac:(apply deref_Ret; rewrite Evm, Ev; exact Em).
    run_with ltac:(apply deref_Ret; exact Ex2). cbn [pg_base]. run_with ltac:(exact E3). reflexivity.
  - by apply (pool_ext s2).
  - flat. by rewrite Een, Ee1, <- Eo1.
  - eapply (lookup_head _ tb'); [by apply (po_hash _ _ _ _ _ HP2)|done|]. unfold is_page. flat. by rewrite Ex2.
  - exact HW.
  - intros a' Hn. rewrite HO by done. apply walk_ext. rewrite <- Et. by apply (f_equal ptmem) in HM.
Qed.

(** ** Faults *)
Section Faults.
Variables (n fuel : nat) (j : pager_junk) (s : kstate) (c : Z) (th : thread) (pr : process) (mp : vmmap) (es : list Z) (a err : Z).
Hypothesis Hc : current s = c.
Hypothesis Hth : threads s !! c = Some th.
Hypothesis Hpr : procs s !! proc th = Some pr.
Hypothesis HM : vmap_inv s (p_map pr) mp es.

Lemma current_map_Ret : current_map s = Ret (p_map pr) s.
Proof. unfold current_map. run. rewrite Hc. run. by run. Qed.

(** The handler up to the choice of the entry. *)
Lemma fault_entry r h : vm_map_lookup_entry (p_map pr) a s = Ret r (set_hint (p_map pr) mp h s) →
  do_page_fault n fuel j a err s =
    (if r =? 0 then send_signal (j_sig j) c SIGSEGV None;; mret (Done tt)
     else
       en ← deref entries r;
       if has (e_type en) VM_MAP_ENTRY_ZERO_FILL then alloc_zero_fill_page fuel (j_object j) (p_map pr) r a;; mret (Done tt)
       else if has (e_type en) VM_MAP_ENTRY_ANON then send_signal (j_sig j) c SIGSEGV None;; mret (Done tt)
       else if negb (has err 1) then
         r ← vm_data_request n fuel j r a;
         match r with Blocked => mret Blocked | Done r => if r <? 0 then send_signal (j_sig j) c SIGSEGV None;; mret (Done tt) else mret (Done tt) end
       else if has err 2 then handle_cow fuel (j_object j) (p_map pr) r a;; mret (Done tt)
       else alloc_zero_fill_page fuel (j_object j) (p_map pr) r a;; mret (Done tt)) (set_hint (p_map pr) mp h s).
Proof.
  intros E. unfold do_page_fault. run. rewrite Hc. run_with ltac:(apply current_map_Ret). by run_with ltac:(exact E).
Qed.
End Faults.

(** C30. A fault on an address of a zero-fill entry takes the page that was free longest, enters it for the
    object of the entry (which is created by the first fault), and maps it at the page of the address,
    readable and writable; the translation of every other page stays the same, and the lookup of the
    object's page finds it.  The page table of the address exists ([has_table]): the first fault in a region of 4 MB
    also takes a page for the table, which is not covered. *)
Theorem zero_fill_fault n fuel j s c th pr mp es a err tb fl x pg o ol pm e en :
  current s = c → threads s !! c = Some th → procs s !! proc th = Some pr → vmap_inv s (p_map pr) mp es →
  e ∈ es → covers s a e → (∀ e', e' ∈ es → covers s a e' → e' = e) →
  entries s !! e = Some en → has (e_type en) VM_MAP_ENTRY_ZERO_FILL = true →
  backed s tb (fl ++ [x]) en o ol → pages s !! x = Some pg → has_table s (m_pmap mp) pm a → 0 <= a < 2 ^ 32 →
  ∃ s' tb', do_page_fault n (S fuel) j a err s = Ret (Done tt) s' ∧ pool s' tb' fl o (x :: ol) ∧
    e_object <$> entries s' !! e = Some o ∧ vm_page_lookup o (page_base a) s' = Ret x s' ∧
    walk s' (pdbr pm) a = Some (Z.lor (Z.lor (addr_to_pte (pg_base pg)) PAGE_PRESENT) (Z.lor PAGE_USER PAGE_RW)) ∧
    (∀ a', ¬ same_page a' a → walk s' (pdbr pm) a' = walk s (pdbr pm) a').
Proof.
  intros Hc Hth Hpr HM He Hcov Hu Ee Hz HB Ex HT Ha.
  destruct (vm_map_lookup_entry_spec s (p_map pr) mp es a HM) as (r&h&EL&_&[(_&_&Hno)|(Hr&->&Hcr)]); [by destruct (Hno e He)|].
  rewrite (Hu r Hr Hcr) in *. destruct (vi_entry _ _ _ _ HM e He) as [He0 _].
  set (s1 := set_hint (p_map pr) mp e s) in *.
  assert (HB1 : backed s1 tb (fl ++ [x]) en o ol).
  { destruct HB as [ol Eo HP|]; [apply backed_object; [done|]; by apply (pool_ext s)|].
    apply backed_none; try done. by apply (free_inv_frame s). }
  destruct (zero_fill_spec fuel s1 tb fl x pg o ol (j_object j) (p_map pr) (mp <| m_hint := e |>) pm e en a) as (s'&tb'&E&HP&HE&HL&HW&HO);
    [done|done|done|apply lookup_insert_eq|by apply (has_table_ext s)|done|].
  exists s', tb'. split_and!; [|done..].
  rewrite (fault_entry n (S fuel) j s c th pr mp a err Hc Hth Hpr e e EL). rewrite (proj2 (Z.eqb_neq e 0)) by done.
  run_with ltac:(apply deref_Ret; exact Ee). rewrite Hz. by run_with ltac:(exact E).
Qed.

(** C13. A fault on an address of no entry allocates no page and changes no table.  SIGSEGV is queued for the thread,
    first in the queue of its process, and marked pending; when the thread blocks or the process ignores SIGSEGV, or
    there is no memory for the queue entry, nothing is queued or marked, so that the handler
    returns to the faulting instruction. *)
Theorem fault_outside_signals n fuel j s qs c th pr mp es a err act l :
  current s = c → threads s !! c = Some th → procs s !! proc th = Some pr → vmap_inv s (p_map pr) mp es →
  (∀ e, e ∈ es → ¬ covers s a e) →
  sig_inv s (proc th) l → wakeable s qs c th → 0 < proc th → action pr !! Z.to_nat (SIGSEGV - 1) = Some act →
  (∀ sq, head (kmem s) = Some sq → 0 < sq ∧ sigqs s !! sq = None) →
  ∃ s', do_page_fault n fuel j a err s = Ret (Done tt) s' ∧ pages s' = pages s ∧ pmaps s' = pmaps s ∧ ptmem s' = ptmem s ∧
    match dropped th act SIGSEGV, kmem s with
    | false, sq :: _ => sig_inv s' (proc th) (sq :: l) ∧ sq_signal <$> sigqs s' !! sq = Some SIGSEGV ∧
        threads s' = <[c := woken_thread (th <| sigpending := 1 |>)]> (threads s)
    | false, [] => sig_inv s' (proc th) l ∧ sigqs s' = sigqs s ∧ threads s' = threads s
    | true, _ => sig_inv s' (proc th) l ∧ sigqs s' = sigqs s ∧ threads s' = <[c := woken_thread th]> (threads s)
    end.
Proof.
  intros Hc Hth Hpr HM Hno HS HW Hp0 Ha Hk.
  destruct (vm_map_lookup_entry_spec s (p_map pr) mp es a HM) as (r&h&EL&_&[(->&->&_)|(Hr&_&Hcr)]); [|by destruct (Hno r Hr)].
  set (s1 := set_hint (p_map pr) mp (m_hint mp) s) in *.
  assert (HS1 : sig_inv s1 (proc th) l) by (destruct HS; by split).
  assert (HW1 : wakeable s1 qs c th) by (destruct HW as [[] ?]; by split; [split|]).
  destruct (send_signal_spec s1 qs c th (proc th) pr act l SIGSEGV None (j_sig j) HS1 HW1) as (r&s'&E&Eg&Em&Et&H); [done..|].
  exists s'. split; [|split_and!; [done..|]].
  - rewrite (fault_entry n fuel j s c th pr mp a err Hc Hth Hpr 0 (m_hint mp) EL). cbn [Z.eqb]. by run_with ltac:(exact E).
  - change (kmem s1) with (kmem s) in H. destruct (dropped th act SIGSEGV), (kmem s) as [|sq rest].
    + destruct H as (_&?&?&?&_). done.
    + destruct H as (_&?&?&?&_). done.
    + destruct H as [_ ->]. done.
    + destruct H as (_&?&HQ&?&_). split_and!; [done|by rewrite HQ, lookup_insert_eq|done].
Qed.

(** ** The pages of a request *)
Definition page_at (a : Z) (i : nat) : Z := a + Z.of_nat i * PAGE_SIZE.
Lemma page_at_S a i : page_at a (S i) = page_at (a + PAGE_SIZE) i.
Proof. unfold page_at. lia. Qed.
Lemma page_base_aligned a : 0 <= a < 2 ^ 32 → a mod PAGE_SIZE = 0 → page_base a = a.
Proof. intros Ha Hm. rewrite page_base_div by done. unfold PAGE_SIZE in *. Z.div_mod_to_equations. lia. Qed.
(** Different pages of the address space have different entries. *)
Lemma same_page_aligned a b : 0 <= a < 2 ^ 32 → 0 <= b < 2 ^ 32 → same_page a b → a / PAGE_SIZE = b / PAGE_SIZE.
Proof.
  intros Ha Hb [H1 H2]. revert H1 H2. unfold addr_to_pdenum, addr_to_ptenum. change 0x3FF with (Z.ones 10).
  rewrite !Z.land_ones, !Z.shiftr_div_pow2 by lia. unfold PAGE_SIZE. change (2 ^ 12) with 0x1000. change (2 ^ 22) with (0x1000 * 1024).
  rewrite <- !Z.div_div by lia. set (x := a / 0x1000). set (y := b / 0x1000). intros H1 H2.
  assert (0 <= x < 1024 * 1024) by (unfold x; Z.div_mod_to_equations; lia).
  assert (0 <= y < 1024 * 1024) by (unfold y; Z.div_mod_to_equations; lia).
  change (2 ^ 10) with 1024 in *. Z.div_mod_to_equations. lia.
Qed.
Definition mapped_page (pg : vm_page) : Z := Z.lor (Z.lor (addr_to_pte (pg_base pg)) PAGE_PRESENT) (Z.lor PAGE_RW PAGE_USER).

(** The loop takes the pages [xs] from the free list in turn and maps them at successive addresses. *)
Lemma data_pages_spec fuel junk o map pm : ∀ xs n a s tb fl ol,
  pool s tb (fl ++ rev xs) o ol → xs ≠ [] → (length xs <= n)%nat → Z.of_nat (length xs) < 2 ^ 31 →
  0 <= a → a mod PAGE_SIZE = 0 → page_at a (length xs) <= 2 ^ 32 →
  (∀ i, (i < length xs)%nat → has_table s map pm (page_at a i)) →
  ∃ s' tb', data_pages n (S fuel) junk o map a (Z.of_nat (length xs)) s = Ret tt s' ∧ pool s' tb' fl o (rev xs ++ ol) ∧
    (∀ i x pg, xs !! i = Some x → pages s !! x = Some pg → walk s' (pdbr pm) (page_at a i) = Some (mapped_page pg)) ∧
    (∀ a', (∀ i, (i < length xs)%nat → ¬ same_page a' (page_at a i)) → walk s' (pdbr pm) a' = walk s (pdbr pm) a') ∧
    page_mask (s' <| ptmem := ∅ |>) = page_mask (s <| ptmem := ∅ |>).
Proof.
  induction xs as [|x xs IH]; intros [|n] a s tb fl ol HP Hne Hn H31 Ha0 Ham Hal HT; [done|done|cbn in Hn; lia|]. clear Hne.
  cbn [rev] in HP. rewrite app_assoc in HP. cbn [length] in *. rewrite page_at_S in Hal.
  assert (Ha : 0 <= a < 2 ^ 32) by (unfold page_at, PAGE_SIZE in *; lia).
  assert (Hat0 : page_at a 0 = a) by (unfold page_at; lia).
  destruct (fr_page _ _ (po_free _ _ _ _ _ HP) x) as [_ [pg Ex]]; [set_solver|].
  destruct (page_alloc_spec s tb (fl ++ rev xs) x pg o ol junk a HP Ex) as (s1&tb1&E1&HP1&(nx&Ex1)&_&Hp1&HM1).
  assert (Ept : ptmem s1 = ptmem s) by (by apply (f_equal ptmem) in HM1).
  assert (Epm : pmaps s1 = pmaps s) by (by apply (f_equal pmaps) in HM1).
  assert (HT1 : ∀ i, (i < S (length xs))%nat → has_table s1 map pm (page_at a i)).
  { intros i Hi. eapply has_table_ext; [exact Epm|exact Ept|by apply HT]. }
  assert (HT0 : has_table s1 map pm a) by (rewrite <- Hat0; apply HT1; lia).
  destruct (enter_page fuel s1 map pm a (pg_base pg) (Z.lor PAGE_RW PAGE_USER) HT0 Ha) as (T&E2&HW&HO&HK).
  set (s2 := s1 <| ptmem := T |>) in *.
  assert (HP2 : pool s2 tb1 (fl ++ rev xs) o (x :: ol)) by (by apply (pool_ext s1)).
  assert (HM2 : page_mask (s2 <| ptmem := ∅ |>) = page_mask (s <| ptmem := ∅ |>)).
  { apply (f_equal (λ u, u <| ptmem := ∅ |>)) in HM1. exact HM1. }
  assert (Hs32 : s32 (Z.of_nat (S (length xs)) - 1) = Z.of_nat (length xs)) by (unfold s32; rewrite Z.mod_small; lia).
  assert (Hstep : data_pages (S n) (S fuel) junk o map a (Z.of_nat (S (length xs))) s =
    (if Z.of_nat (length xs) =? 0 then mret tt else data_pages n (S fuel) junk o map (u32 (a + PAGE_SIZE)) (Z.of_nat (length xs))) s2).
  { cbn [data_pages]. rewrite (page_base_aligned a Ha Ham) in E2 |- *. run_with ltac:(exact E1). run_with ltac:(apply deref_Ret; exact Ex1).
    cbn [pg_base]. run_with ltac:(exact E2). by rewrite Hs32. }
  rewrite Hstep. destruct xs as [|y xs].
  { exists s2, tb1. cbn in HP2 |- *. rewrite app_nil_r in HP2. split_and!; [done|done| | |done].
    - intros [|i] z pgz Ez Epz; [|discriminate Ez]. cbn in Ez. simplify_eq. by rewrite Hat0.
    - intros a' Hn'. rewrite HO; [by apply walk_ext|]. rewrite <- Hat0. apply Hn'. lia. }
  rewrite (proj2 (Z.eqb_neq _ 0)) by (cbn [length]; lia).
  assert (Hau : u32 (a + PAGE_SIZE) = a + PAGE_SIZE).
  { apply u32_id. unfold page_at, PAGE_SIZE in *. cbn [length] in Hal. lia. }
  rewrite Hau. destruct (IH n (a + PAGE_SIZE) s2 tb1 fl (x :: ol)) as (s'&tb'&E'&HP'&HW'&HO'&HM'); [done|done|lia|lia| | |done| |].
  { unfold PAGE_SIZE. lia. }
  { unfold PAGE_SIZE in *. Z.div_mod_to_equations. lia. }
  { intros i Hi. rewrite <- page_at_S. apply HK, HT1. lia. }
  assert (Hpg : ∀ i k : nat, (i < k)%nat → (k < S (length (y :: xs)))%nat → ¬ same_page (page_at a i) (page_at a k)).
  { intros i k Hik Hk Hsp. apply same_page_aligned in Hsp; unfold page_at, PAGE_SIZE in *; cbn [length] in *; [|lia..]. Z.div_mod_to_equations. lia. }
  exists s', tb'. split_and!; [exact E'| |..].
  - cbn [rev]. rewrite <- app_assoc. exact HP'.
  - intros [|i] z pgz Ez Epz.
    + cbn in Ez. simplify_eq. rewrite HO', Hat0; [exact HW|]. intros i Hi. rewrite <- page_at_S. apply Hpg; lia.
    + rewrite page_at_S. apply (HW' i z); [done|]. flat. rewrite Hp1; [done|]. intros ->.
      pose proof (free_NoDup _ _ (po_free _ _ _ _ _ HP)) as ND. apply NoDup_app in ND as (_&ND&_). apply (ND x); [|by left].
      apply elem_of_app. right. apply list_elem_of_In, in_rev. rewrite rev_involutive. apply list_elem_of_In. by eapply list_elem_of_lookup_2.
  - intros a' Hn'. rewrite HO'; [rewrite HO|].
    + by apply walk_ext.
    + rewrite <- Hat0. apply Hn'. lia.
    + intros i Hi. rewrite <- page_at_S. apply Hn'. lia.
  - by rewrite HM'.
Qed.

Lemma data_pages_base n fuel junk o map a k : 0 <= a < 2 ^ 32 →
  data_pages n fuel junk o map a k = data_pages n fuel junk o map (page_base a) k.
Proof. intros Ha. destruct n; [done|]. cbn [data_pages]. by rewrite page_base_idem. Qed.

(** The bytes a request is for. *)
Definition request_size (vno : vn_object) : Z := if PAGE_SIZE <? vn_blk_size vno then vn_blk_size vno else PAGE_SIZE.
(** C32. [data_request] for a page that has to be loaded: as many pages as a block of the file needs are
    taken from the free list, entered for the object and mapped from the page of the address on, and nothing
    else is mapped, before the message with the address is sent to the pager of the object.  The page tables of
    these pages exist ([has_table]); requests that have to make a table are not covered. *)
Theorem vm_data_request_maps n fuel j s c th pr mp e en ob a tb fl xs ol pm :
  current s = c → threads s !! c = Some th → procs s !! proc th = Some pr → vmaps s !! p_map pr = Some mp →
  entries s !! e = Some en → objects s !! e_object en = Some ob →
  let o := e_object en in let vno := ob_vn ob in let size := request_size vno in
  ¬ (noload_start vno <= a <= noload_end vno) → 0 <= a < 2 ^ 32 → size < 2 ^ 31 →
  Z.of_nat (length xs) = size / PAGE_SIZE → (length xs <= n)%nat → pool s tb (fl ++ rev xs) o ol →
  page_at (page_base a) (length xs) <= 2 ^ 32 →
  (∀ i, (i < length xs)%nat → has_table s (m_pmap mp) pm (page_at (page_base a) i)) →
  ∃ s' tb', vm_data_request n (S fuel) j e a s =
      (r ← send_message n (S fuel) (j_entry j) (vn_pager_id vno) (pager_msg (j_msg j) vno o a size);
       match r with Blocked => mret Blocked | Done _ => r ← data_request_return o size; mret (Done r) end) s' ∧
    pool s' tb' fl o (rev xs ++ ol) ∧
    ob_vn <$> objects s' !! o = Some (vno <| vn_va := a |> <| vn_page_size := PAGE_SIZE |>) ∧
    (∀ i x pg, xs !! i = Some x → pages s !! x = Some pg → walk s' (pdbr pm) (page_at (page_base a) i) = Some (mapped_page pg)) ∧
    (∀ a', (∀ i, (i < length xs)%nat → ¬ same_page a' (page_at (page_base a) i)) → walk s' (pdbr pm) a' = walk s (pdbr pm) a').
Proof.
  intros Hc Hth Hpr Hm He Hob o vno size Hno Ha Hsz Hlen Hn HP Hal HT.
  assert (Hge : PAGE_SIZE <= size) by (unfold size, request_size; destruct (Z.ltb_spec PAGE_SIZE (vn_blk_size vno)); lia).
  set (ob1 := ob <| ob_vn ::= λ v, v <| vn_va := a |> <| vn_page_size := PAGE_SIZE |> |>).
  set (s1 := s <| objects ::= <[o := ob1]> |>).
  destruct (data_pages_spec fuel (j_object j) o (m_pmap mp) pm xs n (page_base a) s1 tb fl ol) as (s'&tb'&E&HP'&HW&HO&HM).
  { by apply (pool_ext s). }
  { intros ->. cbn in Hlen. unfold PAGE_SIZE in *. Z.div_mod_to_equations. lia. }
  { done. }
  { rewrite Hlen. unfold PAGE_SIZE in *. Z.div_mod_to_equations. lia. }
  { rewrite page_base_div by done. unfold PAGE_SIZE. Z.div_mod_to_equations. lia. }
  { rewrite page_base_div by done. apply Z.mod_mul. done. }
  { done. }
  { intros i Hi. apply (has_table_ext s); [done|done|by apply HT]. }
  exists s', tb'. split_and!; [|done| |done|done].
  - unfold vm_data_request. run_with ltac:(by eapply current_map_Ret). run_with ltac:(apply deref_Ret; exact He).
    run_with ltac:(apply deref_Ret; exact Hob). fold vno. cbv zeta.
    assert ((noload_start vno <=? a) && (a <=? noload_end vno) = false) as -> by (apply andb_false_iff; rewrite !Z.leb_gt; lia).
    fold o. unfold upd_vn. run_with ltac:(apply upd_object_Ret; exact Hob). fold ob1 s1. fold (request_size vno) size.
    unfold fill_and_send. rewrite !bind_assoc. run_with ltac:(apply deref_Ret; apply lookup_insert_eq). rewrite !bind_assoc.
    run_with ltac:(apply deref_Ret; exact Hm). rewrite bind_assoc.
    replace (s32 (size / PAGE_SIZE)) with (Z.of_nat (length xs)).
    2:{ rewrite Hlen. unfold s32. rewrite Z.mod_small; [lia|]. unfold PAGE_SIZE in *. Z.div_mod_to_equations. lia. }
    rewrite data_pages_base by done. run_with ltac:(exact E). done.
  - assert (objects s' = objects s1) as -> by (by apply (f_equal objects) in HM). unfold s1. flat. by rewrite lookup_insert_eq.
Qed.

(** ** Instances of the theorems *)
(** Thread 13000 of process 7000 with the map 7100; the entry 6000 is zero-fill memory without an object. *)
Definition demo_junk : pager_junk := mk_pager_junk object0 (entry0 0 0) msg0 sigqueue0.
Definition demo_zero : vm_map_entry := mk_entry 0x1000 0x9000 0 VM_MAP_ENTRY_ZERO_FILL 0.
Definition demo_fault : kstate :=
  after sched_init (demo_map <| current := 13000 |> <| threads := {[ 13000 := demo_th 13000 ]} |> <| procs := {[ 7000 := proc0 ]} |>
    <| entries ::= <[6000 := demo_zero]> |>
    <| links ::= λ L, <[sigqueue_of 7000 := mk_link (sigqueue_of 7000) (sigqueue_of 7000)]> L |>).
Lemma demo_fault_inv : vmap_inv demo_fault 7100 demo_mp [6000; 6010; 6020].
Proof. split; [split; [done|vm_compute; reflexivity]|done|evaluate|evaluate|apply Forall_forall; evaluate|by left]. Qed.
Lemma demo_fault_free : free_inv demo_fault ([400] ++ [300]).
Proof. split; [vm_compute; reflexivity|evaluate|apply Forall_forall; evaluate]. Qed.
Lemma demo_fault_table : has_table demo_fault 7200 (mk_pmap 0x2000) 0x5123.
Proof.
  split; [vm_compute; reflexivity|done|apply pd_wf_ok; [done|evaluate|evaluate]|].
  exists 0x3007, 0. split_and!; [vm_compute; reflexivity|done|vm_compute; reflexivity].
Qed.

(** A write to 0x5123 gets the frame 0x12000. *)
Lemma zero_fill_fault_witness :
  ∃ s' tb', do_page_fault 9 1 demo_junk 0x5123 6 demo_fault = Ret (Done tt) s' ∧ pool s' tb' [400] 6030 [300] ∧
    vm_page_lookup 6030 0x5000 s' = Ret 300 s' ∧ walk s' 0x2000 0x5123 = Some 0x12007.
Proof.
  destruct (zero_fill_fault 9 0 demo_junk demo_fault 13000 (demo_th 13000) proc0 demo_mp [6000; 6010; 6020] 0x5123 6 ∅ [400] 300
    (page0 0x12000) 6030 [] (mk_pmap 0x2000) 6000 demo_zero) as (s'&tb'&H1&H2&_&H3&H4&_).
  - vm_compute. reflexivity.
  - vm_compute. reflexivity.
  - vm_compute. reflexivity.
  - exact demo_fault_inv.
  - by left.
  - evaluate.
  - apply (proj1 (Forall_forall (λ e', covers demo_fault 0x5123 e' → e' = 6000) _)). evaluate.
  - vm_compute. reflexivity.
  - vm_compute. reflexivity.
  - apply backed_none; [done|vm_compute; reflexivity|lia|evaluate|exact demo_fault_free| |].
    + apply table_if_ok. evaluate.
    + intros y _ [h Hh]. unfold chain_of in Hh. rewrite lookup_empty in Hh. by apply elem_of_nil in Hh.
  - vm_compute. reflexivity.
  - exact demo_fault_table.
  - lia.
  - exact (ex_intro _ s' (ex_intro _ tb' (conj H1 (conj H2 (conj H3 H4))))).
Defined.

(** Address 0x300000 is in no entry. *)
Lemma demo_fault_wakeable : wakeable demo_fault (replicate 32 []) 13000 (demo_th 13000).
Proof. split; [evaluate|]. intros E. vm_compute in E. discriminate. Qed.
Lemma fault_outside_signals_witness :
  ∃ s', do_page_fault 9 1 demo_junk 0x300000 6 demo_fault = Ret (Done tt) s' ∧ sig_inv s' 7000 [6030] ∧
    sq_signal <$> sigqs s' !! 6030 = Some SIGSEGV.
Proof.
  destruct (fault_outside_signals 9 1 demo_junk demo_fault (replicate 32 []) 13000 (demo_th 13000) proc0 demo_mp [6000; 6010; 6020] 0x300000 6
    (mk_sigaction 0 0 0) []) as (s'&H1&_&_&_&H2).
  - vm_compute. reflexivity.
  - vm_compute. reflexivity.
  - vm_compute. reflexivity.
  - exact demo_fault_inv.
  - apply (proj1 (Forall_forall (λ e, ¬ covers demo_fault 0x300000 e) _)). evaluate.
  - split; [evaluate|]. by intros q ?%elem_of_nil.
  - exact demo_fault_wakeable.
  - done.
  - done.
  - intros sq E. vm_compute in E. injection E as <-. split; [lia|vm_compute; reflexivity].
  - exact (ex_intro _ s' (conj H1 (conj (proj1 H2) (proj1 (proj2 H2))))).
Defined.

(** A page of a file is asked for at 0x6abc: one page, mapped before the message is sent. *)
Definition demo_vno : vn_object := mk_vn 3 1024 0 0 0 0 0 0x4000 500 0 0.
Definition demo_file_entry : vm_map_entry := mk_entry 0x1000 0x9000 5000 0 0.
Definition demo_request : kstate :=
  demo_fault <| entries ::= <[6000 := demo_file_entry]> |> <| objects ::= <[5000 := object0 <| ob_vn := demo_vno |>]> |>.
Lemma vm_data_request_maps_witness :
  ∃ s' tb', vm_data_request 9 1 demo_junk 6000 0x6abc demo_request =
      (r ← send_message 9 1 (entry0 0 0) 500 (pager_msg msg0 demo_vno 5000 0x6abc PAGE_SIZE);
       match r with Blocked => mret Blocked | Done _ => r ← data_request_return 5000 PAGE_SIZE; mret (Done r) end) s' ∧
    pool s' tb' [400] 5000 [300] ∧ walk s' 0x2000 0x6000 = Some 0x12007.
Proof.
  destruct (vm_data_request_maps 9 0 demo_junk demo_request 13000 (demo_th 13000) proc0 demo_mp 6000 demo_file_entry
    (object0 <| ob_vn := demo_vno |>) 0x6abc ∅ [400] [300] [] (mk_pmap 0x2000)) as (s'&tb'&H1&H2&_&H3&_).
  - vm_compute. reflexivity.
  - vm_compute. reflexivity.
  - vm_compute. reflexivity.
  - vm_compute. reflexivity.
  - vm_compute. reflexivity.
  - vm_compute. reflexivity.
  - cbn. lia.
  - lia.
  - done.
  - done.
  - cbn. lia.
  - split; [split; [vm_compute; reflexivity|evaluate|apply Forall_forall; evaluate]| | |split; [done|evaluate]|evaluate|by intros y ?%elem_of_nil].
    + apply table_if_ok. evaluate.
    + intros y _ [h Hh]. unfold chain_of in Hh. rewrite lookup_empty in Hh. by apply elem_of_nil in Hh.
  - vm_compute. discriminate.
  - intros i Hi. assert (i = 0%nat) as -> by (cbn in Hi; lia). 
    split; [vm_compute; reflexivity|done|apply pd_wf_ok; [done|evaluate|evaluate]|].
    exists 0x3007, 0. split_and!; [vm_compute; reflexivity|done|vm_compute; reflexivity].
  - exists s', tb'. split; [exact H1|]. split; [exact H2|]. exact (H3 0%nat 300 (page0 0x12000) eq_refl ltac:(vm_compute; reflexivity)).
Defined.
