(* ===== verification/Syscall.v ===== *)
(** * System calls on descriptors, users and directories

    Models the handlers of microkernel/arch/i386/syscall.c and process.c that
    work on the structures of the other files: scheduling parameters, threads,
    open files, identities and the current directory.  The registers a handler
    reads are its arguments; a structure in user memory is its value, [None] for a
    NULL pointer, and what is copied out is part of the result.  The handlers that
    build the stack of a new thread or pass messages in registers are left out.

    The C library's [get_openfile] and [put_openfile], which the file system
    server uses to read and to store the open file of a descriptor, are
    [syscall_fd_free] and [syscall_fd_alloc]. *)

From S2P Require Import Prelude DList Bits Hash KState Sched Thread VmPage Pmap VmMap Fd Signal Sync Timer Process.

(** ** Threads and scheduling *)
Definition syscall_destroy_thread (status : Z) : K Z :=
  thr ← gets current;
  remove_thread thr;;
  upd_thread thr (λ th, th <| states := THREAD_EXITING |> <| exitstat := status |>);;
  schedule;;
  mret 0.
Definition syscall_thread_join (id : Z) : K Z := thread_wait id.
(** The priority is copied out when there is a structure for it. *)
Definition syscall_sched_get (id : Z) (want : bool) (flag : Z) : K (Z * option Z) :=
  r ← sched_get id flag;
  mret (r.1, if want then r.2 else None).
Definition syscall_sched_set (id pol : Z) (parm : option Z) (flag : Z) : K Z := sched_set id pol parm flag.
Definition syscall_waitpid (id flags : Z) : K (Z * option Z) := waitpid id flags.

(** ** Descriptors *)

(** The open file of a descriptor: [fd->fileptr[desc]], or the word of the second table *)
Definition fd_file (p desc : Z) : K Z :=
  if desc <? MAX_DEF_FD then get_slot p desc
  else t ← get_slot p MAX_DEF_FD; get_table t (desc - MAX_DEF_FD).
(** The thread the call is about; [None] for the error. *)
Definition fd_caller (id : Z) : K (Z + Z) :=
  su ← superuser;
  if negb su then mret (inl (- EPERM))
  else if id =? 0 then mret (inl (- EINVAL))
  else
    thread ← find_by_tid id;
    if thread =? 0 then mret (inl (- EINVAL))
    else th ← get_thread thread; mret (inr (proc th)).
Definition syscall_fd_alloc (junk : file) (jbit : Z) (id flag : Z) (table : option file) : K Z :=
  c ← fd_caller id;
  match c with
  | inl e => mret e
  | inr p =>
      desc ← (if flag <? 0 then alloc_fdesc junk jbit p else mret 0);
      match table with
      | None => mret desc
      | Some f =>
          file ← fd_file p desc;
          deref files file;;
          modify (λ s, s <| files ::= <[file := f]> |>);;
          mret desc
      end
  end.
Definition syscall_fd_free (id desc : Z) (want : bool) : K (Z * option file) :=
  c ← fd_caller id;
  match c with
  | inl e => mret (e, None)
  | inr p =>
      (if desc <? 0 then free_fdesc p desc;; mret tt else mret tt);;
      if negb want then mret (desc, None)
      else file ← fd_file p desc; f ← deref files file; mret (desc, Some f)
  end.

(** ** Users: the result is what the registers hold after the call *)
Definition syscall_get_user (id : Z) : K (Z * option (Z * Z * Z)) :=
  p ← (if id =? 0 then current_proc else find_by_pid id);
  if p =? 0 then mret (- ESRCH, None)
  else
    e ← get_euid p; g ← get_gid p; eg ← get_egid p; u ← get_uid p;
    mret (u, Some (e, g, eg)).
(** [NO_ID] is the argument -1 that leaves an identity as it is. *)
Definition NO_ID : Z := 2 ^ 32 - 1.
Definition syscall_set_user (ebx ecx edx esi edi : Z) : K Z :=
  p ← (if ebx =? 0 then current_proc else find_by_pid ebx);
  if p =? 0 then mret (- ESRCH)
  else
    (if negb (edx =? NO_ID) then set_euid p edx
     else if negb (edi =? NO_ID) then set_egid p edi else mret tt);;
    su ← superuser;
    if negb su then mret (- EPERM)
    else
      (if negb (ecx =? NO_ID) then set_uid p ecx
       else if negb (esi =? NO_ID) then set_pgrp p else mret tt);;
      mret 0.

(** ** The current directory *)
Definition MAX_PATH_LEN : Z := 256.
(** The bytes before the first NUL; [None] when there is none. *)
Fixpoint c_string (l : list Z) : option (list Z) :=
  match l with [] => None | b :: l => if b =? 0 then Some [] else cons b <$> c_string l end.
Definition cwd_caller (id : Z) : K (option Z) :=
  if id =? 0 then mret None
  else
    thr ← find_by_tid id;
    if thr =? 0 then mret None else th ← get_thread thr; mret (Some (proc th)).
(** A string that fills the array is taken to end at the byte after it, which is the first of
    [fileptr[0]]. *)
Definition syscall_get_cwd (id : Z) (want_ino want_str : bool) : K (Z * option inodev * option (list Z)) :=
  c ← cwd_caller id;
  match c with
  | None => mret (- EINVAL, None, None)
  | Some p =>
      fd ← get_fd p;
      str ← ((if want_str then
               w ← get_slot p 0; l ← must (c_string (cwdstr fd ++ [Z.land w 0xFF])); mret (Some l)
             else mret None) : K (option (list Z)));
      mret (0, if want_ino then Some (cwd fd) else None, str)
  end.

(** [fd->cwdstr[index] = get_user_byte(uptr++)] for the bytes of the string, the NUL that ends it
    included; [i] counts the bytes stored. *)
Fixpoint copy_cwd (fuel : nat) (i : nat) (l : list Z) (dst : list Z) : option (list Z) :=
  match fuel, l with
  | O, _ => Some dst
  | S fuel, [] => None
  | S fuel, b :: l => if b =? 0 then Some (<[i := b]> dst) else copy_cwd fuel (S i) l (<[i := b]> dst)
  end.
(** [cwdstr[MAX_PATH_LEN]] is the first byte of the member after the array, [fileptr[0]]. *)
Definition clear_low (w : Z) : Z := Z.land w (not32 0xFF).
Definition syscall_put_cwd (id : Z) (ino : option inodev) (path : option (list Z)) : K Z :=
  c ← cwd_caller id;
  match c with
  | None => mret (- EINVAL)
  | Some p =>
      (match ino with None => mret tt | Some i => upd_fd p (λ fd, fd <| cwd := i |>) end);;
      match path with
      | None => mret 0
      | Some l =>
          fd ← get_fd p;
          str ← must (copy_cwd (Z.to_nat MAX_PATH_LEN) 0 l (cwdstr fd));
          upd_fd p (λ fd, fd <| cwdstr := str |>);;
          w ← get_slot p 0;
          set_slot p 0 (clear_low w);;
          mret 0
      end
  end.

(** ** Who calls *)

(** The thread [x] is the only hashed one with its id, and the caller is privileged. *)
Record known (s : kstate) (x : Z) (th : thread) : Prop := {
  kn_tid : tid th ≠ 0;
  kn_th : threads s !! x = Some th;
  kn_find : ∃ tb, thash_inv s tb ∧ hashed tb x ∧
    (∀ y thy, hashed tb y → threads s !! y = Some thy → tid thy = tid th → y = x) }.
Definition is_root (s : kstate) : Prop :=
  ∃ c pr, threads s !! current s = Some c ∧ procs s !! proc c = Some pr ∧ euid pr = 0.

Lemma known_same s s' x th : threads s' = threads s → thash s' = thash s → known s x th → known s' x th.
Proof.
  intros E1 E2 [Ht Ex (tb&HI&Hx&Hu)]. split; [done|by rewrite E1|]. exists tb. unfold thash_inv. by rewrite E1, E2.
Qed.
Lemma superuser_root s : is_root s → superuser s = Ret true s.
Proof.
  intros (c&pr&Ec&Ep&Eu). unfold superuser. run_with ltac:(reflexivity). run_with ltac:(by apply get_thread_Ret).
  run_with ltac:(by apply get_proc_Ret). by rewrite Eu.
Qed.
Lemma find_known s x th : known s x th → find_by_tid (tid th) s = Ret x s ∧ x ≠ 0.
Proof.
  intros [Ht Ex (tb&HI&Hx&Hu)]. split; [by apply (find_by_tid_hit s tb)|]. by eapply tab_not_null.
Qed.
Lemma fd_caller_Ret s x th : is_root s → known s x th → fd_caller (tid th) s = Ret (inr (proc th)) s.
Proof.
  intros HR HK. destruct (find_known _ _ _ HK) as [Ef H0]. unfold fd_caller. run_with ltac:(by apply superuser_root). cbn [negb].
  rewrite (proj2 (Z.eqb_neq (tid th) 0)) by apply HK. run_with ltac:(exact Ef). rewrite (proj2 (Z.eqb_neq x 0)) by done.
  by run_with ltac:(apply get_thread_Ret; apply HK).
Qed.
Lemma cwd_caller_Ret s x th : known s x th → cwd_caller (tid th) s = Ret (Some (proc th)) s.
Proof.
  intros HK. destruct (find_known _ _ _ HK) as [Ef H0]. unfold cwd_caller.
  rewrite (proj2 (Z.eqb_neq (tid th) 0)) by apply HK. run_with ltac:(exact Ef). rewrite (proj2 (Z.eqb_neq x 0)) by done.
  by run_with ltac:(apply get_thread_Ret; apply HK).
Qed.

(** ** Open files *)

(** Descriptor [d] of the process [p] points to [a]. *)
Definition fd_points (s : kstate) (p d a : Z) : Prop :=
  ∃ pr, procs s !! p = Some pr ∧
    if d <? MAX_DEF_FD then at_index (fileptr (p_fd pr)) d = Some a
    else ∃ t l, at_index (fileptr (p_fd pr)) MAX_DEF_FD = Some t ∧ ftables s !! t = Some l ∧ at_index l (d - MAX_DEF_FD) = Some a.
(** For the caller, descriptor [d] of the thread [id] is the open file [f] at [a]. *)
Definition open_at (s : kstate) (id d a : Z) (f : file) : Prop :=
  is_root s ∧ ∃ x th, known s x th ∧ tid th = id ∧ fd_points s (proc th) d a ∧ files s !! a = Some f.

Lemma fd_file_Ret s p d a : fd_points s p d a → fd_file p d s = Ret a s.
Proof.
  intros (pr&Ep&Ha). unfold fd_file. destruct (d <? MAX_DEF_FD).
  - by eapply get_slot_Ret.
  - destruct Ha as (t&l&Et&El&Ea). run_with ltac:(by eapply get_slot_Ret). by eapply get_table_Ret.
Qed.

(** [get_openfile], and a close of the file server, which is the same call, return the open
    file of a descriptor and change nothing: the descriptor stays allocated. *)
Lemma fd_free_keeps s id d a f :
  open_at s id d a f → 0 <= d → syscall_fd_free id d true s = Ret (d, Some f) s.
Proof.
  intros (HR&x&th&HK&<-&Hp&Hf) Hd. unfold syscall_fd_free. run_with ltac:(by eapply fd_caller_Ret). cbv iota.
  rewrite (proj2 (Z.ltb_ge d 0)) by done. run_with ltac:(reflexivity). cbn [negb]. run_with ltac:(by apply fd_file_Ret).
  by run_with ltac:(apply deref_Ret; exact Hf).
Qed.

(** [put_openfile] of any descriptor stores into the open file of descriptor 0. *)
Lemma put_openfile_zero s junk jbit id d a f g :
  open_at s id 0 a f → 0 <= d →
  syscall_fd_alloc junk jbit id d (Some g) s = Ret 0 (s <| files ::= <[a := g]> |>).
Proof.
  intros (HR&x&th&HK&<-&Hp&Hf) Hd. unfold syscall_fd_alloc. run_with ltac:(by eapply fd_caller_Ret). cbv iota.
  rewrite (proj2 (Z.ltb_ge d 0)) by done. run_with ltac:(reflexivity). run_with ltac:(by apply fd_file_Ret).
  by run_with ltac:(apply deref_Ret; exact Hf).
Qed.
Lemma open_at_put s id d a f b g :
  open_at s id d a f → open_at (s <| files ::= <[b := g]> |>) id d a (if decide (a = b) then g else f).
Proof.
  intros (HR&x&th&HK&<-&Hp&Hf). split; [exact HR|]. exists x, th. split_and!; [by apply (known_same s)|done|exact Hp|].
  cbn. rewrite lookup_insert_Some. case_decide; naive_solver.
Qed.

(** ** The directory of a process *)
Lemma copy_cwd_spec n : ∀ i w l dst,
  Forall (λ b, b ≠ 0) w → length dst = (i + n)%nat →
  copy_cwd n i (w ++ 0 :: l) dst =
    Some (take i dst ++ take n (w ++ [0]) ++ drop (i + min n (S (length w))) dst).
Proof.
  induction n as [|n IH]; intros i w l dst HW HL.
  - cbn [copy_cwd min take app]. rewrite Nat.add_0_r in *. by rewrite take_0, drop_ge, app_nil_r, take_ge by lia.
  - destruct w as [|b w]; cbn [copy_cwd app].
    + cbn. rewrite insert_take_drop by lia. rewrite Nat.min_0_r. cbn. by rewrite take_nil, Nat.add_1_r.
    + apply Forall_cons in HW as [Hb HW]. rewrite (proj2 (Z.eqb_neq b 0)) by done.
      rewrite IH; [|done|rewrite length_insert; lia]. f_equal. cbn [take length].
      rewrite (take_S_r _ _ b) by (apply list_lookup_insert_eq; lia).
      rewrite take_insert_ge, drop_insert_lt by lia. rewrite <- app_assoc. cbn.
      do 4 f_equal. lia.
Qed.
Lemma c_string_app w l : Forall (λ b, b ≠ 0) w → c_string (w ++ 0 :: l) = Some w.
Proof.
  induction 1 as [|b w Hb HW IH]; [done|]. cbn. rewrite (proj2 (Z.eqb_neq b 0)) by done. by rewrite IH.
Qed.
Lemma clear_low_byte w : Z.land (clear_low w) 0xFF = 0.
Proof. unfold clear_low. rewrite <- Z.land_assoc. change (Z.land (not32 255) 255) with 0. apply Z.land_0_r. Qed.

Lemma c_string_cwd n w dst : Forall (λ b, b ≠ 0) w → length dst = n →
  c_string ((take n (w ++ [0]) ++ drop (min n (S (length w))) dst) ++ [0]) = Some (take n w).
Proof.
  intros HW Hl. destruct (decide (n <= length w)%nat) as [Hn|Hn].
  - rewrite take_app_le, Nat.min_l, drop_ge, app_nil_r by lia. apply c_string_app. by apply Forall_take.
  - rewrite (take_ge (w ++ [0])), (take_ge w) by (rewrite ?length_app; cbn; lia). rewrite <- !app_assoc. by apply c_string_app.
Qed.

(** C33. The directory [syscall_put_cwd] stores is the one [syscall_get_cwd] returns, cut to 256
    bytes; but the NUL that ends it is stored behind the array, and clears the low byte
    of the pointer to the open file of descriptor 0. *)
Theorem cwd_roundtrip s x th pr w l ino a rest :
  known s x th → procs s !! proc th = Some pr → length (cwdstr (p_fd pr)) = Z.to_nat MAX_PATH_LEN →
  fileptr (p_fd pr) = a :: rest → Forall (λ b, b ≠ 0) w →
  ∃ s' pr', syscall_put_cwd (tid th) (Some ino) (Some (w ++ 0 :: l)) s = Ret 0 s' ∧
    syscall_get_cwd (tid th) true true s' = Ret (0, Some ino, Some (take (Z.to_nat MAX_PATH_LEN) w)) s' ∧
    procs s' = <[proc th := pr']> (procs s) ∧ fileptr (p_fd pr') = clear_low a :: rest ∧ files s' = files s.
Proof.
  intros HK Ep Hl Hf HW. set (n := Z.to_nat MAX_PATH_LEN) in *.
  set (str := take n (w ++ [0]) ++ drop (min n (S (length w))) (cwdstr (p_fd pr))).
  set (fd' := (p_fd pr) <| cwd := ino |> <| cwdstr := str |> <| fileptr := clear_low a :: rest |>).
  set (pr' := pr <| p_fd := fd' |>). set (s' := s <| procs ::= <[proc th := pr']> |>).
  exists s', pr'. split_and!; try done.
  - unfold syscall_put_cwd. run_with ltac:(by eapply cwd_caller_Ret). cbv iota. run_with ltac:(by apply upd_fd_Ret).
    run_with ltac:(apply get_fd_Ret; apply lookup_insert_eq).
    run_with ltac:(fields; fold n; rewrite (copy_cwd_spec n 0) by (by rewrite ?Nat.add_0_l); reflexivity).
    run_with ltac:(apply upd_fd_Ret; apply lookup_insert_eq). flat. rewrite insert_insert_eq.
    run_with ltac:(eapply get_slot_Ret; [apply lookup_insert_eq|]; fields; rewrite Hf; reflexivity).
    run_with ltac:(eapply set_slot_Ret; [apply lookup_insert_eq|]; fields; rewrite Hf; reflexivity). flat.
    rewrite insert_insert_eq, Hf. done.
  - assert (known s' x th) by (by apply (known_same s)).
    unfold syscall_get_cwd. run_with ltac:(by eapply cwd_caller_Ret). cbv iota.
    run_with ltac:(apply get_fd_Ret; apply lookup_insert_eq).
    rewrite (bind_Ret _ _ _ (Some (take n w)) s'); [done|].
    run_with ltac:(eapply get_slot_Ret; [apply lookup_insert_eq|reflexivity]).
    fields. rewrite clear_low_byte. unfold str. by rewrite c_string_cwd.
Qed.

(** ** Instances of the theorems *)
Lemma demo_known : known demo_threads 14000 (demo_th 14000).
Proof.
  split.
  - by vm_compute.
  - vm_compute. reflexivity.
  - exists demo_tb. split_and!; [apply demo_thash| |].
    + exists (hash_fn 502). evaluate.
    + intros y thy Hy E Ht. eapply demo_unique; [done..|]. rewrite Ht. vm_compute. reflexivity.
Qed.
Lemma demo_th_tid : tid (demo_th 14000) = 502.
Proof. vm_compute. reflexivity. Qed.
Lemma demo_th_proc : proc (demo_th 14000) = 7000.
Proof. vm_compute. reflexivity. Qed.

(** The directory is set to /a; the pointer 5140 of descriptor 0 becomes 5120. *)
Definition cwd_proc : process :=
  proc0 <| p_fd := fd0 <| cwdstr := replicate 256 0 |> <| fileptr := 5140 :: replicate 32 0 |> |>.
Definition with_proc (pr : process) (s : kstate) : kstate := s <| procs := {[ 7000 := pr ]} |>.
Definition demo_cwd : kstate := with_proc cwd_proc demo_threads.
Lemma with_proc_known pr s x th : known s x th → known (with_proc pr s) x th.
Proof. by apply known_same. Qed.
Lemma with_proc_lookup pr s : procs (with_proc pr s) !! 7000 = Some pr.
Proof. done. Qed.
Lemma cwd_roundtrip_witness :
  ∃ s' pr', syscall_put_cwd 502 (Some (mk_inodev 12 3)) (Some ([47; 97] ++ [0])) demo_cwd = Ret 0 s' ∧
    syscall_get_cwd 502 true true s' = Ret (0, Some (mk_inodev 12 3), Some [47; 97]) s' ∧
    procs s' !! 7000 = Some pr' ∧ at_index (fileptr (p_fd pr')) 0 = Some 5120.
Proof.
  destruct (cwd_roundtrip demo_cwd 14000 (demo_th 14000) cwd_proc [47; 97] [] (mk_inodev 12 3) 5140 (replicate 32 0))
    as (s'&pr'&H1&H2&H3&H4&_).
  - apply with_proc_known, demo_known.
  - rewrite demo_th_proc. apply with_proc_lookup.
  - reflexivity.
  - reflexivity.
  - repeat constructor; lia.
  - rewrite demo_th_tid in H1, H2. rewrite demo_th_proc in H3. exists s', pr'. split_and!; [exact H1|exact H2| |].
    + rewrite H3. apply lookup_insert_eq.
    + rewrite H4. reflexivity.
Defined.
