(* ===== verification/Irq.v ===== *)
(** * Interrupt requests

    Models microkernel/kernel/irq.c without [IRQ_init].  The array [pc_irq] is
    in the store [irqs] at [pc_irq i], the other handlers of a line at the
    addresses the allocator answered.  The head of the list of a line is the
    member [list] of its entry of [pc_irq]. *)

From S2P Require Import Prelude DList Bits Hash KState Sched Thread.

Definition MAX_IRQ : Z := 16.
Definition HANDLER_OK : Z := 0xDEAD.
Definition IRQ_REQUEST : Z := 1.

Notation irq_list := (fld F_irq).
Definition irq_fuel (s : kstate) : nat := S (size (irqs s)).

(** ** The hash table *)
Definition irqhash_insert (i : Z) : K unit :=
  x ← deref irqs i;
  let h := hash_fn (irq_id x) in
  b ← gets (λ s, bucket (irqhash s) h);
  upd_irq i (λ x, x <| irq_next := b |>);;
  modify (λ s, s <| irqhash ::= <[h := i]> |>).

(** [for(link=bucket->irq; (link->next!=irq) || (link->next != NULL); link = link->next);] *)
Fixpoint irqhash_walk (fuel : nat) (link i : Z) : K Z :=
  match fuel with
  | O => spin
  | S fuel =>
      l ← deref irqs link;
      if negb (irq_next l =? i) || negb (irq_next l =? 0) then irqhash_walk fuel (irq_next l) i
      else mret link
  end.
Definition irqhash_remove (i : Z) : K unit :=
  x ← deref irqs i;
  let h := hash_fn (irq_id x) in
  b ← gets (λ s, bucket (irqhash s) h);
  if b =? i then modify (λ s, s <| irqhash ::= <[h := irq_next x]> |>)
  else
    fuel ← gets irq_fuel;
    link ← irqhash_walk fuel b i;
    x ← deref irqs i;
    upd_irq link (λ l, l <| irq_next := irq_next x |>).

(** [for(link=p->next; link->id!=id; link=link->next) if(link->next == NULL) ...] *)
Fixpoint find_irq_loop (fuel : nat) (link id : Z) : K Z :=
  match fuel with
  | O => spin
  | S fuel =>
      l ← deref irqs link;
      if irq_id l =? id then mret link
      else if irq_next l =? 0 then mret 0
      else find_irq_loop fuel (irq_next l) id
  end.
Definition find_by_irqid (id : Z) : K Z :=
  b ← gets (λ s, bucket (irqhash s) (hash_fn id));
  x ← deref irqs b;
  if irq_id x =? id then mret b
  else fuel ← gets irq_fuel; find_irq_loop fuel (irq_next x) id.

(** ** Interrupts *)

(** The body of the loop of [handle_IRQ] for one handler. *)
Definition deliver (x : irq) : K unit :=
  if irq_handler x =? 0 then mret tt
  else
    let thr := irq_owner x in
    upd_thread thr (λ th, th <| ctx ::= λ c, c <| irqflag ::= λ f, Z.lor f IRQ_REQUEST |> |>);;
    th ← get_thread thr;
    if has (states th) THREAD_BLOCKED then wakeup thr else mret tt.
Fixpoint irq_loop (fuel : nat) (line : Z) (nextirq : ptr) : K unit :=
  match fuel with
  | O => spin
  | S fuel =>
      i ← as_obj nextirq;
      x ← deref irqs i;
      deliver x;;
      n ← ask_links (rd_next (irq_list nextirq));
      e ← ask_links (list_isempty (irq_list (obj line)));
      if (e : bool) then mret tt else irq_loop fuel line n
  end.
Definition handle_IRQ (irqno : Z) : K unit :=
  fuel ← gets irq_fuel;
  irq_loop fuel (pc_irq irqno) (obj (pc_irq irqno));;
  schedule.

(** ** System calls; [junk] is the contents of a recycled structure *)
Definition syscall_IRQ_request (junk : irq) (irqnum : Z) : K Z :=
  su ← superuser;
  if negb su then mret (- EPERM)
  else
    x ← deref irqs (pc_irq irqnum);
    c ← gets current;
    if irq_handler x =? 0 then
      upd_irq (pc_irq irqnum) (λ x, x <| irq_id := irqnum |> <| irq_flag := 0 |>);;
      upd_irq (pc_irq irqnum) (λ x, x <| irq_handler := HANDLER_OK |> <| irq_owner := c |>);;
      mret irqnum
    else
      n ← kalloc [F_irq];
      modify (λ s, if n =? 0 then s else s <| irqs ::= <[n := junk]> |>);;
      on_links (list_add irq_list (irq_list (obj (pc_irq irqnum))) (obj n));;
      id ← gets irq_next_id;
      modify (λ s, s <| irq_next_id := s32 (id + 1) |>);;
      upd_irq n (λ x, x <| irq_id := id |> <| irq_flag := 0 |>);;
      upd_irq n (λ x, x <| irq_handler := HANDLER_OK |> <| irq_owner := c |>);;
      irqhash_insert n;;
      mret id.

Definition syscall_IRQ_free (irqid : Z) : K Z :=
  su ← superuser;
  if negb su then mret (- EPERM)
  else if irqid <? MAX_IRQ then
    upd_irq (pc_irq irqid) (λ x, x <| irq_handler := 0 |> <| irq_flag := 0 |> <| irq_owner := 0 |>);;
    mret 0
  else
    tofree ← find_by_irqid irqid;
    if tofree =? 0 then mret (- EINVAL)
    else
      on_links (list_del irq_list (irq_list (obj (pc_irq irqid))) (obj tofree));;
      irqhash_remove tofree;;
      modify (λ s, s <| irqs ::= delete tofree |>);;
      mret 0.

Definition syscall_IRQ_wait : K Z :=
  thread ← gets current;
  su ← superuser;
  if negb su then mret (- EPERM)
  else
    upd_thread thread (λ th, th <| states := IRQ_WAIT |>);;
    remove_thread thread;;
    schedule;;
    mret 0.

(** ** A line that two threads use *)

(** The owner of a handler is alive and not blocked. *)
Definition awake_owner (T : gmap Z thread) (x : irq) : Prop :=
  irq_handler x = 0 ∨ ∃ th, T !! irq_owner x = Some th ∧ has (states th) THREAD_BLOCKED = false.

Lemma deliver_awake s x :
  awake_owner (threads s) x → ∃ T, deliver x s = Ret tt (s <| threads := T |>) ∧
    ∀ z, awake_owner (threads s) z → awake_owner T z.
Proof.
  unfold deliver. intros [Hx|(th&Eth&Hst)].
  { exists (threads s). rewrite Hx. split; [by destruct s|done]. }
  destruct (_ =? 0); [exists (threads s); split; [by destruct s|done]|].
  eexists. split.
  - run_with ltac:(apply upd_thread_Ret; exact Eth).
    run_with ltac:(apply get_thread_Ret; fields; rewrite lookup_insert_eq; reflexivity). fields.
    rewrite Hst. reflexivity.
  - intros z [?|(thz&Ez&Hz)]; [by left|]. right.
    destruct (decide (irq_owner z = irq_owner x)) as [E|].
    + rewrite E in *. simplify_eq. eexists. rewrite lookup_insert_eq. split; [done|]. done.
    + exists thz. by rewrite lookup_insert_ne.
Qed.

(** The loop ends only if the line has one handler: with a second one the test
    never holds and the walk comes to the list head. *)
Lemma shared_irq_faults s irqno x n y lk :
  irqs s !! pc_irq irqno = Some x → awake_owner (threads s) x →
  irqs s !! n = Some y → awake_owner (threads s) y →
  links s !! irq_list (obj (pc_irq irqno)) = Some (mk_link (obj n) lk) →
  rd_next (irq_list (obj n)) (links s) = Some (irq_list (obj (pc_irq irqno))) →
  pc_irq irqno ≠ n → handle_IRQ irqno s = Fault.
Proof.
  intros Ex Hx Ey Hy El En Hne. unfold handle_IRQ. run.
  assert (He : list_isempty (irq_list (obj (pc_irq irqno))) (links s) = Some false).
  { unfold list_isempty, rd_next. rewrite El. cbn. by rewrite bool_decide_false by done. }
  assert (Hsz : (2 <= size (irqs s))%nat).
  { rewrite <- size_dom. transitivity (size ({[ pc_irq irqno; n ]} : gset Z)).
    - rewrite size_union by set_solver. by rewrite !size_singleton.
    - apply subseteq_size. intros z [->%elem_of_singleton| ->%elem_of_singleton]%elem_of_union;
        apply elem_of_dom; eauto. }
  destruct (deliver_awake s x Hx) as (T1&E1&HT1).
  destruct (deliver_awake (s <| threads := T1 |>) y) as (T2&E2&_); [by apply HT1|].
  unfold irq_fuel. destruct (size (irqs s)) as [|[|k]]; [lia|lia|].
  unfold mbind at 1, M_bind at 1. cbn [irq_loop].
  run_with ltac:(apply as_obj_Ret). run_with ltac:(apply deref_Ret; exact Ex). run_with ltac:(exact E1).
  run_with ltac:(apply ask_links_Ret; unfold rd_next; fields; rewrite El; reflexivity).
  run_with ltac:(apply ask_links_Ret; exact He). cbv iota.
  run_with ltac:(apply as_obj_Ret). run_with ltac:(apply deref_Ret; exact Ey). run_with ltac:(exact E2).
  run_with ltac:(apply ask_links_Ret; exact En).
  run_with ltac:(apply ask_links_Ret; exact He). cbv iota. reflexivity.
Qed.
