(* ===== verification/Reach.v ===== *)
(** * The scheduler under interrupts, ticks and system calls

    The events that move threads between the run queues: the calls of the
    running thread (yield, sleep, wait for an interrupt), the interrupt lines
    and the timer interrupt, with the routines of Sched.v, Thread.v, Timer.v and
    Irq.v.  [kinv] is preserved by every event in every order, and every enabled
    event returns. *)

From S2P Require Import Prelude DList Bits Id Hash KState Sched Thread Signal Timer Irq.

(** ** Events *)
Inductive event :=
  | ev_yield
  | ev_sleep_interruptible
  | ev_sleep_uninterruptible
  | ev_irq_wait
  | ev_irq (line : Z)
  | ev_tick
  | ev_schedule.

Definition run_event (e : event) : K unit :=
  match e with
  | ev_yield => syscall_sched_yield;; mret tt
  | ev_sleep_interruptible => c ← gets current; sleep_interruptible c
  | ev_sleep_uninterruptible => c ← gets current; sleep_uninterruptible c
  | ev_irq_wait => syscall_IRQ_wait;; mret tt
  | ev_irq line => handle_IRQ line
  | ev_tick => timer_int 1 sigqueue0
  | ev_schedule => schedule
  end.

(** The idle thread makes no calls; there are 16 lines; [syscall_IRQ_wait] is
    for the superuser. *)
Definition is_root (s : kstate) : Prop :=
  ∃ th pr, threads s !! current s = Some th ∧ procs s !! proc th = Some pr ∧ euid pr = 0.
Definition enabled (e : event) (s : kstate) : Prop :=
  match e with
  | ev_yield | ev_sleep_interruptible | ev_sleep_uninterruptible => current s ≠ init_thread s
  | ev_irq_wait => current s ≠ init_thread s ∧ is_root s
  | ev_irq line => 0 <= line < MAX_IRQ
  | ev_tick | ev_schedule => True
  end.

Inductive step : kstate → kstate → Prop :=
  | step_event e s s' : enabled e s → run_event e s = Ret tt s' → step s s'.
Inductive reachable (s0 : kstate) : kstate → Prop :=
  | reach_start : reachable s0 s0
  | reach_step s s' : reachable s0 s → step s s' → reachable s0 s'.

(** ** The invariant *)
Definition ready (th : thread) : Prop := has (states th) THREAD_BLOCKED = false.
Record sane (th : thread) : Prop := {
  sane_stat : 0 <= priority_stat th < NPRIORS;
  sane_dyn : 0 <= priority_dyn th < NPRIORS;
  sane_bound : 0 <= bound th <= 80;
  sane_slice : - 2 ^ 31 <= time_slice th < 2 ^ 31 }.
Record line_ok (s : kstate) (line : Z) : Prop := {
  line_links : rd_next (irq_list (obj (pc_irq line))) (links s) = Some (irq_list (obj (pc_irq line)));
  line_owner : ∃ x, irqs s !! pc_irq line = Some x ∧
    (irq_handler x ≠ 0 → irq_owner x ≠ init_thread s ∧ is_Some (threads s !! irq_owner x)) }.

(** [qs] holds exactly the threads that are not blocked, the idle thread
    excepted. *)
Record kinv (s : kstate) (qs : list (list Z)) : Prop := {
  ki_rq : rq_inv s qs;
  ki_thread : ∀ t th, threads s !! t = Some th →
    0 < t ∧ sane th ∧ is_Some (links s !! runq (obj t)) ∧ (t ≠ init_thread s → (queued qs t ↔ ready th));
  ki_idle : ∃ th, threads s !! init_thread s = Some th ∧ PRIO_SYS_MIN <= priority_stat th ∧
    ¬ queued qs (init_thread s);
  ki_lines : ∀ line, 0 <= line < MAX_IRQ → line_ok s line;
  ki_timers : pending s [] }.
(** The running thread is the idle thread or one that is not blocked. *)
Definition running_ok (s : kstate) (qs : list (list Z)) : Prop :=
  current s = init_thread s ∨ queued qs (current s).

Lemma prio_level s qs p :
  rq_inv s qs → 0 <= p < NPRIORS → ∃ i l, PRIOQ p = Z.of_nat i ∧ qs !! i = Some l.
Proof.
  intros HI Hp. unfold NPRIORS in Hp. unfold PRIOQ. assert (0 <= Z.quot p 4 < 32).
  { rewrite Z.quot_div_nonneg by lia. split; [apply Z.div_pos; lia|apply Z.div_lt_upper_bound; lia]. }
  destruct (lookup_lt_is_Some_2 qs (Z.to_nat (Z.quot p 4))) as [l Hl]; [rewrite (rq_len _ _ HI); lia|].
  exists (Z.to_nat (Z.quot p 4)), l. split; [lia|done].
Qed.

Lemma queued_insert_other qs i l l' u :
  qs !! i = Some l → (u ∈ l' ↔ u ∈ l) → (queued (<[i := l']> qs) u ↔ queued qs u).
Proof.
  intros Hi Hu. pose proof (lookup_lt_Some _ _ _ Hi). split; intros (j&lj&Hj&Hm).
  - rewrite list_lookup_insert in Hj. case_decide as E; [destruct E as [<- _]; simplify_eq|by exists j, lj].
    exists i, l. naive_solver.
  - destruct (decide (j = i)) as [->|]; [simplify_eq|].
    + exists i, l'. rewrite list_lookup_insert_eq by done. naive_solver.
    + exists j, lj. by rewrite list_lookup_insert_ne by congruence.
Qed.
Lemma queued_insert_in qs i l t : (i < length qs)%nat → queued (<[i := t :: l]> qs) t.
Proof. intros Hi. exists i, (t :: l). rewrite list_lookup_insert_eq by done. set_solver. Qed.

(** One thread changed, by a routine of the scheduler. *)
Lemma kinv_change s s' qs qs' t th th' :
  kinv s qs → threads s !! t = Some th → threads s' = <[t := th']> (threads s) →
  rq_inv s' qs' → sched_frame s s' → sane th' → priority_stat th' = priority_stat th →
  (∀ u, u ≠ t → queued qs' u ↔ queued qs u) →
  (if decide (t = init_thread s) then ¬ queued qs' t else queued qs' t ↔ ready th') →
  kinv s' qs'.
Proof.
  intros HK Et ET HI HF Hs Hp Hu Hq.
  assert (Ei : init_thread s' = init_thread s) by (by apply (sf_field init_thread)).
  assert (HL : ∀ d, (∀ t, d ≠ runq (obj t)) → (∀ i, d ≠ run_head i) → links s' !! d = links s !! d) by apply HF.
  split; [done|..].
  - intros u thu. rewrite ET. intros E.
    assert (is_Some (links s' !! runq (obj u)) ↔ is_Some (links s !! runq (obj u))) as ->.
    { by rewrite <- !elem_of_dom, (sf_dom _ _ HF). }
    rewrite Ei. destruct (decide (u = t)) as [->|].
    + rewrite lookup_insert_eq in E. simplify_eq. destruct (ki_thread _ _ HK _ _ Et) as (?&_&?&_).
      split_and!; [done..|]. intros. by rewrite decide_False in Hq.
    + rewrite lookup_insert_ne in E by done. rewrite Hu by done. by apply (ki_thread _ _ HK).
  - destruct (ki_idle _ _ HK) as (thi&E&Hpi&Hni). rewrite Ei, ET.
    destruct (decide (init_thread s = t)) as [<-|].
    + exists th'. rewrite lookup_insert_eq, Hp. rewrite decide_True in Hq by done. simplify_eq. done.
    + exists thi. rewrite lookup_insert_ne, Hu by done. done.
  - intros line Hl. destruct (ki_lines _ _ HK line Hl) as [Hk (x&Ex&Hx)]. split.
    + unfold rd_next in *. by rewrite HL by (unfold irq_list, run_head, pc_irq, G_run, MAX_IRQ in *; intros ? [=]; lia).
    + exists x. rewrite (sf_field irqs s s'), Ei by done. split; [done|]. intros [? Ho]%Hx. split; [done|].
      rewrite ET. by apply lookup_insert_is_Some'; right.
  - by eapply pending_frame; [|apply (ki_timers _ _ HK)].
Qed.

(** A field of a thread the invariant does not read. *)
Lemma kinv_field s qs t th th' :
  kinv s qs → threads s !! t = Some th → sane th' → states th' = states th →
  priority_stat th' = priority_stat th → priority_dyn th' = priority_dyn th → cpu th' = cpu th →
  kinv (s <| threads ::= <[t := th']> |>) qs.
Proof.
  intros HK Et Hs E1 E2 E3 E4. destruct (ki_thread _ _ HK _ _ Et) as (_&_&_&Hq).
  eapply (kinv_change s _ qs qs t th th'); try done.
  - by eapply rq_inv_upd; [apply HK|..].
  - case_decide; [|unfold ready; rewrite E1; auto]. subst. destruct (ki_idle _ _ HK) as (?&_&_&?). done.
Qed.

(** ** The moves of a thread *)
Lemma block_spec s qs t th st :
  kinv s qs → queued qs t → threads s !! t = Some th → has st THREAD_BLOCKED = true →
  ∃ s' qs', (∀ A (k : K A), (upd_thread t (λ th, th <| states := st |>);; remove_thread t;; k) s = k s') ∧
    kinv s' qs'.
Proof.
  intros HK (i&l&Hi&Hl) Et Hst. apply list_elem_of_split in Hl as (l1&l2&->).
  destruct (ki_thread _ _ HK _ _ Et) as (_&[]&_&_).
  set (s1 := s <| threads ::= <[t := th <| states := st |>]> |>).
  assert (HI1 : rq_inv s1 qs) by (by eapply rq_inv_upd; [apply HK|..]).
  destruct (remove_thread_spec s1 qs t i l1 l2 HI1 Hi) as (s'&E&HI'&HF&T).
  pose proof (queued_remove _ _ _ _ _ _ HI1 Hi) as Hnq.
  exists s', (<[i := l1 ++ l2]> qs). split.
  { intros A k. run_with ltac:(apply upd_thread_Ret; exact Et). by run_with ltac:(exact E). }
  eapply (kinv_change s _ qs _ t th (th <| states := st |>)); try done.
  - etrans; [apply sched_frame_threads|exact HF].
  - intros u Hu. eapply queued_insert_other; [done|]. set_solver.
  - case_decide; [done|]. split; [done|]. unfold ready. cbn. by rewrite Hst.
Qed.

Lemma wake_spec s qs t th :
  kinv s qs → t ≠ init_thread s → threads s !! t = Some th → has (states th) THREAD_BLOCKED = true →
  ∃ s' qs', wakeup t s = Ret tt s' ∧ kinv s' qs'.
Proof.
  intros HK Hi0 Et Hst. destruct (ki_thread _ _ HK _ _ Et) as (Hpos&[Hps ? ? ?]&Hlk&Hq).
  assert (Hnq : ¬ queued qs t). { rewrite Hq by done. unfold ready. by rewrite Hst. }
  destruct (prio_level s qs _ (ki_rq _ _ HK) Hps) as (i&l&Hp&Hi).
  pose proof (lookup_lt_Some _ _ _ Hi) as Hlt.
  destruct (wakeup_spec s qs t th i l) as (s'&E&HI'&HF&T); try done; [apply HK|].
  exists s', (<[i := t :: l]> qs). split; [done|].
  eapply kinv_change; try done.
  - intros u Hu. eapply queued_insert_other; [done|]. set_solver.
  - case_decide; [done|]. split; [done|]. intros _. by apply queued_insert_in.
Qed.

Lemma kinv_other s s' qs :
  links s' = links s → threads s' = threads s → rq_bitmap s' = rq_bitmap s → rq_nthreads s' = rq_nthreads s →
  init_thread s' = init_thread s → irqs s' = irqs s → kinv s qs → kinv s' qs.
Proof.
  intros E1 E2 E3 E4 E5 E6 [HI HT HD HL HP]. split.
  - destruct HI. split; rewrite ?E1, ?E2, ?E3, ?E4; done.
  - by rewrite E1, E2, E5.
  - by rewrite E2, E5.
  - intros line Hl. destruct (HL line Hl). split; rewrite ?E1, ?E2, ?E5, ?E6; done.
  - unfold pending. by rewrite E1.
Qed.

Lemma schedule_inv s qs :
  kinv s qs → ∃ s', schedule s = Ret tt s' ∧ kinv s' qs ∧ running_ok s' qs.
Proof.
  intros HK.
  assert (∃ c th, pick_next s = Ret c s ∧ threads s !! c = Some th ∧ (c = init_thread s ∨ queued qs c))
    as (c&th&Ep&Et&Hc).
  { destruct (rq_top _ _ (ki_rq _ _ HK)) as [[Hf _]|(i&t&_&HT)].
    - destruct (ki_idle _ _ HK) as (th&E&_). exists (init_thread s), th. split_and!; [|done|by left].
      unfold pick_next. run. by rewrite Hf.
    - pose proof HT as [[l Hl] _]. destruct (rq_mem _ _ (ki_rq _ _ HK) _ _ t Hl) as (_&th&Et&_); [set_solver|].
      exists t, th. split_and!; [eapply pick_next_top; [apply HK|done]|done|].
      right. exists i, (l ++ [t]). set_solver. }
  exists (s <| current := c |> <| threads ::= <[c := th <| sched_flag := 0 |>]> |>).
  split; [by apply schedule_to|]. split; [|exact Hc].
  assert (HK1 : kinv (s <| current := c |>) qs) by (by apply (kinv_other s)).
  destruct (ki_thread _ _ HK _ _ Et) as (_&[]&_).
  by apply (kinv_field _ _ c th).
Qed.

(** ** The events *)
Lemma running_thread s qs :
  kinv s qs → running_ok s qs → ∃ th, threads s !! current s = Some th ∧ sane th.
Proof.
  intros HK [E|(i&l&Hi&Hl)].
  - destruct (ki_idle _ _ HK) as (th&Et&_). rewrite E. exists th.
    destruct (ki_thread _ _ HK _ _ Et) as (_&?&_). done.
  - destruct (rq_mem _ _ (ki_rq _ _ HK) _ _ _ Hi Hl) as (_&th&Et&_). exists th.
    destruct (ki_thread _ _ HK _ _ Et) as (_&?&_). done.
Qed.

Lemma sleep_inv s qs st :
  kinv s qs → running_ok s qs → current s ≠ init_thread s → has st THREAD_BLOCKED = true →
  ∃ s' qs',
    (upd_thread (current s) (λ th, th <| states := st |>);; remove_thread (current s);; schedule) s = Ret tt s' ∧
    (∀ A (k : K A), (upd_thread (current s) (λ th, th <| states := st |>);; remove_thread (current s);;
       schedule;; k) s = k s') ∧ kinv s' qs' ∧ running_ok s' qs'.
Proof.
  intros HK HR Hc Hst. destruct (running_thread _ _ HK HR) as (th&Et&_).
  destruct HR as [?|Hq]; [done|]. destruct (block_spec s qs _ th st HK Hq Et Hst) as (s1&qs1&E1&HK1).
  destruct (schedule_inv s1 qs1 HK1) as (s2&E2&?&?). exists s2, qs1. rewrite E1.
  split_and!; [done| |done..]. intros A k. rewrite E1. by run_with ltac:(exact E2).
Qed.

Lemma yield_inv s qs :
  kinv s qs → running_ok s qs → current s ≠ init_thread s →
  ∃ s' qs', syscall_sched_yield s = Ret 0 s' ∧ kinv s' qs' ∧ running_ok s' qs'.
Proof.
  intros HK [?|Hq] Hc; [done|]. pose proof Hq as (i&l&Hi&Hl). apply list_elem_of_split in Hl as (l1&l2&->).
  pose proof (lookup_lt_Some _ _ _ Hi) as Hlt.
  destruct (yield_frame s qs i l1 (current s) l2 (ki_rq _ _ HK) Hi eq_refl) as (s'&th&Et&E&HI&HF&T).
  destruct (ki_thread _ _ HK _ _ Et) as (_&[]&_&Hr).
  exists s', (<[i := current s :: l1 ++ l2]> qs). split_and!; [done| |].
  - eapply kinv_change; try done.
    + intros u Hu. eapply queued_insert_other; [done|]. set_solver.
    + case_decide; [done|]. split; [|intros _; by apply queued_insert_in]. intros _. by apply Hr.
  - right. rewrite (sf_field current s s') by done. by apply queued_insert_in.
Qed.

Lemma queued_not_idle s qs t : kinv s qs → queued qs t → t ≠ init_thread s.
Proof. intros HK Hq ->. by destruct (ki_idle _ _ HK) as (?&_&_&?). Qed.

(** A tick that ends a slice. *)
Lemma expire_inv s qs th :
  kinv s qs → queued qs (current s) → threads s !! current s = Some th → sane th →
  schedpolicy th = SCHED_OTHER → priority_stat th < PRIO_SYS_MIN → time_slice th = 1 →
  ∃ s' qs', sched_timer s = Ret tt s' ∧ kinv s' qs'.
Proof.
  intros HK Hq Et [Hps Hpd Hb Hsl] Hpol Hlt H1. pose proof (queued_not_idle _ _ _ HK Hq) as Hne.
  pose proof Hq as (i&l&Hi&Hl). apply list_elem_of_split in Hl as (l1&l2&->).
  pose proof (lookup_lt_Some _ _ _ Hi) as Hlen. set (b := Z.max PRIO_OTHER_MIN (bound th - 1)).
  assert (Hb' : 0 <= b <= 80) by (unfold b, PRIO_OTHER_MIN; lia).
  assert (Hp : 0 <= priority_stat th + b < NPRIORS) by (unfold PRIO_SYS_MIN, NPRIORS in *; lia).
  assert (Hp32 : s32 (priority_stat th + b) = priority_stat th + b) by (apply s32_id; unfold NPRIORS in *; lia).
  assert (∃ j lj, PRIOQ (s32 (priority_stat th + b)) = Z.of_nat j ∧ <[i := l1 ++ l2]> qs !! j = Some lj)
    as (j&lj&Hj&Hlj).
  { rewrite Hp32. destruct (prio_level s qs _ (ki_rq _ _ HK) Hp) as (j&lj&?&Hj). exists j.
    destruct (decide (i = j)) as [->|]; [|exists lj; by rewrite list_lookup_insert_ne].
    exists (l1 ++ l2). by rewrite list_lookup_insert_eq. }
  destruct (sched_timer_spec s qs (current s) th i l1 l2 j lj) as (s'&E&HI&HF&T); try done; [apply HK|lia|].
  pose proof (lookup_lt_Some _ _ _ Hlj) as Hlj'.
  eexists s', _. split; [done|]. eapply kinv_change; try done.
  - split; cbn; try done. by fold b; rewrite Hp32.
  - intros u Hu. rewrite queued_insert_other by (done || set_solver).
    eapply queued_insert_other; [done|]. set_solver.
  - destruct (ki_thread _ _ HK _ _ Et) as (_&_&_&Hr). rewrite decide_False by done.
    split; [|intros _; by apply queued_insert_in]. intros _. by apply Hr.
Qed.

Lemma tick_inv s qs :
  kinv s qs → running_ok s qs → ∃ s' qs', sched_timer s = Ret tt s' ∧ kinv s' qs'.
Proof.
  intros HK HR. destruct (running_thread _ _ HK HR) as (th&Et&Hs). pose proof Hs as [Hps Hpd Hb Hsl].
  destruct (decide (schedpolicy th = SCHED_OTHER ∧ priority_stat th < PRIO_SYS_MIN)) as [[Hpol Hlt]|Hno].
  2:{ exists s, qs. split; [|done]. unfold sched_timer. run. run_with ltac:(apply get_thread_Ret; exact Et).
    destruct (_ =? _); [done|]. destruct (Z.eqb_spec (schedpolicy th) SCHED_OTHER); cbn [negb]; [|done].
    destruct (Z.leb_spec PRIO_SYS_MIN (priority_stat th)); [done|]. destruct Hno. split; [done|lia]. }
  destruct HR as [Ec|Hq].
  { rewrite Ec in Et. destruct (ki_idle _ _ HK) as (?&?&?&_). simplify_eq. lia. }
  destruct (decide (time_slice th = 1)) as [H1|H1]; [by eapply expire_inv|].
  exists (s <| threads ::= <[current s := th <| time_slice ::= λ n, s32 (n - 1) |>]> |>), qs. split.
  - unfold sched_timer. run. run_with ltac:(apply get_thread_Ret; exact Et). rewrite Hpol.
    change (SCHED_OTHER =? SCHED_RR) with false. change (SCHED_OTHER =? SCHED_OTHER) with true.
    cbn [negb]. rewrite (proj2 (Z.leb_gt _ _)) by done. cbv iota.
    run_with ltac:(apply upd_thread_Ret; exact Et).
    run_with ltac:(apply get_thread_Ret; fields; rewrite lookup_insert_eq; reflexivity). fields.
    rewrite (proj2 (Z.eqb_neq _ _)); [done|]. unfold s32.
    pose proof (Z.div_mod (time_slice th - 1 + 2 ^ 31) (2 ^ 32)).
    pose proof (Z.mod_pos_bound (time_slice th - 1 + 2 ^ 31) (2 ^ 32)). lia.
  - apply (kinv_field _ _ _ th); try done. split; cbn; try done. apply s32_range.
Qed.

Lemma timer_int_inv s qs :
  kinv s qs → running_ok s qs → ∃ s' qs', timer_int 1 sigqueue0 s = Ret tt s' ∧ kinv s' qs' ∧ running_ok s' qs'.
Proof.
  intros HK HR. set (s1 := s <| ticks ::= λ n, u64 (n + 1) |>).
  assert (HK1 : kinv s1 qs) by (by apply (kinv_other s)).
  destruct (tick_inv s1 qs HK1 HR) as (s2&qs2&E2&HK2). destruct (schedule_inv s2 qs2 HK2) as (s3&E3&?&?).
  exists s3, qs2. split; [|done]. unfold timer_int, check_timeouts. run.
  run_with ltac:(cbn [check_loop]; run_with ltac:(apply ask_links_Ret;
    exact (list_isempty_spec tlist _ _ _ (ki_timers _ _ HK1))); reflexivity).
  run_with ltac:(exact E2). exact E3.
Qed.

Lemma deliver_inv s qs line x :
  kinv s qs → 0 <= line < MAX_IRQ → irqs s !! pc_irq line = Some x →
  ∃ s' qs', deliver x s = Ret tt s' ∧ kinv s' qs'.
Proof.
  intros HK Hl Ex. destruct (ki_lines _ _ HK line Hl) as [_ (x'&Ex'&Hx)]. simplify_eq. unfold deliver.
  destruct (Z.eqb_spec (irq_handler x) 0) as [|Hh]; [by exists s, qs|]. destruct (Hx Hh) as [Hi [th Et]].
  set (th1 := th <| ctx ::= λ c, c <| irqflag ::= λ f, Z.lor f IRQ_REQUEST |> |>).
  set (s1 := s <| threads ::= <[irq_owner x := th1]> |>).
  assert (HK1 : kinv s1 qs).
  { destruct (ki_thread _ _ HK _ _ Et) as (_&[]&_). by apply (kinv_field _ _ _ th). }
  assert (Et1 : threads s1 !! irq_owner x = Some th1) by apply lookup_insert_eq.
  destruct (has (states th) THREAD_BLOCKED) eqn:Hb.
  - destruct (wake_spec s1 qs (irq_owner x) th1 HK1 Hi Et1 Hb) as (s2&qs2&E2&?). exists s2, qs2. split; [|done].
    run_with ltac:(apply upd_thread_Ret; exact Et). run_with ltac:(apply get_thread_Ret; exact Et1).
    change (states th1) with (states th). rewrite Hb. exact E2.
  - exists s1, qs. split; [|done].
    run_with ltac:(apply upd_thread_Ret; exact Et). run_with ltac:(apply get_thread_Ret; exact Et1).
    change (states th1) with (states th). by rewrite Hb.
Qed.

Lemma irq_inv s qs line :
  kinv s qs → 0 <= line < MAX_IRQ → ∃ s' qs', handle_IRQ line s = Ret tt s' ∧ kinv s' qs' ∧ running_ok s' qs'.
Proof.
  intros HK Hl. destruct (ki_lines _ _ HK line Hl) as [_ (x&Ex&_)].
  destruct (deliver_inv s qs line x HK Hl Ex) as (s1&qs1&E1&HK1).
  destruct (schedule_inv s1 qs1 HK1) as (s2&E2&?&?). exists s2, qs1. split; [|done].
  pose proof (line_links _ _ (ki_lines _ _ HK1 line Hl)) as Hn. unfold handle_IRQ. run. unfold irq_fuel.
  run_with ltac:(cbn [irq_loop]; run_with ltac:(apply as_obj_Ret); run_with ltac:(apply deref_Ret; exact Ex);
    run_with ltac:(exact E1); run_with ltac:(apply ask_links_Ret; exact Hn);
    run_with ltac:(apply ask_links_Ret; unfold list_isempty; rewrite Hn; cbn; rewrite bool_decide_true by done; reflexivity);
    reflexivity). exact E2.
Qed.

(** Every enabled event returns and keeps the invariant. *)
Lemma event_inv e s qs :
  kinv s qs → running_ok s qs → enabled e s →
  ∃ s' qs', run_event e s = Ret tt s' ∧ kinv s' qs' ∧ running_ok s' qs'.
Proof.
  intros HK HR. destruct e; cbn [enabled run_event].
  - intros Hc. destruct (yield_inv s qs HK HR Hc) as (s'&qs'&E&?). exists s', qs'. by run_with ltac:(exact E).
  - intros Hc. destruct (sleep_inv s qs THREAD_INT HK HR Hc eq_refl) as (s'&qs'&E&_&?). by exists s', qs'.
  - intros Hc. destruct (sleep_inv s qs THREAD_UNINT HK HR Hc eq_refl) as (s'&qs'&E&_&?). by exists s', qs'.
  - intros [Hc (th&pr&Et&Ep&He)].
    destruct (sleep_inv s qs IRQ_WAIT HK HR Hc eq_refl) as (s'&qs'&_&E&?). exists s', qs'. split; [|done].
    run_with ltac:(unfold syscall_IRQ_wait; run; run_with ltac:(unfold superuser; run;
      run_with ltac:(apply get_thread_Ret; exact Et); run_with ltac:(apply get_proc_Ret; exact Ep);
      rewrite He; reflexivity); cbn [negb Z.eqb]; rewrite E; reflexivity). done.
  - intros Hl. by apply (irq_inv s qs).
  - intros _. by apply (timer_int_inv s qs).
  - intros _. destruct (schedule_inv s qs HK) as (s'&?&?). by exists s', qs.
Qed.

(** C39. From a state in which the run queues hold exactly the threads that are
    not blocked, every sequence of yields, sleeps, waits, interrupts and ticks
    leads to such a state, the running thread is never a blocked one, and every
    event the state enables returns: none faults or loops. *)
Theorem events_keep_queues_exact s0 qs0 s :
  kinv s0 qs0 → running_ok s0 qs0 → reachable s0 s →
  ∃ qs, kinv s qs ∧ running_ok s qs ∧ ∀ e, enabled e s → ∃ s', run_event e s = Ret tt s'.
Proof.
  intros HK HR. assert (reachable s0 s → ∃ qs, kinv s qs ∧ running_ok s qs) as H.
  { induction 1 as [|s s' _ (qs&HKs&HRs) Hst]; [by exists qs0|].
    inversion Hst as [e ? ? He E]; subst.
    destruct (event_inv e s qs HKs HRs He) as (s2&qs2&E2&?&?). rewrite E in E2. injection E2 as <-. eauto. }
  intros (qs&?&?)%H. exists qs. split_and!; [done..|]. intros e He.
  destruct (event_inv e s qs) as (s'&_&?&_); eauto.
Qed.

(** ** A machine whose thread 4000 waits for interrupt 1 *)
Definition owner_ok (s : kstate) (line : Z) : bool :=
  match irqs s !! pc_irq line with
  | Some x => (irq_handler x =? 0) ||
      (negb (irq_owner x =? init_thread s) && bool_decide (is_Some (threads s !! irq_owner x)))
  | None => false
  end.

(** The invariant, as a condition that is evaluated. *)
Lemma kinv_if_ok s qs :
  rq_inv s qs →
  map_Forall (λ t th, 0 < t ∧ (0 <= priority_stat th < NPRIORS ∧ 0 <= priority_dyn th < NPRIORS ∧
    0 <= bound th <= 80 ∧ - 2 ^ 31 <= time_slice th < 2 ^ 31) ∧ is_Some (links s !! runq (obj t)) ∧
    (t = init_thread s ∨ (queued qs t ↔ has (states th) THREAD_BLOCKED = false))) (threads s) →
  (PRIO_SYS_MIN <=? default 0 (priority_stat <$> threads s !! init_thread s)) = true → ¬ queued qs (init_thread s) →
  Forall (λ line, rd_next (irq_list (obj (pc_irq line))) (links s) = Some (irq_list (obj (pc_irq line))) ∧
    owner_ok s line = true) (seqZ 0 MAX_IRQ) →
  pending s [] → kinv s qs.
Proof.
  intros HI HT Hp Hn HL HP. split; [done| | | |done].
  - intros t th (?&(?&?&?&?)&?&Hq)%HT. split_and!; [done|by split|done|]. intros. by destruct Hq.
  - destruct (threads s !! init_thread s) as [th|]; [|done]. exists th. split_and!; [done|by apply Z.leb_le|done].
  - intros line Hl. rewrite Forall_forall in HL. destruct (HL line) as [H1 H2]; [apply elem_of_seqZ; lia|].
    split; [done|]. unfold owner_ok in H2. destruct (irqs s !! pc_irq line) as [x|]; [|done]. exists x.
    split; [done|]. intros Hx. rewrite (proj2 (Z.eqb_neq _ _)) in H2 by done. cbn in H2.
    apply andb_prop in H2 as [Ho Hs]. split; [|by apply bool_decide_eq_true in Hs].
    intros E. rewrite E, Z.eqb_refl in Ho. done.
Qed.

Definition no_irq : irq := mk_irq 0 0 0 0 0.
Definition demo_lines : kstate :=
  demo_sched <| current := 2000 |>
    <| threads ::= λ T, <[1000 := thread0 <| attr := mk_attr 0 66 0 0 SCHED_OTHER |>]>
         (<[4000 := thread0 <| states := IRQ_WAIT |>]> T) |>
    <| irqs := list_to_map ((λ i, (pc_irq i, if i =? 1 then mk_irq 1 0 0 HANDLER_OK 4000 else no_irq)) <$> seqZ 0 16) |>
    <| links ::= λ l, foldr (λ h, <[h := mk_link h h]>) l (obj tmlist :: ((λ i, irq_list (obj (pc_irq i))) <$> seqZ 0 16)) |>.
Definition demo_after : kstate := after (run_event (ev_irq 1);; run_event ev_tick) demo_lines.

Lemma events_keep_queues_exact_witness :
  ∃ qs, kinv demo_after qs ∧ running_ok demo_after qs ∧
    ∀ e, enabled e demo_after → ∃ s', run_event e demo_after = Ret tt s'.
Proof.
  apply (events_keep_queues_exact demo_lines demo_qs).
  - apply kinv_if_ok; [evaluate|evaluate|reflexivity|evaluate|evaluate|evaluate].
  - right. evaluate.
  - assert (H1 : run_event (ev_irq 1) demo_lines = Ret tt (after (run_event (ev_irq 1)) demo_lines))
      by (vm_compute; reflexivity).
    assert (H2 : run_event ev_tick (after (run_event (ev_irq 1)) demo_lines) = Ret tt demo_after)
      by (vm_compute; reflexivity).
    eapply reach_step; [eapply reach_step; [apply reach_start|]|].
    + apply (step_event (ev_irq 1)); [cbn; unfold MAX_IRQ; lia|exact H1].
    + apply (step_event ev_tick); [exact I|exact H2].
Defined.
