(* ===== verification/LibcString.v ===== *)
(** * The string routines of the C library

    Models soft/libc/ansi/string/string.c with [_tolower] of ctype.h.  Memory is
    a map from addresses to bytes; an access to an address that is not mapped
    faults.  [char] is signed.  A pointer that ends up in a result is its
    address, NULL is 0.  The loops over strings run at most once for each mapped
    byte, which bounds their fuel. *)

From S2P Require Import Prelude.

Abbreviation bytes := (gmap Z Z).
Abbreviation B := (M bytes).

Definition u8 (x : Z) : Z := x mod 2 ^ 8.
Definition s8 (x : Z) : Z := (x + 2 ^ 7) mod 2 ^ 8 - 2 ^ 7.
(** Reading a byte as unsigned char and as char, and writing one. *)
Definition ldu (p : Z) : B Z := λ m, match m !! p with Some b => Ret b m | None => Fault end.
Definition lds (p : Z) : B Z := b ← ldu p; mret (s8 b).
Definition stb (p v : Z) : B unit := λ m,
  match m !! p with Some _ => Ret tt (<[p := u8 v]> m) | None => Fault end.
Definition str_fuel (m : bytes) : nat := S (size m).

(** ** Copying *)
Fixpoint copy_up (n : nat) (tmp s : Z) : B unit :=
  match n with
  | O => mret tt
  | S n => b ← lds s; stb tmp b;; copy_up n (tmp + 1) (s + 1)
  end.
(** [tmp] and [s] are one past the byte to copy. *)
Fixpoint copy_down (n : nat) (tmp s : Z) : B unit :=
  match n with
  | O => mret tt
  | S n => b ← lds (s - 1); stb (tmp - 1) b;; copy_down n (tmp - 1) (s - 1)
  end.
Definition memcpy (dest src count : Z) : B Z := copy_up (Z.to_nat count) dest src;; mret dest.
Definition memmove (dest src count : Z) : B Z :=
  (if dest <=? src then copy_up (Z.to_nat count) dest src
   else copy_down (Z.to_nat count) (dest + count) (src + count));;
  mret dest.
Definition bcopy (src dest count : Z) : B Z := copy_up (Z.to_nat (u32 count)) dest src;; mret dest.

Fixpoint fill (n : nat) (xs c : Z) : B unit :=
  match n with O => mret tt | S n => stb xs c;; fill n (xs + 1) c end.
Definition memset (s c count : Z) : B Z := fill (Z.to_nat count) s c;; mret s.

(** ** Searching and comparing memory *)
Fixpoint memchr_loop (n : nat) (p c : Z) : B Z :=
  match n with
  | O => mret 0
  | S n => b ← ldu p; if u8 c =? b then mret p else memchr_loop n (p + 1) c
  end.
Definition memchr (s c n : Z) : B Z := memchr_loop (Z.to_nat n) s c.
Fixpoint memscan_loop (n : nat) (p c : Z) : B Z :=
  match n with
  | O => mret p
  | S n => b ← ldu p; if b =? c then mret p else memscan_loop n (p + 1) c
  end.
Definition memscan (addr c size : Z) : B Z := memscan_loop (Z.to_nat size) addr c.
Fixpoint memcmp_loop (n : nat) (p q : Z) : B Z :=
  match n with
  | O => mret 0
  | S n =>
      a ← ldu p; b ← ldu q;
      if a - b =? 0 then memcmp_loop n (p + 1) (q + 1) else mret (a - b)
  end.
Definition memcmp (cs ct count : Z) : B Z := memcmp_loop (Z.to_nat count) cs ct.

(** ** Strings *)
Fixpoint strlen_loop (fuel : nat) (sc : Z) : B Z :=
  match fuel with
  | O => spin
  | S fuel => b ← lds sc; if b =? 0 then mret sc else strlen_loop fuel (sc + 1)
  end.
Definition strlen (s : Z) : B Z := fuel ← gets str_fuel; sc ← strlen_loop fuel s; mret (sc - s).

(** Bytes are copied up to and with the NUL. *)
Fixpoint strcpy_loop (fuel : nat) (dest src : Z) : B unit :=
  match fuel with
  | O => spin
  | S fuel =>
      b ← lds src; stb dest b;;
      if b =? 0 then mret tt else strcpy_loop fuel (dest + 1) (src + 1)
  end.
Definition strcpy (dest src : Z) : B Z := fuel ← gets str_fuel; strcpy_loop fuel dest src;; mret dest.
Fixpoint strncpy_loop (n : nat) (dest src : Z) : B unit :=
  match n with
  | O => mret tt
  | S n =>
      b ← lds src; stb dest b;;
      if b =? 0 then mret tt else strncpy_loop n (dest + 1) (src + 1)
  end.
Definition strncpy (dest src count : Z) : B Z := strncpy_loop (Z.to_nat count) dest src;; mret dest.
Definition strcat (dest src : Z) : B Z :=
  fuel ← gets str_fuel;
  d ← strlen_loop fuel dest;
  strcpy_loop fuel d src;;
  mret dest.
(** [count] is positive. *)
Fixpoint strncat_loop (n : nat) (dest src : Z) : B unit :=
  match n with
  | O => mret tt
  | S n =>
      b ← lds src; stb dest b;;
      if b =? 0 then mret tt
      else match n with O => stb (dest + 1) 0 | S _ => strncat_loop n (dest + 1) (src + 1) end
  end.
Definition strncat (dest src count : Z) : B Z :=
  if count =? 0 then mret dest
  else
    fuel ← gets str_fuel;
    d ← strlen_loop fuel dest;
    strncat_loop (Z.to_nat count) d src;;
    mret dest.

(** The difference is truncated to a signed char. *)
Fixpoint strcmp_loop (fuel : nat) (cs ct : Z) : B Z :=
  match fuel with
  | O => spin
  | S fuel =>
      a ← lds cs; b ← lds ct;
      let res := s8 (a - b) in
      if negb (res =? 0) || (a =? 0) then mret res else strcmp_loop fuel (cs + 1) (ct + 1)
  end.
Definition strcmp (cs ct : Z) : B Z := fuel ← gets str_fuel; strcmp_loop fuel cs ct.
Fixpoint strncmp_loop (n : nat) (cs ct : Z) : B Z :=
  match n with
  | O => mret 0
  | S n =>
      a ← lds cs; b ← lds ct;
      let res := s8 (a - b) in
      if negb (res =? 0) || (a =? 0) then mret res else strncmp_loop n (cs + 1) (ct + 1)
  end.
Definition strncmp (cs ct count : Z) : B Z := strncmp_loop (Z.to_nat count) cs ct.

(** ctype.h and ctype.c *)
Definition _C : Z := 0x01.
Definition _D : Z := 0x02.
Definition _L : Z := 0x04.
Definition _P : Z := 0x08.
Definition _S : Z := 0x10.
Definition _SP : Z := 0x20.
Definition _U : Z := 0x40.
Definition _X : Z := 0x80.
Definition _ctype : list Z := [
  _C; _C; _C; _C; _C; _C; _C; _C;
  _C; Z.lor _C _S; Z.lor _C _S; Z.lor _C _S; Z.lor _C _S; Z.lor _C _S; _C; _C;
  _C; _C; _C; _C; _C; _C; _C; _C;
  _C; _C; _C; _C; _C; _C; _C; _C;
  Z.lor _S _SP; _P; _P; _P; _P; _P; _P; _P;
  _P; _P; _P; _P; _P; _P; _P; _P;
  _D; _D; _D; _D; _D; _D; _D; _D;
  _D; _D; _P; _P; _P; _P; _P; _P;
  _P; Z.lor _U _X; Z.lor _U _X; Z.lor _U _X; Z.lor _U _X; Z.lor _U _X; Z.lor _U _X; _U;
  _U; _U; _U; _U; _U; _U; _U; _U;
  _U; _U; _U; _U; _U; _U; _U; _U;
  _U; _U; _U; _P; _P; _P; _P; _P;
  _P; Z.lor _L _X; Z.lor _L _X; Z.lor _L _X; Z.lor _L _X; Z.lor _L _X; Z.lor _L _X; _L;
  _L; _L; _L; _L; _L; _L; _L; _L;
  _L; _L; _L; _L; _L; _L; _L; _L;
  _L; _L; _L; _P; _P; _P; _P; _C;
  0; 0; 0; 0; 0; 0; 0; 0;
  0; 0; 0; 0; 0; 0; 0; 0;
  0; 0; 0; 0; 0; 0; 0; 0;
  0; 0; 0; 0; 0; 0; 0; 0;
  Z.lor _S _SP; _P; _P; _P; _P; _P; _P; _P;
  _P; _P; _P; _P; _P; _P; _P; _P;
  _P; _P; _P; _P; _P; _P; _P; _P;
  _P; _P; _P; _P; _P; _P; _P; _P;
  _U; _U; _U; _U; _U; _U; _U; _U;
  _U; _U; _U; _U; _U; _U; _U; _U;
  _U; _U; _U; _U; _U; _U; _U; _P;
  _U; _U; _U; _U; _U; _U; _U; _L;
  _L; _L; _L; _L; _L; _L; _L; _L;
  _L; _L; _L; _L; _L; _L; _L; _L;
  _L; _L; _L; _L; _L; _L; _L; _P;
  _L; _L; _L; _L; _L; _L; _L; _L].
Definition isupper (c : Z) : bool := has (nth (Z.to_nat (u8 c)) _ctype 0) _U.
Definition tolower (c : Z) : Z := if isupper c then u8 (c - (65 - 97)) else c.
Fixpoint strnicmp_loop (n : nat) (s1 s2 : Z) : B Z :=
  match n with
  | O => mret 0
  | S n =>
      c1 ← ldu s1; c2 ← ldu s2;
      if (c1 =? 0) || (c2 =? 0) then mret (c1 - c2)
      else if c1 =? c2 then strnicmp_loop n (s1 + 1) (s2 + 1)
      else if tolower c1 =? tolower c2 then strnicmp_loop n (s1 + 1) (s2 + 1)
      else mret (tolower c1 - tolower c2)
  end.
Definition strnicmp (s1 s2 len : Z) : B Z := strnicmp_loop (Z.to_nat len) s1 s2.

Fixpoint strchr_loop (fuel : nat) (s c : Z) : B Z :=
  match fuel with
  | O => spin
  | S fuel =>
      b ← lds s;
      if b =? s8 c then mret s else if b =? 0 then mret 0 else strchr_loop fuel (s + 1) c
  end.
Definition strchr (s c : Z) : B Z := fuel ← gets str_fuel; strchr_loop fuel s c.
(** [n] bytes are left before [s] is passed. *)
Fixpoint strrchr_loop (n : nat) (p c : Z) : B Z :=
  b ← lds p;
  if b =? s8 c then mret p
  else match n with O => mret 0 | S n => strrchr_loop n (p - 1) c end.
Definition strrchr (s c : Z) : B Z := l ← strlen s; strrchr_loop (Z.to_nat l) (s + l) c.

(** The inner loop of [strspn] and [strpbrk]: the first byte at [a] that is NUL or [ch]. *)
Fixpoint accept_loop (fuel : nat) (a ch : Z) : B Z :=
  match fuel with
  | O => spin
  | S fuel =>
      b ← lds a;
      if (b =? 0) || (ch =? b) then mret b else accept_loop fuel (a + 1) ch
  end.
Fixpoint strspn_loop (fuel : nat) (p accept count : Z) : B Z :=
  match fuel with
  | O => spin
  | S fuel =>
      ch ← lds p;
      if ch =? 0 then mret count
      else
        f ← gets str_fuel;
        b ← accept_loop f accept ch;
        if b =? 0 then mret count else strspn_loop fuel (p + 1) accept (count + 1)
  end.
Definition strspn (s accept : Z) : B Z := fuel ← gets str_fuel; strspn_loop fuel s accept 0.
Fixpoint strpbrk_loop (fuel : nat) (sc1 ct : Z) : B Z :=
  match fuel with
  | O => spin
  | S fuel =>
      ch ← lds sc1;
      if ch =? 0 then mret 0
      else
        f ← gets str_fuel;
        b ← accept_loop f ct ch;
        if b =? 0 then strpbrk_loop fuel (sc1 + 1) ct else mret sc1
  end.
Definition strpbrk (cs ct : Z) : B Z := fuel ← gets str_fuel; strpbrk_loop fuel cs ct.

(** [___strtok] is a local variable: it is set to [s] at each call. *)
Definition strtok (s ct : Z) : B Z :=
  if s =? 0 then mret 0
  else
    n ← strspn s ct;
    let sbegin := s + n in
    b ← lds sbegin;
    if b =? 0 then mret 0
    else
      send ← strpbrk sbegin ct;
      (if send =? 0 then mret tt
       else e ← lds send; if e =? 0 then mret tt else stb send 0);;
      mret sbegin.

(** [n] places are left. *)
Fixpoint strstr_loop (n : nat) (s1 s2 l2 : Z) : B Z :=
  match n with
  | O => mret 0
  | S n =>
      r ← memcmp s1 s2 l2;
      if r =? 0 then mret s1 else strstr_loop n (s1 + 1) s2 l2
  end.
Definition strstr (s1 s2 : Z) : B Z :=
  l2 ← strlen s2;
  if l2 =? 0 then mret s1
  else l1 ← strlen s1; strstr_loop (Z.to_nat (l1 - l2 + 1)) s1 s2 l2.

(** ** The search that reads four bytes at a time *)
Definition magic_bits : Z := 0x7efefeff.
Definition charmask (c : Z) : Z :=
  let m := Z.lor c (Z.shiftl c 8) in Z.lor m (u32 (Z.shiftl m 16)).
(** [((x + magic_bits) ^ ~x) & ~magic_bits] is not 0 *)
Definition may_have_zero (x : Z) : bool :=
  negb (Z.land (Z.lxor (u32 (x + magic_bits)) (not32 x)) (not32 magic_bits) =? 0).
(** [*longword_ptr] *)
Definition ldw (p : Z) : B Z :=
  b0 ← ldu p; b1 ← ldu (p + 1); b2 ← ldu (p + 2); b3 ← ldu (p + 3);
  mret (b0 + 2 ^ 8 * b1 + 2 ^ 16 * b2 + 2 ^ 24 * b3).

(** Looks at [n] bytes from [p]. *)
Fixpoint which_byte (n : nat) (p c : Z) : B (option Z) :=
  match n with
  | O => mret None
  | S n => b ← ldu p; if (b =? c) || (b =? 0) then mret (Some p) else which_byte n (p + 1) c
  end.
Fixpoint word_loop (fuel : nat) (p c : Z) : B Z :=
  match fuel with
  | O => spin
  | S fuel =>
      longword ← ldw p;
      if may_have_zero longword || may_have_zero (Z.lxor longword (charmask c)) then
        r ← which_byte 4 p c;
        match r with Some q => mret q | None => word_loop fuel (p + 4) c end
      else word_loop fuel (p + 4) c
  end.
(** The bytes before the first aligned address. *)
Fixpoint align_loop (n : nat) (p c : Z) : B (Z + Z) :=
  if Z.land p 3 =? 0 then mret (inr p)
  else match n with
  | O => spin
  | S n => b ← ldu p; if (b =? c) || (b =? 0) then mret (inl p) else align_loop n (p + 1) c
  end.
Definition strchrnul (s c_in : Z) : B Z :=
  let c := u8 c_in in
  r ← align_loop 4 s c;
  match r with
  | inl p => mret p
  | inr p => fuel ← gets str_fuel; word_loop fuel p c
  end.

(** ** The reference: one byte at a time *)
Fixpoint first_loop (fuel : nat) (p c : Z) : B Z :=
  match fuel with
  | O => spin
  | S fuel => b ← ldu p; if (b =? c) || (b =? 0) then mret p else first_loop fuel (p + 1) c
  end.
Definition strchrnul_ref (s c_in : Z) : B Z := fuel ← gets str_fuel; first_loop fuel s (u8 c_in).

(** Memory holds bytes and is mapped in aligned words. *)
Record well_mapped (m : bytes) : Prop := {
  wm_byte : ∀ p b, m !! p = Some b → 0 <= b < 2 ^ 8;
  wm_word : ∀ p q, p / 4 = q / 4 → is_Some (m !! p) → is_Some (m !! q) }.

(** *** The test of a word *)

(** The carry of an addition into bit [k], where [y] has no bit. *)
Lemma add_carry x y k :
  0 <= k → Z.testbit y k = false →
  Z.testbit (x + y) k = xorb (Z.testbit x k) (2 ^ k <=? x mod 2 ^ k + y mod 2 ^ k).
Proof.
  intros Hk Hy. assert (H2 : 0 < 2 ^ k) by (apply Z.pow_pos_nonneg; lia).
  pose proof (Z.mod_pos_bound x (2 ^ k) H2). pose proof (Z.mod_pos_bound y (2 ^ k) H2).
  assert (E : (x + y) / 2 ^ k = x / 2 ^ k + y / 2 ^ k + (if 2 ^ k <=? x mod 2 ^ k + y mod 2 ^ k then 1 else 0)).
  { pose proof (Z.div_mod x (2 ^ k)). pose proof (Z.div_mod y (2 ^ k)).
    destruct (Z.leb_spec (2 ^ k) (x mod 2 ^ k + y mod 2 ^ k)).
    - symmetry. apply Z.div_unique_pos with (x mod 2 ^ k + y mod 2 ^ k - 2 ^ k); lia.
    - symmetry. apply Z.div_unique_pos with (x mod 2 ^ k + y mod 2 ^ k); lia. }
  rewrite Z.testbit_odd, Z.shiftr_div_pow2 in Hy by done.
  rewrite !Z.testbit_odd, !Z.shiftr_div_pow2, E by done. rewrite !Z.odd_add, Hy.
  destruct (_ <=? _), (Z.odd (x / 2 ^ k)); reflexivity.
Qed.

(** If the test fails, every hole received a carry. *)
Lemma hole_carry x k :
  0 <= x < 2 ^ 32 → may_have_zero x = false → k ∈ [8; 16; 24; 31] →
  2 ^ k <= x mod 2 ^ k + magic_bits mod 2 ^ k.
Proof.
  intros Hx Hz Hk. unfold may_have_zero in Hz. apply negb_false_iff, Z.eqb_eq in Hz.
  assert (H32 : 0 <= k < 32) by (repeat (apply elem_of_cons in Hk as [->|Hk]; [lia|]); by apply elem_of_nil in Hk).
  assert (Hm : Z.testbit magic_bits k = false)
    by (repeat (apply elem_of_cons in Hk as [->|Hk]; [reflexivity|]); by apply elem_of_nil in Hk).
  assert (Hb := f_equal (λ z, Z.testbit z k) Hz). cbv beta in Hb.
  unfold not32 in Hb. rewrite Z.bits_0, Z.land_spec, Z.lxor_spec, !u32_testbit, !Z.lnot_spec, Hm, add_carry in Hb
    by (lia || done).
  destruct (Z.leb_spec (2 ^ k) (x mod 2 ^ k + magic_bits mod 2 ^ k)); [done|].
  destruct (Z.testbit x k); discriminate Hb.
Qed.

(** The test finds every zero byte. *)
Lemma no_zero_byte b0 b1 b2 b3 :
  0 <= b0 < 2 ^ 8 → 0 <= b1 < 2 ^ 8 → 0 <= b2 < 2 ^ 8 → 0 <= b3 < 2 ^ 8 →
  may_have_zero (b0 + 2 ^ 8 * b1 + 2 ^ 16 * b2 + 2 ^ 24 * b3) = false →
  b0 ≠ 0 ∧ b1 ≠ 0 ∧ b2 ≠ 0 ∧ b3 ≠ 0.
Proof.
  intros H0 H1 H2 H3 Hz. set (x := b0 + 2 ^ 8 * b1 + 2 ^ 16 * b2 + 2 ^ 24 * b3) in *.
  assert (Hx : 0 <= x < 2 ^ 32) by (unfold x; lia).
  pose proof (hole_carry x 8 Hx Hz ltac:(set_solver)) as C8.
  pose proof (hole_carry x 16 Hx Hz ltac:(set_solver)) as C16.
  pose proof (hole_carry x 24 Hx Hz ltac:(set_solver)) as C24.
  pose proof (hole_carry x 31 Hx Hz ltac:(set_solver)) as C31.
  unfold x, magic_bits in *. clear Hz. split_and!; intros ->; Z.to_euclidean_division_equations; lia.
Qed.

(** *** Bytes of a word xored with the mask *)
Lemma pack_testbit a x i :
  0 <= a < 2 ^ 8 → 0 <= i → Z.testbit (a + 2 ^ 8 * x) i = if i <? 8 then Z.testbit a i else Z.testbit x (i - 8).
Proof.
  intros Ha Hi. destruct (Z.ltb_spec i 8).
  - rewrite <- (Z.mod_pow2_bits_low (a + 2 ^ 8 * x) 8 i) by lia. f_equal.
    rewrite (Z.mul_comm (2 ^ 8)), Z.mod_add, Z.mod_small by lia. done.
  - replace i with (i - 8 + 8) at 1 by lia. rewrite <- Z.div_pow2_bits by lia. f_equal.
    rewrite (Z.mul_comm (2 ^ 8)), Z.div_add, Z.div_small by lia. done.
Qed.

Lemma lxor_range a c n : 0 <= a < 2 ^ n → 0 <= c < 2 ^ n → 0 <= n → 0 <= Z.lxor a c < 2 ^ n.
Proof.
  intros Ha Hc Hn. assert (H0 : 0 <= Z.lxor a c) by (apply Z.lxor_nonneg; lia). split; [done|].
  destruct (decide (Z.lxor a c < 2 ^ n)) as [|Hge]; [done|].
  assert (Hb : Z.testbit (Z.lxor a c) (Z.log2 (Z.lxor a c)) = true) by (apply Z.bit_log2; lia).
  assert (n <= Z.log2 (Z.lxor a c)) by (apply Z.log2_le_pow2; lia).
  rewrite Z.lxor_spec, (testbit_small a n), (testbit_small c n) in Hb by lia. done.
Qed.

Lemma lxor_pack a c x y :
  0 <= a < 2 ^ 8 → 0 <= c < 2 ^ 8 → Z.lxor (a + 2 ^ 8 * x) (c + 2 ^ 8 * y) = Z.lxor a c + 2 ^ 8 * Z.lxor x y.
Proof.
  intros Ha Hc. apply Z.bits_inj'. intros i Hi.
  rewrite Z.lxor_spec, !pack_testbit by (done || by apply lxor_range). rewrite !Z.lxor_spec.
  by destruct (i <? 8).
Qed.

Lemma charmask_bytes c : 0 <= c < 2 ^ 8 → charmask c = c + 2 ^ 8 * (c + 2 ^ 8 * (c + 2 ^ 8 * c)).
Proof.
  intros Hc. assert (H : Forall (λ c, charmask c = c + 2 ^ 8 * (c + 2 ^ 8 * (c + 2 ^ 8 * c))) (seqZ 0 256)).
  { apply (bool_decide_unpack _). vm_compute. exact I. }
  rewrite Forall_forall in H. apply H, elem_of_seqZ. lia.
Qed.

Lemma no_char_byte b0 b1 b2 b3 c :
  0 <= b0 < 2 ^ 8 → 0 <= b1 < 2 ^ 8 → 0 <= b2 < 2 ^ 8 → 0 <= b3 < 2 ^ 8 → 0 <= c < 2 ^ 8 →
  may_have_zero (Z.lxor (b0 + 2 ^ 8 * b1 + 2 ^ 16 * b2 + 2 ^ 24 * b3) (charmask c)) = false →
  b0 ≠ c ∧ b1 ≠ c ∧ b2 ≠ c ∧ b3 ≠ c.
Proof.
  intros H0 H1 H2 H3 Hc Hz. rewrite charmask_bytes in Hz by done.
  replace (b0 + 2 ^ 8 * b1 + 2 ^ 16 * b2 + 2 ^ 24 * b3)
    with (b0 + 2 ^ 8 * (b1 + 2 ^ 8 * (b2 + 2 ^ 8 * b3))) in Hz by lia.
  rewrite !lxor_pack in Hz by done.
  destruct (no_zero_byte (Z.lxor b0 c) (Z.lxor b1 c) (Z.lxor b2 c) (Z.lxor b3 c)) as (N0&N1&N2&N3);
    try by apply lxor_range.
  { etrans; [|exact Hz]. f_equal. lia. }
  rewrite !Z.lxor_eq_0_iff in N0, N1, N2, N3. done.
Qed.

(** *** The loops *)
Lemma first_which n : ∀ k p c m,
  first_loop (n + k) p c m =
    match which_byte n p c m with
    | Ret (Some q) m' => Ret q m'
    | Ret None m' => first_loop k (p + Z.of_nat n) c m'
    | Fault => Fault | Halt => Halt | Spin => Spin
    end.
Proof.
  induction n as [|n IH]; intros k p c m; [by rewrite Z.add_0_r|]. cbn [which_byte first_loop Nat.add].
  unfold mbind, M_bind, ldu. destruct (m !! p) as [b|]; [|done]. destruct (_ || _); [done|].
  rewrite IH. replace (p + 1 + Z.of_nat n) with (p + Z.of_nat (S n)) by lia. done.
Qed.

Lemma which_mem n : ∀ p c m r m', which_byte n p c m = Ret r m' → m' = m.
Proof.
  induction n as [|n IH]; intros p c m r m'; cbn [which_byte]; [by intros [= _ ->]|].
  unfold mbind, M_bind, ldu. destruct (m !! p) as [b|]; [|done].
  destruct (_ || _); [by intros [= _ ->]|]. apply IH.
Qed.

Lemma which_none n : ∀ p c m,
  (∀ i, 0 <= i < Z.of_nat n → ∃ b, m !! (p + i) = Some b ∧ b ≠ c ∧ b ≠ 0) → which_byte n p c m = Ret None m.
Proof.
  induction n as [|n IH]; intros p c m H; [done|]. cbn [which_byte].
  destruct (H 0) as (b&E&Hc&H0); [lia|]. rewrite Z.add_0_r in E. unfold mbind, M_bind, ldu. rewrite E.
  rewrite (proj2 (Z.eqb_neq b c)), (proj2 (Z.eqb_neq b 0)) by done. apply IH. intros i Hi.
  replace (p + 1 + i) with (p + (i + 1)) by lia. apply H. lia.
Qed.

(** An aligned word is mapped as a whole. *)
Lemma aligned_word m p b :
  well_mapped m → p mod 4 = 0 → m !! p = Some b → ∀ i, 0 <= i < 4 → ∃ b, m !! (p + i) = Some b ∧ 0 <= b < 2 ^ 8.
Proof.
  intros HM Hp E i Hi. destruct (wm_word _ HM p (p + i)) as [b' E'].
  - Z.to_euclidean_division_equations; lia.
  - by eexists.
  - exists b'. split; [done|]. by eapply wm_byte.
Qed.

Lemma word_first m c : well_mapped m → 0 <= c < 2 ^ 8 → ∀ n p,
  p mod 4 = 0 → word_loop n p c m = first_loop (4 * n) p c m.
Proof.
  intros HM Hc. induction n as [|n IH]; intros p Hp; [done|].
  replace (4 * S n)%nat with (4 + 4 * n)%nat by lia. cbn [word_loop].
  destruct (m !! p) as [b|] eqn:E.
  2:{ cbn [first_loop Nat.add]. unfold ldw, mbind, M_bind, ldu. by rewrite E. }
  pose proof (aligned_word m p b HM Hp E) as HW.
  destruct (HW 0) as (b0&E0&H0), (HW 1) as (b1&E1&H1), (HW 2) as (b2&E2&H2), (HW 3) as (b3&E3&H3); try lia.
  rewrite Z.add_0_r in E0. rewrite first_which. unfold mbind, M_bind, ldw, ldu.
  unfold mbind, M_bind. rewrite E0, E1, E2, E3. unfold mret, M_ret.
  change (Z.of_nat 4) with 4. assert (Hp4 : (p + 4) mod 4 = 0) by (Z.to_euclidean_division_equations; lia).
  set (w := b0 + 2 ^ 8 * b1 + 2 ^ 16 * b2 + 2 ^ 24 * b3).
  destruct (may_have_zero w || may_have_zero (Z.lxor w (charmask c))) eqn:Et.
  - destruct (which_byte 4 p c m) as [[q|] m'| | |] eqn:Ew; try done.
    apply which_mem in Ew as ->. by apply IH.
  - apply orb_false_iff in Et as [Ez Ec].
    destruct (no_zero_byte b0 b1 b2 b3) as (?&?&?&?); [done..|].
    destruct (no_char_byte b0 b1 b2 b3 c) as (?&?&?&?); [done..|].
    rewrite which_none; [by apply IH|]. intros i Hi.
    assert (i = 0 ∨ i = 1 ∨ i = 2 ∨ i = 3) as [->|[->|[->| ->]]] by lia; rewrite ?Z.add_0_r; eauto.
Qed.

(** The bytes before the aligned part: [k] of them. *)
Lemma align_which c m : ∀ k n p,
  (k <= n)%nat → Z.of_nat k < 4 → (p + Z.of_nat k) mod 4 = 0 →
  align_loop n p c m =
    match which_byte k p c m with
    | Ret (Some q) m' => Ret (inl q) m'
    | Ret None m' => Ret (inr (p + Z.of_nat k)) m'
    | Fault => Fault | Halt => Halt | Spin => Spin
    end.
Proof.
  assert (Hl : ∀ p, Z.land p 3 = p mod 4) by (intros; apply (Z.land_ones p 2); lia).
  induction k as [|k IH]; intros n p Hn Hk Hp.
  - rewrite Z.add_0_r in *. destruct n; cbn [align_loop which_byte]; rewrite Hl, Hp; done.
  - destruct n as [|n]; [lia|]. cbn [align_loop which_byte]. rewrite Hl.
    rewrite (proj2 (Z.eqb_neq _ _)) by (Z.to_euclidean_division_equations; lia).
    unfold mbind, M_bind, ldu. destruct (m !! p) as [b|]; [|done]. destruct (_ || _); [done|].
    rewrite IH by (lia || (etrans; [|exact Hp]; f_equal; lia)).
    replace (p + 1 + Z.of_nat k) with (p + Z.of_nat (S k)) by lia. done.
Qed.

(** More fuel does not change the result of the byte loop. *)
Lemma first_more n k : ∀ p c m, first_loop n p c m ≠ Spin → first_loop (n + k) p c m = first_loop n p c m.
Proof.
  induction n as [|n IH]; intros p c m; [done|]. cbn [first_loop Nat.add]. unfold mbind, M_bind, ldu.
  destruct (m !! p) as [b|]; [|done]. destruct (_ || _); [done|]. apply IH.
Qed.

(** The byte loop ends: each step reads another mapped byte. *)
Lemma first_spin n : ∀ p c m, first_loop n p c m = Spin → ∀ i, p <= i < p + Z.of_nat n → is_Some (m !! i).
Proof.
  induction n as [|n IH]; intros p c m; [lia|]. cbn [first_loop]. unfold mbind, M_bind, ldu.
  destruct (m !! p) as [b|] eqn:E; [|done]. destruct (_ || _); [done|]. intros H i Hi.
  destruct (decide (i = p)) as [->|]; [by eexists|]. eapply IH; [exact H|lia].
Qed.
Lemma first_ends p c m : first_loop (str_fuel m) p c m ≠ Spin.
Proof.
  intros H. pose proof (first_spin _ _ _ _ H) as HS. unfold str_fuel in HS.
  assert (S (size m) <= size m)%nat; [|lia].
  rewrite <- (size_dom m) at 2.
  transitivity (size (list_to_set (C := gset Z) (seqZ p (Z.of_nat (S (size m)))))).
  - rewrite size_list_to_set by apply NoDup_seqZ. rewrite length_seqZ. lia.
  - apply subseteq_size. intros i Hi%elem_of_list_to_set. apply elem_of_seqZ in Hi. apply elem_of_dom, HS. lia.
Qed.

(** C40. [__strchrnul], which tests four bytes at a time with the carries of
    an addition, is the byte-by-byte search for the character or the final NUL:
    same result, same faults, memory unchanged, and it always ends. *)
Theorem strchrnul_refines s c_in m :
  well_mapped m → strchrnul s c_in m = strchrnul_ref s c_in m ∧ strchrnul s c_in m ≠ Spin.
Proof.
  intros HM. set (c := u8 c_in). assert (Hc : 0 <= c < 2 ^ 8) by (apply Z.mod_pos_bound; lia).
  assert (E : strchrnul s c_in m = strchrnul_ref s c_in m).
  { set (k := Z.to_nat ((- s) mod 4)).
    assert (Hk : Z.of_nat k < 4 ∧ (s + Z.of_nat k) mod 4 = 0) by (unfold k; Z.to_euclidean_division_equations; lia).
    unfold strchrnul, strchrnul_ref. fold c. rewrite (bind_Ret (gets str_fuel) _ m (str_fuel m) m) by done.
    rewrite <- (first_more _ (k + 3 * str_fuel m) s c m) by apply first_ends.
    replace (str_fuel m + (k + 3 * str_fuel m))%nat with (k + 4 * str_fuel m)%nat by lia. rewrite first_which.
    unfold mbind at 1, M_bind at 1. rewrite (align_which c m k 4 s) by lia.
    destruct (which_byte k s c m) as [[q|] m'| | |] eqn:Ew; try done. apply which_mem in Ew as ->.
    rewrite <- word_first by (done || lia). done. }
  split; [done|]. rewrite E. apply first_ends.
Qed.

(** ** Overlapping copies *)
Lemma byte_roundtrip b : 0 <= b < 2 ^ 8 → u8 (s8 b) = b.
Proof.
  intros. unfold u8, s8. destruct (decide (b < 2 ^ 7)).
  - rewrite (Z.mod_small (b + 2 ^ 7)) by lia. replace (b + 2 ^ 7 - 2 ^ 7) with b by lia. apply Z.mod_small. lia.
  - replace (b + 2 ^ 7) with (b - 2 ^ 7 + 1 * 2 ^ 8) by lia. rewrite Z.mod_add, (Z.mod_small (b - 2 ^ 7)) by lia.
    replace (b - 2 ^ 7 - 2 ^ 7) with (b + (-1) * 2 ^ 8) by lia. rewrite Z.mod_add, Z.mod_small; lia.
Qed.

Definition holds_bytes (m : bytes) : Prop := ∀ p b, m !! p = Some b → 0 <= b < 2 ^ 8.
(** [n] bytes from [p] are mapped. *)
Definition mapped (m : bytes) (p n : Z) : Prop := ∀ i, 0 <= i < n → is_Some (m !! (p + i)).
(** [m'] is [m] with the [n] bytes from [s] copied to [d]. *)
Definition copied (m m' : bytes) (d s n : Z) : Prop :=
  ∀ q, m' !! q = if decide (d <= q < d + n) then m !! (s + (q - d)) else m !! q.

(** One byte is copied. *)
Lemma copy_byte {A} m d s b (k : B A) :
  m !! s = Some b → 0 <= b < 2 ^ 8 → is_Some (m !! d) → (b ← lds s; stb d b;; k) m = k (<[d := b]> m).
Proof.
  intros Es Hb [b' Ed]. unfold lds, ldu, stb, mbind, M_bind. rewrite Es. cbn. by rewrite Ed, byte_roundtrip.
Qed.
Lemma holds_insert m d b : holds_bytes m → 0 <= b < 2 ^ 8 → holds_bytes (<[d := b]> m).
Proof. intros HB Hb p b' [[_ <-]|[_ ?]]%lookup_insert_Some; [done|by eapply HB]. Qed.
Lemma mapped_insert m d b p n : mapped m p n → mapped (<[d := b]> m) p n.
Proof. intros HM i Hi. apply lookup_insert_is_Some'. right. by apply HM. Qed.

Lemma copy_up_spec n : ∀ d s m,
  d <= s → holds_bytes m → mapped m s (Z.of_nat n) → mapped m d (Z.of_nat n) →
  ∃ m', copy_up n d s m = Ret tt m' ∧ copied m m' d s (Z.of_nat n).
Proof.
  induction n as [|n IH]; intros d s m Hle HB HS HD.
  { exists m. split; [done|]. intros q. rewrite decide_False by lia. done. }
  destruct (HS 0) as [b Eb]; [lia|]. rewrite Z.add_0_r in Eb. pose proof (HB _ _ Eb) as Hb.
  destruct (IH (d + 1) (s + 1) (<[d := b]> m)) as (m'&E&HC).
  - lia.
  - by apply holds_insert.
  - apply mapped_insert. intros i Hi. replace (s + 1 + i) with (s + (i + 1)) by lia. apply HS. lia.
  - apply mapped_insert. intros i Hi. replace (d + 1 + i) with (d + (i + 1)) by lia. apply HD. lia.
  - exists m'. split.
    + cbn [copy_up]. rewrite (copy_byte m d s b); [done..|]. rewrite <- (Z.add_0_r d). apply HD. lia.
    + intros q. rewrite HC. destruct (decide (q = d)) as [->|Hq].
      * rewrite decide_False, lookup_insert_eq, decide_True by lia. by rewrite Z.sub_diag, Z.add_0_r.
      * destruct (decide (d <= q < d + Z.of_nat (S n))).
        -- rewrite decide_True, lookup_insert_ne by lia. f_equal. lia.
        -- rewrite decide_False, lookup_insert_ne by lia. done.
Qed.

Lemma copy_down_spec n : ∀ d s m,
  s < d → holds_bytes m → mapped m s (Z.of_nat n) → mapped m d (Z.of_nat n) →
  ∃ m', copy_down n (d + Z.of_nat n) (s + Z.of_nat n) m = Ret tt m' ∧ copied m m' d s (Z.of_nat n).
Proof.
  induction n as [|n IH]; intros d s m Hlt HB HS HD.
  { exists m. split; [done|]. intros q. rewrite decide_False by lia. done. }
  destruct (HS (Z.of_nat n)) as [b Eb]; [lia|]. pose proof (HB _ _ Eb) as Hb.
  destruct (IH d s (<[d + Z.of_nat n := b]> m)) as (m'&E&HC).
  - done.
  - by apply holds_insert.
  - apply mapped_insert. intros i Hi. apply HS. lia.
  - apply mapped_insert. intros i Hi. apply HD. lia.
  - exists m'. split.
    + cbn [copy_down]. replace (s + Z.of_nat (S n) - 1) with (s + Z.of_nat n) by lia.
      replace (d + Z.of_nat (S n) - 1) with (d + Z.of_nat n) by lia.
      rewrite (copy_byte m (d + Z.of_nat n) (s + Z.of_nat n) b); [done..|]. apply HD. lia.
    + intros q. rewrite HC. destruct (decide (q = d + Z.of_nat n)) as [->|Hq].
      * rewrite decide_False, lookup_insert_eq, decide_True by lia. rewrite <- Eb. f_equal. lia.
      * destruct (decide (d <= q < d + Z.of_nat (S n))).
        -- rewrite decide_True, lookup_insert_ne by lia. done.
        -- rewrite decide_False, lookup_insert_ne by lia. done.
Qed.

(** C14. [memmove] returns the destination, and afterwards the destination holds
    what the source held before the call, however the areas overlap; every
    other byte is unchanged. *)
Theorem memmove_overlap m dest src count :
  holds_bytes m → 0 <= count → mapped m src count → mapped m dest count →
  ∃ m', memmove dest src count m = Ret dest m' ∧ copied m m' dest src count.
Proof.
  intros HB Hc HS HD. rewrite <- (Z2Nat.id count) in * by done. set (n := Z.to_nat count) in *. unfold memmove.
  rewrite Nat2Z.id. destruct (Z.leb_spec dest src).
  - destruct (copy_up_spec n dest src m) as (m'&E&?); try done. exists m'. split; [|done]. by rewrite (bind_Ret _ _ _ _ _ E).
  - destruct (copy_down_spec n dest src m) as (m'&E&?); try done. exists m'. split; [|done]. by rewrite (bind_Ret _ _ _ _ _ E).
Qed.

(** ** The string abcdefg at address 5 *)
Definition demo_bytes : bytes := list_to_map (zip (seqZ 4 12) [0; 97; 98; 99; 100; 101; 102; 103; 0; 7; 128; 9]).

Lemma strchrnul_refines_witness :
  (strchrnul 5 101 demo_bytes = strchrnul_ref 5 101 demo_bytes ∧ strchrnul 5 101 demo_bytes ≠ Spin) ∧
  strchrnul_ref 5 101 demo_bytes = Ret 9 demo_bytes.
Proof.
  split; [|vm_compute; reflexivity]. apply strchrnul_refines. split.
  - intros p b E. assert (HF : map_Forall (λ _ b, 0 <= b < 2 ^ 8) demo_bytes)
      by (apply (bool_decide_unpack _); vm_compute; exact I). by apply (HF p b E).
  - intros p q Hpq Hp.
    assert (Hd : ∀ x, is_Some (demo_bytes !! x) ↔ 4 <= x < 16).
    { intros x. rewrite <- elem_of_dom. change (dom demo_bytes) with (dom (demo_bytes : gmap Z Z)).
      replace (dom demo_bytes) with (list_to_set (C := gset Z) (seqZ 4 12)) by (apply (bool_decide_unpack _); vm_compute; exact I).
      rewrite elem_of_list_to_set, elem_of_seqZ. lia. }
    rewrite Hd in *. Z.to_euclidean_division_equations; lia.
Defined.

(** abcd is moved by two places, over itself. *)
Lemma memmove_overlap_witness :
  ∃ m', memmove 7 5 4 demo_bytes = Ret 7 m' ∧ copied demo_bytes m' 7 5 4.
Proof.
  apply memmove_overlap.
  - intros p b E. assert (HF : map_Forall (λ _ b, 0 <= b < 2 ^ 8) demo_bytes)
      by (apply (bool_decide_unpack _); vm_compute; exact I). by apply (HF p b E).
  - lia.
  - intros i Hi. assert (i = 0 ∨ i = 1 ∨ i = 2 ∨ i = 3) as [->|[->|[->| ->]]] by lia; vm_compute; by eexists.
  - intros i Hi. assert (i = 0 ∨ i = 1 ∨ i = 2 ∨ i = 3) as [->|[->|[->| ->]]] by lia; vm_compute; by eexists.
Defined.
