(* ===== verification/Slab.v ===== *)
(** * The slab allocator

    Models microkernel/mm/vm_slab.c without [kmem_cache_reap].  A slab is a page:
    struct kmem_slab (16 bytes), one bufctl (2 bytes) for each object, the
    objects.  The slabs and the caches are stores of a state of their own, with
    the links of their lists and the pages [kmem_alloc] will answer.  The names of
    the caches are not kept.  A constructor other than [cache_const] writes only
    the object it is given, which is not part of this state. *)

From S2P Require Import Prelude DList KState Sched.

(** struct kmem_slab and the bufctl array behind it, struct kmem_cache *)
Record kmem_slab := mk_slab { objaddr : Z; nentries : Z; sl_free : Z; bufctl : list Z }.
#[global] Instance eta_slab : Settable kmem_slab := λ x,
  mk_slab (objaddr x) (nentries x) (sl_free x) (bufctl x).
Record kmem_cache := mk_cache {
  c_object : Z; waste : Z; nobjects : Z; c_align : Z; ctor : Z; dtor : Z; next_cache : Z }.
#[global] Instance eta_cache : Settable kmem_cache := λ x,
  mk_cache (c_object x) (waste x) (nobjects x) (c_align x) (ctor x) (dtor x) (next_cache x).

Record slabst := mk_slabst {
  sl_links : gmap ptr (linked_list ptr);
  slabs : gmap Z kmem_slab;
  caches : gmap Z kmem_cache;
  cachep : Z;
  kpages : list Z }.            (* the pages kmem_alloc will answer *)
#[global] Instance eta_slabst : Settable slabst := λ x,
  mk_slabst (sl_links x) (slabs x) (caches x) (cachep x) (kpages x).
Abbreviation SL := (M slabst).

Definition BUFCTL_END : Z := 0xFFFF.
Definition SLAB_SIZEOF : Z := 16.
Definition CACHE_SIZEOF : Z := 68.
Definition cache_cache : Z := -20.
(** The address of the function [cache_const]. *)
Definition CACHE_CONST : Z := 1.

(** [partial] is the first member of a cache and [list] of a slab. *)
Definition partial (c : Z) : ptr := obj c.
Definition full (c : Z) : ptr := fld 1 (obj c).
Definition free (c : Z) : ptr := fld 2 (obj c).
Notation slist := (fld 0).

Definition get_slab (p : Z) : SL kmem_slab := λ s,
  match slabs s !! p with Some x => Ret x s | None => Fault end.
Definition get_cache (p : Z) : SL kmem_cache := λ s,
  match caches s !! p with Some x => Ret x s | None => Fault end.
Definition upd_slab (p : Z) (f : kmem_slab → kmem_slab) : SL unit := λ s,
  match slabs s !! p with Some x => Ret tt (s <| slabs ::= <[p := f x]> |>) | None => Fault end.
Definition upd_cache (p : Z) (f : kmem_cache → kmem_cache) : SL unit := λ s,
  match caches s !! p with Some x => Ret tt (s <| caches ::= <[p := f x]> |>) | None => Fault end.
Definition slab_links (f : gmap ptr (linked_list ptr) → option (gmap ptr (linked_list ptr))) : SL unit := λ s,
  match f (sl_links s) with Some l => Ret tt (s <| sl_links := l |>) | None => Fault end.
Definition slab_links' (f : gmap ptr (linked_list ptr) → option (ptr * gmap ptr (linked_list ptr))) : SL ptr := λ s,
  match f (sl_links s) with Some (a, l) => Ret a (s <| sl_links := l |>) | None => Fault end.
Definition slab_ask {A} (f : gmap ptr (linked_list ptr) → option A) : SL A := λ s,
  match f (sl_links s) with Some a => Ret a s | None => Fault end.
Definition the_slab (p : ptr) : SL Z := if decide (p.2 = 0) then mret p.1 else fault.
(** [bufctl_slab(slab)[i]] *)
Definition bufctl_at (b : list Z) (i : Z) : SL Z :=
  must (if (0 <=? i) && (i <? Z.of_nat (length b)) then b !! Z.to_nat i else None).

(** ** Filling a slab *)
Definition cache_const (o : Z) : SL unit :=
  modify (λ s, s <| sl_links ::= λ l, <[full o := mk_link (full o) (full o)]>
    (<[partial o := mk_link (partial o) (partial o)]> (<[free o := mk_link (free o) (free o)]> l)) |>);;
  modify (λ s, s <| caches ::= λ m,
    <[o := (default (mk_cache 0 0 0 0 0 0 0) (m !! o)) <| c_object := 0 |> <| waste := 0 |> <| nobjects := 0 |>
      <| c_align := 0 |> <| next_cache := 0 |>]> m |>).
Definition call_ctor (f o : Z) : SL unit := if f =? CACHE_CONST then cache_const o else mret tt.

Definition cache_calculate (object : Z) : Z * Z :=
  let room := PAGE_SIZE - SLAB_SIZEOF in
  (room / (object + 2), room mod (object + 2)).

(** The constructor and the destructor of object [i] and of the next ones. *)
Fixpoint ctor_loop (n : nat) (c : kmem_cache) (base i : Z) : SL unit :=
  match n with
  | O => mret tt
  | S n =>
      call_ctor (ctor c) (base + i * c_object c);;
      call_ctor (dtor c) (base + i * c_object c);;
      ctor_loop n c base (i + 1)
  end.
(** 1, 2, ..., BUFCTL_END *)
Definition fresh_bufctl (n : Z) : list Z := seqZ 1 (n - 1) ++ [BUFCTL_END].
(** A cache with no room for an object is never filled. *)
Definition slab_fill (slab cache : Z) : SL unit :=
  c ← get_cache cache;
  if nobjects c <=? 0 then fault
  else
    let base := slab + SLAB_SIZEOF + nobjects c * 2 in
    modify (λ s, s <| slabs ::= <[slab := mk_slab base 0 0 (fresh_bufctl (nobjects c))]> |>);;
    ctor_loop (Z.to_nat (nobjects c)) c base 0.

(** [kmem_alloc(PAGE_SIZE)]; the result is not tested. *)
Definition kmem_cache_grow (cache : Z) : SL unit :=
  ps ← gets kpages;
  match ps with
  | [] => fault
  | slab :: rest =>
      modify (λ s, s <| kpages := rest |> <| sl_links ::= <[slist (obj slab) := mk_link NULL NULL]> |>);;
      slab_fill slab cache;;
      slab_links (list_add slist (partial cache) (obj slab))
  end.

(** ** Allocation and release *)
Definition kmem_cache_alloc (cache : Z) : SL Z :=
  e ← slab_ask (list_isempty (partial cache));
  (if (e : bool) then
     e' ← slab_ask (list_isempty (free cache));
     if (e' : bool) then kmem_cache_grow cache
     else
       t ← slab_links' (list_remove slist (free cache));
       slab_links (list_add slist (partial cache) t)
   else mret tt);;
  p ← slab_ask (rd_next (partial cache));
  slab ← the_slab p;
  sl ← get_slab slab;
  c ← get_cache cache;
  n ← bufctl_at (bufctl sl) (sl_free sl);
  upd_slab slab (λ x, x <| sl_free := n |> <| nentries ::= λ k, s16 (k + 1) |>);;
  mret (objaddr sl + sl_free sl * c_object c).

Definition retire (cache : Z) : SL unit :=
  t ← slab_links' (list_remove slist (partial cache));
  slab_links (list_add slist (full cache) t).
Definition kmem_cache_free (cache o : Z) : SL Z :=
  p ← slab_ask (rd_next (partial cache));
  slab ← the_slab p;
  sl ← get_slab slab;
  c ← get_cache cache;
  (if nentries sl =? 0 then retire cache
   else
     let nobj := u16 (u32 (o - objaddr sl) / c_object c) in
     bufctl_at (bufctl sl) nobj;;
     upd_slab slab (λ x, x <| bufctl ::= <[Z.to_nat nobj := sl_free sl]> |> <| sl_free := nobj |>);;
     upd_slab slab (λ x, x <| nentries ::= λ k, s16 (k - 1) |>);;
     sl ← get_slab slab;
     if nentries sl <=? 0 then retire cache else mret tt);;
  mret 0.

(** ** Caches *)
Definition slab_init : SL unit :=
  slab_links (list_init (full cache_cache));;
  slab_links (list_init (partial cache_cache));;
  slab_links (list_init (free cache_cache));;
  c ← get_cache cache_cache;
  upd_cache cache_cache (λ x, x <| nobjects := (cache_calculate (c_object c)).1 |>
    <| waste := (cache_calculate (c_object c)).2 |>).

Definition kmem_cache_create (named : bool) (size ct dt : Z) : SL Z :=
  if negb named || (size =? 0) then mret 0
  else
    cache ← kmem_cache_alloc cache_cache;
    if cache =? 0 then mret 0
    else
      upd_cache cache (λ x, x <| ctor := ct |> <| dtor := dt |> <| c_object := size |>);;
      slab_links (list_init (full cache));;
      slab_links (list_init (partial cache));;
      slab_links (list_init (free cache));;
      upd_cache cache (λ x, x <| nobjects := (cache_calculate size).1 |> <| waste := (cache_calculate size).2 |>);;
      if (cache_calculate size).1 =? 0 then kmem_cache_free cache_cache cache;; mret 0
      else
        cp ← gets cachep;
        upd_cache cp (λ x, x <| next_cache := cache |>);;
        modify (λ s, s <| cachep := cache |>);;
        upd_cache cache (λ x, x <| next_cache := 0 |>);;
        mret cache.

(** ** The free objects of a slab *)

(** From [i] the bufctls run through [l] to the end mark. *)
Fixpoint bchain (b : list Z) (i : Z) (l : list Z) : Prop :=
  match l with
  | [] => i = BUFCTL_END
  | x :: l' => i = x ∧ 0 <= x ∧ match b !! Z.to_nat x with Some y => bchain b y l' | None => False end
  end.
#[global] Instance bchain_dec b i l : Decision (bchain b i l).
Proof.
  revert i. induction l as [|x l IH]; intros i; cbn; [apply _|]. destruct (b !! Z.to_nat x); apply _.
Defined.

(** Slab [slab] is the one [cache] allocates from, and its objects [fl] are free. *)
Record slab_ok (s : slabst) (cache slab : Z) (c : kmem_cache) (fl rest : list Z) : Prop := {
  so_cache : caches s !! cache = Some c;
  so_room : 0 < nobjects c ∧ 0 < c_object c ∧ nobjects c * (c_object c + 2) <= PAGE_SIZE - SLAB_SIZEOF;
  so_list : dlist slist (sl_links s) (partial cache) (obj <$> slab :: rest);
  so_slab : ∃ sl, slabs s !! slab = Some sl ∧ objaddr sl = slab + SLAB_SIZEOF + nobjects c * 2 ∧
    length (bufctl sl) = Z.to_nat (nobjects c) ∧ nentries sl = nobjects c - Z.of_nat (length fl) ∧
    bchain (bufctl sl) (sl_free sl) fl;
  so_free : NoDup fl ∧ Forall (λ x, 0 <= x < nobjects c) fl }.
(** The address of object [x]. *)
Definition object_at (slab : Z) (c : kmem_cache) (x : Z) : Z :=
  slab + SLAB_SIZEOF + nobjects c * 2 + x * c_object c.

Lemma bchain_insert b i l k v : 0 <= k → k ∉ l → bchain b i l → bchain (<[Z.to_nat k := v]> b) i l.
Proof.
  intros Hk. revert i. induction l as [|x l IH]; intros i Hn; [done|]. cbn. intros (->&Hx&H).
  apply not_elem_of_cons in Hn as [Hne Hn]. rewrite list_lookup_insert_ne by lia.
  destruct (b !! Z.to_nat x); [|done]. auto.
Qed.

(** Every object lies in the page, behind the bufctls. *)
Lemma object_in_page s cache slab c fl rest x :
  slab_ok s cache slab c fl rest → 0 <= x < nobjects c →
  slab + SLAB_SIZEOF + nobjects c * 2 <= object_at slab c x ∧
  object_at slab c x + c_object c <= slab + PAGE_SIZE.
Proof.
  intros HO Hx. destruct (so_room _ _ _ _ _ _ HO) as (?&?&?). unfold object_at.
  unfold PAGE_SIZE, SLAB_SIZEOF in *. split; nia.
Qed.

Lemma get_slab_Ret p x s : slabs s !! p = Some x → get_slab p s = Ret x s.
Proof. unfold get_slab. by intros ->. Qed.
Lemma get_cache_Ret p x s : caches s !! p = Some x → get_cache p s = Ret x s.
Proof. unfold get_cache. by intros ->. Qed.
Lemma upd_slab_Ret p f x s : slabs s !! p = Some x → upd_slab p f s = Ret tt (s <| slabs ::= <[p := f x]> |>).
Proof. unfold upd_slab. by intros ->. Qed.
Lemma slab_ask_Ret {A} (f : _ → option A) a s : f (sl_links s) = Some a → slab_ask f s = Ret a s.
Proof. unfold slab_ask. by intros ->. Qed.

Lemma bufctl_at_Ret b i y s : 0 <= i → b !! Z.to_nat i = Some y → bufctl_at b i s = Ret y s.
Proof.
  intros Hi E. pose proof (lookup_lt_Some _ _ _ E). unfold bufctl_at.
  rewrite (proj2 (Z.leb_le 0 i)), (proj2 (Z.ltb_lt i _)) by lia. cbn [andb]. by rewrite E.
Qed.

(** The state after the slab changed. *)
Lemma slab_ok_upd s cache slab c fl rest fl' sl' :
  slab_ok s cache slab c fl rest → objaddr sl' = slab + SLAB_SIZEOF + nobjects c * 2 →
  length (bufctl sl') = Z.to_nat (nobjects c) → nentries sl' = nobjects c - Z.of_nat (length fl') →
  bchain (bufctl sl') (sl_free sl') fl' → NoDup fl' → Forall (λ x, 0 <= x < nobjects c) fl' →
  slab_ok (s <| slabs ::= <[slab := sl']> |>) cache slab c fl' rest.
Proof.
  intros [] ??????. split; fields; try done. exists sl'. by rewrite lookup_insert_eq.
Qed.

Lemma s16_id x : - 2 ^ 15 <= x < 2 ^ 15 → s16 x = x.
Proof. intros. unfold s16. rewrite Z.mod_small by lia. lia. Qed.

Lemma slab_counts s cache slab c fl rest :
  slab_ok s cache slab c fl rest → nobjects c <= 1360 ∧ Z.of_nat (length fl) <= nobjects c.
Proof.
  intros HO. destruct (so_room _ _ _ _ _ _ HO) as (H1&H2&H3). destruct (so_free _ _ _ _ _ _ HO) as [ND HF].
  unfold PAGE_SIZE, SLAB_SIZEOF in H3. split; [nia|]. rewrite Forall_forall in HF.
  assert (Hs : fl ⊆+ seqZ 0 (nobjects c)).
  { apply NoDup_submseteq; [done|]. intros x Hx. apply elem_of_seqZ. apply HF in Hx. lia. }
  apply submseteq_length in Hs. rewrite length_seqZ in Hs. lia.
Qed.

(** The first steps of both routines. *)
Lemma partial_slab s cache slab c fl rest :
  slab_ok s cache slab c fl rest →
  slab_ask (list_isempty (partial cache)) s = Ret false s ∧
  slab_ask (rd_next (partial cache)) s = Ret (obj slab) s.
Proof.
  intros HO. pose proof (so_list _ _ _ _ _ _ HO) as HD. split; apply slab_ask_Ret.
  - rewrite (list_isempty_spec slist _ _ _ HD). by rewrite bool_decide_false.
  - by apply dlist_first in HD as [? _].
Qed.

Lemma slab_alloc_pops s cache slab c x fl rest :
  slab_ok s cache slab c (x :: fl) rest →
  ∃ s', kmem_cache_alloc cache s = Ret (object_at slab c x) s' ∧ slab_ok s' cache slab c fl rest.
Proof.
  intros HO. destruct (partial_slab _ _ _ _ _ _ HO) as [E1 E2].
  destruct (so_slab _ _ _ _ _ _ HO) as (sl&Es&Ho&Hl&Hn&Hc). destruct (so_room _ _ _ _ _ _ HO) as (Hn0&Ho0&Hr).
  destruct (so_free _ _ _ _ _ _ HO) as [[_ ND]%NoDup_cons [Hx HF]%Forall_cons].
  destruct Hc as (Hf&_&Hc). destruct (bufctl sl !! Z.to_nat x) as [y|] eqn:Ey; [|done].
  eexists. split.
  - unfold kmem_cache_alloc. erewrite bind_Ret by exact E1. cbv beta iota. erewrite bind_Ret by apply mret_Ret.
    cbv beta. erewrite bind_Ret by exact E2. cbv beta. erewrite bind_Ret by (unfold the_slab; reflexivity).
    cbv beta. erewrite bind_Ret by (apply get_slab_Ret; exact Es). cbv beta.
    erewrite bind_Ret by (apply get_cache_Ret; apply HO). cbv beta.
    erewrite bind_Ret by (apply bufctl_at_Ret; rewrite Hf; [lia|exact Ey]). cbv beta. erewrite bind_Ret by (apply upd_slab_Ret; exact Es). cbv beta. rewrite mret_Ret. f_equal.
    unfold object_at. by rewrite Ho, Hf.
  - pose proof (slab_counts _ _ _ _ _ _ HO) as [H1 H2]. cbn [length] in *.
    eapply slab_ok_upd; try done. cbn. rewrite Hn, s16_id; lia.
Qed.

(** An exhausted slab stays the one that is allocated from. *)
Lemma slab_alloc_overruns s cache slab c rest :
  slab_ok s cache slab c [] rest → kmem_cache_alloc cache s = Fault.
Proof.
  intros HO. destruct (partial_slab _ _ _ _ _ _ HO) as [E1 E2].
  destruct (so_slab _ _ _ _ _ _ HO) as (sl&Es&Ho&Hl&Hn&Hc). destruct (so_room _ _ _ _ _ _ HO) as (Hn0&Ho0&Hr).
  cbn in Hc. unfold kmem_cache_alloc. erewrite bind_Ret by exact E1. cbv beta iota.
  erewrite bind_Ret by apply mret_Ret. cbv beta. erewrite bind_Ret by exact E2. cbv beta.
  erewrite bind_Ret by (unfold the_slab; reflexivity). cbv beta.
  erewrite bind_Ret by (apply get_slab_Ret; exact Es). cbv beta.
  erewrite bind_Ret by (apply get_cache_Ret; apply HO). cbv beta.
  unfold mbind, M_bind, bufctl_at. rewrite Hl, Hc.
  rewrite (proj2 (Z.ltb_ge BUFCTL_END _)), andb_false_r; [done|]. pose proof (slab_counts _ _ _ _ _ _ HO) as [H1 _].
  unfold BUFCTL_END. lia.
Qed.

(** Freeing an object of a slab that has another one in use. *)
Lemma slab_free_pushes s cache slab c x fl rest :
  slab_ok s cache slab c fl rest → 0 <= x < nobjects c → x ∉ fl → Z.of_nat (length fl) + 2 <= nobjects c →
  ∃ s', kmem_cache_free cache (object_at slab c x) s = Ret 0 s' ∧ slab_ok s' cache slab c (x :: fl) rest.
Proof.
  intros HO Hx Hnx Huse. destruct (partial_slab _ _ _ _ _ _ HO) as [_ E2].
  destruct (so_slab _ _ _ _ _ _ HO) as (sl&Es&Ho&Hl&Hn&Hc). destruct (so_room _ _ _ _ _ _ HO) as (Hn0&Ho0&Hr).
  destruct (so_free _ _ _ _ _ _ HO) as [ND HF]. pose proof (slab_counts _ _ _ _ _ _ HO) as [H1 H2].
  set (sl1 := sl <| bufctl ::= <[Z.to_nat x := sl_free sl]> |> <| sl_free := x |>).
  set (sl2 := sl1 <| nentries ::= λ k, s16 (k - 1) |>).
  assert (Hne : nentries sl2 = nobjects c - Z.of_nat (length (x :: fl))).
  { cbn [nentries sl2 sl1 setf length]. unfold sl2, sl1. fields. rewrite Hn, s16_id; cbn [length]; lia. }
  assert (Hnobj : u16 (u32 (object_at slab c x - objaddr sl) / c_object c) = x).
  { unfold PAGE_SIZE, SLAB_SIZEOF in Hr. replace (object_at slab c x - objaddr sl) with (x * c_object c)
      by (unfold object_at; rewrite Ho; lia).
    rewrite u32_id by nia. rewrite Z.div_mul by lia. unfold u16. apply Z.mod_small. lia. }
  destruct (lookup_lt_is_Some_2 (bufctl sl) (Z.to_nat x)) as [y Ey]; [lia|].
  exists (s <| slabs ::= <[slab := sl2]> |>). split.
  - unfold kmem_cache_free. erewrite bind_Ret by exact E2. cbv beta.
    erewrite bind_Ret by (unfold the_slab; reflexivity). cbv beta.
    erewrite bind_Ret by (apply get_slab_Ret; exact Es). cbv beta.
    erewrite bind_Ret by (apply get_cache_Ret; apply HO). cbv beta.
    rewrite (proj2 (Z.eqb_neq _ _)) by (rewrite Hn; lia). rewrite Hnobj. cbv zeta. rewrite bind_assoc.
    erewrite bind_Ret by (apply bufctl_at_Ret; [lia|exact Ey]). cbv beta. rewrite bind_assoc. erewrite bind_Ret by (apply upd_slab_Ret; exact Es). cbv beta. fold sl1.
    rewrite bind_assoc. erewrite bind_Ret by (apply upd_slab_Ret; fields; apply lookup_insert_eq). cbv beta. fold sl2.
    rewrite bind_assoc. erewrite bind_Ret by (apply get_slab_Ret; fields; apply lookup_insert_eq). cbv beta.
    rewrite (proj2 (Z.leb_gt _ _)) by (rewrite Hne; cbn [length]; lia).
    erewrite bind_Ret by apply mret_Ret. rewrite mret_Ret. f_equal. unfold setf; cbn. by rewrite insert_insert_eq.
  - apply (slab_ok_upd _ _ _ _ fl); try done.
    + cbn. by rewrite length_insert.
    + cbn. split; [done|]. split; [lia|]. rewrite list_lookup_insert_eq by lia.
      apply bchain_insert; [lia|done|done].
    + by apply NoDup_cons.
    + by apply Forall_cons.
Qed.

(** *** A new slab *)
Lemma ctor_loop_none c base s : ctor c ≠ CACHE_CONST → dtor c ≠ CACHE_CONST → ∀ n i, ctor_loop n c base i s = Ret tt s.
Proof.
  intros Hc Hd. induction n as [|n IH]; intros i; [done|]. cbn [ctor_loop]. unfold call_ctor.
  rewrite (proj2 (Z.eqb_neq (ctor c) _)), (proj2 (Z.eqb_neq (dtor c) _)) by done. exact (IH (i + 1)).
Qed.

Lemma bchain_app b k l : ∀ i, 0 <= i → i + Z.of_nat (length l) = k →
  (∀ j, i <= j < k → b !! Z.to_nat j = Some (if j + 1 =? k then BUFCTL_END else j + 1)) →
  l = seqZ i (k - i) → l ≠ [] → bchain b i l.
Proof.
  induction l as [|x l IH]; intros i Hi Hk Hb El Hne; [done|]. cbn [length] in Hk.
  rewrite seqZ_cons in El by lia. injection El as -> El. cbn. split_and!; [done|lia|].
  rewrite Hb by lia. destruct (Z.eqb_spec (i + 1) k) as [E|E].
  - assert (l = []) as -> by (apply length_zero_iff_nil; lia). done.
  - apply IH; [lia|lia|intros; apply Hb; lia|rewrite El; f_equal; lia|]. intros ->. cbn in Hk. lia.
Qed.

Lemma fresh_bufctl_spec n : 0 < n →
  length (fresh_bufctl n) = Z.to_nat n ∧ bchain (fresh_bufctl n) 0 (seqZ 0 n).
Proof.
  intros Hn. unfold fresh_bufctl. split; [rewrite length_app, length_seqZ; cbn; lia|].
  apply (bchain_app _ n); [lia|rewrite length_seqZ; lia| |by rewrite Z.sub_0_r|].
  - intros j Hj. destruct (Z.eqb_spec (j + 1) n).
    + rewrite lookup_app_r by (rewrite length_seqZ; lia). rewrite length_seqZ.
      by replace (Z.to_nat j - Z.to_nat (n - 1))%nat with 0%nat by lia.
    + rewrite lookup_app_l by (rewrite length_seqZ; lia). rewrite lookup_seqZ_lt by lia. f_equal. lia.
  - rewrite seqZ_cons by lia. done.
Qed.

(** A cache without slabs, and the page it will get. *)
Record new_cache (s : slabst) (cache slab : Z) (c : kmem_cache) : Prop := {
  nc_cache : caches s !! cache = Some c;
  nc_size : 0 < c_object c ∧ nobjects c = (cache_calculate (c_object c)).1 ∧ 0 < nobjects c;
  nc_ctor : ctor c ≠ CACHE_CONST ∧ dtor c ≠ CACHE_CONST;
  nc_lists : dlist slist (sl_links s) (partial cache) [] ∧ dlist slist (sl_links s) (free cache) [];
  nc_page : ∃ ps, kpages s = slab :: ps;
  nc_new : slab ≠ cache }.

Lemma grow_spec s cache slab c :
  new_cache s cache slab c →
  ∃ s', kmem_cache_grow cache s = Ret tt s' ∧ slab_ok s' cache slab c (seqZ 0 (nobjects c)) [].
Proof.
  intros [Ec (Ho&Hnc&Hn) [Hct Hdt] [HP _] (ps&Eps) Hne].
  set (s1 := s <| kpages := ps |> <| sl_links ::= <[slist (obj slab) := mk_link NULL NULL]> |>).
  set (sl := mk_slab (slab + SLAB_SIZEOF + nobjects c * 2) 0 0 (fresh_bufctl (nobjects c))).
  set (s2 := s1 <| slabs ::= <[slab := sl]> |>).
  assert (Hpc : partial cache ≠ slist (obj slab)) by (unfold partial, obj, fld; cbn; intros [=]; congruence).
  assert (HP2 : dlist slist (sl_links s2) (partial cache) []).
  { eapply dlist_frame; [|exact HP]. intros d Hd%list_elem_of_singleton. subst. unfold s2, s1. fields.
    by rewrite lookup_insert_ne. }
  destruct (list_enqueue_spec slist (sl_links s2) (partial cache) [] (obj slab) HP2) as (L&EL&HW).
  { apply (obj_ring 0 (partial cache) [slab]); [apply NoDup_singleton|].
    intros t ->%list_elem_of_singleton. split; [|done]. intros [=]. congruence. }
  { unfold s2, s1. fields. rewrite lookup_insert_eq. by eexists. }
  exists (s2 <| sl_links := L |>). split.
  - unfold kmem_cache_grow. erewrite bind_Ret by apply gets_Ret. cbv beta. rewrite Eps.
    erewrite bind_Ret by apply modify_Ret. cbv beta. fold s1.
    erewrite bind_Ret; [|unfold slab_fill; erewrite bind_Ret by (apply get_cache_Ret; exact Ec); cbv beta;
      rewrite (proj2 (Z.leb_gt _ _)) by done; cbv zeta; erewrite bind_Ret by apply modify_Ret; cbv beta;
      apply ctor_loop_none; done].
    cbv beta. unfold slab_links. rewrite list_add_enqueue. fold sl s2. by rewrite EL.
  - destruct (fresh_bufctl_spec (nobjects c) Hn) as [Hlen Hch]. split.
    + done.
    + unfold cache_calculate in Hnc. cbn [fst] in Hnc. split_and!; [done..|]. rewrite Hnc at 1.
      rewrite Z.mul_comm. apply Z.mul_div_le. lia.
    + by destruct HW.
    + exists sl. unfold s2, s1. fields. rewrite lookup_insert_eq. split_and!; try done.
      rewrite length_seqZ. lia.
    + split; [apply NoDup_seqZ|]. apply Forall_forall. intros x Hx%elem_of_seqZ. lia.
Qed.

(** The first allocation takes a page and its first object. *)
Lemma slab_first s cache slab c :
  new_cache s cache slab c →
  ∃ s', kmem_cache_alloc cache s = Ret (object_at slab c 0) s' ∧
    slab_ok s' cache slab c (seqZ 1 (nobjects c - 1)) [].
Proof.
  intros HN. destruct (grow_spec s cache slab c HN) as (s1&E1&HO).
  destruct (nc_size _ _ _ _ HN) as (_&_&Hn). rewrite seqZ_cons in HO by done.
  change (Z.succ 0) with 1 in HO. rewrite <- Z.sub_1_r in HO.
  destruct (slab_alloc_pops _ _ _ _ _ _ _ HO) as (s2&E2&HO2).
  exists s2. split; [|done].
  destruct (nc_lists _ _ _ _ HN) as [HP HF].
  unfold kmem_cache_alloc. erewrite bind_Ret by (apply slab_ask_Ret; exact (list_isempty_spec slist _ _ _ HP)).
  cbv beta. rewrite bool_decide_true by done. rewrite bind_assoc.
  erewrite bind_Ret by (apply slab_ask_Ret; exact (list_isempty_spec slist _ _ _ HF)).
  cbv beta. rewrite bool_decide_true by done. erewrite bind_Ret by exact E1.
  unfold kmem_cache_alloc in E2. destruct (partial_slab _ _ _ _ _ _ HO) as [Ee _].
  erewrite bind_Ret in E2 by exact Ee. cbv beta iota in E2. erewrite bind_Ret in E2 by apply mret_Ret. exact E2.
Qed.

(** [k] allocations in a row. *)
Fixpoint alloc_n (k : nat) (cache : Z) : SL (list Z) :=
  match k with
  | O => mret []
  | S k => o ← kmem_cache_alloc cache; os ← alloc_n k cache; mret (o :: os)
  end.

Lemma alloc_n_pops cache slab c rest fl : ∀ s,
  slab_ok s cache slab c fl rest →
  ∃ s', alloc_n (length fl) cache s = Ret (object_at slab c <$> fl) s' ∧ slab_ok s' cache slab c [] rest.
Proof.
  induction fl as [|x fl IH]; intros s HO; [by exists s|].
  destruct (slab_alloc_pops _ _ _ _ _ _ _ HO) as (s1&E1&HO1). destruct (IH s1 HO1) as (s2&E2&HO2).
  exists s2. split; [|done]. cbn [alloc_n length fmap list_fmap]. erewrite bind_Ret by exact E1. cbv beta.
  by erewrite bind_Ret by exact E2.
Qed.

(** C2. A cache that has no slab takes one page; the allocations return the
    objects of the page one after the other, which are disjoint and lie between
    the bufctls and the end of the page.  When the page is used up the next
    allocation does not take another page: it reads the bufctl 65535 of the same
    slab, outside the page. *)
Theorem slab_page_then_overrun s cache slab c :
  new_cache s cache slab c →
  (∃ s', alloc_n (Z.to_nat (nobjects c)) cache s = Ret (object_at slab c <$> seqZ 0 (nobjects c)) s' ∧
     kmem_cache_alloc cache s' = Fault) ∧
  (∀ x, 0 <= x < nobjects c → slab + SLAB_SIZEOF + nobjects c * 2 <= object_at slab c x ∧
     object_at slab c x + c_object c <= slab + PAGE_SIZE ∧
     ∀ y, x < y < nobjects c → object_at slab c x + c_object c <= object_at slab c y).
Proof.
  intros HN. destruct (slab_first s cache slab c HN) as (s1&E1&HO1). destruct (nc_size _ _ _ _ HN) as (Ho&_&Hn).
  split.
  - destruct (alloc_n_pops _ _ _ _ _ s1 HO1) as (s2&E2&HO2). exists s2. split; [|by eapply slab_alloc_overruns].
    rewrite length_seqZ in E2. replace (Z.to_nat (nobjects c)) with (S (Z.to_nat (nobjects c - 1))) by lia.
    cbn [alloc_n]. erewrite bind_Ret by exact E1. cbv beta. erewrite bind_Ret by exact E2. cbv beta.
    rewrite (seqZ_cons 0) by lia. by rewrite fmap_cons, mret_Ret, <- Z.sub_1_r.
  - intros x Hx. destruct (object_in_page _ _ _ _ _ _ x HO1 Hx) as [? ?]. split_and!; [done..|].
    intros y Hy. unfold object_at. nia.
Qed.

(** C4. The free objects of the slab in use are a stack: an allocation takes the
    object on top, and freeing an object that is in use puts it on top, as long
    as the slab has another object in use; in particular an allocation after
    [kmem_cache_free] returns the freed object. *)
Theorem slab_free_stack s cache slab c fl rest :
  slab_ok s cache slab c fl rest →
  (∀ x l, fl = x :: l → ∃ s', kmem_cache_alloc cache s = Ret (object_at slab c x) s' ∧
     slab_ok s' cache slab c l rest) ∧
  (∀ x, 0 <= x < nobjects c → x ∉ fl → Z.of_nat (length fl) + 2 <= nobjects c →
     ∃ s' s'', kmem_cache_free cache (object_at slab c x) s = Ret 0 s' ∧ slab_ok s' cache slab c (x :: fl) rest ∧
       kmem_cache_alloc cache s' = Ret (object_at slab c x) s'' ∧ slab_ok s'' cache slab c fl rest).
Proof.
  intros HO. split.
  - intros x l ->. by apply slab_alloc_pops.
  - intros x Hx Hn Hu. destruct (slab_free_pushes _ _ _ _ x _ _ HO Hx Hn Hu) as (s'&E&HO').
    destruct (slab_alloc_pops _ _ _ _ _ _ _ HO') as (s''&E'&HO''). by exists s', s''.
Qed.

(** ** The system starts and creates a cache of structures of 950 bytes *)
Definition slab_boot : slabst :=
  mk_slabst (list_to_map ((λ d, (d, mk_link NULL NULL)) <$> [partial cache_cache; full cache_cache; free cache_cache]))
    ∅ {[ cache_cache := mk_cache CACHE_SIZEOF 0 0 0 CACHE_CONST 0 0 ]} cache_cache [4096; 8192].
Definition demo_slab : slabst := after (slab_init;; kmem_cache_create true 950 0 0) slab_boot.
Definition demo_cache : kmem_cache := mk_cache 950 ((cache_calculate 950).2) 4 0 0 0 0.
Definition demo_used : slabst := after (alloc_n 3 4228) demo_slab.

Lemma demo_new_cache : new_cache demo_slab 4228 8192 demo_cache.
Proof.
  split.
  - vm_compute. reflexivity.
  - split_and!; vm_compute; reflexivity.
  - split; discriminate.
  - split; evaluate.
  - exists []. vm_compute. reflexivity.
  - discriminate.
Qed.

Lemma slab_page_then_overrun_witness :
  ∃ s', alloc_n 4 4228 demo_slab = Ret [8216; 9166; 10116; 11066] s' ∧ kmem_cache_alloc 4228 s' = Fault.
Proof. exact (proj1 (slab_page_then_overrun demo_slab 4228 8192 demo_cache demo_new_cache)). Defined.

Lemma slab_free_stack_witness :
  ∃ s' s'', kmem_cache_free 4228 9166 demo_used = Ret 0 s' ∧ slab_ok s' 4228 8192 demo_cache [1; 3] [] ∧
    kmem_cache_alloc 4228 s' = Ret 9166 s'' ∧ slab_ok s'' 4228 8192 demo_cache [3] [].
Proof.
  assert (HO : slab_ok demo_used 4228 8192 demo_cache [3] []).
  { split.
    - vm_compute. reflexivity.
    - split_and!; vm_compute; congruence.
    - evaluate.
    - exists (mk_slab 8216 3 3 [1; 2; 3; BUFCTL_END]). split_and!; vm_compute; intuition congruence.
    - split; [apply NoDup_singleton|]. apply Forall_singleton. vm_compute. intuition congruence. }
  apply (proj2 (slab_free_stack demo_used 4228 8192 demo_cache [3] [] HO) 1).
  - vm_compute. intuition congruence.
  - set_solver.
  - vm_compute. intuition congruence.
Defined.
