(* ===== verification/FsState.v ===== *)
(** * The file system server: memory, structures and devices

    Models the data of servers/fs-io: vfs.h, bcache.h, blkdev.h, ext2fs.h,
    mrx/fd.h, mrx/blkdev.h and sys/stat.h.  Byte memory (data buffers, malloc'ed
    tables, the buffers of requests) is the memory of LibcString; the structures
    the server only reaches by member are records in stores by address.  The
    structures that come from the disk keep their bytes, and a member is read from
    its offset in them.  [malloc] answers the addresses of the list [heap], NULL
    when it is empty.  The mutexes of the C library do nothing (asm/mutex.h), and
    one request is served at a time, so the locks are left out.

    A block driver is a function of an operation on its own state and the
    memory; [BlkDriver] says which driver the address of a struct
    block_operations stands for. *)

From S2P Require Import Prelude DList LibcString.

(** ** Bytes *)
#[global] Coercion Z.of_nat : nat >-> Z.

(** [m] with the bytes [l] written from [p] on. *)
Fixpoint put (p : Z) (l : list Z) (m : bytes) : bytes :=
  match l with [] => m | x :: l => put (p + 1) l (<[p := x]> m) end.
(** The bytes [l] are at [p]. *)
Definition at_mem (m : bytes) (p : Z) (l : list Z) : Prop := ∀ i : nat, (i < length l)%nat → m !! (p + i) = l !! i.
Definition all_bytes (l : list Z) : Prop := Forall (λ b, 0 <= b < 2 ^ 8) l.

Lemma lookup_put l : ∀ p m q,
  put p l m !! q = if decide (p <= q < p + length l) then l !! Z.to_nat (q - p) else m !! q.
Proof.
  induction l as [|x l IH]; intros p m q; cbn [put].
  - rewrite decide_False; [done|]. cbn. lia.
  - rewrite IH. destruct (decide (q = p)) as [->|Hq].
    + rewrite decide_False, lookup_insert_eq, decide_True by (cbn; lia). by rewrite Z.sub_diag.
    + rewrite lookup_insert_ne by done. destruct (decide (p <= q < p + length (x :: l))) as [H|H]; cbn in H.
      * rewrite decide_True by lia. replace (Z.to_nat (q - p)) with (S (Z.to_nat (q - (p + 1)))) by lia. done.
      * by rewrite decide_False by lia.
Qed.
Lemma at_mem_put p l m : at_mem (put p l m) p l.
Proof. intros i Hi. rewrite lookup_put, decide_True by lia. f_equal. lia. Qed.
Lemma at_mem_put_ne p l m q k :
  p + length l <= q ∨ q + length k <= p → at_mem m q k → at_mem (put p l m) q k.
Proof. intros Hd HA i Hi. rewrite lookup_put, decide_False by lia. by apply HA. Qed.
Lemma put_mapped p l m q n : mapped m q n → mapped (put p l m) q n.
Proof.
  intros HM i Hi. rewrite lookup_put. case_decide; [|by apply HM]. apply lookup_lt_is_Some. lia.
Qed.
Lemma put_holds p l m : all_bytes l → holds_bytes m → holds_bytes (put p l m).
Proof.
  intros HL HB q b. rewrite lookup_put. case_decide; [|apply HB]. intros E.
  exact (Forall_lookup_1 _ _ _ _ HL E).
Qed.
Lemma put_app l : ∀ p k m, put p (l ++ k) m = put (p + length l) k (put p l m).
Proof.
  induction l as [|x l IH]; intros p k m; cbn; [by rewrite Z.add_0_r|]. rewrite IH. f_equal. lia.
Qed.
Lemma at_mem_cons m p x l : at_mem m p (x :: l) ↔ m !! p = Some x ∧ at_mem m (p + 1) l.
Proof.
  split.
  - intros H. split; [by rewrite <- (Z.add_0_r p); apply (H 0%nat); cbn; lia|].
    intros i Hi. replace (p + 1 + i) with (p + S i) by lia. apply (H (S i)). cbn. lia.
  - intros [H1 H2] [|i] Hi; [by rewrite Z.add_0_r|]. cbn in Hi. replace (p + S i) with (p + 1 + i) by lia.
    apply H2. lia.
Qed.
Lemma at_mem_app m p l k : at_mem m p (l ++ k) ↔ at_mem m p l ∧ at_mem m (p + length l) k.
Proof.
  revert p. induction l as [|x l IH]; intros p; cbn [app length].
  - rewrite Z.add_0_r. split; [|tauto]. intros H. split; [|done]. intros i Hi. cbn in Hi. lia.
  - rewrite !at_mem_cons, IH. replace (p + 1 + length l) with (p + S (length l)) by lia. tauto.
Qed.
Lemma at_mem_mapped m p l n : at_mem m p l → n <= length l → mapped m p n.
Proof.
  intros HA Hn i Hi. replace i with (Z.of_nat (Z.to_nat i)) by lia. rewrite HA by lia. apply lookup_lt_is_Some. lia.
Qed.

Lemma at_mem_size l : ∀ m p, at_mem m p l → (length l <= size m)%nat.
Proof.
  intros m p HA. rewrite <- size_dom.
  assert (HS : list_to_set (seqZ p (length l)) ⊆ dom m).
  { intros q. rewrite elem_of_list_to_set, elem_of_seqZ. intros Hq. apply elem_of_dom.
    replace q with (p + Z.to_nat (q - p)) by lia. rewrite HA by lia. apply lookup_lt_is_Some. lia. }
  apply subseteq_size in HS. rewrite size_list_to_set, length_seqZ, Nat2Z.id in HS by apply NoDup_seqZ. done.
Qed.

(** Characters. *)
Lemma s8_inj a b : 0 <= a < 2 ^ 8 → 0 <= b < 2 ^ 8 → s8 a = s8 b → a = b.
Proof. intros Ha Hb E. rewrite <- (byte_roundtrip a), <- (byte_roundtrip b), E by done. done. Qed.
Lemma s8_eqb a b : 0 <= a < 2 ^ 8 → 0 <= b < 2 ^ 8 → (s8 a =? s8 b) = (a =? b).
Proof.
  intros. destruct (Z.eqb_spec a b) as [->|Hn]; [apply Z.eqb_refl|]. apply Z.eqb_neq. by intros ?%s8_inj.
Qed.
Lemma lds_Ret m p b : m !! p = Some b → lds p m = Ret (s8 b) m.
Proof. intros E. unfold lds, ldu, mbind, M_bind. by rewrite E. Qed.

(** Loads of a half word and of [n] bytes. *)
Definition ld16 (p : Z) : B Z := a ← ldu p; b ← ldu (p + 1); mret (a + 2 ^ 8 * b).
Fixpoint ld_list (n : nat) (p : Z) : B (list Z) :=
  match n with O => mret [] | S n => b ← ldu p; l ← ld_list n (p + 1); mret (b :: l) end.
Lemma ld_list_spec l : ∀ p m, at_mem m p l → ld_list (length l) p m = Ret l m.
Proof.
  induction l as [|x l IH]; intros p m; [done|]. rewrite at_mem_cons. intros [H1 H2].
  cbn. unfold ldu, mbind, M_bind. by rewrite H1, (IH _ _ H2).
Qed.

Fixpoint store_list (p : Z) (l : list Z) : B unit :=
  match l with [] => mret tt | b :: l => stb p b;; store_list (p + 1) l end.
Lemma copy_up_put l : ∀ d q m,
  at_mem m q l → all_bytes l → mapped m d (length l) → q + length l <= d ∨ d + length l <= q →
  copy_up (length l) d q m = Ret tt (put d l m).
Proof.
  induction l as [|x l IH]; intros d q m HA HL HM HD; [done|].
  apply at_mem_cons in HA as [H1 H2]. apply Forall_cons in HL as [Hx HL]. cbn [length copy_up put] in *.
  rewrite (copy_byte m d q x); [|done..|by rewrite <- (Z.add_0_r d); apply HM; lia].
  apply IH; [|done| |lia].
  - intros i Hi. rewrite lookup_insert_ne by lia. by apply H2.
  - apply mapped_insert. intros i Hi. replace (d + 1 + i) with (d + (i + 1)) by lia. apply HM. lia.
Qed.
Lemma memcpy_put l d q (n : Z) m :
  at_mem m q l → all_bytes l → n = length l → mapped m d n → q + n <= d ∨ d + n <= q →
  memcpy d q n m = Ret d (put d l m).
Proof.
  intros HA HL -> HM HD. unfold memcpy. rewrite Nat2Z.id. by rewrite (bind_Ret _ _ _ _ _ (copy_up_put l d q m HA HL HM HD)).
Qed.

Lemma fill_put (n : nat) c : ∀ p m, mapped m p n → fill n p c m = Ret tt (put p (replicate n (u8 c)) m).
Proof.
  induction n as [|n IH]; intros p m HM; [done|]. cbn [fill replicate put].
  destruct (HM 0) as [b Eb]; [lia|]. rewrite Z.add_0_r in Eb.
  unfold stb at 1. unfold mbind, M_bind. rewrite Eb. apply IH, mapped_insert.
  intros i Hi. replace (p + 1 + i) with (p + (i + 1)) by lia. apply HM. lia.
Qed.
Lemma memset_put (n : Z) c p m : 0 <= n → mapped m p n → memset p c n m = Ret p (put p (replicate (Z.to_nat n) (u8 c)) m).
Proof.
  intros Hn HM. unfold memset. rewrite (bind_Ret _ _ _ _ _ (fill_put (Z.to_nat n) c p m ltac:(by rewrite Z2Nat.id by lia))). done.
Qed.
Lemma store_list_put l : ∀ p m, all_bytes l → mapped m p (length l) → store_list p l m = Ret tt (put p l m).
Proof.
  induction l as [|x l IH]; intros p m HL HM; [done|]. apply Forall_cons in HL as [Hx HL]. cbn [store_list put length] in *.
  destruct (HM 0) as [b Eb]; [lia|]. rewrite Z.add_0_r in Eb. unfold stb at 1, mbind, M_bind. rewrite Eb.
  unfold u8. rewrite Z.mod_small by lia. apply IH; [done|]. apply mapped_insert.
  intros i Hi. replace (p + 1 + i) with (p + (i + 1)) by lia. apply HM. lia.
Qed.

(** Cleared memory of [n] bytes at [a]. *)
Definition zeros (a n : Z) : bytes := list_to_map ((λ a, (a, 0)) <$> seqZ a n).
Lemma zeros_lookup a n x : zeros a n !! x = if decide (a <= x < a + n) then Some 0 else None.
Proof.
  assert (HN : NoDup ((λ a, (a, 0)) <$> seqZ a n).*1).
  { rewrite <- list_fmap_compose, (list_fmap_ext _ id), list_fmap_id; [apply NoDup_seqZ|done]. }
  unfold zeros. case_decide as Hx.
  - apply elem_of_list_to_map; [done|]. apply list_elem_of_fmap. exists x. split; [done|by apply elem_of_seqZ].
  - apply not_elem_of_list_to_map. intros (y&->&Hy)%list_elem_of_fmap. apply list_elem_of_fmap in Hy as (z&->&Hz%elem_of_seqZ). by apply Hx.
Qed.
Lemma zeros_bytes a n : holds_bytes (zeros a n).
Proof. intros x y. rewrite zeros_lookup. case_decide; [|done]. intros [= <-]. lia. Qed.

(** Members of structures kept as bytes, little endian. *)
Definition byte_at (l : list Z) (o : nat) : Z := nth o l 0.
Definition le16 (l : list Z) (o : nat) : Z := byte_at l o + 2 ^ 8 * byte_at l (o + 1).
Definition le32 (l : list Z) (o : nat) : Z :=
  byte_at l o + 2 ^ 8 * byte_at l (o + 1) + 2 ^ 16 * byte_at l (o + 2) + 2 ^ 24 * byte_at l (o + 3).
(** [l] with the bytes [k] at offset [o]; a store into a member. *)
Definition splice (o : nat) (k l : list Z) : list Z := take o l ++ k ++ drop (o + length k) l.
Definition of_le16 (x : Z) : list Z := [x mod 2 ^ 8; x / 2 ^ 8 mod 2 ^ 8].
Definition of_le32 (x : Z) : list Z :=
  [x mod 2 ^ 8; x / 2 ^ 8 mod 2 ^ 8; x / 2 ^ 16 mod 2 ^ 8; x / 2 ^ 24 mod 2 ^ 8].
Definition set16 (o : nat) (x : Z) (l : list Z) : list Z := splice o (of_le16 x) l.
Definition set32 (o : nat) (x : Z) (l : list Z) : list Z := splice o (of_le32 x) l.

Lemma byte_range l o : all_bytes l → 0 <= byte_at l o < 2 ^ 8.
Proof.
  intros H. unfold byte_at. destruct (decide (o < length l)%nat) as [Ho|].
  - apply lookup_lt_is_Some in Ho as [b Eb]. rewrite (nth_lookup_Some _ _ _ _ Eb). by apply (Forall_lookup_1 _ _ _ _ H Eb).
  - rewrite nth_overflow by lia. lia.
Qed.
Lemma le16_range l o : all_bytes l → 0 <= le16 l o < 2 ^ 16.
Proof. intros H. pose proof (byte_range l o H). pose proof (byte_range l (o + 1) H). unfold le16. lia. Qed.
Lemma le32_range l o : all_bytes l → 0 <= le32 l o < 2 ^ 32.
Proof.
  intros H. pose proof (byte_range l o H). pose proof (byte_range l (o + 1) H). pose proof (byte_range l (o + 2) H).
  pose proof (byte_range l (o + 3) H). unfold le32. lia.
Qed.
Lemma byte_at_lookup l o : (o < length l)%nat → l !! o = Some (byte_at l o).
Proof. intros Ho. apply lookup_lt_is_Some in Ho as [b Eb]. unfold byte_at. by rewrite (nth_lookup_Some _ _ _ _ Eb). Qed.
Lemma ldw_at m p l o :
  at_mem m p l → (o + 3 < length l)%nat → ldw (p + o) m = Ret (le32 l o) m.
Proof.
  intros HA Ho.
  assert (HB : ∀ k : nat, (k <= 3)%nat → m !! (p + o + k) = Some (byte_at l (o + k))).
  { intros k Hk. replace (p + o + k) with (p + (o + k)%nat) by lia. rewrite HA by lia. apply byte_at_lookup. lia. }
  pose proof (HB 0%nat) as H0. pose proof (HB 1%nat) as H1. pose proof (HB 2%nat) as H2. pose proof (HB 3%nat) as H3.
  rewrite Z.add_0_r, Nat.add_0_r in H0. change (Z.of_nat 1) with 1 in *. change (Z.of_nat 2) with 2 in *.
  change (Z.of_nat 3) with 3 in *. unfold ldw, le32, ldu, mbind, M_bind. by rewrite H0, H1, H2, H3 by lia.
Qed.

(** ** Device numbers and operations: mrx/fd.h, mrx/blkdev.h, blkdev.h *)
Definition MAX_MAJOR : Z := 32.
Definition MAJOR (dev : Z) : Z := Z.shiftr dev 16.
Definition MINOR (dev : Z) : Z := Z.land dev 0xFFFF.
Definition DISKNO (dev : Z) : Z := Z.land (Z.shiftr (MINOR dev) 8) 0xff.
Definition PARTNO (dev : Z) : Z := Z.land (MINOR dev) 0xFF.
Definition DEVICE (major disk part : Z) : Z := Z.lor (Z.lor (Z.shiftl major 16) (Z.shiftl disk 8)) part.
Definition BLK_READ : Z := 1.
Definition BLK_WRITE : Z := 2.

(** struct operation; the caller is not used *)
Record operation := mk_operation { o_device : Z; o_type : Z; o_block : Z; o_blksize : Z; o_buffer : Z }.
#[global] Instance eta_operation : Settable operation := λ x,
  mk_operation (o_device x) (o_type x) (o_block x) (o_blksize x) (o_buffer x).
(** struct partition_info, struct block_device (the members that are set) and struct bdevsw; a pointer to a structure of function pointers is its address *)
Record partition_info := mk_pinfo { pi_start : Z; pi_size : Z; ptype : Z; pi_flag : Z }.
Record block_device := mk_blkdevice { bdev_dev : Z; sectsize : Z }.
Record bdevsw := mk_bdevsw { bd_ops : Z; bd_device : Z; ndevs : Z }.

(** struct block_operations: the routines of a driver, which work on its own state and the memory *)
Record block_operations (D : Type) := mk_blkops {
  d_open : M (D * bytes) Z; d_close : M (D * bytes) Z; d_strategy : operation → M (D * bytes) Z }.
Arguments mk_blkops {D}. Arguments d_open {D}. Arguments d_close {D}. Arguments d_strategy {D}.
(** The drivers that are linked in, by the address of their operations. *)
Class BlkDriver (D : Type) := driver : Z → option (block_operations D).
#[global] Hint Mode BlkDriver ! : typeclass_instances.

(** ** The structures *)

(** struct bcache *)
Record bcache := mk_bcache {
  b_status : Z; b_next : Z; b_devno : Z; b_blockno : Z; b_ioerror : Z; b_data : Z; b_datasz : Z }.
#[global] Instance eta_bcache : Settable bcache := λ x,
  mk_bcache (b_status x) (b_next x) (b_devno x) (b_blockno x) (b_ioerror x) (b_data x) (b_datasz x).

(** struct vfs; [ext2sb] the bytes of the super block, [ext2gdesc] the address of the group descriptors *)
Record vfs := mk_vfs {
  vfs_mpoint : Z; vfs_dev : Z; blk_size : Z; ext2sb : list Z; ext2gdesc : Z; vfs_ops : Z }.
#[global] Instance eta_vfs : Settable vfs := λ x,
  mk_vfs (vfs_mpoint x) (vfs_dev x) (blk_size x) (ext2sb x) (ext2gdesc x) (vfs_ops x).

(** struct vnode; [v_ino] the bytes of struct ext2inode *)
Record vnode := mk_vnode {
  v_flag : Z; v_count : Z; v_fsmounted : Z; vfsp : Z; v_inum : Z; v_rdev : Z; v_type : Z; v_next : Z;
  v_ops : Z; v_data : Z; v_ino : list Z }.
#[global] Instance eta_vnode : Settable vnode := λ x,
  mk_vnode (v_flag x) (v_count x) (v_fsmounted x) (vfsp x) (v_inum x) (v_rdev x) (v_type x) (v_next x)
    (v_ops x) (v_data x) (v_ino x).

(** struct vfssw; [vsw_init] the address of the constructor *)
Record vfssw := mk_vfssw { vsw_name : Z; vsw_init : Z; vswops : Z }.

(** The server.  The buckets of the hash tables that are not in the maps are NULL. *)
Record fsst (D : Type) := mk_fsst {
  fdev : D; fmem : bytes; heap : list Z;
  flinks : gmap (Z * Z) (linked_list (Z * Z));
  bufs : gmap Z bcache; bhash_table : gmap Z Z; maxbuffcache : Z; curbuffcache : Z;
  bdevs : list bdevsw; bdevices : gmap Z (list block_device);
  vnodes : gmap Z vnode; vnhash : gmap Z Z; vfss : gmap Z vfs; fs : list vfssw; fs_index : Z; rootvfs : Z }.
Arguments mk_fsst {D}.
Arguments fdev {D}. Arguments fmem {D}. Arguments heap {D}. Arguments flinks {D}. Arguments bufs {D}.
Arguments bhash_table {D}. Arguments maxbuffcache {D}. Arguments curbuffcache {D}. Arguments bdevs {D}. Arguments bdevices {D}.
Arguments vnodes {D}. Arguments vnhash {D}. Arguments vfss {D}. Arguments fs {D}. Arguments fs_index {D}.
Arguments rootvfs {D}.
#[global] Instance eta_fsst {D} : Settable (fsst D) := λ x,
  mk_fsst (fdev x) (fmem x) (heap x) (flinks x) (bufs x) (bhash_table x) (maxbuffcache x) (curbuffcache x)
    (bdevs x) (bdevices x) (vnodes x) (vnhash x) (vfss x) (fs x) (fs_index x) (rootvfs x).

(** The list heads and the link members; an object is in one kind of list. *)
Definition freelist (i : Z) : Z * Z := (-100 - i, 0).
Definition vnfreelist : Z * Z := (-200, 0).
Definition mnted : Z * Z := (-201, 0).
Definition lmember (p : Z * Z) : Z * Z := (p.1, p.2 + 1).
Definition item (p : Z) : Z * Z := (p, 0).

(** ** Accesses *)
Section Access.
Context {D : Type}.
Abbreviation FS := (M (fsst D)).

Definition on_mem {A} (f : B A) : FS A := λ s,
  match f (fmem s) with Ret a m => Ret a (s <| fmem := m |>) | Fault => Fault | Halt => Halt | Spin => Spin end.
Definition on_dev {A} (f : M (D * bytes) A) : FS A := λ s,
  match f (fdev s, fmem s) with
  | Ret a (d, m) => Ret a (s <| fdev := d |> <| fmem := m |>)
  | Fault => Fault | Halt => Halt | Spin => Spin
  end.
Definition on_links (f : gmap (Z * Z) (linked_list (Z * Z)) → option (gmap (Z * Z) (linked_list (Z * Z)))) : FS unit := λ s,
  match f (flinks s) with Some l => Ret tt (s <| flinks := l |>) | None => Fault end.
(** [list_dequeue] and [list_isempty] of a list of objects *)
Definition take_item (head : Z * Z) : FS Z := λ s,
  match list_dequeue lmember head (flinks s) with
  | Some (p, l) => if p.2 =? 0 then Ret p.1 (s <| flinks := l |>) else Fault
  | None => Fault
  end.
Definition malloc : FS Z := λ s,
  match heap s with [] => Ret 0 s | a :: h => Ret a (s <| heap := h |>) end.
Definition get_buf (p : Z) : FS bcache := s ← gets bufs; must (s !! p).
Definition upd_buf (p : Z) (f : bcache → bcache) : FS unit :=
  b ← get_buf p; modify (λ s, s <| bufs ::= <[p := f b]> |>).
Definition get_vnode (p : Z) : FS vnode := s ← gets vnodes; must (s !! p).
Definition upd_vnode (p : Z) (f : vnode → vnode) : FS unit :=
  v ← get_vnode p; modify (λ s, s <| vnodes ::= <[p := f v]> |>).
Definition get_vfs (p : Z) : FS vfs := s ← gets vfss; must (s !! p).
Definition upd_vfs (p : Z) (f : vfs → vfs) : FS unit :=
  v ← get_vfs p; modify (λ s, s <| vfss ::= <[p := f v]> |>).

Lemma on_mem_Ret {A} (f : B A) a m s : f (fmem s) = Ret a m → on_mem f s = Ret a (s <| fmem := m |>).
Proof. intros E. unfold on_mem. by rewrite E. Qed.
Lemma on_mem_rd {A} (f : B A) a s : f (fmem s) = Ret a (fmem s) → on_mem f s = Ret a s.
Proof. intros E. unfold on_mem. rewrite E. by destruct s. Qed.
Lemma get_buf_Ret p b s : bufs s !! p = Some b → get_buf p s = Ret b s.
Proof. intros E. unfold get_buf, mbind, M_bind, gets. by rewrite E. Qed.
Lemma upd_buf_Ret p f b s : bufs s !! p = Some b → upd_buf p f s = Ret tt (s <| bufs ::= <[p := f b]> |>).
Proof. intros E. unfold upd_buf. by rewrite (bind_Ret _ _ _ _ _ (get_buf_Ret _ _ _ E)). Qed.
Lemma get_vnode_Ret p v s : vnodes s !! p = Some v → get_vnode p s = Ret v s.
Proof. intros E. unfold get_vnode, mbind, M_bind, gets. by rewrite E. Qed.
Lemma upd_vnode_Ret p f v s : vnodes s !! p = Some v → upd_vnode p f s = Ret tt (s <| vnodes ::= <[p := f v]> |>).
Proof. intros E. unfold upd_vnode. by rewrite (bind_Ret _ _ _ _ _ (get_vnode_Ret _ _ _ E)). Qed.
Lemma get_vfs_Ret p v s : vfss s !! p = Some v → get_vfs p s = Ret v s.
Proof. intros E. unfold get_vfs, mbind, M_bind, gets. by rewrite E. Qed.
Lemma upd_vfs_Ret p f v s : vfss s !! p = Some v → upd_vfs p f s = Ret tt (s <| vfss ::= <[p := f v]> |>).
Proof. intros E. unfold upd_vfs. by rewrite (bind_Ret _ _ _ _ _ (get_vfs_Ret _ _ _ E)). Qed.
End Access.
Abbreviation FS D := (M (fsst D)).

(** Run the first call of a routine of the server by the equation a tactic proves. *)
Ltac fs_run tac := erewrite bind_Ret by tac.

(** The names of the numbers errno.h gives to the errors. *)
Definition EBADF : Z := 0x08.
Definition EEXIST : Z := 0x15.
Definition EINTR : Z := 0x1c.
Definition EINVAL : Z := 0x1d.
Definition ENAMETOOLONG : Z := 0x26.
Definition ENODEV : Z := 0x2c.
Definition ENOMEM : Z := 0x31.
Definition ENOTDIR : Z := 0x39.
Definition EPERM : Z := 0x41.
Definition EBADMAGIC : Z := 0x50.
