(* ===== verification/Frames.v ===== *)
(** * Frames handed out at boot

    Models [init_memory] and [get_next_frame] of arch/i386/memory.c.  Before the free
    list exists the kernel takes frames from the end of its image upwards and
    skips what the boot loader left in memory: the table of modules, the command
    line, and the images and names of the modules.

    The theorem: a frame that is handed out is the first one from the position on
    that overlaps none of these. *)

From S2P Require Import Prelude KState VmPage LibcString FsState.

(** ** State: the static variables, and memory *)
Record boot := mk_boot {
  b_ending : Z; b_avail : Z; b_next : Z; b_mod_start : Z; b_mod_end : Z; b_cmdstart : Z; b_cmdend : Z; b_mem : bytes }.
#[global] Instance eta_boot : Settable boot := λ x,
  mk_boot (b_ending x) (b_avail x) (b_next x) (b_mod_start x) (b_mod_end x) (b_cmdstart x) (b_cmdend x) (b_mem x).
Abbreviation F := (M boot).
Definition on_bmem {A} (f : B A) : F A := λ s,
  match f (b_mem s) with Ret a m => Ret a (s <| b_mem := m |>) | Fault => Fault | Halt => Halt | Spin => Spin end.

(** Members of struct multiboot_info and struct module *)
Definition mem_lower (minfo : Z) : F Z := on_bmem (ldw (minfo + 4)).
Definition mem_upper (minfo : Z) : F Z := on_bmem (ldw (minfo + 8)).
Definition cmdline (minfo : Z) : F Z := on_bmem (ldw (minfo + 16)).
Definition mods_count (minfo : Z) : F Z := on_bmem (ldw (minfo + 20)).
Definition mods_addr (minfo : Z) : F Z := on_bmem (ldw (minfo + 24)).
Definition MODULE_SIZEOF : Z := 16.
Definition module_start (m : Z) : F Z := on_bmem (ldw m).
Definition module_end (m : Z) : F Z := on_bmem (ldw (m + 4)).
Definition module_string (m : Z) : F Z := on_bmem (ldw (m + 8)).

(** ** Operations; the update of sysinfo is left out *)
Definition init_memory (minfo : Z) : F unit :=
  up ← mem_upper minfo; lo ← mem_lower minfo;
  modify (λ s, s <| b_ending := u32 (0x100000 + u32 (up * 1024)) |>
                 <| b_avail := u32 (u32 (up * 1024) + u32 (lo * 1024)) |>);;
  addr ← mods_addr minfo; n ← mods_count minfo;
  modify (λ s, s <| b_mod_start := addr |> <| b_mod_end := u32 (addr + n * MODULE_SIZEOF) |>);;
  cmd ← cmdline minfo;
  modify (λ s, s <| b_cmdstart := cmd |>);;
  len ← on_bmem (strlen cmd);
  modify (λ s, s <| b_cmdend := u32 (len + cmd) |>).

(** [(nextend > start) && (next_frame < stop)] *)
Definition overlaps (next start stop : Z) : bool := (start <? u32 (next + PAGE_SIZE)) && (next <? stop).
(** The loop over the modules from [i]: the end of the first that is in the way of [next]. *)
Fixpoint skip_modules (n : nat) (minfo next i : Z) : F (option Z) :=
  count ← mods_count minfo;
  if i <? count then
    match n with
    | O => spin
    | S n =>
        addr ← mods_addr minfo;
        let m := u32 (addr + i * MODULE_SIZEOF) in
        modcmd ← module_string m;
        len ← on_bmem (strlen modcmd);
        let modcmdend := u32 (len + modcmd) in
        if overlaps next modcmd modcmdend then mret (Some modcmdend)
        else
          ms ← module_start m; me ← module_end m;
          if overlaps next ms me then mret (Some me) else skip_modules n minfo next (i + 1)
    end
  else mret None.
(** A turn is a jump to [retry]. *)
Fixpoint get_next_frame (fuel : nat) (minfo : Z) : F Z :=
  match fuel with
  | O => spin
  | S fuel =>
      modify (λ s, s <| b_next ::= align_page |>);;
      b ← gets (λ s, s);
      let next := b_next b in
      let retry := λ p, modify (λ s, s <| b_next := p |>);; get_next_frame fuel minfo in
      if b_ending b <=? next then mret 0
      else if overlaps next (b_mod_start b) (b_mod_end b) then retry (b_mod_end b)
      else if overlaps next (b_cmdstart b) (b_cmdend b) then retry (b_cmdend b)
      else
        count ← mods_count minfo;
        r ← skip_modules (Z.to_nat count) minfo next 0;
        match r with
        | Some p => retry p
        | None =>
            modify (λ s, s <| b_next ::= λ n, u32 (n + PAGE_SIZE) |> <| b_avail ::= λ n, u32 (n - PAGE_SIZE) |>);;
            mret next
        end
  end.
Definition get_avail_mem : F Z := gets b_avail.

(** ** What is skipped *)
Record module := mk_module { md_start : Z; md_end : Z; md_string : Z; md_len : Z }.
(** The multiboot information in memory describes the modules [mods]. *)
Record described (minfo : Z) (mods : list module) (addr : Z) (m : bytes) : Prop := {
  ds_count : ldw (minfo + 20) m = Ret (Z.of_nat (length mods)) m;
  ds_addr : ldw (minfo + 24) m = Ret addr m;
  ds_module : ∀ (i : nat) md, mods !! i = Some md → let p := u32 (addr + Z.of_nat i * MODULE_SIZEOF) in
    ldw p m = Ret (md_start md) m ∧ ldw (p + 4) m = Ret (md_end md) m ∧ ldw (p + 8) m = Ret (md_string md) m ∧
    strlen (md_string md) m = Ret (md_len md) m }.
(** The regions in the order of the tests. *)
Definition module_regions (md : module) : list (Z * Z) :=
  [(md_string md, u32 (md_len md + md_string md)); (md_start md, md_end md)].
Definition regions (s : boot) (mods : list module) : list (Z * Z) :=
  [(b_mod_start s, b_mod_end s); (b_cmdstart s, b_cmdend s)] ++ mjoin (module_regions <$> mods).
Definition hit (next : Z) (r : Z * Z) : bool := overlaps next r.1 r.2.
Fixpoint first_hit (next : Z) (rs : list (Z * Z)) : option Z :=
  match rs with [] => None | r :: rs => if hit next r then Some r.2 else first_hit next rs end.

Section Frames.
Variables (minfo addr : Z) (mods : list module).

Lemma bmem_Ret {A} (f : B A) s a : f (b_mem s) = Ret a (b_mem s) → on_bmem f s = Ret a s.
Proof. intros E. unfold on_bmem. rewrite E. by destruct s. Qed.
Lemma skip_modules_spec next s : described minfo mods addr (b_mem s) → ∀ l k n,
  mods = k ++ l → (length l <= n)%nat →
  skip_modules n minfo next (Z.of_nat (length k)) s = Ret (first_hit next (mjoin (module_regions <$> l))) s.
Proof.
  intros HD. induction l as [|md l IH]; intros k n Hm Hn.
  - rewrite app_nil_r in Hm. subst k. assert (HE : ∀ b : F (option Z), (count ← mods_count minfo; if Z.of_nat (length mods) <? count then b else mret None) s = Ret None s).
    { intros b. rewrite (bind_Ret _ _ _ _ _ (bmem_Ret _ _ _ (ds_count _ _ _ _ HD))). by rewrite Z.ltb_irrefl. }
    by destruct n; apply HE.
  - destruct n as [|n]; [cbn in Hn; lia|]. cbn [skip_modules].
    assert (Hk : mods !! length k = Some md) by (rewrite Hm; by apply list_lookup_middle).
    destruct (ds_module _ _ _ _ HD _ _ Hk) as (E1&E2&E3&E4).
    rewrite (bind_Ret _ _ _ _ _ (bmem_Ret _ _ _ (ds_count _ _ _ _ HD))). rewrite (proj2 (Z.ltb_lt _ _)).
    2:{ rewrite Hm, length_app. cbn [length]. lia. }
    rewrite (bind_Ret _ _ _ _ _ (bmem_Ret _ _ _ (ds_addr _ _ _ _ HD))). cbv zeta.
    rewrite (bind_Ret _ _ _ _ _ (bmem_Ret _ _ _ E3)), (bind_Ret _ _ _ _ _ (bmem_Ret _ _ _ E4)).
    cbn [fmap list_fmap mjoin list_join module_regions app first_hit]. unfold hit. cbn [fst snd]. destruct (overlaps next (md_string md) _); [done|].
    rewrite (bind_Ret _ _ _ _ _ (bmem_Ret _ _ _ E1)), (bind_Ret _ _ _ _ _ (bmem_Ret _ _ _ E2)).
    destruct (overlaps next (md_start md) _); [done|].
    replace (Z.of_nat (length k) + 1) with (Z.of_nat (length (k ++ [md]))) by (rewrite length_app; cbn; lia).
    apply IH; [by rewrite <- app_assoc|cbn in Hn; lia].
Qed.

(** One turn: the first region in the way is skipped. *)
Lemma frame_turn fuel s :
  described minfo mods addr (b_mem s) →
  let next := align_page (b_next s) in
  get_next_frame (S fuel) minfo s =
    if b_ending s <=? next then Ret 0 (s <| b_next := next |>)
    else match first_hit next (regions s mods) with
         | Some p => get_next_frame fuel minfo (s <| b_next := p |>)
         | None => Ret next (s <| b_next := u32 (next + PAGE_SIZE) |> <| b_avail ::= λ n, u32 (n - PAGE_SIZE) |>)
         end.
Proof.
  intros HD next. cbn [get_next_frame]. rewrite (bind_Ret _ _ _ _ _ (modify_Ret _ _)), (bind_Ret _ _ _ _ _ (gets_Ret _ _)).
  set (s1 := s <| b_next ::= align_page |>). change (b_next s1) with next. change (b_ending s1) with (b_ending s).
  destruct (b_ending s <=? next); [done|]. unfold regions. cbn [app first_hit hit fst snd]. unfold hit. cbn [fst snd].
  change (b_mod_start s1) with (b_mod_start s). change (b_mod_end s1) with (b_mod_end s).
  destruct (overlaps next (b_mod_start s) (b_mod_end s)); [done|].
  change (b_cmdstart s1) with (b_cmdstart s). change (b_cmdend s1) with (b_cmdend s).
  destruct (overlaps next (b_cmdstart s) (b_cmdend s)); [done|].
  assert (HD1 : described minfo mods addr (b_mem s1)) by exact HD.
  rewrite (bind_Ret _ _ _ _ _ (bmem_Ret _ _ _ (ds_count _ _ _ _ HD1))), Nat2Z.id.
  rewrite (bind_Ret _ _ _ _ _ (skip_modules_spec next s1 HD1 mods [] (length mods) eq_refl (le_n _))).
  by destruct (first_hit next _).
Qed.

Definition FRAME_LIMIT : Z := 2 ^ 32 - PAGE_SIZE.
Lemma align_page_up x : 0 <= x <= FRAME_LIMIT →
  align_page x mod PAGE_SIZE = 0 ∧ x <= align_page x <= FRAME_LIMIT ∧ ∀ g, g mod PAGE_SIZE = 0 → x <= g → align_page x <= g.
Proof.
  unfold FRAME_LIMIT. intros Hx. assert (E : align_page x = (x + (PAGE_SIZE - 1)) / PAGE_SIZE * PAGE_SIZE).
  { unfold align_page. change (Z.land ?a (not32 (PAGE_SIZE - 1))) with (page_base a). rewrite u32_id by (unfold PAGE_SIZE in *; lia).
    apply page_base_div. unfold PAGE_SIZE in *. lia. }
  rewrite E. unfold PAGE_SIZE in *. split; [apply Z.mod_mul; done|]. split; [Z.div_mod_to_equations; lia|].
  intros g Hg Hge. Z.div_mod_to_equations. lia.
Qed.
(** The frame at [f] and the region share a byte. *)
Definition in_the_way (f : Z) (r : Z * Z) : Prop := r.1 < f + PAGE_SIZE ∧ f < r.2.
Lemma hit_spec f r : 0 <= f < FRAME_LIMIT → hit f r = true ↔ in_the_way f r.
Proof.
  intros Hf. unfold hit, overlaps, in_the_way, FRAME_LIMIT in *. rewrite u32_id by (unfold PAGE_SIZE in *; lia).
  by rewrite andb_true_iff, !Z.ltb_lt.
Qed.
Lemma first_hit_Some f rs p : first_hit f rs = Some p → ∃ r, r ∈ rs ∧ hit f r = true ∧ p = r.2.
Proof.
  induction rs as [|r rs IH]; cbn; [done|]. destruct (hit f r) eqn:E.
  - intros [= <-]. exists r. split_and!; [by left|done|done].
  - intros (q&Hq&?&?)%IH. exists q. split_and!; [by right|done|done].
Qed.
Lemma first_hit_None f rs : first_hit f rs = None → ∀ r, r ∈ rs → hit f r = false.
Proof.
  induction rs as [|r rs IH]; cbn; [by intros _ ? ?%elem_of_nil|]. destruct (hit f r) eqn:E; [done|].
  intros HN q [->|Hq]%elem_of_cons; [done|by apply IH].
Qed.
(** The regions that end after [x]. *)
Definition ahead (x : Z) (rs : list (Z * Z)) : list (Z * Z) := filter (λ r, x < r.2) rs.
Lemma ahead_le x y rs : x <= y → (length (ahead y rs) <= length (ahead x rs))%nat.
Proof.
  intros Hxy. induction rs as [|r rs IH]; [done|]. unfold ahead in *. rewrite !filter_cons. repeat case_decide; cbn; lia.
Qed.
Lemma ahead_lt x rs r : r ∈ rs → x < r.2 → (length (ahead r.2 rs) < length (ahead x rs))%nat.
Proof.
  intros Hr Hx. induction rs as [|q rs IH]; [by apply elem_of_nil in Hr|]. pose proof (ahead_le x r.2 rs ltac:(lia)) as HL.
  unfold ahead in *. rewrite !filter_cons. apply elem_of_cons in Hr as [<-|Hr].
  - rewrite decide_False, decide_True by lia. cbn. lia.
  - specialize (IH Hr). repeat case_decide; cbn; lia.
Qed.

(** All frames from [x] on up to [y] are in the way. *)
Definition taken (rs : list (Z * Z)) (x y : Z) : Prop :=
  ∀ g, g mod PAGE_SIZE = 0 → x <= g < y → ∃ r, r ∈ rs ∧ in_the_way g r.
Record frame_given (s : boot) (rs : list (Z * Z)) (f : Z) (s' : boot) : Prop := {
  fg_range : b_next s <= f < b_ending s;
  fg_aligned : f mod PAGE_SIZE = 0;
  fg_free : ∀ r, r ∈ rs → ¬ in_the_way f r;
  fg_first : taken rs (b_next s) f;
  fg_next : b_next s' = f + PAGE_SIZE;
  fg_avail : b_avail s' = u32 (b_avail s - PAGE_SIZE) }.

(** C3. [get_next_frame] terminates.  It hands out the first frame, from the end of the last one on, that shares
    no byte with the kernel's modules, their names, their table or the command line, and counts it; it
    answers 0 only when there is no such frame left below the end of memory.  A turn per region is enough. *)
Theorem next_frame_first_free fuel s :
  described minfo mods addr (b_mem s) → 0 <= b_next s <= FRAME_LIMIT → b_ending s <= FRAME_LIMIT →
  (∀ r, r ∈ regions s mods → r.2 <= FRAME_LIMIT) → (length (regions s mods) < fuel)%nat →
  ∃ f s', get_next_frame fuel minfo s = Ret f s' ∧ b_mem s' = b_mem s ∧ b_ending s' = b_ending s ∧ regions s' mods = regions s mods ∧
    (frame_given s (regions s mods) f s' ∨ f = 0 ∧ b_avail s' = b_avail s ∧ taken (regions s mods) (b_next s) (b_ending s)).
Proof.
  intros HD Hn He Hr Hf. assert (Hm : (length (ahead (b_next s) (regions s mods)) < fuel)%nat).
  { eapply Nat.le_lt_trans; [apply length_filter|done]. }
  clear Hf. revert s HD Hn He Hr Hm. induction fuel as [|fuel IH]; intros s HD Hn He Hr Hm; [lia|].
  rewrite frame_turn by done. cbv zeta. set (next := align_page (b_next s)).
  destruct (align_page_up (b_next s) Hn) as (Ha&Hx&Hup). fold next in Ha, Hx, Hup.
  destruct (Z.leb_spec (b_ending s) next) as [Hend|Hend].
  { eexists _, _. split_and!; [done..|]. right. split_and!; [done|done|]. intros g Hg Hb. specialize (Hup g Hg ltac:(lia)). lia. }
  destruct (first_hit next (regions s mods)) as [p|] eqn:EH.
  - apply first_hit_Some in EH as (r&Hin&Hhit&->). apply hit_spec in Hhit as [Hw1 Hw2]; [|lia].
    pose proof (ahead_lt (b_next s) (regions s mods) r Hin ltac:(lia)) as Hlt.
    destruct (IH (s <| b_next := r.2 |>)) as (f&s'&E&Hmem&Hen&Hrs&HR); [done|cbn; split; [lia|by apply Hr]|done|done|change (length (ahead r.2 (regions s mods)) < fuel)%nat; lia|].
    change (regions (s <| b_next := r.2 |>) mods) with (regions s mods) in *.
    assert (HT : ∀ y, taken (regions s mods) r.2 y → taken (regions s mods) (b_next s) y).
    { intros y HT g Hg Hb. destruct (decide (g < r.2)); [|apply HT; [done|lia]].
      specialize (Hup g Hg ltac:(lia)). exists r. split; [done|]. split; lia. }
    exists f, s'. split_and!; [done..|]. destruct HR as [[H1 H2 H3 H4 H5 H6]|(H1&H2&H3)].
    + left. split; [cbn in H1; lia|done|done|by apply HT|done|done].
    + right. split_and!; [done|done|by apply HT].
  - pose proof (first_hit_None _ _ EH) as HN. eexists _, _. split_and!; [done..|]. left. split; cbn.
    + lia.
    + done.
    + intros r Hin Hw. apply hit_spec in Hw; [|lia]. by rewrite HN in Hw.
    + intros g Hg Hb. specialize (Hup g Hg ltac:(lia)). lia.
    + apply u32_id. unfold FRAME_LIMIT, PAGE_SIZE in *. lia.
    + done.
Qed.
End Frames.

(** ** Instance of the theorem *)
(** One module at 0x205000 with the name "m"; the command line is empty.  The table of modules is at
    0x201000, where the position is. *)
Definition demo_words (p : Z) (l : list Z) (m : bytes) : bytes := put p (mjoin (of_le32 <$> l)) m.
Definition demo_bmem : bytes :=
  demo_words 0x100 [0; 0; 0; 0; 0x180; 1; 0x201000] (demo_words 0x201000 [0x205000; 0x206000; 0x190; 0]
    (put 0x180 [0] (put 0x190 [109; 0] ∅))).
Definition demo_boot : boot := mk_boot 0x400000 0x200000 0x200800 0x201000 0x201010 0x180 0x180 demo_bmem.
Definition demo_module : module := mk_module 0x205000 0x206000 0x190 1.
Lemma demo_described : described 0x100 [demo_module] 0x201000 demo_bmem.
Proof.
  split.
  - vm_compute. reflexivity.
  - vm_compute. reflexivity.
  - intros [|i] md; [|by destruct i]. intros [= <-]. cbn [demo_module md_start md_end md_string md_len]. split_and!; vm_compute; reflexivity.
Qed.
(** The first frame is the one behind the table of modules. *)
Lemma next_frame_first_free_witness :
  ∃ s', get_next_frame 5 0x100 demo_boot = Ret 0x202000 s' ∧ b_next s' = 0x203000 ∧ taken (regions demo_boot [demo_module]) 0x200800 0x202000.
Proof.
  destruct (next_frame_first_free 0x100 0x201000 [demo_module] 5 demo_boot demo_described) as (f&s'&E&_&_&_&HR).
  - vm_compute. split; discriminate.
  - vm_compute. discriminate.
  - apply (proj1 (Forall_forall (λ r, r.2 <= FRAME_LIMIT) _)). repeat constructor; vm_compute; discriminate.
  - cbn. lia.
  - assert (Ef : f = 0x202000).
    { apply (f_equal (λ o, match o with Ret a _ => a | _ => 0 end)) in E. cbn [id] in E. rewrite <- E. vm_compute. reflexivity. }
    subst f. exists s'. split; [exact E|]. destruct HR as [HG|(HZ&_)]; [|discriminate HZ]. split; [exact (fg_next _ _ _ _ HG)|exact (fg_first _ _ _ _ HG)].
Defined.
