(* ===== verification/SigFrame.v ===== *)
(** * Signal frames

    Models microkernel/arch/i386/signal.c with struct stack_regs (asm/context.h), struct signal_context
    (asm/signal.h) and struct ucontext, the copies between kernel and user memory of asm/string.h, and
    [handle_signal] of kernel/signal.c.  The state is that of the kernel and the memory of the running
    process; the registers of the interrupted program are an argument and, where the routine
    changes them, an answer.  A user address that is not there faults.

    Left out: [syscall_sig_mask], which reads the masks through user pointers in the kernel's
    segment, and [syscall_signal_wait] with [signal_wait].

    The theorem: the frame of a signal makes the handler return through the code in
    the frame, and the system call made there gives the program back its registers and its mask. *)

From S2P Require Import Prelude LibcString FsState DList Bits Hash KState Sched Thread Signal Process Irq.

Record ustate := mk_ustate { u_kern : kstate; u_mem : bytes }.
#[global] Instance eta_ustate : Settable ustate := λ x, mk_ustate (u_kern x) (u_mem x).
Notation U := (M ustate).
Definition in_kernel {A} (f : K A) : U A := λ s,
  match f (u_kern s) with Ret a k => Ret a (s <| u_kern := k |>) | Fault => Fault | Halt => Halt | Spin => Spin end.
Definition in_user {A} (f : B A) : U A := λ s,
  match f (u_mem s) with Ret a m => Ret a (s <| u_mem := m |>) | Fault => Fault | Halt => Halt | Spin => Spin end.

(** ** Registers; a segment register is stored with the half word above it *)
Record stack_regs := mk_regs {
  r_edi : Z; r_esi : Z; r_ebp : Z; r_esp : Z; r_ebx : Z; r_edx : Z; r_ecx : Z; r_eax : Z;
  r_es : Z; r_ds : Z; r_error : Z; user_eip : Z; user_cs : Z; r_eflags : Z; user_esp : Z; user_ss : Z }.
#[global] Instance eta_regs : Settable stack_regs := λ x,
  mk_regs (r_edi x) (r_esi x) (r_ebp x) (r_esp x) (r_ebx x) (r_edx x) (r_ecx x) (r_eax x)
    (r_es x) (r_ds x) (r_error x) (user_eip x) (user_cs x) (r_eflags x) (user_esp x) (user_ss x).
Definition regs_words (r : stack_regs) : list Z :=
  [r_edi r; r_esi r; r_ebp r; r_esp r; r_ebx r; r_edx r; r_ecx r; r_eax r;
   r_es r; r_ds r; r_error r; user_eip r; user_cs r; r_eflags r; user_esp r; user_ss r].
Definition REGS_SIZEOF : nat := 64.
Definition words_bytes (l : list Z) : list Z := mjoin (of_le32 <$> l).
Definition regs_of (l : list Z) : stack_regs :=
  mk_regs (le32 l 0) (le32 l 4) (le32 l 8) (le32 l 12) (le32 l 16) (le32 l 20) (le32 l 24) (le32 l 28)
    (le32 l 32) (le32 l 36) (le32 l 40) (le32 l 44) (le32 l 48) (le32 l 52) (le32 l 56) (le32 l 60).

(** ** Copies between the kernel and the process *)
Definition put_user_word (data addr : Z) : U unit := in_user (store_list addr (of_le16 data)).
Definition put_user_long (data addr : Z) : U unit := in_user (store_list addr (of_le32 data)).
Definition get_user_long (addr : Z) : U Z := in_user (l ← ld_list 4 addr; mret (le32 l 0)).
Definition ker_to_usr (to : Z) (from : list Z) : U unit := in_user (store_list to from).
Definition usr_to_ker (from : Z) (n : nat) : U (list Z) := in_user (ld_list n from).

(** ** struct signal_context: the offsets of its members *)
Definition JMPADDR : Z := 0.
Definition SIGNO : Z := 4.
Definition SINFO : Z := 8.
Definition CONTEXT : Z := 12.
Definition INFO : Z := 16.
Definition UCONTEXT : Z := 44.
Definition UC_SIGMASK : Z := 48.
Definition UC_MCONTEXT : Z := 64.
Definition SYSCALL_RETURN : Z := 128.
Definition SIGCONTEXT_SIZEOF : Z := 144.
Definition SA_ONSTACK : Z := 4.
Definition SA_RESETHAND : Z := 8.
Definition SA_SIGINFO : Z := 0x10.
Definition ON_SIGHAND : Z := 4.
Definition ON_IRQHAND : Z := 2.
Definition WSIGNAL : Z := 0x00FF00.
Definition WIFSIG : Z := 0x020000.
Definition SIGCONT : Z := 5.
Definition SIGTSTP : Z := 19.
Definition SIGTTIN : Z := 20.
Definition SIGTTOU : Z := 21.

Definition siginfo_bytes (i : siginfo) : list Z :=
  words_bytes [si_signo i; si_code i; si_errno i; si_pid i; si_addr i; si_status i; si_value i].
Definition set_ss_flags (p flags : Z) : K unit :=
  upd_proc p (λ x, x <| p_ss ::= λ s, mk_stack (ss_sp s) (ss_size s) flags |>).

(** The information is passed when the flag is in the mask of the action: the test is of [sa_mask]. *)
Definition signal_frame (thr : Z) (sq : sigqueue) (i : Z) (regs : stack_regs) : U stack_regs :=
  th ← in_kernel (get_thread thr);
  let p := proc th in
  act ← in_kernel (get_action p i);
  pr ← in_kernel (get_proc p);
  let usedefault := u32 (user_esp regs - SIGCONTEXT_SIZEOF) in
  sigframe ← (if has (act_flags act) SA_ONSTACK then
                if ss_flags (p_ss pr) =? SS_DISABLE then mret usedefault
                else in_kernel (set_ss_flags p SS_ONSTACK);; mret (u32 (ss_sp (p_ss pr) + ss_size (p_ss pr) - SIGCONTEXT_SIZEOF))
              else mret usedefault);
  put_user_long (u32 (sigframe + SYSCALL_RETURN)) (u32 (sigframe + JMPADDR));;
  put_user_word 0xb890 (u32 (sigframe + SYSCALL_RETURN));;
  put_user_long 0 (u32 (sigframe + SYSCALL_RETURN + 2));;
  put_user_word 0x30cd (u32 (sigframe + SYSCALL_RETURN + 6));;
  ker_to_usr (u32 (sigframe + UC_MCONTEXT)) (words_bytes (regs_words regs));;
  put_user_long (sq_signal sq) (u32 (sigframe + SIGNO));;
  put_user_long (sa_mask th) (u32 (sigframe + UC_SIGMASK));;
  (if has (act_mask act) SA_SIGINFO then
     put_user_long (u32 (sigframe + INFO)) (u32 (sigframe + SINFO));;
     put_user_long (u32 (sigframe + UCONTEXT)) (u32 (sigframe + CONTEXT));;
     ker_to_usr (u32 (sigframe + INFO)) (siginfo_bytes (sinfo sq))
   else mret tt);;
  in_kernel (upd_thread thr (λ th, th <| sa_mask ::= λ m, addmask m (act_mask act) |>));;
  (if has (act_flags act) SA_RESETHAND then
     in_kernel (upd_proc p (λ pr, pr <| action ::=
       <[Z.to_nat i := mk_sigaction SIG_DFL (Z.land (act_mask act) (not32 SA_SIGINFO)) (act_flags act)]> |>))
   else mret tt);;
  mret (regs <| user_eip := act_handler act |> <| user_esp := sigframe |>).

(** The default action of these signals is none, or not implemented. *)
Definition ignored_by_default (sig : Z) : bool :=
  bool_decide (sig ∈ [SIGCHLD; SIGCONT; SIGTSTP; SIGTTIN; SIGTTOU; SIGSTOP]).
Definition handle_signal (tm_junk : sigqueue) (thr : Z) (regs : stack_regs) : U stack_regs :=
  let nosig (regs : stack_regs) : U stack_regs :=
    b ← in_kernel (is_pending thr);
    (if (b : bool) then mret tt else in_kernel (upd_thread thr (λ th, th <| sigpending := 0 |>)));;
    mret regs in
  th ← in_kernel (get_thread thr);
  let p := proc th in
  q ← in_kernel (dequeue_signal thr);
  if q =? 0 then nosig regs
  else
    sg ← in_kernel (deref sigqs q);
    act ← in_kernel (get_action p (sq_signal sg - 1));
    regs ← (if act_handler act =? SIG_IGN then mret regs
            else if act_handler act =? SIG_DFL then
              if ignored_by_default (sq_signal sg) then mret regs
              else
                in_kernel (upd_proc p (λ x, x <| exit_status ::= λ e,
                  Z.lor (Z.lor e WIFSIG) (Z.land (Z.shiftl (sq_signal sg) 8) WSIGNAL) |>);;
                  upd_thread thr (λ th, th <| states := PROCESS_EXITING |>);;
                  syscall_exit tm_junk 1);;
                mret regs
            else
              in_kernel (upd_proc p (λ x, x <| p_status := ON_SIGHAND |>));;
              signal_frame thr sg (sq_signal sg - 1) regs);
    in_kernel (deallocate_sigqueue q);;
    nosig regs.

Definition check_signal (tm_junk : sigqueue) (regs : stack_regs) : U stack_regs :=
  thr ← gets (λ s, current (u_kern s));
  th ← in_kernel (get_thread thr);
  (if sched_flag th =? 0 then mret tt else in_kernel schedule);;
  th ← in_kernel (get_thread thr);
  if has (irqflag (ctx th)) IRQ_REQUEST then mret regs
  else if sigpending th =? 0 then mret regs else handle_signal tm_junk thr regs.

(** The answer, and the registers that are restored before the answer is decided. *)
Definition syscall_signal_return (regs : stack_regs) : U (Z * stack_regs) :=
  thr ← gets (λ s, current (u_kern s));
  th ← in_kernel (get_thread thr);
  let p := proc th in
  let sigframe := u32 (user_esp regs - 4) in
  l ← usr_to_ker (u32 (sigframe + UC_MCONTEXT)) REGS_SIZEOF;
  let regs := regs_of l in
  if has (irqflag (ctx th)) IRQ_REQUEST then
    in_kernel (upd_thread thr (λ th, th <| ctx ::= λ c, c <| irqflag ::= λ f,
      Z.land (Z.land f (not32 ON_IRQHAND)) (not32 IRQ_REQUEST) |> |>));;
    mret (0, regs)
  else
    pr ← in_kernel (get_proc p);
    if negb (p_status pr =? ON_SIGHAND) then mret (-1, regs)
    else
      m ← get_user_long (u32 (sigframe + UC_SIGMASK));
      in_kernel (upd_thread thr (λ th, th <| sa_mask := m |>));;
      in_kernel (set_ss_flags p 0);;
      in_kernel (upd_proc p (λ x, x <| p_status := PROCESS_ACTIVE |>));;
      mret (0, regs).

(** ** The system calls; [junk] is the contents of local variables *)
Definition SIGACTION_SIZEOF : nat := 12.
Definition sigaction_of (l : list Z) : sigaction_t := mk_sigaction (le32 l 8) (le32 l 0) (le32 l 4).
Definition sigaction_bytes (a : sigaction_t) : list Z := words_bytes [act_mask a; act_flags a; act_handler a].
(** [act] is passed whether or not there was one, and [oact] is copied back after an error too. *)
Definition syscall_signal_action (junk ojunk : sigaction_t) (regs : stack_regs) : U Z :=
  act ← (if r_ecx regs =? 0 then mret junk else l ← usr_to_ker (r_ecx regs) SIGACTION_SIZEOF; mret (sigaction_of l));
  r ← in_kernel (sigaction (s32 (r_ebx regs)) (Some act));
  (if r_edx regs =? 0 then mret tt else ker_to_usr (r_edx regs) (sigaction_bytes (default ojunk r.2)));;
  mret r.1.

Definition TO_THREAD : Z := 1.
Definition SIG_REAL : Z := 4.
Definition syscall_kill (junk : siginfo) (sq_junk : sigqueue) (regs : stack_regs) : U Z :=
  if MAX_SIGNAL <? r_ecx regs then mret (- EINVAL)
  else
    pinfo ← (if has (r_edx regs) SIG_REAL && negb (r_esi regs =? 0) then
               w ← get_user_long (r_esi regs);
               mret (Some (mk_siginfo (si_signo junk) (si_code junk) (si_errno junk) (si_pid junk) (si_addr junk) (si_status junk) w))
             else mret None);
    if has (r_edx regs) TO_THREAD then
      thr ← in_kernel (find_by_tid (r_ebx regs));
      if thr =? 0 then mret (- ESRCH)
      else in_kernel (send_signal sq_junk thr (r_ecx regs) None);; mret 0
    else if 0 <? r_ebx regs then
      p ← in_kernel (find_by_pid (r_ebx regs));
      if p =? 0 then mret (- ESRCH)
      else in_kernel (send_signal_any sq_junk p (r_ecx regs) pinfo);; mret 0
    else mret 0.

Definition syscall_sigsuspend (regs : stack_regs) : U Z := in_kernel (sigsuspend (r_ebx regs)).

Definition STACK_SIZEOF : nat := 12.
Definition stack_of (l : list Z) : stack_t := mk_stack (le32 l 0) (le32 l 4) (le32 l 8).
Definition stack_bytes (s : stack_t) : list Z := words_bytes [ss_sp s; ss_size s; ss_flags s].
Definition syscall_signal_stack (regs : stack_regs) : U Z :=
  pss ← (if r_ebx regs =? 0 then mret None else l ← usr_to_ker (r_ebx regs) STACK_SIZEOF; mret (Some (stack_of l)));
  r ← in_kernel (sigaltstack pss);
  (if r_ecx regs =? 0 then mret tt else ker_to_usr (r_ecx regs) (stack_bytes r.2));;
  mret r.1.

(** ** Registers and words in memory *)
Definition word (w : Z) : Prop := 0 <= w < 2 ^ 32.
Lemma le32_of w : word w → w mod 2 ^ 8 + 2 ^ 8 * (w / 2 ^ 8 mod 2 ^ 8) + 2 ^ 16 * (w / 2 ^ 16 mod 2 ^ 8) + 2 ^ 24 * (w / 2 ^ 24 mod 2 ^ 8) = w.
Proof. unfold word. intros Hw. Z.div_mod_to_equations. lia. Qed.
Lemma le32_words l : ∀ k w, l !! k = Some w → word w → le32 (words_bytes l) (4 * k) = w.
Proof.
  induction l as [|x l IH]; intros k w; [done|]. destruct k as [|k]; cbn [lookup list_lookup].
  - intros [= ->] Hw. exact (le32_of w Hw).
  - intros Hk Hw. rewrite <- (IH k w Hk Hw). replace (4 * S k)%nat with (4 + 4 * k)%nat by lia. reflexivity.
Qed.
Lemma regs_of_words r : Forall word (regs_words r) → regs_of (words_bytes (regs_words r)) = r.
Proof.
  intros HW. assert (HL : ∀ k w, regs_words r !! k = Some w → le32 (words_bytes (regs_words r)) (4 * k) = w).
  { intros k w Hk. apply le32_words; [done|]. by apply (Forall_lookup_1 _ _ _ _ HW Hk). }
  destruct r. unfold regs_of. f_equal;
    [apply (HL 0%nat)|apply (HL 1%nat)|apply (HL 2%nat)|apply (HL 3%nat)|apply (HL 4%nat)|apply (HL 5%nat)|apply (HL 6%nat)|apply (HL 7%nat)|
     apply (HL 8%nat)|apply (HL 9%nat)|apply (HL 10%nat)|apply (HL 11%nat)|apply (HL 12%nat)|apply (HL 13%nat)|apply (HL 14%nat)|apply (HL 15%nat)]; done.
Qed.
Lemma of_le32_bytes w : all_bytes (of_le32 w).
Proof. unfold all_bytes, of_le32. repeat constructor; Z.div_mod_to_equations; lia. Qed.
Lemma of_le16_bytes w : all_bytes (of_le16 w).
Proof. unfold all_bytes, of_le16. repeat constructor; Z.div_mod_to_equations; lia. Qed.
Lemma words_bytes_all l : all_bytes (words_bytes l).
Proof.
  unfold words_bytes. induction l as [|w l IH]; [constructor|]. change (all_bytes (of_le32 w ++ mjoin (of_le32 <$> l))).
  apply Forall_app. split; [apply of_le32_bytes|done].
Qed.

Lemma in_kernel_Ret {A} (f : K A) a k s : f (u_kern s) = Ret a k → in_kernel f s = Ret a (s <| u_kern := k |>).
Proof. intros E. unfold in_kernel. by rewrite E. Qed.
(** A routine that only reads. *)
Lemma in_kernel_read {A} (f : K A) a s : f (u_kern s) = Ret a (u_kern s) → in_kernel f s = Ret a s.
Proof. intros E. unfold in_kernel. rewrite E. by destruct s. Qed.
Lemma in_user_read {A} (f : B A) a s : f (u_mem s) = Ret a (u_mem s) → in_user f s = Ret a s.
Proof. intros E. unfold in_user. rewrite E. by destruct s. Qed.

(** ** The frame *)
Definition in_frame (m : bytes) (fr : Z) : Prop := 0 <= fr ∧ fr + SIGCONTEXT_SIZEOF <= 2 ^ 32 ∧ mapped m fr SIGCONTEXT_SIZEOF.
Lemma frame_addr m fr o : in_frame m fr → 0 <= o < SIGCONTEXT_SIZEOF → u32 (fr + o) = fr + o.
Proof. unfold SIGCONTEXT_SIZEOF. intros (H1&H2&_) Ho. unfold SIGCONTEXT_SIZEOF in *. apply u32_id. lia. Qed.
Lemma in_frame_put m fr p l : in_frame m fr → in_frame (put p l m) fr.
Proof. intros (H1&H2&H3). split; [done|]. split; [done|]. by apply put_mapped. Qed.
(** A store of bytes in the frame. *)
Lemma frame_store1 k m fr o l : in_frame m fr → all_bytes l → 0 <= o < SIGCONTEXT_SIZEOF → o + length l <= SIGCONTEXT_SIZEOF →
  in_user (store_list (fr + o) l) (mk_ustate k m) = Ret tt (mk_ustate k (put (fr + o) l m)).
Proof.
  intros HF HL Ho Hlen. unfold in_user. cbn [u_mem]. rewrite store_list_put; [done|done|].
  intros i Hi. replace (fr + o + i) with (fr + (o + i)) by lia. apply HF. lia.
Qed.
Lemma frame_store {A} k m fr o l (f : unit → U A) :
  in_frame m fr → all_bytes l → 0 <= o < SIGCONTEXT_SIZEOF → o + length l <= SIGCONTEXT_SIZEOF →
  (in_user (store_list (fr + o) l) ≫= f) (mk_ustate k m) = f tt (mk_ustate k (put (fr + o) l m)).
Proof. intros. by apply bind_Ret, frame_store1. Qed.
Lemma frame_load s fr o l : in_frame (u_mem s) fr → 0 <= o < SIGCONTEXT_SIZEOF → at_mem (u_mem s) (fr + o) l →
  in_user (ld_list (length l) (u32 (fr + o))) s = Ret l s.
Proof. intros HF Ho HA. rewrite (frame_addr (u_mem s)) by done. apply in_user_read. by apply ld_list_spec. Qed.

Ltac offsets := unfold JMPADDR, SIGNO, SINFO, CONTEXT, INFO, UCONTEXT, UC_SIGMASK, UC_MCONTEXT, SYSCALL_RETURN, SIGCONTEXT_SIZEOF in *.
Ltac frame_put HF := first [rewrite frame_store|rewrite frame_store1];
  [cbv beta|repeat apply in_frame_put; exact HF|first [apply of_le32_bytes|apply of_le16_bytes|apply words_bytes_all]|offsets; lia|cbn; offsets; lia].
(** The frame's stores; the information is stored with [info]. *)
Definition frame_mem (fr : Z) (regs : stack_regs) (sq : sigqueue) (mask : Z) (info : bool) (m : bytes) : bytes :=
  let m := put (fr + JMPADDR) (of_le32 (fr + SYSCALL_RETURN)) m in
  let m := put (fr + SYSCALL_RETURN) (of_le16 0xb890) m in
  let m := put (fr + (SYSCALL_RETURN + 2)) (of_le32 0) m in
  let m := put (fr + (SYSCALL_RETURN + 6)) (of_le16 0x30cd) m in
  let m := put (fr + UC_MCONTEXT) (words_bytes (regs_words regs)) m in
  let m := put (fr + SIGNO) (of_le32 (sq_signal sq)) m in
  let m := put (fr + UC_SIGMASK) (of_le32 mask) m in
  if info then
    put (fr + INFO) (siginfo_bytes (sinfo sq)) (put (fr + CONTEXT) (of_le32 (fr + UCONTEXT)) (put (fr + SINFO) (of_le32 (fr + INFO)) m))
  else m.
(** nop; movl $0, %eax; int $0x30 *)
Definition trampoline : list Z := [0x90; 0xb8; 0; 0; 0; 0; 0xcd; 0x30].

(** A block of bytes is where it was put: the later stores are elsewhere. *)
Ltac written := first [apply at_mem_put | apply at_mem_put_ne; [cbn; offsets; lia|written]].
Lemma frame_mem_at fr regs sq mask info m :
  let m' := frame_mem fr regs sq mask info m in
  at_mem m' fr (of_le32 (fr + SYSCALL_RETURN)) ∧ at_mem m' (fr + SIGNO) (of_le32 (sq_signal sq)) ∧
  at_mem m' (fr + UC_SIGMASK) (of_le32 mask) ∧ at_mem m' (fr + UC_MCONTEXT) (words_bytes (regs_words regs)) ∧
  at_mem m' (fr + SYSCALL_RETURN) trampoline.
Proof.
  cbv zeta. set (m' := frame_mem fr regs sq mask info m).
  assert (H : at_mem m' (fr + JMPADDR) (of_le32 (fr + SYSCALL_RETURN)) ∧ at_mem m' (fr + SIGNO) (of_le32 (sq_signal sq)) ∧
    at_mem m' (fr + UC_SIGMASK) (of_le32 mask) ∧ at_mem m' (fr + UC_MCONTEXT) (words_bytes (regs_words regs)) ∧
    at_mem m' (fr + SYSCALL_RETURN) (of_le16 0xb890) ∧ at_mem m' (fr + (SYSCALL_RETURN + 2)) (of_le32 0) ∧
    at_mem m' (fr + (SYSCALL_RETURN + 6)) (of_le16 0x30cd)).
  { unfold m', frame_mem. destruct info; split_and!; written. }
  destruct H as (H1&H2&H3&H4&H5&H6&H7). unfold JMPADDR in H1. rewrite Z.add_0_r in H1. split_and!; [done..|].
  change trampoline with (of_le16 0xb890 ++ of_le32 0 ++ of_le16 0x30cd). rewrite Z.add_assoc in H6, H7.
  apply at_mem_app. split; [done|]. apply at_mem_app. split; [done|].
  replace (fr + SYSCALL_RETURN + length (of_le16 0xb890) + length (of_le32 0)) with (fr + SYSCALL_RETURN + 6) by (cbn; lia). done.
Qed.
Lemma in_frame_mem fr regs sq mask info m : in_frame m fr → in_frame (frame_mem fr regs sq mask info m) fr.
Proof. intros HF. unfold frame_mem. destruct info; by repeat apply in_frame_put. Qed.
Lemma frame_mem_out fr regs sq mask info m a :
  ¬ fr <= a < fr + SIGCONTEXT_SIZEOF → frame_mem fr regs sq mask info m !! a = m !! a.
Proof. intros Ha. unfold frame_mem. destruct info; rewrite !lookup_put, !decide_False by (cbn; offsets; lia); done. Qed.

(** ** Delivery and return *)
Definition frame_at (act : sigaction_t) (pr : process) (regs : stack_regs) : Z :=
  if has (act_flags act) SA_ONSTACK && negb (ss_flags (p_ss pr) =? SS_DISABLE)
  then u32 (ss_sp (p_ss pr) + ss_size (p_ss pr) - SIGCONTEXT_SIZEOF) else u32 (user_esp regs - SIGCONTEXT_SIZEOF).

Section Delivery.
Variables (s : ustate) (thr : Z) (th : thread) (pr : process) (act : sigaction_t) (sq : sigqueue) (i : Z) (regs : stack_regs).
Hypothesis Eth : threads (u_kern s) !! thr = Some th.
Hypothesis Epr : procs (u_kern s) !! proc th = Some pr.
Hypothesis Hi : 0 <= i.
Hypothesis Eact : action pr !! Z.to_nat i = Some act.
Let fr := frame_at act pr regs.
Hypothesis Hfr : in_frame (u_mem s) fr.

(** The choice of the stack. *)
Lemma frame_choice : ∃ k, threads k = threads (u_kern s) ∧ is_Some (procs k !! proc th) ∧
  (if has (act_flags act) SA_ONSTACK then
     if ss_flags (p_ss pr) =? SS_DISABLE then mret (u32 (user_esp regs - SIGCONTEXT_SIZEOF))
     else in_kernel (set_ss_flags (proc th) SS_ONSTACK);; mret (u32 (ss_sp (p_ss pr) + ss_size (p_ss pr) - SIGCONTEXT_SIZEOF))
   else mret (u32 (user_esp regs - SIGCONTEXT_SIZEOF))) s = Ret fr (s <| u_kern := k |>).
Proof.
  unfold fr, frame_at. destruct (has (act_flags act) SA_ONSTACK), (ss_flags (p_ss pr) =? SS_DISABLE); cbn [andb negb];
    try (exists (u_kern s); split; [done|]; split; [eauto|by destruct s]).
  eexists. split; [|split]; [..|run_with ltac:(apply in_kernel_Ret, upd_proc_Ret; exact Epr); reflexivity]; flat; [done|].
  rewrite lookup_insert_eq. eauto.
Qed.
Lemma signal_frame_spec : ∃ k, threads k = <[thr := th <| sa_mask ::= λ m, addmask m (act_mask act) |>]> (threads (u_kern s)) ∧
  signal_frame thr sq i regs s = Ret (regs <| user_eip := act_handler act |> <| user_esp := fr |>)
    (mk_ustate k (frame_mem fr regs sq (sa_mask th) (has (act_mask act) SA_SIGINFO) (u_mem s))).
Proof.
  destruct frame_choice as (k&Ek&[prk Epk]&Ech). unfold signal_frame.
  run_with ltac:(apply in_kernel_read, get_thread_Ret; exact Eth). cbv zeta.
  assert (Ea : get_action (proc th) i (u_kern s) = Ret act (u_kern s)).
  { unfold get_action. run_with ltac:(apply get_proc_Ret; exact Epr). rewrite (proj2 (Z.ltb_ge i 0)) by lia. by rewrite Eact. }
  run_with ltac:(apply in_kernel_read; exact Ea). run_with ltac:(apply in_kernel_read, get_proc_Ret; exact Epr).
  run_with ltac:(exact Ech).
  unfold put_user_long, put_user_word, ker_to_usr. rewrite <- !(Z.add_assoc fr SYSCALL_RETURN).
  rewrite !(frame_addr (u_mem s) fr) by (done || (offsets; lia)). change (s <| u_kern := k |>) with (mk_ustate k (u_mem s)).
  do 7 frame_put Hfr. set (m2 := frame_mem fr regs sq (sa_mask th) (has (act_mask act) SA_SIGINFO) (u_mem s)).
  erewrite (bind_Ret _ _ _ tt (mk_ustate k m2)).
  2:{ unfold m2, frame_mem. destruct (has (act_mask act) SA_SIGINFO); [|done]. by do 3 frame_put Hfr. }
  cbv beta. run_with ltac:(apply in_kernel_Ret, upd_thread_Ret; cbn [u_kern]; rewrite Ek; exact Eth).
  set (k1 := k <| threads ::= <[thr := th <| sa_mask ::= λ m, addmask m (act_mask act) |>]> |>).
  assert (∃ k2, threads k2 = threads k1 ∧ (if has (act_flags act) SA_RESETHAND
    then in_kernel (upd_proc (proc th) (λ pr, pr <| action ::=
       <[Z.to_nat i := mk_sigaction SIG_DFL (Z.land (act_mask act) (not32 SA_SIGINFO)) (act_flags act)]> |>))
    else mret tt) (mk_ustate k1 m2) = Ret tt (mk_ustate k2 m2)) as (k2&E2&Er).
  { destruct (has (act_flags act) SA_RESETHAND); [|by exists k1].
    eexists. split; [|apply in_kernel_Ret, upd_proc_Ret; exact Epk]. done. }
  exists k2. split; [rewrite E2; unfold k1; flat; by rewrite Ek|].
  run_with ltac:(exact Er). reflexivity.
Qed.
End Delivery.

Lemma signal_return_spec s thr th pr fr r regs mask :
  current (u_kern s) = thr → threads (u_kern s) !! thr = Some th → procs (u_kern s) !! proc th = Some pr →
  has (irqflag (ctx th)) IRQ_REQUEST = false → p_status pr = ON_SIGHAND →
  user_esp r = fr + 4 → in_frame (u_mem s) fr → Forall word (regs_words regs) → word mask →
  at_mem (u_mem s) (fr + UC_MCONTEXT) (words_bytes (regs_words regs)) → at_mem (u_mem s) (fr + UC_SIGMASK) (of_le32 mask) →
  ∃ k, syscall_signal_return r s = Ret (0, regs) (mk_ustate k (u_mem s)) ∧
    threads k = <[thr := th <| sa_mask := mask |>]> (threads (u_kern s)) ∧
    procs k = <[proc th := pr <| p_ss := mk_stack (ss_sp (p_ss pr)) (ss_size (p_ss pr)) 0 |> <| p_status := PROCESS_ACTIVE |>]> (procs (u_kern s)).
Proof.
  intros Hc Eth Epr Hirq Hst Hesp HF HW Hm HA HB.
  assert (Hfr : u32 (user_esp r - 4) = fr).
  { rewrite Hesp. replace (fr + 4 - 4) with (fr + 0) by lia. rewrite (frame_addr (u_mem s)) by (done || (offsets; lia)). lia. }
  eexists. split.
  { unfold syscall_signal_return. run. rewrite Hc. run_with ltac:(apply in_kernel_read, get_thread_Ret; exact Eth). cbv zeta.
    rewrite Hfr. unfold usr_to_ker. change REGS_SIZEOF with (length (words_bytes (regs_words regs))).
    run_with ltac:(apply frame_load; [done|offsets; lia|done]). rewrite regs_of_words by done. rewrite Hirq.
    run_with ltac:(apply in_kernel_read, get_proc_Ret; exact Epr). rewrite Hst, Z.eqb_refl. cbn [negb].
    unfold get_user_long. rewrite (frame_addr (u_mem s)) by (done || (offsets; lia)).
    run_with ltac:(apply in_user_read; run_with ltac:(apply (ld_list_spec (of_le32 mask)); exact HB); reflexivity).
    replace (le32 (of_le32 mask) 0) with mask by (symmetry; apply le32_of; done).
    run_with ltac:(apply in_kernel_Ret, upd_thread_Ret; exact Eth).
    run_with ltac:(apply in_kernel_Ret, upd_proc_Ret; exact Epr).
    run_with ltac:(apply in_kernel_Ret, upd_proc_Ret; apply lookup_insert_eq). reflexivity. }
  cbv [setf]. cbn [u_kern u_mem]. flat. split; [done|]. by rewrite insert_insert_eq.
Qed.


(** ** An instance of the theorem *)
Definition demo_act : sigaction_t := mk_sigaction 0x8048 0x20 SA_RESETHAND.
Definition demo_pr : process := proc0 <| action ::= <[8%nat := demo_act]> |> <| p_status := ON_SIGHAND |>.
Definition demo_user : ustate := mk_ustate (demo_threads <| procs := {[ 7000 := demo_pr ]} |>) (zeros 0x1000 0x1000).
Definition demo_regs : stack_regs := mk_regs 1 2 3 4 5 6 7 8 0x23 0x23 0 0x8000 0x1b 0x202 0x2000 0x23.
Lemma demo_frame : in_frame (u_mem demo_user) (frame_at demo_act demo_pr demo_regs).
Proof.
  change (frame_at demo_act demo_pr demo_regs) with 0x1f70. split; [done|]. split; [done|]. intros i Hi. exists 0.
  unfold demo_user. cbn [u_mem]. rewrite zeros_lookup, decide_True; [done|]. offsets. lia.
Qed.

(** Two signals wait for thread 13000.  [handle_signal] delivers the first and clears [sigpending], since [is_pending] does
    not look at the last of the queue: the second one waits until another signal is sent. *)
Definition demo_two_signals : ustate :=
  mk_ustate (demo_threads <| procs := {[ 7000 := demo_pr ]} |> <| threads ::= alter (λ th, th <| sigpending := 1 |>) 13000 |>
    <| sigqs := {[ 500 := mk_sigqueue 9 (mk_siginfo 0 0 0 0 0 0 0); 510 := mk_sigqueue 9 (mk_siginfo 0 0 0 0 0 0 0) ]} |>
    <| links ::= λ L, <[sigqueue_of 7000 := mk_link (obj 500) (obj 510)]>
         (<[queue (obj 500) := mk_link (obj 510) (sigqueue_of 7000)]> (<[queue (obj 510) := mk_link (sigqueue_of 7000) (obj 500)]> L)) |>)
    (zeros 0x1000 0x1000).
Definition second_signal_waits : bool :=
  match check_signal (mk_sigqueue 0 (mk_siginfo 0 0 0 0 0 0 0)) demo_regs demo_two_signals with
  | Ret r s => (user_eip r =? 0x8048) && (user_esp r =? 0x1f70) &&
      bool_decide (sigpending <$> threads (u_kern s) !! 13000 = Some 0) && bool_decide (dom (sigqs (u_kern s)) = {[510]})
  | _ => false
  end.
Lemma second_signal_forgotten : second_signal_waits = true.
Proof. vm_compute. reflexivity. Qed.
