(* ===== verification/BlkDev.v ===== *)
(** * Block devices

    Models servers/fs-io/io/block/blockdev.c without SEPERATE_IO_PROCESS, its
    default: the drivers are linked into the server and [bdevs] maps a major
    number to one of them.  [BlkDisk] is the interface between the drivers and
    the caches and file systems above: what a transfer does to the memory and to
    the contents of the device. *)

From S2P Require Import Prelude DList LibcString FsState.

Section Blockdev.
Context {D : Type} `{BlkDriver D}.

(** [bdevs[major]] *)
Definition bdev_at (major : Z) : FS D bdevsw :=
  l ← gets bdevs; if major <? 0 then fault else must (l !! Z.to_nat major).
Definition set_bdev (major : Z) (b : bdevsw) : FS D unit :=
  bdev_at major;; modify (λ s, s <| bdevs ::= <[Z.to_nat major := b]> |>).

(** malloc'ed memory that is NULL faults in [memset] *)
Definition register_blockdev (major ops ndev : Z) : FS D Z :=
  if (MAX_MAJOR <=? major) || (major <? 0) then mret (-1)
  else
    device ← malloc;
    (if (device =? 0) && negb (ndev =? 0) then fault
     else modify (λ s, s <| bdevices ::=
            <[device := (λ index, mk_blkdevice (DEVICE major index 0) 512) <$> seqZ 0 ndev]> |>));;
    set_bdev major (mk_bdevsw ops device ndev);;
    mret 0.
Definition unregister_blockdev (major : Z) : FS D Z :=
  if (MAX_MAJOR <=? major) || (major <? 0) then mret (-1)
  else
    b ← bdev_at major;
    (if bd_device b =? 0 then mret tt
     else t ← gets bdevices; must (t !! bd_device b);; modify (λ s, s <| bdevices ::= delete (bd_device b) |>));;
    set_bdev major (mk_bdevsw 0 0 (ndevs b));;
    mret 0.
(** the call of [ata_init] that follows is in Ata.v *)
Definition blk_init : FS D unit := modify (λ s, s <| bdevs := replicate (Z.to_nat MAX_MAJOR) (mk_bdevsw 0 0 0) |>).

Definition blockdev_open (vn : Z) : FS D Z :=
  v ← get_vnode vn; b ← bdev_at (MAJOR (v_rdev v)); o ← must (driver (bd_ops b)); on_dev (d_open o).
Definition blockdev_close (vn : Z) : FS D Z :=
  v ← get_vnode vn; b ← bdev_at (MAJOR (v_rdev v)); o ← must (driver (bd_ops b)); on_dev (d_close o).

Definition blk_strategy (type device block blksize data : Z) : FS D Z :=
  b ← bdev_at (MAJOR device);
  o ← must (driver (bd_ops b));
  on_dev (d_strategy o (mk_operation device type block blksize data)).
Definition blk_read (device block size data : Z) : FS D Z := blk_strategy BLK_READ device block size data.
Definition blk_write (device block size data : Z) : FS D Z := blk_strategy BLK_WRITE device block size data.
End Blockdev.

(** ** The interface to the drivers

    [content d dev o] is byte [o] of the device [dev], [serves a d dev b n] that
    the driver with the operations [a] can transfer block [b] of [n] bytes. *)
Class BlkDisk (D : Type) `{BlkDriver D} := {
  content : D → Z → Z → Z;
  serves : Z → D → Z → Z → Z → Prop;
  content_byte d dev o : 0 <= content d dev o < 2 ^ 8;
  strategy_read a o d m dev b n buf :
    driver a = Some o → serves a d dev b n → 0 <= n → mapped m buf n →
    ∃ d', d_strategy o (mk_operation dev BLK_READ b n buf) (d, m)
            = Ret 0 (d', put buf (content d dev <$> seqZ (b * n) n) m) ∧
      (∀ dev' i, content d' dev' i = content d dev' i) ∧
      (∀ a' dev' b' n', serves a' d dev' b' n' → serves a' d' dev' b' n');
  strategy_write a o d m dev b n buf l :
    driver a = Some o → serves a d dev b n → n = length l → all_bytes l → at_mem m buf l →
    ∃ d', d_strategy o (mk_operation dev BLK_WRITE b n buf) (d, m) = Ret 0 (d', m) ∧
      (∀ i, content d' dev i =
              if decide (b * n <= i < b * n + n) then byte_at l (Z.to_nat (i - b * n)) else content d dev i) ∧
      (∀ a' dev' b' n', serves a' d dev' b' n' → serves a' d' dev' b' n') }.

Section Transfers.
Context {D : Type} `{BlkDisk D}.
Implicit Types (s : fsst D).
(** Block [b] of size [n] of the device is served by the driver its major number selects. *)
Definition served s (dev b n : Z) : Prop :=
  ∃ w (o : block_operations D), 0 <= MAJOR dev ∧ bdevs s !! Z.to_nat (MAJOR dev) = Some w ∧
    driver (bd_ops w) = Some o ∧ serves (bd_ops w) (fdev s) dev b n.
Definition block s (dev b n : Z) : list Z := content (fdev s) dev <$> seqZ (b * n) n.
(** The same devices with the same contents. *)
Definition same_disk s s' : Prop :=
  bdevs s' = bdevs s ∧ (∀ dev i, content (fdev s') dev i = content (fdev s) dev i) ∧
  (∀ a dev b n, serves a (fdev s) dev b n → serves a (fdev s') dev b n).

#[global] Instance same_disk_po : PreOrder same_disk.
Proof.
  split; [done|]. intros s1 s2 s3 (E1&C1&S1) (E2&C2&S2). split_and!; [congruence| |auto].
  intros. by rewrite C2, C1.
Qed.
Lemma same_disk_served s s' dev b n : same_disk s s' → served s dev b n → served s' dev b n.
Proof. intros (E&_&S) (w&o&?&?&?&?). exists w, o. rewrite E. auto. Qed.
Lemma same_disk_block s s' dev b n : same_disk s s' → block s' dev b n = block s dev b n.
Proof. intros (_&C&_). apply list_fmap_ext. intros _ x _. apply C. Qed.

Lemma block_length s dev b n : 0 <= n → Z.of_nat (length (block s dev b n)) = n.
Proof. intros. unfold block. rewrite length_fmap, length_seqZ. lia. Qed.
Lemma block_bytes s dev b n : all_bytes (block s dev b n).
Proof. apply Forall_fmap, Forall_true. intros x. apply content_byte. Qed.
Lemma block_lookup s dev b n i :
  0 <= i < n → block s dev b n !! Z.to_nat i = Some (content (fdev s) dev (b * n + i)).
Proof.
  intros Hi. unfold block. rewrite list_lookup_fmap, lookup_seqZ_lt by lia. cbn. repeat f_equal. lia.
Qed.

Lemma bdev_at_Ret major w s : 0 <= major → bdevs s !! Z.to_nat major = Some w → bdev_at major s = Ret w s.
Proof.
  intros Hm E. unfold bdev_at, mbind, M_bind, gets. rewrite (proj2 (Z.ltb_ge major 0)) by done. by rewrite E.
Qed.
Lemma blk_read_spec s dev b n buf :
  served s dev b n → 0 <= n → mapped (fmem s) buf n →
  ∃ d, let s' := s <| fdev := d |> <| fmem := put buf (block s dev b n) (fmem s) |> in
    blk_read dev b n buf s = Ret 0 s' ∧ same_disk s s'.
Proof.
  intros (w&o&Hm&Ew&Eo&Hs) Hn HM.
  destruct (strategy_read _ o (fdev s) (fmem s) dev b n buf Eo Hs Hn HM) as (d&E&Hc&Hd).
  exists d. cbv zeta. split; [|by split_and!].
  unfold blk_read, blk_strategy. fs_run ltac:(by apply bdev_at_Ret). fs_run ltac:(rewrite Eo; reflexivity). unfold on_dev. by rewrite E.
Qed.
Lemma blk_write_spec s dev b n buf l :
  served s dev b n → n = length l → all_bytes l → at_mem (fmem s) buf l →
  ∃ d, blk_write dev b n buf s = Ret 0 (s <| fdev := d |>) ∧
    (∀ i, content d dev i =
            if decide (b * n <= i < b * n + n) then byte_at l (Z.to_nat (i - b * n)) else content (fdev s) dev i) ∧
    (∀ a dev b n, serves a (fdev s) dev b n → serves a d dev b n).
Proof.
  intros (w&o&Hm&Ew&Eo&Hs) Hn HL HA.
  destruct (strategy_write _ o (fdev s) (fmem s) dev b n buf l Eo Hs Hn HL HA) as (d&E&Hc&Hd).
  exists d. split; [|done]. unfold blk_write, blk_strategy. fs_run ltac:(by apply bdev_at_Ret). fs_run ltac:(rewrite Eo; reflexivity).
  unfold on_dev. rewrite E. by destruct s.
Qed.
End Transfers.

(** ** A disk in memory: an instance of the interface, for concrete runs *)
Definition ram : Type := gmap Z Z.
Definition ram_byte (d : ram) (dev o : Z) : Z := u8 (default 0 (d !! o)).
Definition ram_strategy (o : operation) : M (ram * bytes) Z := λ '(d, m),
  let at_disk := o_block o * o_blksize o in
  if has (o_type o) BLK_READ then
    if decide (Forall (λ i, is_Some (m !! (o_buffer o + i))) (seqZ 0 (o_blksize o)))
    then Ret 0 (d, put (o_buffer o) (ram_byte d (o_device o) <$> seqZ at_disk (o_blksize o)) m)
    else Fault
  else
    match ld_list (Z.to_nat (o_blksize o)) (o_buffer o) m with
    | Ret l _ => Ret 0 (put at_disk l d, m)
    | _ => Fault
    end.
Definition RAM_OPS : Z := 1.
#[global] Instance ram_driver : BlkDriver ram := λ a,
  if a =? RAM_OPS then Some (mk_blkops (mret 0) (mret 0) ram_strategy) else None.
#[global, program] Instance ram_disk : BlkDisk ram := {|
  content := ram_byte; serves := λ a d dev b n, a = RAM_OPS |}.
Next Obligation. intros. apply Z.mod_pos_bound. lia. Qed.
Next Obligation.
  intros a o d m dev b n buf Ho -> Hn HM. injection Ho as <-. exists d. split_and!; try done. cbn.
  rewrite decide_True; [done|]. apply Forall_forall. intros i Hi%elem_of_seqZ. apply HM. lia.
Qed.
Next Obligation.
  intros a o d m dev b n buf l Ho -> -> HL HA. injection Ho as <-. exists (put (b * length l) l d). split_and!; try done.
  - cbn. by rewrite Nat2Z.id, (ld_list_spec l).
  - intros i. unfold ram_byte. rewrite lookup_put. case_decide; [|done]. 
    rewrite byte_at_lookup by lia. cbn. unfold u8. apply Z.mod_small. by apply byte_range.
Qed.
