(* ===== verification/Bcache.v ===== *)
(** * The buffer cache of the file system server

    Models servers/fs-io/fs/bcache.c and bcache.h.  [bc_inv sz s free] says that
    the released buffers of the state are the list [free], that all buffers have
    [sz] bytes of memory that is theirs, and that the hash table is empty, as it
    always is: [bhash_insert] stores the old head of the bucket again.  So no block
    is ever found in the cache, and what [bread] answers is what is on the disk. *)

From S2P Require Import Prelude DList LibcString FsState BlkDev.

Definition B_DIRTY : Z := 1.
Definition B_FREE : Z := 2.
Definition B_BUSY : Z := 4.
Definition MINSZ : Z := 10.
Definition FREELIST : Z := 5.
Definition HSIZE_TABLE : Z := 4096.
Definition bhash_fn (blockno devno : Z) : Z := u32 (Z.lxor blockno devno) mod (HSIZE_TABLE / 4).

(** [n] bits are left. *)
Fixpoint list_index_loop (n : nat) (size bit : Z) : Z :=
  match n with
  | O => bit
  | S n => if 1 <=? size then list_index_loop n (Z.shiftr size 1) (bit + 1) else bit
  end.
Definition list_index (size : Z) : Z := list_index_loop 32 size 0 - MINSZ.

Section Bcache.
Context {D : Type} `{BlkDriver D}.

Definition bucket_of (h : Z) : FS D Z := t ← gets bhash_table; mret (default 0 (t !! h)).

(** The bucket keeps its old head. *)
Definition bhash_insert (p : Z) : FS D unit :=
  b ← get_buf p;
  let h := bhash_fn (b_blockno b) (b_devno b) in
  head ← bucket_of h;
  upd_buf p (λ b, b <| b_next := head |>);;
  b ← get_buf p;
  modify (λ s, s <| bhash_table ::= <[h := b_next b]> |>).

(** Only a local variable is assigned, or a link to itself. *)
Fixpoint bhash_remove_loop (fuel : nat) (link p : Z) : FS D unit :=
  match fuel with
  | O => spin
  | S fuel =>
      l ← get_buf link;
      if b_next l =? 0 then mret tt
      else
        (if link =? p then b ← get_buf p; upd_buf link (λ l, l <| b_next := b_next b |>) else mret tt);;
        l ← get_buf link;
        bhash_remove_loop fuel (b_next l) p
  end.
Definition bhash_remove (p : Z) : FS D unit :=
  b ← get_buf p;
  head ← bucket_of (bhash_fn (b_blockno b) (b_devno b));
  if head =? p then mret tt
  else fuel ← gets (λ s, S (size (bufs s))); bhash_remove_loop fuel head p.

Fixpoint find_bcache_loop (fuel : nat) (link dev block : Z) : FS D Z :=
  match fuel with
  | O => spin
  | S fuel =>
      if link =? 0 then mret 0
      else
        l ← get_buf link;
        if (b_devno l =? dev) && (b_blockno l =? block) then mret link
        else find_bcache_loop fuel (b_next l) dev block
  end.
Definition find_bcache (dev block : Z) : FS D Z :=
  p ← bucket_of (bhash_fn block dev);
  fuel ← gets (λ s, S (size (bufs s)));
  find_bcache_loop fuel p dev block.

(** A structure and a buffer that could not be filled are not freed. *)
Definition alloc_bufcache (dev block size : Z) : FS D Z :=
  p ← malloc;
  if p =? 0 then mret 0
  else
    modify (λ s, s <| bufs ::= <[p := mk_bcache B_FREE 0 dev block 0 0 size]> |>
                   <| flinks ::= <[lmember (item p) := mk_link (item 0) (item 0)]> |>);;
    data ← malloc;
    upd_buf p (λ b, b <| b_data := data |>);;
    if data =? 0 then
      modify (λ s, s <| bufs ::= delete p |> <| flinks ::= delete (lmember (item p)) |>);; mret 0
    else
      r ← blk_read dev block size data;
      if r <? 0 then mret 0
      else
        bhash_insert p;;
        modify (λ s, s <| curbuffcache ::= λ c, u32 (c + size) |>);;
        mret p.

(** Over the limit the answer of the disk is not looked at. *)
Definition getblk (dev block size : Z) : FS D Z :=
  p ← find_bcache dev block;
  if negb (p =? 0) then mret p
  else
    cur ← gets curbuffcache; mx ← gets maxbuffcache;
    if mx <=? cur then
      p ← take_item (freelist (list_index size));
      upd_buf p (λ b, b <| b_devno := dev |> <| b_blockno := block |>);;
      b ← get_buf p;
      blk_read dev block size (b_data b);;
      bhash_insert p;;
      mret p
    else alloc_bufcache dev block size.

Definition bread (dev block bsize : Z) : FS D Z :=
  p ← getblk dev block bsize;
  if p =? 0 then mret 0 else upd_buf p (λ b, b <| b_status := B_BUSY |>);; mret p.

Definition brelse (p : Z) : FS D Z :=
  b ← get_buf p;
  upd_buf p (λ b, b <| b_status := B_FREE |>);;
  on_links (list_enqueue lmember (freelist (list_index (b_datasz b))) (item p));;
  mret 0.

(** The bytes go to the disk and not to the buffer. *)
Definition bwrite (dev block data bsize : Z) : FS D Z :=
  p ← getblk dev block bsize;
  if p =? 0 then mret (-1)
  else
    blk_write dev block bsize data;;
    upd_buf p (λ b, b <| b_status := B_DIRTY |>);;
    mret 0.

Fixpoint init_freelists (n : nat) (i : Z) : FS D unit :=
  match n with
  | O => mret tt
  | S n => on_links (list_init (freelist i));; init_freelists n (i + 1)
  end.
(** [total] and [used] are what [syscall_sysinfo] answers *)
Definition bcache_init (total used : Z) : FS D unit :=
  let freemem := u32 (total - used) in
  modify (λ s, s <| maxbuffcache := freemem / 100 * 50 |> <| curbuffcache := 0 |>);;
  t ← malloc;
  (if t =? 0 then fault else modify (λ s, s <| bhash_table := ∅ |>));;
  init_freelists (Z.to_nat FREELIST) 0.
End Bcache.

(** ** The invariant *)
(** Give the state a routine has reached the name of one that is the same up to updates of a key twice. *)
Ltac at_state st :=
  match goal with |- ?f ?s' = _ => replace s' with st by (subst st; cbv [setf]; cbn; by rewrite ?insert_insert_eq) end.

Section Invariant.
Context {D : Type} `{BlkDisk D}.
Implicit Types (s : fsst D).

Definition bhash_empty s : Prop := ∀ h, default 0 (bhash_table s !! h) = 0.
(** The areas of memory the cache has or may get. *)
Definition area s (a : Z) : Prop := (∃ p b, bufs s !! p = Some b ∧ a = b_data b) ∨ a ∈ heap s.

Record bc_inv (sz : Z) s (free : list Z) : Prop := {
  bi_hash : bhash_empty s;
  bi_free : dlist lmember (flinks s) (freelist (list_index sz)) (item <$> free);
  bi_in p : p ∈ free → is_Some (bufs s !! p);
  bi_buf p b : bufs s !! p = Some b → 0 < p ∧ b_datasz b = sz ∧ is_Some (flinks s !! lmember (item p));
  bi_inj p q b c : bufs s !! p = Some b → bufs s !! q = Some c → b_data b = b_data c → p = q;
  bi_heap a : a ∈ heap s → 0 < a ∧ bufs s !! a = None ∧ flinks s !! lmember (item a) = None;
  bi_nodup : NoDup (heap s);
  bi_fresh p b : bufs s !! p = Some b → b_data b ∉ heap s;
  bi_mapped a : area s a → mapped (fmem s) a sz;
  bi_apart a a' : area s a → area s a' → a ≠ a' → a + sz <= a' ∨ a' + sz <= a;
  bi_bytes : holds_bytes (fmem s) }.

(** The vnodes and the file systems are the same; the cache and the devices are the same. *)
Definition fs_same s s' : Prop :=
  vnodes s' = vnodes s ∧ vnhash s' = vnhash s ∧ vfss s' = vfss s ∧ fs s' = fs s ∧ fs_index s' = fs_index s ∧
  rootvfs s' = rootvfs s.
Definition cache_same s s' : Prop :=
  fdev s' = fdev s ∧ heap s' = heap s ∧ flinks s' = flinks s ∧ bufs s' = bufs s ∧ bhash_table s' = bhash_table s ∧
  maxbuffcache s' = maxbuffcache s ∧ curbuffcache s' = curbuffcache s ∧ bdevs s' = bdevs s.
#[global] Instance fs_same_po : PreOrder fs_same.
Proof. unfold fs_same. split; [done|]. intros s1 s2 s3 (?&?&?&?&?&?) (?&?&?&?&?&?). split_and!; congruence. Qed.

(** What the cache leaves as it is when the released buffers become [free']: the devices and the
    links of everything that is not a released buffer, its list or fresh memory. *)
Record bc_frame (sz : Z) s (free : list Z) s' (free' : list Z) : Prop := {
  bf_disk : same_disk s s';
  bf_area a : area s' a → area s a;
  bf_heap a : a ∈ heap s' → a ∈ heap s;
  bf_free p : p ∈ free' → p ∈ free ∨ p ∈ heap s;
  bf_links c : c.1 ∉ free → c.1 ∉ heap s → c ≠ freelist (list_index sz) → flinks s' !! c = flinks s !! c }.

Lemma bc_frame_refl sz s free : bc_frame sz s free s free.
Proof. split; try done. by left. Qed.
Lemma bc_frame_trans sz s1 f1 s2 f2 s3 f3 :
  bc_frame sz s1 f1 s2 f2 → bc_frame sz s2 f2 s3 f3 → bc_frame sz s1 f1 s3 f3.
Proof.
  intros F1 F2. split.
  - transitivity s2; [apply F1|apply F2].
  - intros a Ha. by apply (bf_area _ _ _ _ _ F1), (bf_area _ _ _ _ _ F2).
  - intros a Ha. by apply (bf_heap _ _ _ _ _ F1), (bf_heap _ _ _ _ _ F2).
  - intros p Hp. destruct (bf_free _ _ _ _ _ F2 p Hp) as [Hf|Hh]; [by apply (bf_free _ _ _ _ _ F1)|].
    right. by apply (bf_heap _ _ _ _ _ F1).
  - intros c Hf Hh Hc. rewrite (bf_links _ _ _ _ _ F2), (bf_links _ _ _ _ _ F1); [done..| | |done].
    + intros Hf2. destruct (bf_free _ _ _ _ _ F1 _ Hf2); done.
    + intros Hh2. by apply Hh, (bf_heap _ _ _ _ _ F1).
Qed.

(** [k] times a buffer can be had and released: memory is left for as many, and at the
    limit a buffer is released already. *)
Definition bc_can (k : nat) s (free : list Z) : Prop :=
  (2 * k <= length (heap s))%nat ∧ (maxbuffcache s <= curbuffcache s → free ≠ []).

Lemma find_bcache_none dev b s : bhash_empty s → find_bcache dev b s = Ret 0 s.
Proof. intros HE. unfold find_bcache, bucket_of, mbind, M_bind, gets. by rewrite HE. Qed.
Lemma bhash_insert_Ret p b s :
  bhash_empty s → bufs s !! p = Some b →
  bhash_insert p s = Ret tt (s <| bufs ::= <[p := b <| b_next := 0 |>]> |>
                               <| bhash_table ::= <[bhash_fn (b_blockno b) (b_devno b) := 0]> |>).
Proof.
  intros HE Eb. unfold bhash_insert. fs_run ltac:(by apply get_buf_Ret). cbv zeta.
  fs_run ltac:(unfold bucket_of, mbind, M_bind, gets; by rewrite HE).
  fs_run ltac:(by apply upd_buf_Ret). fs_run ltac:(apply get_buf_Ret; apply lookup_insert_eq). done.
Qed.
Lemma bhash_insert_empty s h : bhash_empty s → ∀ h', default 0 (<[h := 0]> (bhash_table s) !! h') = 0.
Proof. intros HE h'. destruct (decide (h' = h)) as [->|]; [by rewrite lookup_insert_eq|]. by rewrite lookup_insert_ne. Qed.

Lemma lmember_item p q : lmember (item p) = lmember (item q) ↔ p = q.
Proof. unfold lmember, item. cbn. split; [by intros [= ->]|by intros ->]. Qed.
Lemma item_ne_head p i : lmember (item p) ≠ freelist i.
Proof. intros E. apply (f_equal snd) in E. discriminate E. Qed.
Lemma item_inj : Inj (=) (=) item.
Proof. by intros p q [= ->]. Qed.

(** What [getblk] does: [p] is taken out of the released buffers, which become [free'], and
    its memory is filled from the disk. *)
Record got (sz : Z) s s' (free free' : list Z) (dev blk p : Z) (b : bcache) : Prop := {
  go_inv : bc_inv sz s' free';
  go_frame : bc_frame sz s free s' free';
  go_same : fs_same s s';
  go_out : p ∉ free';
  go_from : p ∈ free ∨ p ∈ heap s;
  go_heap : (length (heap s) <= length (heap s') + 2)%nat;
  go_bufs : bufs s' = <[p := b]> (bufs s);
  go_at : b_devno b = dev ∧ b_blockno b = blk;
  go_mem : fmem s' = put (b_data b) (block s dev blk sz) (fmem s);
  go_room : curbuffcache s < maxbuffcache s →
    curbuffcache s' = u32 (curbuffcache s + sz) ∧ maxbuffcache s' = maxbuffcache s }.

(** A fresh structure [p] with the fresh memory [a] becomes a buffer. *)
Lemma inv_alloc sz s s' free p a h b lk l :
  bc_inv sz s free → heap s = p :: a :: h → heap s' = h → bufs s' = <[p := b]> (bufs s) →
  b_data b = a → b_datasz b = sz → flinks s' = <[lmember (item p) := lk]> (flinks s) →
  fmem s' = put a l (fmem s) → all_bytes l → bhash_empty s' → bc_inv sz s' free.
Proof.
  intros HI Eh Eh' Eb Ea Es El Em HL HE.
  pose proof (bi_nodup _ _ _ HI) as ND. rewrite Eh, !NoDup_cons in ND. destruct ND as (N1&N2&N3).
  destruct (bi_heap _ _ _ HI p) as (Hp&Bp&Lp); [rewrite Eh; set_solver|].
  assert (HA : ∀ x, area s' x → area s x).
  { intros x [(q&c&Hq&->)|Hx].
    - rewrite Eb in Hq. apply lookup_insert_Some in Hq as [[<- <-]|[? ?]]; [|left; eauto].
      right. rewrite Eh. set_solver.
    - right. rewrite Eh' in Hx. rewrite Eh. set_solver. }
  split; try done.
  - rewrite El. eapply dlist_frame; [|exact (bi_free _ _ _ HI)]. intros c Hc. apply lookup_insert_ne. intros <-.
    unfold cells in Hc. apply elem_of_cons in Hc as [Hc|Hc]; [by apply item_ne_head in Hc|].
    apply list_elem_of_fmap in Hc as (?&E&(q&->&Hq)%list_elem_of_fmap). apply lmember_item in E as <-.
    destruct (bi_in _ _ _ HI p Hq). congruence.
  - intros q Hq. rewrite Eb. apply lookup_insert_is_Some'. right. by apply (bi_in _ _ _ HI).
  - intros q c Hq. rewrite El. rewrite Eb in Hq. apply lookup_insert_Some in Hq as [[<- <-]|[Hne Hq]].
    + by rewrite lookup_insert_eq.
    + destruct (bi_buf _ _ _ HI _ _ Hq) as (?&?&?). split_and!; try done.
      rewrite lookup_insert_ne; [done|]. by rewrite lmember_item.
  - intros q r c c' Hq Hr Hd. rewrite Eb in Hq, Hr.
    assert (HF : ∀ q c, bufs s !! q = Some c → b_data c ≠ a).
    { intros q' c0 Hq' <-. apply (bi_fresh _ _ _ HI _ _ Hq'). rewrite Eh. set_solver. }
    apply lookup_insert_Some in Hq as [[<- <-]|[? Hq]]; apply lookup_insert_Some in Hr as [[<- <-]|[? Hr]]; [done|..].
    + by destruct (HF _ _ Hr); congruence.
    + by destruct (HF _ _ Hq); congruence.
    + by eapply (bi_inj _ _ _ HI).
  - intros x Hx. rewrite Eh' in Hx. destruct (bi_heap _ _ _ HI x) as (?&?&?); [rewrite Eh; set_solver|].
    assert (p ≠ x) by (intros ->; set_solver). rewrite Eb, El, !lookup_insert_ne; [done| |done]. by rewrite lmember_item.
  - by rewrite Eh'.
  - intros q c Hq. rewrite Eb in Hq. rewrite Eh'. apply lookup_insert_Some in Hq as [[<- <-]|[? Hq]]; [by rewrite Ea|].
    pose proof (bi_fresh _ _ _ HI _ _ Hq) as HF. rewrite Eh in HF. set_solver.
  - intros x Hx. rewrite Em. apply put_mapped. by apply (bi_mapped _ _ _ HI), HA.
  - intros x y Hx Hy. apply (bi_apart _ _ _ HI); auto.
  - rewrite Em. apply put_holds; [done|]. apply (bi_bytes _ _ _ HI).
Qed.

(** A buffer [p] is changed, its memory and the list of released buffers with it. *)
Lemma inv_change sz s s' free free' p b b' l :
  bc_inv sz s free → heap s' = heap s → bufs s !! p = Some b → bufs s' = <[p := b']> (bufs s) →
  b_data b' = b_data b → b_datasz b' = b_datasz b →
  dlist lmember (flinks s') (freelist (list_index sz)) (item <$> free') →
  (∀ x, x ∈ free' → x = p ∨ x ∈ free) → dom (flinks s') = dom (flinks s) →
  fmem s' = put (b_data b) l (fmem s) → all_bytes l → bhash_empty s' → bc_inv sz s' free'.
Proof.
  intros HI Eh Hp Eb Ed Es HD Hf El Em HL HE.
  assert (HB : ∀ q c, bufs s' !! q = Some c → ∃ c', bufs s !! q = Some c' ∧ b_data c = b_data c' ∧ b_datasz c = b_datasz c').
  { intros q c Hq. rewrite Eb in Hq. apply lookup_insert_Some in Hq as [[<- <-]|[? Hq]]; eauto. }
  assert (HA : ∀ x, area s' x → area s x).
  { intros x [(q&c&Hq&->)|Hx]; [|right; by rewrite <- Eh].
    destruct (HB _ _ Hq) as (c'&?&E&_). left. eauto. }
  split; try done.
  - intros x Hx. rewrite Eb. apply lookup_insert_is_Some'. destruct (Hf x Hx) as [->|]; [by left|right].
    by apply (bi_in _ _ _ HI).
  - intros q c Hq. destruct (HB _ _ Hq) as (c'&Hc&_&E). destruct (bi_buf _ _ _ HI _ _ Hc) as (?&?&?).
    split_and!; [done|congruence|]. by rewrite <- elem_of_dom, El, elem_of_dom.
  - intros q r c c' Hq Hr Hd. destruct (HB _ _ Hq) as (?&?&E1&_). destruct (HB _ _ Hr) as (?&?&E2&_).
    eapply (bi_inj _ _ _ HI); [eassumption..|congruence].
  - intros x Hx. rewrite Eh in Hx. destruct (bi_heap _ _ _ HI _ Hx) as (?&?&?). split_and!; [done|..].
    + rewrite Eb, lookup_insert_ne; [done|]. congruence.
    + by rewrite <- not_elem_of_dom, El, not_elem_of_dom.
  - rewrite Eh. apply (bi_nodup _ _ _ HI).
  - intros q c Hq. destruct (HB _ _ Hq) as (?&?&->&_). rewrite Eh. by eapply (bi_fresh _ _ _ HI).
  - intros x Hx. rewrite Em. apply put_mapped. by apply (bi_mapped _ _ _ HI), HA.
  - intros x y Hx Hy. apply (bi_apart _ _ _ HI); auto.
  - rewrite Em. apply put_holds; [done|]. apply (bi_bytes _ _ _ HI).
Qed.

Lemma alloc_bufcache_spec sz s free dev blk p a h :
  bc_inv sz s free → served s dev blk sz → 0 <= sz → heap s = p :: a :: h →
  ∃ s' b, alloc_bufcache dev blk sz s = Ret p s' ∧ got sz s s' free free dev blk p b.
Proof.
  intros HI HS Hsz Eh. 
  destruct (bi_heap _ _ _ HI p) as (Hp&Bp&Lp); [rewrite Eh; set_solver|].
  destruct (bi_heap _ _ _ HI a) as (Ha&_&_); [rewrite Eh; set_solver|].
  assert (Ma : mapped (fmem s) a sz) by (apply (bi_mapped _ _ _ HI); right; rewrite Eh; set_solver).
  set (b0 := mk_bcache B_FREE 0 dev blk 0 a sz).
  set (s1 := s <| heap := h |> <| bufs ::= <[p := b0]> |>
               <| flinks ::= <[lmember (item p) := mk_link (item 0) (item 0)]> |>).
  destruct (blk_read_spec s1 dev blk sz a) as (d&Er&Hd); [exact HS|done|exact Ma|].
  set (s2 := s1 <| fdev := d |> <| fmem := put a (block s1 dev blk sz) (fmem s1) |>) in *.
  set (s3 := s2 <| bufs ::= <[p := b0 <| b_next := 0 |>]> |>
                <| bhash_table ::= <[bhash_fn blk dev := 0]> |> <| curbuffcache ::= λ c, u32 (c + sz) |>).
  assert (Eb : bufs s3 = <[p := b0]> (bufs s)) by apply insert_insert_eq.
  exists s3, b0. split.
  { unfold alloc_bufcache, malloc. unfold mbind at 1, M_bind at 1. rewrite Eh.
    rewrite (proj2 (Z.eqb_neq p 0)) by lia. fs_run ltac:(reflexivity).
    unfold mbind at 1, M_bind at 1. cbn [heap setf].
    fs_run ltac:(apply upd_buf_Ret, lookup_insert_eq). rewrite (proj2 (Z.eqb_neq a 0)) by lia.
    at_state s1. fs_run ltac:(exact Er). cbn [Z.ltb Z.compare].
    fs_run ltac:(apply (bhash_insert_Ret p b0); [exact (bi_hash _ _ _ HI)|apply lookup_insert_eq]). done. }
  split; try done.
  - eapply (inv_alloc _ s s3 _ p a h b0 _ (block s dev blk sz)); try done; [apply block_bytes|].
    exact (bhash_insert_empty s1 _ (bi_hash _ _ _ HI)).
  - split; try done.
    + intros x [(q&c&Hq&->)|Hx]; [|right; rewrite Eh; cbn in Hx; set_solver].
      rewrite Eb in Hq. apply lookup_insert_Some in Hq as [[<- <-]|[? ?]]; [right; rewrite Eh; cbn; set_solver|left; eauto].
    + intros x Hx. rewrite Eh. cbn in Hx. set_solver.
    + by left.
    + intros c _ Hc _. cbn. apply lookup_insert_ne. intros <-. apply Hc. rewrite Eh. cbn. set_solver.
  - intros Hf. destruct (bi_in _ _ _ HI p Hf). congruence.
  - right. rewrite Eh. set_solver.
  - rewrite Eh. cbn. lia.
Qed.

Lemma item_lnk h p l : dlist lmember l h (item <$> p) → ∀ x, x ∈ p → lmember (item x) ≠ h.
Proof. intros HD x Hx. eapply (dlist_item lmember _ _ _ (item x) HD). apply list_elem_of_fmap. eauto. Qed.
Lemma free_cells sz (free : list Z) c :
  c ∈ cells lmember (freelist (list_index sz)) (item <$> free) → c = freelist (list_index sz) ∨ c.1 ∈ free.
Proof.
  unfold cells. intros [->|(?&->&(q&->&Hq)%list_elem_of_fmap)%list_elem_of_fmap]%elem_of_cons; [by left|by right].
Qed.

(** The oldest released buffer is used again. *)
Lemma getblk_take_spec sz s free dev blk p :
  bc_inv sz s (free ++ [p]) → served s dev blk sz → 0 <= sz → maxbuffcache s <= curbuffcache s →
  ∃ s' b, getblk dev blk sz s = Ret p s' ∧ got sz s s' (free ++ [p]) free dev blk p b.
Proof.
  intros HI HS Hsz Hmx. pose proof (bi_free _ _ _ HI) as HD. rewrite fmap_app in HD.
  destruct (list_dequeue_spec lmember _ _ _ _ HD) as (lk&El&HR&Hdom&Hfr).
  destruct (bi_in _ _ _ HI p) as [b Eb]; [set_solver|].
  assert (Ma : mapped (fmem s) (b_data b) sz) by (apply (bi_mapped _ _ _ HI); left; eauto).
  set (b1 := b <| b_devno := dev |> <| b_blockno := blk |>).
  set (s1 := s <| flinks := lk |> <| bufs ::= <[p := b1]> |>).
  destruct (blk_read_spec s1 dev blk sz (b_data b)) as (d&Er&Hd); [exact HS|done|exact Ma|].
  set (s2 := s1 <| fdev := d |> <| fmem := put (b_data b) (block s1 dev blk sz) (fmem s1) |>) in *.
  set (b2 := b1 <| b_next := 0 |>).
  set (s3 := s2 <| bufs ::= <[p := b2]> |> <| bhash_table ::= <[bhash_fn blk dev := 0]> |>).
  assert (Eb3 : bufs s3 = <[p := b2]> (bufs s)) by apply insert_insert_eq.
  exists s3, b2. split.
  { unfold getblk. fs_run ltac:(apply find_bcache_none, (bi_hash _ _ _ HI)). cbn [Z.eqb negb].
    fs_run ltac:(reflexivity). fs_run ltac:(reflexivity). rewrite (proj2 (Z.leb_le _ _) Hmx).
    fs_run ltac:(unfold take_item; rewrite El; reflexivity).
    fs_run ltac:(apply upd_buf_Ret; exact Eb). fs_run ltac:(apply get_buf_Ret, lookup_insert_eq).
    fs_run ltac:(exact Er).
    fs_run ltac:(apply (bhash_insert_Ret p b1); [exact (bi_hash _ _ _ HI)|apply lookup_insert_eq]). done. }
  assert (Hp : p ∉ free).
  { apply dlist_ring, ring_NoDup in HD. rewrite NoDup_cons, NoDup_app in HD. destruct HD as (_&_&HN&_).
    intros Hf. apply (HN (item p)); [by apply list_elem_of_fmap_2|by apply list_elem_of_singleton]. }
  split; try done.
  - eapply (inv_change _ s s3 _ _ p b b2 (block s dev blk sz)); try done; [set_solver|apply block_bytes|].
    exact (bhash_insert_empty s1 _ (bi_hash _ _ _ HI)).
  - split; try done.
    + intros x [(q&c&Hq&->)|Hx]; [|by right]. rewrite Eb3 in Hq.
      apply lookup_insert_Some in Hq as [[<- <-]|[? ?]]; left; eauto.
    + left. set_solver.
    + intros c Hc _ Hh. cbn. apply Hfr. intros Hin. apply free_cells in Hin as [|Hin]; [done|]. set_solver.
  - left. set_solver.
  - change (heap s3) with (heap s). lia.
  - lia.
Qed.

Lemma getblk_spec sz s free k dev blk :
  bc_inv sz s free → bc_can (S k) s free → served s dev blk sz → 0 <= sz →
  ∃ s' p b free', getblk dev blk sz s = Ret p s' ∧ got sz s s' free free' dev blk p b.
Proof.
  intros HI [HR1 HR2] HS Hsz. destruct (Z.leb_spec (maxbuffcache s) (curbuffcache s)).
  - destruct (list_snoc_cases free) as [->|(l&p&->)]; [by destruct HR2|].
    destruct (getblk_take_spec sz s l dev blk p) as (s'&b&?&?); [done..|]. eauto 10.
  - destruct (heap s) as [|p [|a h]] eqn:Eh; cbn in HR1; [lia..|].
    destruct (alloc_bufcache_spec sz s free dev blk p a h) as (s'&b&E&?); [done..|]. exists s', p, b, free. split; [|done].
    unfold getblk. fs_run ltac:(apply find_bcache_none, (bi_hash _ _ _ HI)). cbn [Z.eqb negb].
    fs_run ltac:(reflexivity). fs_run ltac:(reflexivity). by rewrite (proj2 (Z.leb_gt _ _)).
Qed.

(** Releasing a buffer that is not released. *)
Lemma list_index_ge sz : -10 <= list_index sz.
Proof.
  unfold list_index, MINSZ. assert (HG : ∀ n x b, b <= list_index_loop n x b); [|specialize (HG 32%nat sz 0); lia].
  induction n as [|n IH]; intros x b; cbn; [lia|]. split_if; [|lia]. specialize (IH (Z.shiftr x 1) (b + 1)). lia.
Qed.

Lemma brelse_spec sz s free p b :
  bc_inv sz s free → bufs s !! p = Some b → p ∉ free →
  ∃ s', brelse p s = Ret 0 s' ∧ bc_inv sz s' (p :: free) ∧ fmem s' = fmem s ∧ heap s' = heap s ∧
    fs_same s s' ∧ bc_frame sz s (p :: free) s' (p :: free).
Proof.
  intros HI Eb Hp. destruct (bi_buf _ _ _ HI _ _ Eb) as (Hp0&Hsz&Hlk). pose proof (bi_free _ _ _ HI) as HD.
  destruct (list_enqueue_spec lmember (flinks s) (freelist (list_index sz)) (item <$> free) (item p))
    as (lk&El&HR&Hdom&Hfr); [done| |done|].
  { destruct (dlist_ring _ _ _ _ HD) as [Hh HN]. split.
    - rewrite not_elem_of_cons. split; [|done]. intros [= E]. pose proof (list_index_ge sz). lia.
    - unfold cells in *. cbn [fmap list_fmap]. apply NoDup_cons in HN as [HN1 HN2]. apply NoDup_cons. split.
      + apply not_elem_of_cons. split; [|done]. intros E. symmetry in E. by apply item_ne_head in E.
      + apply NoDup_cons. split; [|done]. intros (?&E&(q&->&Hq)%list_elem_of_fmap)%list_elem_of_fmap.
        by apply lmember_item in E as ->. }
  set (s' := s <| bufs ::= <[p := b <| b_status := B_FREE |>]> |> <| flinks := lk |>).
  exists s'. split_and!; try done.
  - unfold brelse. fs_run ltac:(by apply get_buf_Ret). fs_run ltac:(by apply upd_buf_Ret).
    rewrite Hsz. unfold on_links. unfold mbind at 1, M_bind at 1. cbn [flinks setf]. rewrite El. done.
  - eapply (inv_change _ s s' _ _ p b _ []); try done; [|by constructor|apply (bi_hash _ _ _ HI)].
    set_solver.
  - split; try done.
    + intros x [(q&c&Hq&->)|Hx]; [|by right]. cbn in Hq.
      apply lookup_insert_Some in Hq as [[<- <-]|[? ?]]; left; eauto.
    + by left.
    + intros c Hc _ Hh. cbn. apply Hfr. intros Hin. apply (free_cells sz (p :: free)) in Hin as [|Hin]; done.
Qed.

Lemma bread_spec sz s free k dev blk :
  bc_inv sz s free → bc_can (S k) s free → served s dev blk sz → 0 <= sz →
  ∃ s' p b free', bread dev blk sz s = Ret p s' ∧ got sz s s' free free' dev blk p b ∧ b_status b = B_BUSY.
Proof.
  intros HI HC HS Hsz. destruct (getblk_spec sz s free k dev blk) as (s1&p&b&free'&E&[]); [done..|].
  assert (Eb : bufs s1 !! p = Some b) by (rewrite go_bufs0; apply lookup_insert_eq).
  destruct (bi_buf _ _ _ go_inv0 _ _ Eb) as (Hp&_&_).
  exists (s1 <| bufs ::= <[p := b <| b_status := B_BUSY |>]> |>), p, (b <| b_status := B_BUSY |>), free'.
  split_and!; [|split; try done|done].
  - unfold bread. fs_run ltac:(exact E). rewrite (proj2 (Z.eqb_neq p 0)) by lia. by fs_run ltac:(by apply upd_buf_Ret).
  - eapply (inv_change _ s1 _ _ _ p b _ []); try done; [|set_solver|by constructor|apply (bi_hash _ _ _ go_inv0)].
    apply (bi_free _ _ _ go_inv0).
  - destruct go_frame0. split; try done. intros x [(q&c&Hq&->)|Hx]; [|apply bf_area0; by right]. cbn in Hq.
    apply bf_area0. left. apply lookup_insert_Some in Hq as [[<- <-]|[? ?]]; eauto.
  - cbn. rewrite go_bufs0. apply insert_insert_eq.
Qed.

Lemma inv_same sz s s' free :
  cache_same s s' → holds_bytes (fmem s') → (∀ a n, mapped (fmem s) a n → mapped (fmem s') a n) →
  bc_inv sz s free → bc_inv sz s' free.
Proof.
  intros (_&Eh&El&Eb&Et&_) HB HM [].
  assert (HA : ∀ a, area s' a → area s a) by (intros a; unfold area; by rewrite Eb, Eh).
  split; rewrite ?Eh, ?El; try (intros *; rewrite ?Eb; by eauto).
  intros h. rewrite Et. apply bi_hash0.
Qed.

(** Reading a block and releasing its buffer; in between anything but the cache may change, and
    the memory, but not which of it is mapped. *)
Lemma bread_brelse sz s free k dev blk :
  bc_inv sz s free → bc_can (S k) s free → served s dev blk sz → 0 <= sz →
  ∃ s1 p b, bread dev blk sz s = Ret p s1 ∧ p ≠ 0 ∧ bufs s1 !! p = Some b ∧ area s (b_data b) ∧
    fs_same s s1 ∧ fmem s1 = put (b_data b) (block s dev blk sz) (fmem s) ∧
    ∀ s1', cache_same s1 s1' → holds_bytes (fmem s1') → (∀ a n, mapped (fmem s1) a n → mapped (fmem s1') a n) →
      ∃ s2 free2, brelse p s1' = Ret 0 s2 ∧ bc_inv sz s2 free2 ∧ bc_can k s2 free2 ∧
        bc_frame sz s free s2 free2 ∧ fs_same s1' s2 ∧ fmem s2 = fmem s1'.
Proof.
  intros HI HC HS Hsz. destruct (bread_spec sz s free k dev blk) as (s1&p&b&free'&E&HG&_); [done..|].
  destruct HG as [GI GF GS GO GR GH GB _ GM].
  assert (Eb : bufs s1 !! p = Some b) by (rewrite GB; apply lookup_insert_eq).
  destruct (bi_buf _ _ _ GI _ _ Eb) as (Hp&Hbs&_).
  exists s1, p, b. split_and!; try done; [lia|apply (bf_area _ _ _ _ _ GF); left; eauto|].
  intros s1' HS1 Hm HM. pose proof (inv_same sz s1 s1' free' HS1 Hm HM GI) as GI'.
  destruct HS1 as (Ed&Eh&El&Ebs&_&_&_&Ebd).
  destruct (brelse_spec sz s1' free' p b GI') as (s2&E2&HI2&Em&Eh2&HS2&HF2); [by rewrite Ebs|done|].
  exists s2, (p :: free'). split_and!; try done.
  - destruct HC as [HC _]. split; [|done]. rewrite Eh2, Eh. lia.
  - eapply (bc_frame_trans _ _ _ s1' (p :: free')); [|done].
    destruct GF. split; rewrite ?Eh, ?El; try done.
    + unfold same_disk in *. by rewrite Ed, Ebd.
    + intros a. unfold area. rewrite Ebs, Eh. apply bf_area0.
    + intros x [->|Hx]%elem_of_cons; [done|by apply bf_free0].
Qed.
End Invariant.

(** ** The invariant is established by the initialisation *)
Section Start.
Context {D : Type} `{BlkDisk D}.
Implicit Types (s : fsst D).

(** The addresses malloc will answer are areas of [sz] bytes apart from each other. *)
Definition pool_ok (sz : Z) s (h : list Z) : Prop :=
  Forall (λ a, 0 < a ∧ Forall (λ i, is_Some (fmem s !! (a + i))) (seqZ 0 sz)) h ∧ NoDup h ∧
  Forall (λ a, Forall (λ a', a = a' ∨ a + sz <= a' ∨ a' + sz <= a) h) h.
#[global] Instance pool_ok_dec sz s h : Decision (pool_ok sz s h).
Proof. unfold pool_ok. apply _. Defined.

Lemma inv_start sz s :
  bhash_table s = ∅ → bufs s = ∅ → dlist lmember (flinks s) (freelist (list_index sz)) [] →
  (∀ a, a ∈ heap s → flinks s !! lmember (item a) = None) → holds_bytes (fmem s) → pool_ok sz s (heap s) →
  bc_inv sz s [].
Proof.
  intros Et Eb HD HL HB (HP&HN&HA).
  assert (HR : ∀ a, area s a → a ∈ heap s) by (intros a [(p&b&E&_)|?]; [by rewrite Eb in E|done]).
  rewrite Forall_forall in HP, HA. split; try done; rewrite ?Eb; try done.
  - intros h. by rewrite Et.
  - intros p Hp. by apply elem_of_nil in Hp.
  - intros a Ha. destruct (HP a Ha) as [? _]. split_and!; [done..|by apply HL].
  - intros a Ha i Hi. destruct (HP a (HR a Ha)) as [_ HM]. rewrite Forall_forall in HM. apply HM, elem_of_seqZ. lia.
  - intros a a' Ha Ha' Hne. specialize (HA a (HR a Ha)). rewrite Forall_forall in HA. destruct (HA a' (HR a' Ha')); done.
Qed.

Lemma init_freelists_spec n : ∀ i s,
  (∀ j, i <= j < i + Z.of_nat n → is_Some (flinks s !! freelist j)) →
  ∃ lk, init_freelists n i s = Ret tt (s <| flinks := lk |>) ∧
    (∀ j, i <= j < i + Z.of_nat n → dlist lmember lk (freelist j) []) ∧
    (∀ c, (∀ j, i <= j < i + Z.of_nat n → c ≠ freelist j) → lk !! c = flinks s !! c).
Proof.
  induction n as [|n IH]; intros i s HC.
  { exists (flinks s). split_and!; [by destruct s|lia|done]. }
  destruct (list_init_spec lmember (flinks s) (freelist i)) as (lk&El&HD&Hdom&Hfr); [apply HC; lia|].
  destruct (IH (i + 1) (s <| flinks := lk |>)) as (lk'&E'&HD'&Hfr').
  { intros j Hj. cbn. rewrite <- elem_of_dom, Hdom, elem_of_dom. apply HC. lia. }
  exists lk'. split_and!.
  - cbn [init_freelists]. unfold on_links. unfold mbind at 1, M_bind at 1. by rewrite El, E'.
  - intros j Hj. destruct (decide (j = i)) as [->|]; [|apply HD'; lia].
    eapply dlist_frame; [|exact HD]. intros d [->|[]%elem_of_nil]%elem_of_cons. apply Hfr'.
    intros j' Hj' [= E]. lia.
  - intros c Hc. rewrite Hfr' by (intros; apply Hc; lia). cbn. apply Hfr.
    intros [->|[]%elem_of_nil]%elem_of_cons. apply (Hc i); [lia|done].
Qed.

Lemma bcache_init_inv sz s t h total used :
  bufs s = ∅ → heap s = t :: h → t ≠ 0 → 0 <= list_index sz < FREELIST →
  (∀ j, 0 <= j < FREELIST → is_Some (flinks s !! freelist j)) →
  (∀ a, a ∈ h → flinks s !! lmember (item a) = None) → holds_bytes (fmem s) → pool_ok sz s h →
  ∃ s', bcache_init total used s = Ret tt s' ∧ bc_inv sz s' [] ∧ heap s' = h ∧ curbuffcache s' = 0 ∧
    maxbuffcache s' = u32 (total - used) / 100 * 50 ∧ fmem s' = fmem s ∧ fs_same s s' ∧ same_disk s s'.
Proof.
  intros Eb Eh Ht Hsz HF HL HB HP. unfold FREELIST in *.
  set (s1 := s <| maxbuffcache := u32 (total - used) / 100 * 50 |> <| curbuffcache := 0 |> <| heap := h |> <| bhash_table := ∅ |>).
  destruct (init_freelists_spec 5 0 s1) as (lk&E&HD&Hfr); [exact HF|].
  exists (s1 <| flinks := lk |>). split_and!; try done.
  - unfold bcache_init. fs_run ltac:(reflexivity). unfold malloc. unfold mbind at 1, M_bind at 1. cbn [heap setf].
    rewrite Eh. rewrite (proj2 (Z.eqb_neq t 0)) by done. fs_run ltac:(reflexivity). exact E.
  - apply inv_start; try done.
    + apply HD. lia.
    + intros a Ha. cbn. rewrite Hfr; [by apply HL|]. intros j _. apply item_ne_head.
Qed.
End Start.

(** ** Properties *)
Section Properties.
Context {D : Type} `{BlkDisk D}.
Implicit Types (s : fsst D).

(** C7. [bread] answers a buffer that is not released, marked busy and numbered for the block,
    whose memory holds what the disk has for the block; the buffers other callers hold, and all
    memory but that of the answered buffer, are unchanged, and the cache is consistent. *)
Theorem bread_reads_disk sz s free k dev blk :
  bc_inv sz s free → bc_can (S k) s free → served s dev blk sz → 0 <= sz →
  ∃ s' p b free', bread dev blk sz s = Ret p s' ∧ bufs s' = <[p := b]> (bufs s) ∧ p ∉ free' ∧
    (b_status b, b_devno b, b_blockno b, b_datasz b) = (B_BUSY, dev, blk, sz) ∧
    at_mem (fmem s') (b_data b) (block s dev blk sz) ∧
    (∀ q, ¬ b_data b <= q < b_data b + sz → fmem s' !! q = fmem s !! q) ∧
    bc_inv sz s' free' ∧ bc_frame sz s free s' free'.
Proof.
  intros HI HC HS Hsz. destruct (bread_spec sz s free k dev blk) as (s'&p&b&free'&E&[GI GF GS GO GR GH GB [Gd Gk] GM]&Hst); [done..|].
  exists s', p, b, free'. destruct (bi_buf _ _ _ GI p b) as (_&Hbs&_); [rewrite GB; apply lookup_insert_eq|].
  rewrite Hst, Gd, Gk, Hbs, GM. split_and!; try done.
  - apply at_mem_put.
  - intros q Hq. rewrite lookup_put, decide_False; [done|]. by rewrite block_length.
Qed.

(** C20. What was written with [bwrite] is what [bread] reads; the buffer [bwrite] gets is never released:
    it takes at most two areas of the heap and is counted against the limit of the cache. *)
Theorem bwrite_bread sz s free k dev blk data l :
  bc_inv sz s free → bc_can (S k) s free → served s dev blk sz → sz = length l → all_bytes l →
  at_mem (fmem s) data l → (∀ a, area s a → a + sz <= data ∨ data + sz <= a) →
  ∃ s1 p b free1, bwrite dev blk data sz s = Ret 0 s1 ∧ bc_inv sz s1 free1 ∧
    bufs s1 !! p = Some b ∧ b_status b = B_DIRTY ∧ p ∉ free1 ∧
    (length (heap s) <= length (heap s1) + 2)%nat ∧
    (curbuffcache s < maxbuffcache s → curbuffcache s1 = u32 (curbuffcache s + sz) ∧ maxbuffcache s1 = maxbuffcache s) ∧
    ∀ k, bc_can (S k) s1 free1 →
      ∃ s2 q c, bread dev blk sz s1 = Ret q s2 ∧ bufs s2 !! q = Some c ∧ at_mem (fmem s2) (b_data c) l.
Proof.
  intros HI HC HS Hsz HL HA Hap. destruct (getblk_spec sz s free k dev blk) as (s1&p&b&free'&E&[GI GF GS GO GR GH GB _ GM GC]); [done..|lia|].
  assert (Eb : bufs s1 !! p = Some b) by (rewrite GB; apply lookup_insert_eq).
  destruct (bi_buf _ _ _ GI _ _ Eb) as (Hp&Hbs&_).
  assert (Hab : area s (b_data b)) by (apply (bf_area _ _ _ _ _ GF); left; eauto).
  pose proof (block_length s dev blk sz ltac:(lia)) as Hlen.
  destruct (blk_write_spec s1 dev blk sz data l) as (d&Ew&Hc&Hs); [|done..| |].
  { eapply same_disk_served; [apply GF|done]. }
  { rewrite GM. apply at_mem_put_ne; [|done]. rewrite Hlen. destruct (Hap _ Hab); lia. }
  set (b' := b <| b_status := B_DIRTY |>). set (s2 := s1 <| fdev := d |> <| bufs ::= <[p := b']> |>).
  assert (HI2 : bc_inv sz s2 free').
  { eapply (inv_change _ s1 s2 _ _ p b b' []); try done; [apply (bi_free _ _ _ GI)|by right|by constructor|apply (bi_hash _ _ _ GI)]. }
  exists s2, p, b', free'. split_and!; try done.
  - unfold bwrite. fs_run ltac:(exact E). rewrite (proj2 (Z.eqb_neq p 0)) by lia. fs_run ltac:(exact Ew).
    by fs_run ltac:(apply upd_buf_Ret; exact Eb).
  - apply lookup_insert_eq.
  - intros k' HC'. destruct (bread_spec sz s2 free' k' dev blk) as (s3&q&c&free3&E3&[_ _ _ _ _ _ B3 _ M3]&_); [done..| |lia|].
    { destruct (same_disk_served _ _ _ _ _ (bf_disk _ _ _ _ _ GF) HS) as (w&o&?&?&?&Hsv). exists w, o. split_and!; try done. by apply Hs. }
    exists s3, q, c. split_and!; [done|rewrite B3; apply lookup_insert_eq|].
    rewrite M3. replace l with (block s2 dev blk sz); [apply at_mem_put|]. unfold block, s2. cbn [fdev setf]. apply list_eq. intros i.
    rewrite list_lookup_fmap. destruct (decide (i < length l)%nat).
    + rewrite lookup_seqZ_lt by lia. cbn. rewrite Hc, decide_True by lia. symmetry. rewrite byte_at_lookup by done. do 2 f_equal. lia.
    + rewrite lookup_seqZ_ge by lia. symmetry. apply lookup_ge_None. lia.
Qed.
End Properties.

(** ** A machine with a disk in memory

    The server's memory is 12 areas of [sz] bytes from address 4096; the first 8 are what
    malloc will answer, the rest are the callers'.  The vnode at 700 is free. *)
Definition demo_dev : Z := DEVICE 1 0 7.
Definition demo_text : list Z := [104; 101; 108; 108; 111; 44; 32; 119; 111; 114; 108; 100].
(** Block 5 holds a text, block 9 an inode of a file with it. *)
Definition demo_disk : ram := put 5120 demo_text (put 9640 [5] (put 9600 [0xA4; 0x81; 0; 0; 12] ∅)).
Definition demo_pool (sz : Z) : list Z := (λ i, 4096 + sz * i) <$> seqZ 0 8.
Definition demo_start (sz : Z) (m : bytes) : fsst ram :=
  mk_fsst demo_disk m (4000 :: demo_pool sz)
    (<[vnfreelist := mk_link (item 700) (item 700)]> (<[lmember (item 700) := mk_link vnfreelist vnfreelist]>
       (list_to_map ((λ i, (freelist i, mk_link (item 0) (item 0))) <$> seqZ 0 5)))) ∅ ∅ 0 0
    (replicate 32 (mk_bdevsw RAM_OPS 0 4)) ∅ ∅ ∅ ∅ [] 0 0.
Definition demo_machine (sz : Z) (m : bytes) : fsst ram :=
  match bcache_init (2 ^ 20) 0 (demo_start sz m) with Ret _ s => s | _ => demo_start sz m end.
Definition demo_fs : fsst ram := demo_machine 1024 (zeros 4096 12288).

Lemma demo_mem sz m : fmem (demo_machine sz m) = m.
Proof. reflexivity. Qed.
Lemma demo_pool_ok sz (s : fsst ram) : 0 < sz → fmem s = zeros 4096 (12 * sz) → pool_ok sz s (demo_pool sz).
Proof.
  intros Hs Em. unfold pool_ok, demo_pool. rewrite Em. split_and!.
  - apply Forall_fmap, Forall_forall. intros i Hi%elem_of_seqZ. split; [cbn; lia|]. apply Forall_forall. intros j Hj%elem_of_seqZ.
    cbn. rewrite zeros_lookup, decide_True; [done|]. nia.
  - apply NoDup_fmap_2; [intros i j; nia|apply NoDup_seqZ].
  - apply Forall_fmap, Forall_forall. intros i Hi%elem_of_seqZ. apply Forall_fmap, Forall_forall. intros j Hj%elem_of_seqZ. cbn.
    destruct (Z.lt_trichotomy i j) as [?|[->|?]]; [right; left; nia|by left|right; right; nia].
Qed.
Lemma demo_bytes_ok : holds_bytes (fmem demo_fs).
Proof. unfold demo_fs. rewrite demo_mem. apply zeros_bytes. Qed.
Lemma demo_inv : bc_inv 1024 demo_fs [].
Proof.
  apply inv_start; [reflexivity..|idtac|idtac|idtac|idtac].
  - apply dlist_nil. split; vm_compute; reflexivity.
  - apply Forall_forall, (bool_decide_unpack _). vm_compute. exact I.
  - exact demo_bytes_ok.
  - apply (demo_pool_ok 1024); [lia|]. exact (demo_mem 1024 (zeros 4096 12288)).
Qed.
Lemma demo_can k : (k <= 4)%nat → bc_can k demo_fs [].
Proof.
  intros Hk. split.
  - assert (E : length (heap demo_fs) = 8%nat) by (vm_compute; reflexivity). lia.
  - assert (E : maxbuffcache demo_fs <=? curbuffcache demo_fs = false) by (vm_compute; reflexivity). zbool. lia.
Qed.
Lemma demo_served b n : served demo_fs demo_dev b n.
Proof.
  exists (mk_bdevsw RAM_OPS 0 4), (mk_blkops (mret 0) (mret 0) ram_strategy).
  split_and!; [by apply Z.leb_le; vm_compute|vm_compute; reflexivity|reflexivity|done].
Qed.
Lemma demo_area a : area demo_fs a → a ∈ (λ i, 4096 + 1024 * i) <$> seqZ 0 8.
Proof.
  assert (Eb : bufs demo_fs = ∅) by (vm_compute; reflexivity).
  assert (Eh : heap demo_fs = (λ i, 4096 + 1024 * i) <$> seqZ 0 8) by (vm_compute; reflexivity).
  intros [(p&b&E&_)|Ha]; [by rewrite Eb in E|by rewrite Eh in Ha].
Qed.
Lemma demo_area_range a : area demo_fs a → 4096 <= a ∧ a + 1024 <= 12288.
Proof. intros (i&->&Hi%elem_of_seqZ)%demo_area%list_elem_of_fmap. lia. Qed.

Lemma demo_zero a : 4096 <= a < 16384 → fmem demo_fs !! a = Some 0.
Proof. intros Ha. unfold demo_fs. by rewrite demo_mem, zeros_lookup, decide_True by lia. Qed.

(** The block with the text. *)
Lemma bread_reads_disk_witness :
  ∃ s' p b, bread demo_dev 5 1024 demo_fs = Ret p s' ∧ bufs s' !! p = Some b ∧ fmem s' !! (b_data b) = Some 104.
Proof.
  destruct (bread_reads_disk 1024 demo_fs [] 0 demo_dev 5) as (s'&p&b&free'&H1&H2&_&_&H3&_).
  - exact demo_inv.
  - apply demo_can. lia.
  - apply demo_served.
  - lia.
  - exists s', p, b. split; [exact H1|]. split; [rewrite H2; apply lookup_insert_eq|].
    specialize (H3 0%nat ltac:(vm_compute; lia)). rewrite Z.add_0_r in H3. rewrite H3. vm_compute. reflexivity.
Defined.

(** A block of zeros is written over the text. *)
Lemma bwrite_bread_witness :
  ∃ s1 s2 q c, bwrite demo_dev 5 14336 1024 demo_fs = Ret 0 s1 ∧ bread demo_dev 5 1024 s1 = Ret q s2 ∧
    bufs s2 !! q = Some c ∧ at_mem (fmem s2) (b_data c) (replicate 1024 0).
Proof.
  destruct (bwrite_bread 1024 demo_fs [] 0 demo_dev 5 14336 (replicate 1024 0)) as (s1&p&b&free1&H1&_&_&_&_&Hh&Hr&H2).
  - exact demo_inv.
  - apply demo_can. lia.
  - apply demo_served.
  - done.
  - apply Forall_replicate. lia.
  - intros i Hi. rewrite length_replicate in Hi.
    rewrite demo_zero by lia. symmetry. apply lookup_replicate. lia.
  - intros a Ha%demo_area_range. lia.
  - destruct (demo_can 4) as [Hh0 _]; [lia|].
    destruct Hr as [Hr1 Hr2]; [apply Z.ltb_lt; vm_compute; reflexivity|].
    destruct (H2 0%nat) as (s2&q&c&H3&H4&H5).
    { split; [lia|]. rewrite Hr1, Hr2. intros HL. apply Z.leb_le in HL. vm_compute in HL. discriminate HL. }
    exists s1, s2, q, c. exact (conj H1 (conj H3 (conj H4 H5))).
Defined.
