(* ===== verification/Ext2.v ===== *)
(** * The ext2 file system: super block, inodes, block map and reading

    Models servers/fs-io/fs/ext2fs: ext2sb.c, ext2inode.c and the file operations
    of ext2.c, with ext2fs.h.  The super block and the inodes keep their bytes.
    [file_byte] is the contents of a file according to its inode and the disk; the
    theorems relate [ext2_bmap] and [ext2_read] to it. *)

From S2P Require Import Prelude DList LibcString FsState BlkDev Bcache.

(** ** ext2fs.h *)
Definition EXT2_ROOT_INO : Z := 2.
Definition EXT2_SUPER_MAGIC : Z := 0xEF53.
Definition EXT2_IND_BLOCK : Z := 12.
Definition EXT2_DIND_BLOCK : Z := 13.
(** sizeof(struct ext2_super_block), sizeof(struct ext2_group_desc), sizeof(struct ext2inode) *)
Definition SB_SIZEOF : Z := 1024.
Definition GD_SIZEOF : Z := 32.
Definition INO_SIZEOF : Z := 128.

Definition s_blocks_count (sb : list Z) : Z := le32 sb 4.
Definition s_log_block_size (sb : list Z) : Z := le32 sb 24.
Definition s_blocks_per_group (sb : list Z) : Z := le32 sb 32.
Definition s_inodes_per_group (sb : list Z) : Z := le32 sb 40.
Definition s_magic (sb : list Z) : Z := le16 sb 56.
Definition EXT2_BLOCK_SIZE (sb : list Z) : Z := u32 (Z.shiftl 1024 (s_log_block_size sb)).

Definition i_mode (ino : list Z) : Z := le16 ino 0.
Definition i_uid (ino : list Z) : Z := le16 ino 2.
Definition i_size (ino : list Z) : Z := le32 ino 4.
Definition i_atime (ino : list Z) : Z := le32 ino 8.
Definition i_ctime (ino : list Z) : Z := le32 ino 12.
Definition i_mtime (ino : list Z) : Z := le32 ino 16.
Definition i_gid (ino : list Z) : Z := le16 ino 24.
Definition i_links_count (ino : list Z) : Z := le16 ino 26.
Definition i_blocks (ino : list Z) : Z := le32 ino 28.
(** [i_block[k]]; the word after the array is [i_generation] *)
Definition i_block (ino : list Z) (k : Z) : Z := le32 ino (40 + 4 * Z.to_nat k).

(** The address of [ext2_vnode_ops]. *)
Definition EXT2_VNODE_OPS : Z := 1.

(** [a / b] of unsigned operands faults when [b] is 0. *)
Definition udiv {S} (a b : Z) : M S Z := if b =? 0 then fault else mret (a / b).
Definition umod {S} (a b : Z) : M S Z := if b =? 0 then fault else mret (a mod b).

Section Ext2.
Context {D : Type} `{BlkDriver D}.

(** ** ext2sb.c *)
Fixpoint read_group_desc_loop (fuel : nat) (dev blksz bs index gsize desc nreads : Z) : FS D Z :=
  match fuel with
  | O => spin
  | S fuel =>
      cache ← bread dev index blksz;
      if cache =? 0 then mret (- EINTR)
      else
        b ← get_buf cache;
        let xfer := if bs <? gsize then bs else gsize in
        on_mem (memcpy desc (b_data b) xfer);;
        brelse cache;;
        let nreads := u32 (nreads - 1) in
        if nreads =? 0 then mret 0
        else read_group_desc_loop fuel dev blksz bs (index + 1) (u32 (gsize - bs)) (u32 (desc + xfer)) nreads
  end.
(** Nothing is returned at the end; the caller does not look. *)
Definition read_group_desc (fuel : nat) (vfs : Z) (index desc : Z) : FS D Z :=
  v ← get_vfs vfs;
  let bs := EXT2_BLOCK_SIZE (ext2sb v) in
  ngroups ← udiv (s_blocks_count (ext2sb v)) (s_blocks_per_group (ext2sb v));
  let gsize := u32 (ngroups * GD_SIZEOF) in
  nreads ← udiv (u32 (gsize + (bs - 1))) bs;
  read_group_desc_loop fuel (vfs_dev v) (blk_size v) bs index gsize desc nreads.

(** [sb] is the address of the local structure *)
Definition ext2_read_sb (fuel : nat) (sb : Z) (vfs : Z) : FS D Z :=
  v ← get_vfs vfs;
  ret ← blk_read (vfs_dev v) 1 SB_SIZEOF sb;
  if ret <? 0 then mret ret
  else
    l ← on_mem (ld_list (Z.to_nat SB_SIZEOF) sb);
    if negb (s_magic l =? EXT2_SUPER_MAGIC) then mret (- EBADMAGIC)
    else
      upd_vfs vfs (λ v, v <| blk_size := EXT2_BLOCK_SIZE l |>);;
      ngroups ← udiv (s_blocks_count l) (s_blocks_per_group l);
      gd ← malloc;
      if gd =? 0 then mret (- ENOMEM)
      else
        on_mem (memset gd 0 (u32 (GD_SIZEOF * ngroups)));;
        upd_vfs vfs (λ v, v <| ext2sb := l |>);;
        read_group_desc fuel vfs (if EXT2_BLOCK_SIZE l <=? 1024 then 2 else 1) gd;;
        upd_vfs vfs (λ v, v <| ext2gdesc := gd |>);;
        mret 0.

(** ** ext2inode.c *)

(** The address of the descriptor of a group. *)
Definition group_desc_read (parent group : Z) : FS D Z :=
  p ← get_vnode parent; v ← get_vfs (vfsp p); mret (u32 (ext2gdesc v + GD_SIZEOF * group)).

(** [ino] is the inode of the vnode itself *)
Definition read_inode_index (parent group_desc index : Z) : FS D Z :=
  p ← get_vnode parent; v ← get_vfs (vfsp p);
  let bs := EXT2_BLOCK_SIZE (ext2sb v) in
  bindex ← umod index bs;
  table ← on_mem (ldw (group_desc + 8));
  bcache ← bread (v_rdev p) (u32 (table + index / bs)) (blk_size v);
  if bcache =? 0 then mret (-1)
  else
    b ← get_buf bcache;
    l ← on_mem (ld_list (Z.to_nat INO_SIZEOF) (u32 (b_data b + bindex)));
    upd_vnode parent (λ p, p <| v_ino := l |>);;
    brelse bcache;;
    mret 0.

Definition ext2_read_inode (parent inum : Z) : FS D Z :=
  p ← get_vnode parent; v ← get_vfs (vfsp p);
  let ipg := s_inodes_per_group (ext2sb v) in
  group ← udiv (u32 (inum - 1)) ipg;
  gd ← group_desc_read parent group;
  r ← umod (u32 (inum - 1)) ipg;
  read_inode_index parent gd (u32 (r * INO_SIZEOF));;
  upd_vnode parent (λ p, p <| v_type := i_mode (v_ino p) |> <| v_ops := EXT2_VNODE_OPS |>);;
  mret 0.

(** [bread] a block and look at its word [k]; NULL is not checked for *)
Definition indirect (dev blkno blksz k : Z) : FS D Z :=
  bcache ← bread dev blkno blksz;
  b ← get_buf bcache;
  blk_no ← on_mem (ldw (u32 (b_data b + 4 * k)));
  brelse bcache;;
  mret blk_no.

Definition ext2_bmap (vn offset : Z) : FS D Z :=
  p ← get_vnode vn;
  if offset <? EXT2_IND_BLOCK then mret (i_block (v_ino p) offset)
  else
    v ← get_vfs (vfsp p);
    let itotal := blk_size v / 4 in
    let tot := u32 (itotal + EXT2_IND_BLOCK) in
    if (EXT2_IND_BLOCK <=? offset) && (offset <? tot) then
      indirect (v_rdev p) (i_block (v_ino p) EXT2_IND_BLOCK) (blk_size v) (offset - EXT2_IND_BLOCK)
    else if (tot <=? offset) && (offset <=? u32 (offset + tot)) then
      b1 ← indirect (v_rdev p) (i_block (v_ino p) EXT2_DIND_BLOCK) (blk_size v) (u32 (offset - tot));
      indirect (v_rdev p) b1 (blk_size v) (u32 (offset - tot))
    else
      let totalb := u32 (tot * tot) in
      b1 ← indirect (v_rdev p) (i_block (v_ino p) 15) (blk_size v) (u32 (offset - totalb));
      b2 ← indirect (v_rdev p) b1 (blk_size v) (u32 (offset - totalb));
      indirect (v_rdev p) b2 (blk_size v) (u32 (offset - totalb)).

(** ** Attributes: struct vattr, [ext2_get_attr] and [ext2_put_attr] *)
Record vattr := mk_vattr {
  st_ino : Z; st_mode : Z; st_nlink : Z; st_uid : Z; st_gid : Z; st_size : Z;
  st_atime : Z; st_mtime : Z; st_ctime : Z; st_blksize : Z }.
Definition V_DIRTY : Z := 8.
Definition ext2_get_attr (vn : Z) : FS D vattr :=
  p ← get_vnode vn; v ← get_vfs (vfsp p);
  let ino := v_ino p in
  mret (mk_vattr (v_inum p) (i_mode ino) (i_links_count ino) (i_uid ino) (i_gid ino) (i_size ino)
          (s32 (i_atime ino)) (s32 (i_mtime ino)) (s32 (i_ctime ino)) (s32 (blk_size v))).
Definition ext2_put_attr (vn : Z) (a : vattr) : FS D unit :=
  upd_vnode vn (λ p, p <| v_inum := st_ino a |> <| v_flag ::= Z.lor V_DIRTY |>
    <| v_ino ::= λ ino,
         set32 12 (u32 (st_ctime a)) (set32 16 (u32 (st_mtime a)) (set32 8 (u32 (st_atime a))
        (set32 4 (st_size a) (set16 24 (u16 (st_gid a)) (set16 2 (u16 (st_uid a))
        (set16 26 (u16 (st_nlink a)) (set16 0 (u16 (st_mode a)) ino))))))) |>).

(** ** ext2.c: reading.  The result is the count and the new offset of the file. *)
Fixpoint ext2_read_loop (fuel : nat) (vn offset bufptr size toread read : Z) : FS D (Z * Z) :=
  match fuel with
  | O => spin
  | S fuel =>
      p ← get_vnode vn; v ← get_vfs (vfsp p);
      let blk := blk_size v in
      blkindex ← udiv offset blk;
      blkno ← ext2_bmap vn blkindex;
      bdata ← bread (v_rdev p) blkno blk;
      if bdata =? 0 then mret (- EINVAL, offset)
      else
        let off := offset mod blk in
        b ← get_buf bdata;
        let sz := if toread <? blk - off then toread else blk - off in
        p ← get_vnode vn;
        let sz := if i_size (v_ino p) <? u32 (offset + sz) then u32 (i_size (v_ino p) - offset) else sz in
        on_mem (memcpy bufptr (u32 (b_data b + off)) sz);;
        brelse bdata;;
        let offset := u32 (offset + sz) in
        let read := u32 (read + sz) in
        if i_size (v_ino p) <=? offset then mret (s32 read, offset)
        else if read <? size then
          ext2_read_loop fuel vn offset (u32 (bufptr + sz)) size (u32 (toread - sz)) read
        else mret (s32 read, offset)
  end.
Definition ext2_read (vn offset buf size : Z) : FS D (Z * Z) :=
  p ← get_vnode vn;
  if i_size (v_ino p) <=? offset then mret (0, offset)
  else ext2_read_loop (S (Z.to_nat size)) vn offset buf size size 0.
Definition ext2_write (vn offset buf size : Z) : FS D (Z * Z) := mret (0, offset).
End Ext2.

(** ** The contents of a file *)
Section Files.
Context {D : Type} `{BlkDisk D}.
Implicit Types (s : fsst D).

(** The block of the disk that holds block [k] of the file: one of the 12 blocks of the inode, or
    a word of its indirect block. *)
Definition file_block s (p : vnode) (blk k : Z) : Z :=
  if k <? EXT2_IND_BLOCK then i_block (v_ino p) k
  else le32 (block s (v_rdev p) (i_block (v_ino p) EXT2_IND_BLOCK) blk) (4 * Z.to_nat (k - EXT2_IND_BLOCK)).
Definition file_byte s (p : vnode) (blk o : Z) : Z :=
  content (fdev s) (v_rdev p) (file_block s p blk (o / blk) * blk + o mod blk).

(** The first [N] blocks of the file, which need no double indirect block and which the disk has. *)
Record low_blocks s (p : vnode) (blk N : Z) : Prop := {
  lb_blk : 0 < blk <= 2 ^ 16 ∧ blk mod 4 = 0;
  lb_bytes : all_bytes (v_ino p);
  lb_max : N <= EXT2_IND_BLOCK + blk / 4;
  lb_ind : EXT2_IND_BLOCK < N → served s (v_rdev p) (i_block (v_ino p) EXT2_IND_BLOCK) blk;
  lb_data k : 0 <= k < N → served s (v_rdev p) (file_block s p blk k) blk }.
Lemma low_size s p blk N : low_blocks s p blk N → 0 <= i_size (v_ino p) < 2 ^ 32.
Proof. intros HF. apply le32_range, HF. Qed.
Lemma low_max s p blk N : low_blocks s p blk N → N * blk <= 2 ^ 31.
Proof.
  intros HF. destruct (lb_blk _ _ _ _ HF). pose proof (lb_max _ _ _ _ HF) as Hm. unfold EXT2_IND_BLOCK in Hm.
  assert (blk / 4 <= 2 ^ 14) by (Z.to_euclidean_division_equations; lia). nia.
Qed.

(** Memory outside the areas of the cache is unchanged, and what was mapped is. *)
Definition quiet (sz : Z) s (m m' : bytes) : Prop :=
  (∀ q, (∀ a, area s a → ¬ a <= q < a + sz) → m' !! q = m !! q) ∧
  (∀ a n, mapped m a n → mapped m' a n).
Lemma quiet_refl sz s m : quiet sz s m m.
Proof. done. Qed.
Lemma quiet_trans sz s s' m1 m2 m3 :
  (∀ a, area s' a → area s a) → quiet sz s m1 m2 → quiet sz s' m2 m3 → quiet sz s m1 m3.
Proof.
  intros HA [Q1 M1] [Q2 M2]. split; [|by auto]. intros q Hq. rewrite Q2, Q1; [done..|]. intros a Ha. by apply Hq, HA.
Qed.
Lemma quiet_put sz s a l m : area s a → Z.of_nat (length l) = sz → quiet sz s m (put a l m).
Proof.
  intros Ha Hl. split; [|intros; by apply put_mapped]. intros q Hq. rewrite lookup_put, decide_False; [done|].
  rewrite Hl. by apply Hq.
Qed.

(** The addresses the cache hands out are below 2^32. *)
Definition addr_ok (sz : Z) s : Prop := ∀ a, area s a → 0 <= a ∧ a + sz <= 2 ^ 32.

Lemma indirect_spec sz s free k dev blkno i :
  bc_inv sz s free → bc_can (S k) s free → addr_ok sz s → served s dev blkno sz → 0 <= i → 4 * i + 4 <= sz →
  ∃ s' free', indirect dev blkno sz i s = Ret (le32 (block s dev blkno sz) (4 * Z.to_nat i)) s' ∧
    bc_inv sz s' free' ∧ bc_can k s' free' ∧ bc_frame sz s free s' free' ∧ fs_same s s' ∧ quiet sz s (fmem s) (fmem s').
Proof.
  intros HI HC HA HS Hi0 Hi.
  destruct (bread_brelse sz s free k dev blkno) as (s1&p&b&E1&Hp&Eb&Ab&HS1&Em&HK); [done..|lia|].
  pose proof (block_length s dev blkno sz ltac:(lia)) as Hlen. destruct (HA _ Ab) as [Ha0 Ha1].
  destruct (HK s1) as (s2&free2&E2&HI2&HC2&HF2&HS2&Em2); [done|..].
  { rewrite Em. apply put_holds; [apply block_bytes|apply (bi_bytes _ _ _ HI)]. }
  { done. }
  exists s2, free2. split_and!; try done.
  - unfold indirect. fs_run ltac:(exact E1). fs_run ltac:(by apply get_buf_Ret).
    fs_run ltac:(apply (on_mem_rd _ (le32 (block s dev blkno sz) (4 * Z.to_nat i)));
      rewrite u32_id by lia; replace (4 * i) with (Z.of_nat (4 * Z.to_nat i)) by lia;
      apply ldw_at; [rewrite Em; apply at_mem_put|lia]).
    by fs_run ltac:(exact E2).
  - by transitivity s1.
  - rewrite Em2, Em. by apply quiet_put.
Qed.

Lemma low_blocks_frame sz s free s' free' p N : bc_frame sz s free s' free' → low_blocks s p sz N → low_blocks s' p sz N.
Proof.
  intros HF []. pose proof (bf_disk _ _ _ _ _ HF) as HD.
  assert (HB : ∀ k, file_block s' p sz k = file_block s p sz k).
  { intros k. unfold file_block. by rewrite (same_disk_block _ _ _ _ _ HD). }
  split; try done.
  - intros. by eapply same_disk_served, lb_ind0.
  - intros. rewrite HB. by eapply same_disk_served, lb_data0.
Qed.
Lemma file_byte_frame sz s free s' free' p o : bc_frame sz s free s' free' → file_byte s' p sz o = file_byte s p sz o.
Proof.
  intros HF. destruct (bf_disk _ _ _ _ _ HF) as (_&HC&_). unfold file_byte, file_block.
  by rewrite HC, (same_disk_block _ _ _ _ _ (bf_disk _ _ _ _ _ HF)).
Qed.
Lemma addr_ok_frame sz s free s' free' : bc_frame sz s free s' free' → addr_ok sz s → addr_ok sz s'.
Proof. intros HF HA a Ha. by apply HA, (bf_area _ _ _ _ _ HF). Qed.

Lemma bmap_spec sz s free k vn p v N i :
  bc_inv sz s free → bc_can (S k) s free → addr_ok sz s →
  vnodes s !! vn = Some p → vfss s !! vfsp p = Some v → blk_size v = sz → low_blocks s p sz N →
  0 <= i < N →
  ∃ s' free', ext2_bmap vn i s = Ret (file_block s p sz i) s' ∧
    bc_inv sz s' free' ∧ bc_can k s' free' ∧ bc_frame sz s free s' free' ∧ fs_same s s' ∧ quiet sz s (fmem s) (fmem s').
Proof.
  intros HI HC HA Ep Ev Hsz HF [Hi0 Hi]. destruct (lb_blk _ _ _ _ HF) as [Hb Hb4]. pose proof (lb_max _ _ _ _ HF) as Hs.
  unfold ext2_bmap, file_block. fs_run ltac:(by apply get_vnode_Ret).
  destruct (Z.ltb_spec i EXT2_IND_BLOCK) as [Hlt|Hge].
  - exists s, free. split_and!; [done|done| |by apply bc_frame_refl|done|apply quiet_refl].
    destruct HC. split; [lia|done].
  - unfold EXT2_IND_BLOCK in *. fs_run ltac:(by apply get_vfs_Ret). rewrite Hsz. cbv zeta.
    assert (i < 12 + sz / 4) by lia.
    assert (0 <= sz / 4 <= 2 ^ 16) by (Z.to_euclidean_division_equations; lia).
    rewrite (proj2 (Z.leb_le 12 i)), u32_id, (proj2 (Z.ltb_lt i _)) by lia. cbn [andb].
    destruct (indirect_spec sz s free k (v_rdev p) (i_block (v_ino p) 12) (i - 12))
      as (s'&free'&E&?); [done..| |lia| |].
    + apply (lb_ind _ _ _ _ HF). unfold EXT2_IND_BLOCK. lia.
    + Z.to_euclidean_division_equations; lia.
    + exists s', free'. done.
Qed.

(** The count of the next transfer, and how many blocks [n] bytes at [o] are in. *)
Definition chunk (blk o n : Z) : Z := Z.min n (blk - o mod blk).
Definition nblocks (blk o n : Z) : nat := Z.to_nat ((o + n - 1) / blk - o / blk + 1).

Lemma chunk_bytes s p blk o n :
  0 < blk → 0 < n → 0 <= o →
  take (Z.to_nat (chunk blk o n)) (drop (Z.to_nat (o mod blk)) (block s (v_rdev p) (file_block s p blk (o / blk)) blk)) =
    file_byte s p blk <$> seqZ o (chunk blk o n).
Proof.
  intros Hb Hn Ho. assert (0 <= o mod blk < blk) by (by apply Z.mod_pos_bound). unfold chunk.
  apply list_eq. intros i. rewrite lookup_take, list_lookup_fmap.
  destruct (decide (i < Z.to_nat (Z.min n (blk - o mod blk)))%nat) as [Hi|Hi].
  - rewrite lookup_seqZ_lt, lookup_drop by lia. cbn.
    replace (Z.to_nat (o mod blk) + i)%nat with (Z.to_nat (o mod blk + i)) by lia.
    rewrite block_lookup by lia. unfold file_byte. do 2 f_equal.
    assert (o = blk * (o / blk) + o mod blk) by (apply Z.div_mod; lia).
    assert (E : (o + i) / blk = o / blk) by (symmetry; apply (Z.div_unique _ _ _ (o mod blk + i)); lia).
    assert (E' : (o + i) mod blk = o mod blk + i) by (symmetry; apply (Z.mod_unique _ _ (o / blk)); lia).
    rewrite E, E'. lia.
  - rewrite lookup_seqZ_ge by lia. done.
Qed.

Lemma all_bytes_sub (l : list Z) i n : all_bytes l → all_bytes (take n (drop i l)).
Proof. intros. by apply Forall_take, Forall_drop. Qed.
Lemma at_mem_sub m a l i n :
  at_mem m a l → (i + n <= length l)%nat → at_mem m (a + i) (take n (drop i l)).
Proof.
  intros HA Hl. rewrite <- (take_drop i l), at_mem_app in HA. destruct HA as [_ HA]. rewrite length_take in HA.
  rewrite Nat.min_l in HA by lia. rewrite <- (take_drop n (drop i l)), at_mem_app in HA. by destruct HA.
Qed.

(** One round of the loop: [sz] bytes of the block at the offset are copied. *)
Lemma read_round sz s free k vn p v N o buf n :
  bc_inv sz s free → bc_can (S (S k)) s free → addr_ok sz s →
  vnodes s !! vn = Some p → vfss s !! vfsp p = Some v → blk_size v = sz → low_blocks s p sz N →
  0 <= o → 0 < n → o / sz < N → mapped (fmem s) buf n →
  (∀ a, area s a → a + sz <= buf ∨ buf + n <= a) →
  ∃ s1 s2 s3 free3 bd b,
    ext2_bmap vn (o / sz) s = Ret (file_block s p sz (o / sz)) s1 ∧
    bread (v_rdev p) (file_block s p sz (o / sz)) sz s1 = Ret bd s2 ∧ bd ≠ 0 ∧
    bufs s2 !! bd = Some b ∧ 0 <= b_data b < 2 ^ 32 ∧ vnodes s2 !! vn = Some p ∧
    (let c := chunk sz o n in
     on_mem (memcpy buf (u32 (b_data b + o mod sz)) c) s2
       = Ret buf (s2 <| fmem := put buf (file_byte s p sz <$> seqZ o c) (fmem s2) |>) ∧
     brelse bd (s2 <| fmem := put buf (file_byte s p sz <$> seqZ o c) (fmem s2) |>) = Ret 0 s3) ∧
    bc_inv sz s3 free3 ∧ bc_can k s3 free3 ∧ bc_frame sz s free s3 free3 ∧ fs_same s s3 ∧
    fmem s3 = put buf (file_byte s p sz <$> seqZ o (chunk sz o n)) (fmem s2) ∧ quiet sz s (fmem s) (fmem s2).
Proof.
  intros HI HC HA Ep Ev Hsz HF Ho Hn Hsize HM Hap. pose proof (lb_blk _ _ _ _ HF) as [Hb _].
  assert (Hmod : 0 <= o mod sz < sz) by (apply Z.mod_pos_bound; lia).
  assert (Hdiv : o = sz * (o / sz) + o mod sz) by (apply Z.div_mod; lia).
  destruct (bmap_spec sz s free (S k) vn p v N (o / sz)) as (s1&free1&E1&HI1&HC1&HF1&HS1&HQ1);
    [done..|split; [apply Z.div_pos; lia|done]|].
  destruct (bread_brelse sz s1 free1 k (v_rdev p) (file_block s p sz (o / sz)))
    as (s2&bd&b&E2&Hbd&Eb&Ab&HS2&Em2&HK); [done..| |lia|].
  { eapply same_disk_served; [apply HF1|]. apply (lb_data _ _ _ _ HF). split; [apply Z.div_pos; lia|done]. }
  rewrite (same_disk_block _ _ _ _ _ (bf_disk _ _ _ _ _ HF1)) in Em2.
  apply (bf_area _ _ _ _ _ HF1) in Ab. destruct (HA _ Ab) as [Ha0 Ha1].
  set (l := block s (v_rdev p) (file_block s p sz (o / sz)) sz) in *.
  assert (Hl : Z.of_nat (length l) = sz) by (apply block_length; lia).
  assert (Hc : 0 < chunk sz o n <= n ∧ o mod sz + chunk sz o n <= sz) by (unfold chunk; lia).
  pose proof (chunk_bytes s p sz o n ltac:(lia) Hn Ho) as Ech. fold l in Ech.
  set (l' := file_byte s p sz <$> seqZ o (chunk sz o n)) in *.
  assert (Hl' : Z.of_nat (length l') = chunk sz o n).
  { unfold l'. rewrite length_fmap, length_seqZ. lia. }
  assert (HQ2 : quiet sz s (fmem s) (fmem s2)).
  { rewrite Em2. eapply quiet_trans; [..|exact HQ1|]; [done|]. by apply quiet_put. }
  assert (Hbl : all_bytes l') by (rewrite <- Ech; apply all_bytes_sub, block_bytes).
  assert (Hm2 : holds_bytes (fmem s2)).
  { rewrite Em2. apply put_holds; [apply block_bytes|apply (bi_bytes _ _ _ HI1)]. }
  destruct (HK (s2 <| fmem := put buf l' (fmem s2) |>)) as (s3&free3&E3&HI3&HC3&HF3&HS3&Em3).
  { done. }
  { by apply put_holds. }
  { intros a m. apply put_mapped. }
  exists s1, s2, s3, free3, bd, b. split_and!; try done; try lia.
  - by rewrite (proj1 HS2), (proj1 HS1).
  - cbv zeta. split; [|done]. apply on_mem_Ret. rewrite u32_id by lia. apply memcpy_put; [..|done|done| |].
    + fold l'. rewrite <- Ech. replace (o mod sz) with (Z.of_nat (Z.to_nat (o mod sz))) at 1 by lia.
      apply at_mem_sub; [rewrite Em2; apply at_mem_put|lia].
    + apply HQ2. intros i Hi. apply HM. lia.
    + destruct (Hap _ Ab); lia.
  - by eapply bc_frame_trans.
  - transitivity s1; [done|]. by transitivity s2.
Qed.

(** The state after [n] bytes of the file at offset [o] were copied to [buf]. *)
Record was_read (sz : Z) s (free : list Z) (p : vnode) (o buf n : Z) s' : Prop := {
  wr_free : ∃ free', bc_inv sz s' free' ∧ bc_frame sz s free s' free';
  wr_same : fs_same s s';
  wr_data : at_mem (fmem s') buf (file_byte s p sz <$> seqZ o n);
  wr_rest q : ¬ buf <= q < buf + n → (∀ a, area s a → ¬ a <= q < a + sz) → fmem s' !! q = fmem s !! q }.

Lemma was_read_app sz s free p o buf c n s2 s3 free3 s' :
  bc_frame sz s free s3 free3 → fs_same s s3 → quiet sz s (fmem s) (fmem s2) → 0 <= c → 0 <= n →
  (∀ a, area s a → a + sz <= buf ∨ buf + (c + n) <= a) →
  fmem s3 = put buf (file_byte s p sz <$> seqZ o c) (fmem s2) →
  was_read sz s3 free3 p (o + c) (buf + c) n s' → was_read sz s free p o buf (c + n) s'.
Proof.
  intros HF HS [HQ _] Hc Hn Hap Em [(free'&HI&HF') HS' HD HR].
  assert (Hlen : Z.of_nat (length (file_byte s p sz <$> seqZ o c)) = c) by (rewrite length_fmap, length_seqZ; lia).
  split.
  - exists free'. split; [done|]. by eapply bc_frame_trans.
  - by transitivity s3.
  - rewrite seqZ_app, fmap_app by lia. apply at_mem_app. rewrite Hlen. split.
    + intros i Hi. rewrite HR.
      * rewrite Em. by apply at_mem_put.
      * lia.
      * intros a Ha Hq. apply (bf_area _ _ _ _ _ HF) in Ha. destruct (Hap _ Ha); lia.
    + erewrite list_fmap_ext; [exact HD|]. intros i x _. symmetry. by eapply file_byte_frame.
  - intros q Hq Ha. rewrite HR, Em, lookup_put, Hlen, decide_False; [by apply HQ|lia..|].
    intros a Ha'. by apply Ha, (bf_area _ _ _ _ _ HF).
Qed.

Lemma read_step_sz sz o toread isz :
  0 < sz → 0 <= o < isz → 0 < toread → isz < 2 ^ 32 → o + Z.min toread (sz - o mod sz) < 2 ^ 32 →
  let sz0 := if toread <? sz - o mod sz then toread else sz - o mod sz in
  (if isz <? u32 (o + sz0) then u32 (isz - o) else sz0) = chunk sz o (Z.min toread (isz - o)).
Proof.
  intros Hs Ho Ht Hi Hov. assert (0 <= o mod sz < sz) by (by apply Z.mod_pos_bound). cbv zeta. unfold chunk.
  destruct (Z.ltb_spec toread (sz - o mod sz)); rewrite u32_id by lia; split_if; zbool;
    rewrite ?u32_id by lia; lia.
Qed.
Lemma nblocks_next sz o n : 0 < sz → 0 <= o → sz - o mod sz < n →
  nblocks sz o n = S (nblocks sz (o + (sz - o mod sz)) (n - (sz - o mod sz))).
Proof.
  intros Hs Ho Hn. unfold nblocks. assert (0 <= o mod sz < sz) by (by apply Z.mod_pos_bound).
  assert (Hd : o = sz * (o / sz) + o mod sz) by (apply Z.div_mod; lia).
  replace (o + (sz - o mod sz) + (n - (sz - o mod sz)) - 1) with (o + n - 1) by lia.
  assert (E : (o + (sz - o mod sz)) / sz = o / sz + 1) by (symmetry; apply (Z.div_unique _ _ _ 0); lia).
  rewrite E. assert ((o + (sz - o mod sz)) / sz <= (o + n - 1) / sz) by (apply Z.div_le_mono; lia). lia.
Qed.
Lemma nblocks_pos sz o n : 0 < sz → 0 < n → (1 <= nblocks sz o n)%nat.
Proof. intros. unfold nblocks. assert (o / sz <= (o + n - 1) / sz) by (apply Z.div_le_mono; lia). lia. Qed.

Lemma read_loop_spec sz vn p v N k : ∀ fuel s free o buf size toread read,
  bc_inv sz s free → bc_can (2 * k) s free → addr_ok sz s →
  vnodes s !! vn = Some p → vfss s !! vfsp p = Some v → blk_size v = sz → low_blocks s p sz N →
  let n := Z.min toread (i_size (v_ino p) - o) in
  0 <= o → 0 < n → o + n <= N * sz → (nblocks sz o n <= k)%nat → (k <= fuel)%nat →
  0 <= read → size = read + toread → size < 2 ^ 31 → 0 <= buf → buf + n <= 2 ^ 32 →
  mapped (fmem s) buf n → (∀ a, area s a → a + sz <= buf ∨ buf + n <= a) →
  ∃ s', ext2_read_loop fuel vn o buf size toread read s = Ret (read + n, o + n) s' ∧ was_read sz s free p o buf n s'.
Proof.
  induction k as [|k IH]; intros fuel s free o buf size toread read HI HC HA Ep Ev Hsz HF n Ho Hn HN Hk Hfuel Hr Hs Hs31 Hb0 Hb HM Hap.
  { pose proof (lb_blk _ _ _ _ HF). pose proof (nblocks_pos sz o n ltac:(lia) Hn). lia. }
  destruct fuel as [|fuel]; [lia|]. pose proof (lb_blk _ _ _ _ HF) as [Hblk _]. pose proof (low_size _ _ _ _ HF) as Hisz.
  pose proof (low_max _ _ _ _ HF) as Hmax.
  destruct (read_round sz s free (2 * k)%nat vn p v N o buf n) as (s1&s2&s3&free3&bd&b&E1&E2&Hbd&Eb&_&Ep2&[E3 E4]&HI3&HC3&HF3&HS3&Em3&HQ);
    try done;
    [by replace (S (S (2 * k)))%nat with (2 * S k)%nat by lia|apply Z.div_lt_upper_bound; lia|].
  assert (Hov : o + Z.min toread (sz - o mod sz) < 2 ^ 32) by (assert (0 <= o mod sz < sz) by (apply Z.mod_pos_bound; lia); lia).
  pose proof (read_step_sz sz o toread (i_size (v_ino p)) ltac:(lia) ltac:(lia) ltac:(lia) ltac:(lia) Hov) as Ec.
  cbv zeta in Ec. fold n in Ec. set (c := chunk sz o n) in *.
  assert (Hc : 0 < c <= n) by (unfold c, chunk; assert (0 <= o mod sz < sz) by (apply Z.mod_pos_bound; lia); lia).
  assert (W1 : was_read sz s3 free3 p (o + c) (buf + c) 0 s3).
  { split; [exists free3; split; [done|by apply bc_frame_refl]|done|rewrite seqZ_nil by lia; intros i Hi; cbn in Hi; lia|done]. }
  cbn [ext2_read_loop]. fs_run ltac:(by apply get_vnode_Ret). fs_run ltac:(by apply get_vfs_Ret). rewrite Hsz. cbv zeta.
  fs_run ltac:(unfold udiv; rewrite (proj2 (Z.eqb_neq sz 0)) by lia; reflexivity).
  fs_run ltac:(exact E1). fs_run ltac:(exact E2). rewrite (proj2 (Z.eqb_neq bd 0)) by done.
  fs_run ltac:(by apply get_buf_Ret). fs_run ltac:(by apply get_vnode_Ret). rewrite Ec.
  fs_run ltac:(exact E3). fs_run ltac:(exact E4). rewrite !(u32_id (o + c)), !(u32_id (read + c)) by lia.
  assert (HD : n = c → was_read sz s free p o buf n s3).
  { intros Hnc. replace n with (c + 0) by lia. eapply was_read_app; [done..|lia|lia| |done|done].
    by replace (c + 0) with n by lia. }
  destruct (Z.leb_spec (i_size (v_ino p)) (o + c)) as [Hend|Hend].
  { assert (n = c) by lia. exists s3. rewrite s32_id by lia. split; [f_equal; f_equal; lia|auto]. }
  destruct (Z.ltb_spec (read + c) size) as [Hmore|Hdone].
  2: { assert (n = c) by lia. exists s3. rewrite s32_id by lia. split; [f_equal; f_equal; lia|auto]. }
  assert (Hcn : c = sz - o mod sz ∧ c < n) by (unfold c, chunk in *; lia).
  rewrite !u32_id by lia.
  destruct (IH fuel s3 free3 (o + c) (buf + c) size (toread - c) (read + c)) as (s'&E'&W'); try done; try lia.
  all: try (by eapply addr_ok_frame). all: try (by eapply low_blocks_frame).
  - by rewrite (proj1 HS3).
  - destruct HS3 as (_&_&->&_). done.
  - pose proof (nblocks_next sz o n ltac:(lia) Ho ltac:(lia)) as HNb. destruct Hcn as [-> _].
    replace (Z.min _ _) with (n - (sz - o mod sz)) by lia. lia.
  - rewrite Em3. apply put_mapped. intros i Hi. rewrite <- Z.add_assoc. apply (proj2 HQ buf n HM). lia.
  - intros a Ha. apply (bf_area _ _ _ _ _ HF3) in Ha. destruct (Hap _ Ha); lia.
  - replace (Z.min (toread - c) (i_size (v_ino p) - (o + c))) with (n - c) in * by lia.
    exists s'. split; [rewrite E'; f_equal; f_equal; lia|].
    replace n with (c + (n - c)) by lia. eapply was_read_app; [done..|lia|lia| |done|done].
    by replace (c + (n - c)) with n by lia.
Qed.

Lemma nblocks_le sz o n : 0 < sz → 0 < n → (nblocks sz o n <= Z.to_nat n)%nat.
Proof.
  intros. unfold nblocks. assert ((o + n - 1) / sz <= o / sz + (n - 1)).
  { replace (o + n - 1) with (o + (n - 1)) by lia. transitivity ((o + (n - 1) * sz) / sz).
    - apply Z.div_le_mono; nia.
    - rewrite Z.div_add by lia. lia. }
  lia.
Qed.

(** [ext2_read], when what is read is in the first blocks of the file, from an offset [o], copies to
    the buffer exactly the bytes the file has there, as many as were asked for or as are left,
    and answers their count and the offset after them; no other memory of the server changes
    but that of the block cache, and the cache is consistent again. *)
Lemma ext2_read_file sz s free vn p v N o buf size :
  bc_inv sz s free → addr_ok sz s → bc_can (2 * nblocks sz o size) s free →
  vnodes s !! vn = Some p → vfss s !! vfsp p = Some v → blk_size v = sz → low_blocks s p sz N →
  0 <= o → 0 < size < 2 ^ 31 → Z.min (o + size) (i_size (v_ino p)) <= N * sz → 0 <= buf → buf + size <= 2 ^ 32 →
  mapped (fmem s) buf size → (∀ a, area s a → a + sz <= buf ∨ buf + size <= a) →
  let n := Z.max 0 (Z.min size (i_size (v_ino p) - o)) in
  ∃ s', ext2_read vn o buf size s = Ret (n, o + n) s' ∧ was_read sz s free p o buf n s'.
Proof.
  intros HI HA HC Ep Ev Hsz HF Ho Hs HN Hb0 Hb HM Hap n. pose proof (lb_blk _ _ _ _ HF) as [Hblk _].
  unfold ext2_read. fs_run ltac:(by apply get_vnode_Ret).
  destruct (Z.leb_spec (i_size (v_ino p)) o) as [He|He].
  - assert (n = 0) as -> by lia. exists s. split; [do 2 f_equal; lia|].
    split; [exists free; split; [done|apply bc_frame_refl]|done| |done].
    rewrite seqZ_nil by lia. intros i Hi. cbn in Hi. lia.
  - replace n with (Z.min size (i_size (v_ino p) - o)) by lia.
    assert (Hnb : (nblocks sz o (Z.min size (i_size (v_ino p) - o)) <= nblocks sz o size)%nat).
    { unfold nblocks. assert ((o + Z.min size (i_size (v_ino p) - o) - 1) / sz <= (o + size - 1) / sz);
        [apply Z.div_le_mono; lia|lia]. }
    pose proof (nblocks_le sz o size ltac:(lia) ltac:(lia)).
    apply (read_loop_spec sz vn p v N (nblocks sz o size)); try done; try lia.
    + intros i Hi. apply HM. lia.
    + intros a Ha. destruct (Hap a Ha); lia.
Qed.

(** ** Inodes *)
(** An inode table at block [table]: the inode with the number [inum] of its group. *)
Definition inode_at s (dev sz table index : Z) : list Z := content (fdev s) dev <$> seqZ (table * sz + index) INO_SIZEOF.

Lemma inode_bytes s dev sz table index :
  0 < sz → 0 <= index → index mod sz + INO_SIZEOF <= sz →
  take (Z.to_nat INO_SIZEOF) (drop (Z.to_nat (index mod sz)) (block s dev (table + index / sz) sz)) = inode_at s dev sz table index.
Proof.
  intros Hs Hi Hm. unfold INO_SIZEOF in *. assert (0 <= index mod sz) by (by apply Z.mod_pos_bound).
  apply list_eq. intros i. unfold inode_at, INO_SIZEOF. rewrite lookup_take, list_lookup_fmap, lookup_drop.
  destruct (decide (i < Z.to_nat 128)%nat).
  - rewrite lookup_seqZ_lt by lia. replace (Z.to_nat (index mod sz) + i)%nat with (Z.to_nat (index mod sz + i)) by lia.
    rewrite block_lookup by lia. cbn. do 2 f_equal. rewrite (Z.div_mod index sz) at 3 by lia. lia.
  - by rewrite lookup_seqZ_ge by lia.
Qed.

Lemma read_inode_index_spec sz s free k vn p v gd index table :
  bc_inv sz s free → bc_can (S k) s free → addr_ok sz s →
  vnodes s !! vn = Some p → vfss s !! vfsp p = Some v → blk_size v = sz → EXT2_BLOCK_SIZE (ext2sb v) = sz →
  0 < sz → 0 <= index → index mod sz + INO_SIZEOF <= sz → ldw (gd + 8) (fmem s) = Ret table (fmem s) →
  0 <= table → table + index / sz < 2 ^ 32 → served s (v_rdev p) (table + index / sz) sz →
  ∃ s' free', read_inode_index vn gd index s = Ret 0 s' ∧
    bc_inv sz s' free' ∧ bc_can k s' free' ∧ bc_frame sz s free s' free' ∧ quiet sz s (fmem s) (fmem s') ∧
    fs_same (s <| vnodes ::= <[vn := p <| v_ino := inode_at s (v_rdev p) sz table index |>]> |>) s'.
Proof.
  intros HI HC HA Ep Ev Hsz Hbs Hs Hi Hm Et Ht0 Ht HS.
  destruct (bread_brelse sz s free k (v_rdev p) (table + index / sz)) as (s1&bd&b&E1&Hbd&Eb&Ab&HS1&Em&HK); [done..|lia|].
  destruct (HA _ Ab) as [Ha0 Ha1]. pose proof (inode_bytes s (v_rdev p) sz table index Hs Hi Hm) as El.
  set (l := inode_at s (v_rdev p) sz table index) in *.
  destruct (HK (s1 <| vnodes ::= <[vn := p <| v_ino := l |>]> |>)) as (s2&free2&E2&HI2&HC2&HF2&HS2&Em2); [done|..].
  { cbn. rewrite Em. apply put_holds; [apply block_bytes|apply (bi_bytes _ _ _ HI)]. }
  { done. }
  assert (0 <= index / sz) by (apply Z.div_pos; lia). assert (0 <= index mod sz < sz) by (by apply Z.mod_pos_bound).
  pose proof (block_length s (v_rdev p) (table + index / sz) sz ltac:(lia)) as Hl.
  exists s2, free2. split_and!; try done.
  - unfold read_inode_index. fs_run ltac:(by apply get_vnode_Ret). fs_run ltac:(by apply get_vfs_Ret). rewrite Hsz, Hbs. cbv zeta.
    fs_run ltac:(unfold umod; rewrite (proj2 (Z.eqb_neq sz 0)) by lia; reflexivity).
    fs_run ltac:(apply on_mem_rd; exact Et). rewrite u32_id by lia.
    fs_run ltac:(exact E1). rewrite (proj2 (Z.eqb_neq bd 0)) by done. fs_run ltac:(by apply get_buf_Ret).
    fs_run ltac:(apply (on_mem_rd _ l); rewrite u32_id by (unfold INO_SIZEOF in *; lia); rewrite <- El;
      replace (index mod sz) with (Z.of_nat (Z.to_nat (index mod sz))) at 1 by lia;
      replace (Z.to_nat INO_SIZEOF) with (length (take (Z.to_nat INO_SIZEOF)
        (drop (Z.to_nat (index mod sz)) (block s (v_rdev p) (table + index / sz) sz)))) at 1
        by (rewrite length_take, length_drop; unfold INO_SIZEOF in *; lia);
      apply ld_list_spec, at_mem_sub; [rewrite Em; apply at_mem_put|unfold INO_SIZEOF in *; lia]).
    fs_run ltac:(apply upd_vnode_Ret; rewrite (proj1 HS1 : vnodes s1 = vnodes s); exact Ep).
    match goal with |- ?f ?st = _ => change st with (s1 <| vnodes ::= <[vn := p <| v_ino := l |>]> |>) end.
    by fs_run ltac:(exact E2).
  - rewrite Em2. change (fmem (s1 <| vnodes ::= <[vn := p <| v_ino := l |>]> |>)) with (fmem s1). rewrite Em. by apply quiet_put.
  - transitivity (s1 <| vnodes ::= <[vn := p <| v_ino := l |>]> |>); [|done].
    destruct HS1 as (E&?&?&?&?&?). unfold fs_same. cbn. rewrite E. done.
Qed.

Lemma bc_can_same k s s' free : cache_same s s' → bc_can k s free → bc_can k s' free.
Proof. intros (_&Eh&_&_&_&Em&Ec&_). unfold bc_can. by rewrite Eh, Em, Ec. Qed.

(** [ext2_read_inode] fills the vnode with the 128 bytes the inode table of its group
    has for the inode number, sets the type from the mode in them, and changes no other
    vnode; the table is taken to start at the block the group descriptor names. *)
Lemma ext2_read_inode_spec sz s free k vn p v inum table :
  bc_inv sz s free → bc_can (S k) s free → addr_ok sz s →
  vnodes s !! vn = Some p → vfss s !! vfsp p = Some v → blk_size v = sz → EXT2_BLOCK_SIZE (ext2sb v) = sz →
  0 < sz → sz mod INO_SIZEOF = 0 →
  let ipg := s_inodes_per_group (ext2sb v) in
  let gd := ext2gdesc v + GD_SIZEOF * ((inum - 1) / ipg) in
  let index := (inum - 1) mod ipg * INO_SIZEOF in
  0 < ipg < 2 ^ 25 → 1 <= inum < 2 ^ 31 → 0 <= gd < 2 ^ 32 → ldw (gd + 8) (fmem s) = Ret table (fmem s) →
  0 <= table → table + index / sz < 2 ^ 32 → served s (v_rdev p) (table + index / sz) sz →
  let l := inode_at s (v_rdev p) sz table index in
  ∃ s' free', ext2_read_inode vn inum s = Ret 0 s' ∧
    bc_inv sz s' free' ∧ bc_can k s' free' ∧ bc_frame sz s free s' free' ∧ quiet sz s (fmem s) (fmem s') ∧
    fs_same (s <| vnodes ::= <[vn := p <| v_ino := l |> <| v_type := i_mode l |> <| v_ops := EXT2_VNODE_OPS |>]> |>) s'.
Proof.
  intros HI HC HA Ep Ev Hsz Hbs Hs Hdvd ipg gd index Hipg Hin Hgd Et Ht0 Ht HS l.
  assert (Hr : 0 <= (inum - 1) mod ipg < ipg) by (apply Z.mod_pos_bound; lia).
  assert (Hix : 0 <= index < 2 ^ 32) by (unfold index, INO_SIZEOF; lia).
  assert (Him : index mod sz + INO_SIZEOF <= sz).
  { apply Z.mod_divide in Hdvd as [q Hq]; [|done]. unfold index. rewrite Hq, Z.mul_mod_distr_r by (unfold INO_SIZEOF in *; lia).
    assert (0 <= ((inum - 1) mod ipg) mod q < q) by (apply Z.mod_pos_bound; unfold INO_SIZEOF in *; lia).
    unfold INO_SIZEOF in *. lia. }
  destruct (read_inode_index_spec sz s free k vn p v gd index table) as (s1&free1&E1&HI1&HC1&HF1&HQ1&HS1); try done; [lia|].
  fold l in HS1. pose proof (proj1 HS1) as Ev1. cbn in Ev1.
  set (p' := p <| v_ino := l |> <| v_type := i_mode l |> <| v_ops := EXT2_VNODE_OPS |>).
  exists (s1 <| vnodes ::= <[vn := p']> |>), free1. split_and!; try done.
  - unfold ext2_read_inode. fs_run ltac:(by apply get_vnode_Ret). fs_run ltac:(by apply get_vfs_Ret). cbv zeta. fold ipg.
    rewrite (u32_id (inum - 1)) by lia. unfold udiv, umod. rewrite (proj2 (Z.eqb_neq ipg 0)) by lia.
    fs_run ltac:(reflexivity).
    fs_run ltac:(unfold group_desc_read; fs_run ltac:(by apply get_vnode_Ret); fs_run ltac:(by apply get_vfs_Ret);
      fold gd; rewrite u32_id by lia; reflexivity).
    fs_run ltac:(reflexivity). rewrite u32_id by (fold index; lia). fs_run ltac:(exact E1).
    by fs_run ltac:(apply upd_vnode_Ret; rewrite Ev1; apply lookup_insert_eq).
  - eapply inv_same; [..|exact HI1]; [done|apply (bi_bytes _ _ _ HI1)|done].
  - destruct HF1. by split.
  - destruct HS1 as (_&?&?&?&?&?). unfold fs_same. cbn. rewrite Ev1, insert_insert_eq. done.
Qed.

(** Past the indirect block, [ext2_bmap] looks at the same word of both levels, so it finds
    another block than the one the file has there. *)
Lemma ext2_bmap_double sz s free k vn p v i :
  bc_inv sz s free → bc_can (S (S k)) s free → addr_ok sz s →
  vnodes s !! vn = Some p → vfss s !! vfsp p = Some v → blk_size v = sz → 0 < sz <= 2 ^ 16 → sz mod 4 = 0 →
  let tot := EXT2_IND_BLOCK + sz / 4 in
  let j := i - tot in
  tot <= i → j < sz / 4 → i + tot < 2 ^ 32 →
  let b1 := le32 (block s (v_rdev p) (i_block (v_ino p) EXT2_DIND_BLOCK) sz) (4 * Z.to_nat j) in
  served s (v_rdev p) (i_block (v_ino p) EXT2_DIND_BLOCK) sz → served s (v_rdev p) b1 sz →
  ∃ s', ext2_bmap vn i s = Ret (le32 (block s (v_rdev p) b1 sz) (4 * Z.to_nat j)) s'.
Proof.
  intros HI HC HA Ep Ev Hsz Hs H4 tot j Hi Hj Hov b1 HS1 HS2. unfold tot, EXT2_IND_BLOCK in *.
  assert (0 <= sz / 4 <= 2 ^ 14) by (Z.to_euclidean_division_equations; lia).
  unfold ext2_bmap, EXT2_IND_BLOCK. fs_run ltac:(by apply get_vnode_Ret). rewrite (proj2 (Z.ltb_ge i 12)) by lia.
  fs_run ltac:(by apply get_vfs_Ret). rewrite Hsz. cbv zeta. replace (sz / 4 + 12) with (12 + sz / 4) by lia.
  rewrite (u32_id (12 + sz / 4)), (proj2 (Z.ltb_ge i _)), andb_false_r, (proj2 (Z.leb_le (12 + sz / 4) i)) by lia.
  rewrite (u32_id (i + _)), (proj2 (Z.leb_le i _)), (u32_id (i - _)) by lia. cbn [andb]. fold j.
  destruct (indirect_spec sz s free (S k) (v_rdev p) (i_block (v_ino p) EXT2_DIND_BLOCK) j) as (s1&free1&E1&HI1&HC1&HF1&_);
    [done..|lia|Z.to_euclidean_division_equations; lia|].
  destruct (indirect_spec sz s1 free1 k (v_rdev p) b1 j) as (s2&free2&E2&_);
    [done..|by eapply addr_ok_frame|eapply same_disk_served; [apply HF1|done]|lia|Z.to_euclidean_division_equations; lia|].
  exists s2. fs_run ltac:(exact E1). fold b1. rewrite E2. by rewrite (same_disk_block _ _ _ _ _ (bf_disk _ _ _ _ _ HF1)).
Qed.
End Files.

(** ** A file on the disk in memory *)
Definition demo_ino : list Z := [0xA4; 0x81; 0; 0; 12] ++ replicate 35 0 ++ [5] ++ replicate 87 0.
Definition demo_sb : list Z := replicate 40 0 ++ [64] ++ replicate 983 0.
Definition demo_vnode : vnode := mk_vnode 0 1 0 600 12 demo_dev 0x81A4 0 EXT2_VNODE_OPS 0 demo_ino.
Definition demo_free : vnode := mk_vnode 18 0 0 0 0 0 0 0 0 0 [].
Definition demo_vfs : vfs := mk_vfs 0 demo_dev 1024 demo_sb 13312 0.
Definition with_file (s : fsst ram) : fsst ram :=
  s <| fmem ::= put 13320 [8] |> <| vnodes := {[500 := demo_vnode; 700 := demo_free]} |> <| vfss := {[600 := demo_vfs]} |>.
Definition demo_ext2 : fsst ram := with_file demo_fs.

Lemma with_file_same s : cache_same s (with_file s).
Proof. done. Qed.
Lemma with_file_area s a : area (with_file s) a → area s a.
Proof. done. Qed.
Lemma with_file_served s dev b n : served s dev b n → served (with_file s) dev b n.
Proof. done. Qed.
Lemma with_file_mem s : fmem (with_file s) = put 13320 [8] (fmem s).
Proof. done. Qed.
Lemma with_file_vnode s : vnodes (with_file s) !! 500 = Some demo_vnode.
Proof. done. Qed.
Lemma with_file_vfs s : vfss (with_file s) !! 600 = Some demo_vfs.
Proof. done. Qed.
Lemma with_file_free s : vnodes (with_file s) !! 700 = Some demo_free.
Proof. done. Qed.
Lemma demo_ext2_inv : bc_inv 1024 demo_ext2 [].
Proof.
  apply (inv_same 1024 demo_fs); [apply with_file_same| | |exact demo_inv]; unfold demo_ext2; rewrite with_file_mem.
  - apply put_holds; [apply Forall_singleton; lia|exact demo_bytes_ok].
  - intros a n. apply put_mapped.
Qed.
Lemma demo_ext2_can k : (k <= 4)%nat → bc_can k demo_ext2 [].
Proof. intros Hk. eapply bc_can_same; [apply with_file_same|by apply demo_can]. Qed.
Lemma demo_ext2_area a : area demo_ext2 a → 4096 <= a ∧ a + 1024 <= 12288.
Proof. intros Ha%with_file_area. by apply demo_area_range. Qed.
Lemma demo_addr : addr_ok 1024 demo_ext2.
Proof. intros a Ha%demo_ext2_area. lia. Qed.
Lemma demo_low : low_blocks demo_ext2 demo_vnode 1024 20.
Proof.
  split.
  - done.
  - apply (bool_decide_unpack _). vm_compute. exact I.
  - by apply Z.leb_le.
  - intros _. apply with_file_served, demo_served.
  - intros k _. apply with_file_served, demo_served.
Qed.
Lemma demo_buffer n : 0 <= n <= 2048 → mapped (fmem demo_ext2) 14336 n.
Proof. intros Hn. unfold demo_ext2. rewrite with_file_mem. apply put_mapped. intros i Hi. rewrite demo_zero by lia. done. Qed.

Lemma demo_table : ldw (13312 + 8) (fmem demo_ext2) = Ret 8 (fmem demo_ext2).
Proof.
  apply (ldw_at _ (13312 + 8) [8; 0; 0; 0] 0); [|cbn; lia]. unfold demo_ext2. rewrite with_file_mem.
  intros i Hi. cbn in Hi. rewrite lookup_put. cbn [length]. case_decide.
  - by assert (i = 0%nat) as -> by lia.
  - rewrite demo_zero by lia. by destruct i as [|[|[|[|]]]]; [lia|..|lia].
Qed.

(** 100 bytes are asked for at offset 7 and 5 are left. *)
Lemma demo_read :
  ∃ s', ext2_read 500 7 14336 100 demo_ext2 = Ret (5, 12) s' ∧ at_mem (fmem s') 14336 [119; 111; 114; 108; 100].
Proof.
  destruct (ext2_read_file 1024 demo_ext2 [] 500 demo_vnode demo_vfs 20 7 14336 100
    demo_ext2_inv demo_addr) as (s'&H1&H2).
  - apply demo_ext2_can. vm_compute. lia.
  - apply with_file_vnode.
  - apply with_file_vfs.
  - reflexivity.
  - exact demo_low.
  - lia.
  - lia.
  - apply Z.leb_le. vm_compute. reflexivity.
  - lia.
  - lia.
  - apply demo_buffer. lia.
  - intros a Ha%demo_ext2_area. lia.
  - exists s'. split; [exact H1|]. pose proof (wr_data _ _ _ _ _ _ _ _ H2) as H3.
    replace (file_byte demo_ext2 demo_vnode 1024 <$> seqZ 7 _) with [119; 111; 114; 108; 100] in H3 by (vm_compute; reflexivity).
    exact H3.
Qed.
