(* ===== verification/Vnode.v ===== *)
(** * Vnodes

    Models the vnode table of servers/fs-io/fs/vfs.c: the hash table, [vget] and
    [vput], and the registration and mounting of file systems.  The operations of
    a vnode are the address of one of [ext2_vnode_ops], [chrops] and [blkops]; a
    call through a member that is not set faults.  [vnh_inv s tb] says that the
    chains of the hash table are the lists [tb]. *)

From S2P Require Import Prelude DList Hash LibcString FsState BlkDev Bcache Ext2.

Definition V_FREE : Z := 2.
Definition V_NEW : Z := 16.
Definition VNODE_CHR : Z := 0x2.
Definition VNODE_DIR : Z := 0x4.
Definition VNODE_BLK : Z := 0x6.
Definition CHROPS : Z := 2.
Definition BLKOPS : Z := 3.
(** sys/stat.h *)
Definition S_IFMT : Z := 0xF000.
Definition S_ISDIR (mode : Z) : bool := Z.land mode S_IFMT =? 0x4000.
Definition S_ISBLK (mode : Z) : bool := Z.land mode S_IFMT =? 0x6000.
Definition S_ISREG (mode : Z) : bool := Z.land mode S_IFMT =? 0x8000.
Definition S_ISCHR (mode : Z) : bool := Z.land mode S_IFMT =? 0x2000.
Definition MAX_DEF_FS : Z := 20.
Definition NVNODES : Z := 2000.

Definition vkey (v : vnode) : Z := bhash_fn (v_inum v) (v_rdev v).

Section Vnodes.
Context {D : Type} `{BlkDriver D}.

Definition vbucket (h : Z) : FS D Z := t ← gets vnhash; mret (bucket t h).
Definition vnhash_insert (vn : Z) : FS D unit :=
  v ← get_vnode vn;
  let h := bhash_fn (v_inum v) (v_rdev v) in
  head ← vbucket h;
  upd_vnode vn (λ v, v <| v_next := head |>);;
  modify (λ s, s <| vnhash ::= <[h := vn]> |>).

(** The condition of the loop holds until [link] is NULL. *)
Fixpoint vnhash_remove_loop (fuel : nat) (link vn : Z) : FS D unit :=
  match fuel with
  | O => spin
  | S fuel =>
      l ← get_vnode link;
      if negb (v_next l =? vn) || negb (v_next l =? 0) then vnhash_remove_loop fuel (v_next l) vn
      else v ← get_vnode vn; upd_vnode link (λ l, l <| v_next := v_next v |>)
  end.
Definition vnhash_remove (vn : Z) : FS D unit :=
  v ← get_vnode vn;
  p ← vbucket (bhash_fn (v_inum v) (v_rdev v));
  if p =? 0 then mret tt
  else if p =? vn then mret tt
  else fuel ← gets (λ s, S (S (size (vnodes s)))); vnhash_remove_loop fuel p vn.

Fixpoint find_vnode_loop (fuel : nat) (link dev inum : Z) : FS D Z :=
  match fuel with
  | O => spin
  | S fuel =>
      if link =? 0 then mret 0
      else
        l ← get_vnode link;
        if (v_rdev l =? dev) && (v_inum l =? inum) then mret link
        else find_vnode_loop fuel (v_next l) dev inum
  end.
Definition find_vnode (dev inum : Z) : FS D Z :=
  p ← vbucket (bhash_fn inum dev);
  fuel ← gets (λ s, S (size (vnodes s)));
  find_vnode_loop fuel p dev inum.

(** Only the operations of ext2 have [vop_read_inode]. *)
Definition vop_read_inode (ops vn inum : Z) : FS D Z :=
  if ops =? EXT2_VNODE_OPS then ext2_read_inode vn inum else fault.

(** [ops] and [fsp] are the members of the vnode the caller passes *)
Definition vget_of (ops fsp inum dev : Z) : FS D Z :=
  if (ops =? 0) || negb (ops =? EXT2_VNODE_OPS) then mret 0
  else
    vn ← find_vnode dev inum;
    if negb (vn =? 0) then
      upd_vnode vn (λ v, v <| v_count ::= λ c, s32 (c + 1) |>);; mret vn
    else
      e ← (λ s, match list_isempty vnfreelist (flinks s) with Some b => Ret b s | None => Fault end);
      if (e : bool) then spin
      else
        vn ← take_item vnfreelist;
        v ← get_vnode vn;
        (if has (v_flag v) V_FREE then upd_vnode vn (λ v, v <| v_count := 1 |> <| vfsp := fsp |>)
         else vnhash_remove vn;; upd_vnode vn (λ v, v <| v_count ::= λ c, s32 (c + 1) |>));;
        upd_vnode vn (λ v, v <| v_rdev := dev |> <| v_inum := inum |>);;
        vop_read_inode ops vn inum;;
        v ← get_vnode vn;
        (if S_ISCHR (v_type v) then upd_vnode vn (λ v, v <| v_ops := CHROPS |>)
         else if S_ISBLK (v_type v) then upd_vnode vn (λ v, v <| v_ops := BLKOPS |>)
         else mret tt);;
        vnhash_insert vn;;
        mret vn.
Definition vget (vnode inum dev : Z) : FS D Z :=
  v ← get_vnode vnode; vget_of (v_ops v) (vfsp v) inum dev.

(** No operations have [vop_write_inode]. *)
Definition vput (vn : Z) : FS D unit :=
  upd_vnode vn (λ v, v <| v_count ::= λ c, s32 (c - 1) |>);;
  v ← get_vnode vn;
  if negb (v_count v =? 0) then mret tt
  else if has (v_flag v) V_DIRTY then fault
  else
    upd_vnode vn (λ v, v <| v_flag := V_FREE |>);;
    on_links (list_enqueue lmember vnfreelist (item vn)).

(** ** File systems *)
Definition register_vfs (name entry ops : Z) : FS D Z :=
  i ← gets fs_index; l ← gets fs;
  must (l !! Z.to_nat i);;
  modify (λ s, s <| fs ::= <[Z.to_nat i := mk_vfssw name entry ops]> |> <| fs_index ::= λ i, i + 1 |>);;
  mret i.
(** The name is kept. *)
Definition unregister_vfs (i : Z) : FS D Z :=
  l ← gets fs;
  w ← must (l !! Z.to_nat i);
  modify (λ s, s <| fs ::= <[Z.to_nat i := mk_vfssw (vsw_name w) 0 0]> |>);;
  mret i.
Definition get_root_vnode : FS D Z := r ← gets rootvfs; v ← get_vfs r; mret (vfs_mpoint v).
End Vnodes.

(** ** Lookup *)
Section Lookup.
Context {D : Type} `{BlkDisk D}.
Implicit Types (s : fsst D).

Abbreviation vnh_inv s tb := (table v_next vkey (vnodes s) (vnhash s) tb).
(** The vnode stands for an inode. *)
Definition is_for (dev inum : Z) (v : vnode) : bool := (v_rdev v =? dev) && (v_inum v =? inum).

Lemma find_loop_hit dev inum x s : ∀ l1 l2 fuel p,
  chain v_next (vnodes s) p (l1 ++ x :: l2) →
  (∀ y v, y ∈ l1 → vnodes s !! y = Some v → is_for dev inum v = false) →
  (∀ v, vnodes s !! x = Some v → is_for dev inum v = true) → (length l1 < fuel)%nat →
  find_vnode_loop fuel p dev inum s = Ret x s.
Proof.
  induction l1 as [|y l1 IH]; intros l2 fuel p Hc Hn Hx Hf; (destruct fuel as [|fuel]; [cbn in Hf; lia|]);
    cbn [app] in Hc; apply chain_cons in Hc as (->&Hy&v&Ev&Hc); cbn [find_vnode_loop].
  - rewrite (proj2 (Z.eqb_neq x 0)) by done. fs_run ltac:(by apply get_vnode_Ret).
    specialize (Hx v Ev). unfold is_for in Hx. by rewrite Hx.
  - rewrite (proj2 (Z.eqb_neq y 0)) by done. fs_run ltac:(by apply get_vnode_Ret).
    pose proof (Hn y v ltac:(by left) Ev) as Hyn. unfold is_for in Hyn. rewrite Hyn.
    apply (IH l2); [done| |done|cbn in Hf; lia]. intros y' v' Hy'. apply Hn. by right.
Qed.
Lemma find_loop_miss dev inum s : ∀ l fuel p,
  chain v_next (vnodes s) p l → (∀ y v, y ∈ l → vnodes s !! y = Some v → is_for dev inum v = false) →
  (length l < fuel)%nat → find_vnode_loop fuel p dev inum s = Ret 0 s.
Proof.
  induction l as [|y l IH]; intros fuel p Hc Hn Hf; (destruct fuel as [|fuel]; [cbn in Hf; lia|]); cbn [find_vnode_loop].
  - apply chain_nil in Hc as ->. done.
  - apply chain_cons in Hc as (->&Hy&v&Ev&Hc). rewrite (proj2 (Z.eqb_neq y 0)) by done. fs_run ltac:(by apply get_vnode_Ret).
    pose proof (Hn y v ltac:(by left) Ev) as Hyn. unfold is_for in Hyn. rewrite Hyn.
    apply IH; [done| |cbn in Hf; lia]. intros y' v' Hy'. apply Hn. by right.
Qed.

(** At most one vnode of the table stands for an inode. *)
Definition one_each s tb : Prop := ∀ x y v w, hashed tb x → hashed tb y →
  vnodes s !! x = Some v → vnodes s !! y = Some w → v_rdev v = v_rdev w → v_inum v = v_inum w → x = y.

Lemma find_vnode_hit s tb x v :
  vnh_inv s tb → one_each s tb → hashed tb x → vnodes s !! x = Some v →
  find_vnode (v_rdev v) (v_inum v) s = Ret x s.
Proof.
  intros HT HO [h Hx] Ev. pose proof (tab_bucket _ _ _ _ _ _ _ _ HT Hx Ev) as ->.
  pose proof (tab_chain _ _ _ _ _ HT (vkey v)) as Hc. pose proof (tab_NoDup _ _ _ _ _ HT (vkey v)) as ND.
  pose proof (chain_size _ _ _ _ Hc ND) as Hsz.
  apply list_elem_of_split in Hx as Hsp. destruct Hsp as (l1&l2&El). rewrite El in Hc, ND, Hsz.
  unfold find_vnode. unfold mbind at 1, M_bind at 1, vbucket at 1. cbn. fold (vkey v).
  apply (find_loop_hit _ _ _ _ l1 l2); [done|..].
  - intros y w Hy Ew. destruct (is_for (v_rdev v) (v_inum v) w) eqn:E; [|done].
    apply andb_true_iff in E as [E1%Z.eqb_eq E2%Z.eqb_eq]. apply NoDup_middle in ND as [ND _].
    assert (y = x) as ->; [|set_solver]. eapply HO; [exists (vkey v); rewrite El; set_solver|exists (vkey v); exact Hx|done..].
  - intros w Ew. simplify_eq. unfold is_for. by rewrite !Z.eqb_refl.
  - rewrite length_app in Hsz. cbn in Hsz. lia.
Qed.
Lemma find_vnode_miss s tb dev inum :
  vnh_inv s tb → (∀ x v, hashed tb x → vnodes s !! x = Some v → is_for dev inum v = false) →
  find_vnode dev inum s = Ret 0 s.
Proof.
  intros HT HN. pose proof (tab_chain _ _ _ _ _ HT (bhash_fn inum dev)) as Hc.
  pose proof (chain_size _ _ _ _ Hc (tab_NoDup _ _ _ _ _ HT _)) as Hsz.
  unfold find_vnode. unfold mbind at 1, M_bind at 1, vbucket at 1. cbn.
  eapply find_loop_miss; [exact Hc| |lia]. intros y v Hy. apply HN. by exists (bhash_fn inum dev).
Qed.

Lemma vget_hit s tb x v fsp :
  vnh_inv s tb → one_each s tb → hashed tb x → vnodes s !! x = Some v →
  vget_of EXT2_VNODE_OPS fsp (v_inum v) (v_rdev v) s =
    Ret x (s <| vnodes ::= <[x := v <| v_count ::= λ c, s32 (c + 1) |>]> |>).
Proof.
  intros HT HO Hx Ev. unfold vget_of. cbn [Z.eqb EXT2_VNODE_OPS Pos.eqb orb negb].
  fs_run ltac:(by eapply find_vnode_hit). rewrite (proj2 (Z.eqb_neq x 0)) by (by eapply tab_not_null).
  cbn [negb]. by fs_run ltac:(by apply upd_vnode_Ret).
Qed.

(** The links of the vnodes are not those of the cache. *)
Definition vn_apart (sz : Z) s (free l : list Z) : Prop := ∀ x, x ∈ l → x ∉ free ∧ x ∉ heap s.
Lemma list_index_le sz : list_index sz <= 22.
Proof.
  unfold list_index, MINSZ. assert (HG : ∀ (n : nat) x b, list_index_loop n x b <= b + n).
  { induction n as [|n IH]; intros x b; cbn; [lia|]. split_if; [|lia]. specialize (IH (Z.shiftr x 1) (b + 1)). lia. }
  specialize (HG 32%nat sz 0). lia.
Qed.
Lemma vnlist_frame sz s free s' free' l :
  bc_inv sz s free → bc_frame sz s free s' free' → vn_apart sz s free l →
  dlist lmember (flinks s) vnfreelist (item <$> l) → dlist lmember (flinks s') vnfreelist (item <$> l).
Proof.
  intros HI HF HA. apply dlist_frame. intros c Hc. apply (bf_links _ _ _ _ _ HF).
  all: unfold cells in Hc; apply elem_of_cons in Hc as [->|(?&->&(q&->&Hq)%list_elem_of_fmap)%list_elem_of_fmap].
  all: try (by apply (HA q Hq)). all: try (by apply item_ne_head).
  - intros Hf. destruct (bi_in _ _ _ HI _ Hf) as [b Eb]. destruct (bi_buf _ _ _ HI _ _ Eb). cbn in *. lia.
  - intros Hh. destruct (bi_heap _ _ _ HI _ Hh). cbn in *. lia.
  - intros [= E]. pose proof (list_index_le sz). lia.
Qed.

(** A change of the list of the free vnodes is not seen by the cache. *)
Lemma inv_vnlinks sz s s' free l :
  bc_inv sz s free → heap s' = heap s → bufs s' = bufs s → bhash_table s' = bhash_table s → fmem s' = fmem s →
  dom (flinks s') = dom (flinks s) → (∀ c, c ∉ cells lmember vnfreelist (item <$> l) → flinks s' !! c = flinks s !! c) →
  vn_apart sz s free l → bc_inv sz s' free.
Proof.
  intros HI Eh Eb Et Em Hdom Hfr HA.
  assert (HD : dlist lmember (flinks s') (freelist (list_index sz)) (item <$> free)).
  { eapply dlist_frame; [|exact (bi_free _ _ _ HI)]. intros c Hc. apply Hfr.
    unfold cells in *. rewrite elem_of_cons in *. intros [->|(?&->&(x&->&Hx)%list_elem_of_fmap)%list_elem_of_fmap].
    - destruct Hc as [[= E]|(?&E&(y&->&_)%list_elem_of_fmap)%list_elem_of_fmap]; [pose proof (list_index_le sz); lia|].
      apply (f_equal snd) in E. discriminate E.
    - destruct Hc as [E|(?&E&(y&->&Hy)%list_elem_of_fmap)%list_elem_of_fmap]; [by apply item_ne_head in E|].
      apply lmember_item in E as ->. by destruct (HA y Hx). }
  assert (HAr : ∀ a, area s' a → area s a) by (intros a; unfold area; by rewrite Eb, Eh).
  destruct HI as [I1 I2 I3 I4 I5 I6 I7 I8 I9 I10 I11]. split; rewrite ?Eh, ?Em; try done; try (intros *; rewrite ?Eb; by eauto).
  - intros h. rewrite Et. apply I1.
  - intros p b. rewrite Eb. intros Hp. destruct (I4 p b Hp) as (?&?&?). split_and!; try done.
    by rewrite <- elem_of_dom, Hdom, elem_of_dom.
  - intros a Ha. rewrite Eb. destruct (I6 a Ha) as (?&?&?). split_and!; try done.
    by rewrite <- not_elem_of_dom, Hdom, not_elem_of_dom.
Qed.

(** The vnode [vget] makes of the free vnode [v]: its members before and after the inode is read. *)
Definition claimed (v : vnode) (fsp inum dev : Z) : vnode :=
  v <| v_count := 1 |> <| vfsp := fsp |> <| v_rdev := dev |> <| v_inum := inum |>.
Definition ops_of (mode : Z) : Z := if S_ISCHR mode then CHROPS else if S_ISBLK mode then BLKOPS else EXT2_VNODE_OPS.
Definition loaded (v : vnode) (l : list Z) : vnode := v <| v_ino := l |> <| v_type := i_mode l |> <| v_ops := ops_of (i_mode l) |>.

(** What it takes to read an inode: the file system, the place of its table. *)
Record inode_ok (sz : Z) s (fsp inum dev table : Z) (fv : vfs) : Prop := {
  io_vfs : vfss s !! fsp = Some fv;
  io_blk : blk_size fv = sz ∧ EXT2_BLOCK_SIZE (ext2sb fv) = sz ∧ 0 < sz ∧ sz mod INO_SIZEOF = 0;
  io_ipg : 0 < s_inodes_per_group (ext2sb fv) < 2 ^ 25;
  io_inum : 1 <= inum < 2 ^ 31;
  io_gd : let gd := ext2gdesc fv + GD_SIZEOF * ((inum - 1) / s_inodes_per_group (ext2sb fv)) in
    0 <= gd < 2 ^ 32 ∧ ldw (gd + 8) (fmem s) = Ret table (fmem s);
  io_table : let index := (inum - 1) mod s_inodes_per_group (ext2sb fv) * INO_SIZEOF in
    0 <= table ∧ table + index / sz < 2 ^ 32 ∧ served s dev (table + index / sz) sz }.
Definition the_inode s (sz dev table inum : Z) (fv : vfs) : list Z :=
  inode_at s dev sz table ((inum - 1) mod s_inodes_per_group (ext2sb fv) * INO_SIZEOF).

Lemma vget_miss sz s free k tb fl vn v fsp inum dev table fv :
  bc_inv sz s free → bc_can (S k) s free → addr_ok sz s → inode_ok sz s fsp inum dev table fv →
  vnh_inv s tb → (∀ x w, hashed tb x → vnodes s !! x = Some w → is_for dev inum w = false) →
  dlist lmember (flinks s) vnfreelist (item <$> fl ++ [vn]) → vn_apart sz s free fl →
  vnodes s !! vn = Some v → has (v_flag v) V_FREE = true → ¬ hashed tb vn →
  let v' := loaded (claimed v fsp inum dev) (the_inode s sz dev table inum fv) in
  let h := bhash_fn inum dev in
  ∃ s' free', vget_of EXT2_VNODE_OPS fsp inum dev s = Ret vn s' ∧
    vnodes s' = <[vn := v' <| v_next := bucket (vnhash s) h |>]> (vnodes s) ∧ vnhash s' = <[h := vn]> (vnhash s) ∧
    vnh_inv s' (<[h := vn :: chain_of tb h]> tb) ∧
    dlist lmember (flinks s') vnfreelist (item <$> fl) ∧
    bc_inv sz s' free' ∧ bc_can k s' free' ∧ same_disk s s'.
Proof.
  intros HI HC HA [Efv (Hb1&Hb2&Hb3&Hb4) Hipg Hin (Hgd&Et) (Ht0&Ht&HS)] HT HN HD Hap Ev Hfree Hh v' h.
  rewrite fmap_app in HD. destruct (list_dequeue_spec lmember _ _ _ _ HD) as (lk&El&HR&Hdom&Hfr).
  pose proof (list_isempty_spec lmember _ _ _ HD) as Eempty. rewrite bool_decide_false in Eempty by (by destruct fl).
  set (s1 := s <| flinks := lk |> <| vnodes ::= <[vn := claimed v fsp inum dev]> |>).
  assert (HI1 : bc_inv sz s1 free) by (eapply (inv_vnlinks sz s s1 free fl); done).
  destruct (ext2_read_inode_spec sz s1 free k vn (claimed v fsp inum dev) fv inum table)
    as (s2&free2&E2&HI2&HC2&HF2&_&HS2); try done; [apply lookup_insert_eq|].
  change (inode_at s1) with (inode_at s) in HS2. fold (the_inode s sz dev table inum fv) in HS2.
  change (v_rdev (claimed v fsp inum dev)) with dev in HS2.
  set (l := the_inode s sz dev table inum fv) in *.
  destruct HS2 as (Evn&Evh&_). cbn in Evn, Evh. rewrite insert_insert_eq in Evn.
  set (v2 := (claimed v fsp inum dev) <| v_ino := l |> <| v_type := i_mode l |> <| v_ops := EXT2_VNODE_OPS |>) in *.
  change (vnodes s2 = <[vn := v2]> (vnodes s)) in Evn.
  set (s3 := s2 <| vnodes := <[vn := v']> (vnodes s) |>).
  set (v4 := v' <| v_next := bucket (vnhash s) h |>).
  set (s4 := s3 <| vnodes := <[vn := v4]> (vnodes s) |> <| vnhash := <[h := vn]> (vnhash s) |>).
  assert (Hvn0 : vn ≠ 0) by (intros ->; by rewrite (tab_null _ _ _ _ _ HT) in Ev).
  exists s4, free2. split_and!; try done.
  - unfold vget_of. cbn [Z.eqb EXT2_VNODE_OPS Pos.eqb orb negb]. fs_run ltac:(by eapply find_vnode_miss).
    cbn [Z.eqb negb]. unfold mbind at 1, M_bind at 1. rewrite Eempty.
    fs_run ltac:(unfold take_item; rewrite El; reflexivity). change (item vn).1 with vn.
    fs_run ltac:(by apply get_vnode_Ret). rewrite Hfree. fs_run ltac:(by apply upd_vnode_Ret).
    fs_run ltac:(apply upd_vnode_Ret, lookup_insert_eq).
    match goal with |- ?f ?st = _ => transitivity (f s1); [f_equal; unfold s1; cbv [setf]; cbn; by rewrite insert_insert_eq|] end.
    fs_run ltac:(unfold vop_read_inode; cbn [Z.eqb EXT2_VNODE_OPS Pos.eqb]; exact E2).
    fs_run ltac:(apply get_vnode_Ret; rewrite Evn; apply lookup_insert_eq).
    match goal with |- (?m ≫= ?k) s2 = _ => assert (E3 : m s2 = Ret tt s3) end.
    { change (v_type v2) with (i_mode l). unfold s3, v', loaded, ops_of.
      destruct (S_ISCHR (i_mode l)); [|destruct (S_ISBLK (i_mode l))].
      all: try (erewrite upd_vnode_Ret by (rewrite Evn; apply lookup_insert_eq); cbv [setf]; cbn; rewrite Evn, insert_insert_eq; done).
      unfold mret, M_ret. f_equal. destruct s2; cbn in *. by rewrite Evn. }
    fs_run ltac:(exact E3). unfold vnhash_insert. rewrite bind_assoc.
    fs_run ltac:(apply get_vnode_Ret, lookup_insert_eq). rewrite bind_assoc. cbv zeta.
    fs_run ltac:(reflexivity). rewrite bind_assoc. fs_run ltac:(apply upd_vnode_Ret, lookup_insert_eq).
    change (vnhash s3) with (vnhash s2). rewrite Evh.
    unfold mbind, M_bind, modify, mret, M_ret. f_equal. unfold s4, s3. cbv [setf]. cbn. rewrite insert_insert_eq, Evh. done.
  - apply tab_push; done.
  - eapply (vnlist_frame sz s1 free s2 free2); done.
  - eapply inv_same; [..|exact HI2]; [done|apply (bi_bytes _ _ _ HI2)|done].
  - apply (bf_disk _ _ _ _ _ HF2).
Qed.

(** C28. Two [vget] of an inode that no vnode stands for answer the same vnode: the first takes
    it from the free vnodes and fills it with the inode on the disk, the second finds it and
    counts it twice; all other vnodes are as before. *)
Theorem vget_twice sz s free k tb fl vn v fsp inum dev table fv :
  bc_inv sz s free → bc_can (S k) s free → addr_ok sz s → inode_ok sz s fsp inum dev table fv →
  vnh_inv s tb → one_each s tb → (∀ x w, hashed tb x → vnodes s !! x = Some w → is_for dev inum w = false) →
  dlist lmember (flinks s) vnfreelist (item <$> fl ++ [vn]) → vn_apart sz s free fl →
  vnodes s !! vn = Some v → has (v_flag v) V_FREE = true → ¬ hashed tb vn →
  ∃ s1 s2 v2, vget_of EXT2_VNODE_OPS fsp inum dev s = Ret vn s1 ∧ vget_of EXT2_VNODE_OPS fsp inum dev s1 = Ret vn s2 ∧
    vnodes s2 = <[vn := v2]> (vnodes s) ∧ v_ino v2 = the_inode s sz dev table inum fv ∧
    (v_count v2, v_inum v2, v_rdev v2, v_type v2) = (2, inum, dev, i_mode (v_ino v2)) ∧
    dlist lmember (flinks s2) vnfreelist (item <$> fl).
Proof.
  intros HI HC HA HO HT H1 HN HD Hap Ev Hfree Hh.
  destruct (vget_miss sz s free k tb fl vn v fsp inum dev table fv) as (s1&free1&E1&Ev1&_&HT1&HD1&_); try done.
  cbv zeta in *. set (v1 := (loaded _ _) <| v_next := _ |>) in *.
  assert (Ev1' : vnodes s1 !! vn = Some v1) by (rewrite Ev1; apply lookup_insert_eq).
  set (h := bhash_fn inum dev) in *. set (tb1 := <[h := vn :: chain_of tb h]> tb) in *.
  assert (Hin : hashed tb1 vn) by (exists h; unfold tb1; rewrite chain_of_insert, decide_True by done; by left).
  assert (Hold : ∀ x, hashed tb1 x → x = vn ∨ hashed tb x).
  { intros x [h' Hx]. unfold tb1 in Hx. rewrite chain_of_insert in Hx. case_decide; subst; [|right; by exists h'].
    apply elem_of_cons in Hx as [->|Hx]; [by left|right; by exists h]. }
  assert (H1' : one_each s1 tb1).
  { intros x y w w' Hx Hy Ex Ey E3 E4. rewrite Ev1 in Ex, Ey.
    apply lookup_insert_Some in Ex as [[<- <-]|[Hnx Ex]]; apply lookup_insert_Some in Ey as [[<- <-]|[Hny Ey]]; [done|..].
    - destruct (Hold y Hy) as [|Hy']; [done|]. specialize (HN y w' Hy' Ey). unfold is_for in HN.
      by rewrite <- E3, <- E4, !Z.eqb_refl in HN.
    - destruct (Hold x Hx) as [|Hx']; [done|]. specialize (HN x w Hx' Ex). unfold is_for in HN.
      by rewrite E3, E4, !Z.eqb_refl in HN.
    - destruct (Hold x Hx) as [|Hx'], (Hold y Hy) as [|Hy']; [done..|]. by apply (H1 x y w w'). }
  pose proof (vget_hit s1 tb1 vn v1 fsp HT1 H1' Hin Ev1') as E2.
  eexists s1, _, _. split_and!; [done|exact E2|cbn; rewrite Ev1, insert_insert_eq; reflexivity|done..].
Qed.

(** [vget] does not take a vnode it finds in the hash table out of the free vnodes: after the
    last [vput] of a vnode and a [vget] of its inode, the vnode is in use with one reference and
    still in the list from which the next inode takes its vnode. *)
Theorem vget_leaves_on_freelist s tb vn v fl fsp :
  vnh_inv s tb → one_each s tb → hashed tb vn → vnodes s !! vn = Some v → v_count v = 1 →
  has (v_flag v) V_DIRTY = false → 0 < vn → vn ∉ fl →
  dlist lmember (flinks s) vnfreelist (item <$> fl) → is_Some (flinks s !! lmember (item vn)) →
  ∃ s1 s2 v2, vput vn s = Ret tt s1 ∧ vget_of EXT2_VNODE_OPS fsp (v_inum v) (v_rdev v) s1 = Ret vn s2 ∧
    vnodes s2 !! vn = Some v2 ∧ v_count v2 = 1 ∧ (v_inum v2, v_rdev v2) = (v_inum v, v_rdev v) ∧
    dlist lmember (flinks s2) vnfreelist (item <$> vn :: fl).
Proof.
  intros HT HO Hin Ev Hc Hd Hvn Hfl HD Hlk.
  destruct (list_enqueue_spec lmember (flinks s) vnfreelist (item <$> fl) (item vn)) as (lk&El&HR&_); [done| |done|].
  { destruct (dlist_ring _ _ _ _ HD) as [Hh HN]. split.
    - rewrite not_elem_of_cons. split; [|done]. intros [= E]. lia.
    - unfold cells in *. cbn [fmap list_fmap]. apply NoDup_cons in HN as [HN1 HN2]. apply NoDup_cons. split.
      + apply not_elem_of_cons. split; [|done]. intros E. apply (f_equal snd) in E. discriminate E.
      + apply NoDup_cons. split; [|done]. intros (?&E&(q&->&Hq)%list_elem_of_fmap)%list_elem_of_fmap.
        by apply lmember_item in E as ->. }
  set (v1 := v <| v_count ::= λ c, s32 (c - 1) |> <| v_flag := V_FREE |>).
  set (s1 := s <| vnodes ::= <[vn := v1]> |> <| flinks := lk |>).
  assert (HT1 : vnh_inv s1 tb) by (by eapply tab_upd).
  assert (HO1 : one_each s1 tb).
  { assert (HE : ∀ x w, vnodes s1 !! x = Some w → ∃ w', vnodes s !! x = Some w' ∧ v_rdev w = v_rdev w' ∧ v_inum w = v_inum w').
    { intros x w Hx. cbn in Hx. apply lookup_insert_Some in Hx as [[<- <-]|[_ Hx]]; eauto. }
    intros x y w w' Hx Hy Ex Ey E1 E2. destruct (HE x w Ex) as (?&?&?&?), (HE y w' Ey) as (?&?&?&?).
    eapply HO; [exact Hx|exact Hy|eassumption..|congruence|congruence]. }
  assert (Ev1 : vnodes s1 !! vn = Some v1) by apply lookup_insert_eq.
  pose proof (vget_hit s1 tb vn v1 fsp HT1 HO1 Hin Ev1) as E2.
  eexists s1, _, _. split_and!; [|exact E2|apply lookup_insert_eq| |done|exact HR].
  - unfold vput. fs_run ltac:(by apply upd_vnode_Ret). fs_run ltac:(apply get_vnode_Ret, lookup_insert_eq).
    change (v_count (v <| v_count ::= λ c, s32 (c - 1) |>)) with (s32 (v_count v - 1)). rewrite Hc.
    change (v_flag (v <| v_count ::= λ c, s32 (c - 1) |>)) with (v_flag v). rewrite Hd. change (s32 (1 - 1)) with 0. cbn [Z.eqb negb].
    fs_run ltac:(apply upd_vnode_Ret, lookup_insert_eq). unfold on_links. cbn [flinks setf]. rewrite El. f_equal.
    unfold s1, v1. cbv [setf]. cbn. by rewrite insert_insert_eq.
  - cbn. by rewrite Hc.
Qed.

(** The last [vput] of a vnode whose attributes were changed calls a routine that is not there. *)
Lemma vput_dirty s vn v :
  vnodes s !! vn = Some v → v_count v = 1 → has (v_flag v) V_DIRTY = true → vput vn s = Fault.
Proof.
  intros Ev Hc Hd. unfold vput. fs_run ltac:(by apply upd_vnode_Ret). fs_run ltac:(apply get_vnode_Ret, lookup_insert_eq).
  change (v_count (v <| v_count ::= λ c, s32 (c - 1) |>)) with (s32 (v_count v - 1)). rewrite Hc.
  change (v_flag (v <| v_count ::= λ c, s32 (c - 1) |>)) with (v_flag v). by rewrite Hd.
Qed.
End Lookup.

(** ** The inode of the file of Ext2.v, for which no vnode stands *)
Lemma vn_links s : flinks (with_file s) = flinks s.
Proof. done. Qed.
Lemma vn_hash s : vnhash (with_file s) = vnhash s.
Proof. done. Qed.
Lemma demo_inode : inode_ok 1024 demo_ext2 600 12 demo_dev 8 demo_vfs.
Proof.
  split.
  - apply with_file_vfs.
  - split_and!; [done|vm_compute; reflexivity|lia|done].
  - vm_compute. done.
  - lia.
  - split; [vm_compute; done|exact demo_table].
  - split_and!; [lia|vm_compute; done|apply with_file_served, demo_served].
Qed.
Lemma demo_table_ok : table v_next vkey (vnodes demo_ext2) (vnhash demo_ext2) ∅.
Proof.
  assert (E : vnhash demo_ext2 = ∅) by (unfold demo_ext2; rewrite vn_hash; vm_compute; reflexivity).
  rewrite E. apply table_if_ok. split_and!; [vm_compute; reflexivity|apply map_Forall_empty|apply map_Forall_empty].
Qed.
Lemma no_hashed x : ¬ hashed ∅ x.
Proof. intros [h Hx]. unfold chain_of in Hx. rewrite lookup_empty in Hx. by apply elem_of_nil in Hx. Qed.
Lemma demo_vnlist : dlist lmember (flinks demo_ext2) vnfreelist (item <$> [] ++ [700]).
Proof.
  change (item <$> [] ++ [700]) with [item 700]. unfold demo_ext2. rewrite vn_links. split_and!.
  - vm_compute. done.
  - rewrite list_elem_of_singleton. by intros [=].
  - apply (bool_decide_unpack _). vm_compute. exact I.
Qed.

Lemma vget_twice_witness :
  ∃ s1 s2 v, vget_of EXT2_VNODE_OPS 600 12 demo_dev demo_ext2 = Ret 700 s1 ∧
    vget_of EXT2_VNODE_OPS 600 12 demo_dev s1 = Ret 700 s2 ∧ vnodes s2 !! 700 = Some v ∧ v_count v = 2 ∧ v_ino v = demo_ino.
Proof.
  destruct (vget_twice 1024 demo_ext2 [] 0 ∅ [] 700 demo_free 600 12 demo_dev 8 demo_vfs demo_ext2_inv
    (demo_ext2_can 1 ltac:(lia)) demo_addr demo_inode demo_table_ok) as (s1&s2&v&H1&H2&H3&H4&H5&_).
  - intros x y v w Hx. by destruct (no_hashed x).
  - intros x w Hx. by destruct (no_hashed x).
  - exact demo_vnlist.
  - intros x Hx. by apply elem_of_nil in Hx.
  - apply with_file_free.
  - reflexivity.
  - apply no_hashed.
  - exists s1, s2, v. split_and!; [exact H1|exact H2|rewrite H3; apply lookup_insert_eq|congruence|].
    rewrite H4. vm_compute. reflexivity.
Defined.

(** The vnode of the file is in use. *)
Definition demo_used : fsst ram :=
  mk_fsst ∅ ∅ [] {[vnfreelist := mk_link (item 700) (item 700); lmember (item 700) := mk_link vnfreelist vnfreelist;
      lmember (item 500) := mk_link (item 0) (item 0)]} ∅ ∅ 0 0 [] ∅
    {[500 := demo_vnode; 700 := demo_free]} {[bhash_fn 12 demo_dev := 500]} ∅ [] 0 0.
Lemma vget_leaves_on_freelist_witness :
  ∃ s1 s2 v2, vput 500 demo_used = Ret tt s1 ∧ vget_of EXT2_VNODE_OPS 600 12 demo_dev s1 = Ret 500 s2 ∧
    vnodes s2 !! 500 = Some v2 ∧ v_count v2 = 1 ∧ list_dequeue lmember vnfreelist (flinks s2) ≠ None.
Proof.
  set (tb := {[bhash_fn 12 demo_dev := [500]]} : gmap Z (list Z)).
  assert (Hone : ∀ x, hashed tb x → x = 500).
  { apply hashed_forall, (bool_decide_unpack _). vm_compute. exact I. }
  destruct (vget_leaves_on_freelist demo_used tb 500 demo_vnode [700] 600) as (s1&s2&v2&H1&H2&H3&H4&_&H5).
  - apply table_if_ok, (bool_decide_unpack _). vm_compute. exact I.
  - intros x y v w Hx%Hone Hy%Hone _ _ _ _. congruence.
  - exists (bhash_fn 12 demo_dev). unfold chain_of, tb. rewrite lookup_singleton_eq. by left.
  - reflexivity.
  - reflexivity.
  - reflexivity.
  - lia.
  - by intros ?%list_elem_of_singleton.
  - split_and!.
    + vm_compute. done.
    + apply (bool_decide_unpack _). vm_compute. exact I.
    + apply (bool_decide_unpack _). vm_compute. exact I.
  - vm_compute. by eexists.
  - exists s1, s2, v2. split_and!; [exact H1|exact H2|exact H3|exact H4|].
    change (item <$> [500; 700]) with ([item 500] ++ [item 700]) in H5.
    destruct (list_dequeue_spec lmember _ _ _ _ H5) as (lk&E&_). by rewrite E.
Defined.
