(* ===== verification/Ext2Dir.v ===== *)
(** * The ext2 file system: directories, names and mounting

    Models servers/fs-io/fs/ext2fs/ext2dir.c and the rest of ext2.c.  The local
    array [name] of [ext2_readdir] is memory at an address the caller of the model
    gives; so are the other local structures whose address is taken.  The checks of
    permissions are empty in the source. *)

From S2P Require Import Prelude DList Hash LibcString FsState BlkDev Bcache Ext2 Vnode.

Definition O_CREAT : Z := 0x01.
Definition O_EXCL : Z := 0x02.
Definition EXT2_NAME_LEN : Z := 255.

(** struct nameidata, without the user *)
Record nameidata := mk_nameidata { nd_vn : Z; nd_vfs : Z; nd_path : Z; nd_access : Z }.
#[global] Instance eta_nameidata : Settable nameidata := λ x, mk_nameidata (nd_vn x) (nd_vfs x) (nd_path x) (nd_access x).

(** ** Names *)
Definition QUESTION : Z := 63.
Definition STAR : Z := 42.
Definition DOT : Z := 46.
Definition SLASH : Z := 47.

(** [for(;src[i] != '.';i++) if(src[i] == 0) return 0;] and the loop over [dest] after it, which
    looks for the end of [src]; [None] is the return *)
Fixpoint skip_src (fuel : nat) (src i : Z) : B (option Z) :=
  match fuel with
  | O => spin
  | S fuel =>
      c ← lds (src + i);
      if c =? DOT then mret (Some i) else if c =? 0 then mret None else skip_src fuel src (i + 1)
  end.
Fixpoint skip_dest (fuel : nat) (dest src j : Z) : B (option Z) :=
  match fuel with
  | O => spin
  | S fuel =>
      d ← lds (dest + j);
      if d =? DOT then mret (Some j)
      else c ← lds (src + j); if c =? 0 then mret None else skip_dest fuel dest src (j + 1)
  end.
Fixpoint check_name_loop (fuel : nat) (dest nlen src srclen i j : Z) : B Z :=
  match fuel with
  | O => spin
  | S fuel =>
      if i <? srclen then
        c ← lds (src + i);
        if c =? QUESTION then check_name_loop fuel dest nlen src srclen (i + 1) (j + 1)
        else
          r ← (if c =? STAR then
                 f ← gets str_fuel;
                 i' ← skip_src f src i;
                 match i' with
                 | None => mret None
                 | Some i' =>
                     j' ← skip_dest f dest src j;
                     mret (match j' with None => None | Some j' => Some (i', j') end)
                 end
               else mret (Some (i, j)));
          match r with
          | None => mret 0
          | Some (i, j) =>
              c ← lds (src + i); d ← lds (dest + j);
              if c =? d then check_name_loop fuel dest nlen src srclen (i + 1) (j + 1) else mret 1
          end
      else if i =? nlen then mret 0 else mret 1
  end.
Definition check_name (dest nlen src : Z) : B Z :=
  srclen ← strlen src;
  check_name_loop (S (Z.to_nat srclen)) dest nlen src srclen 0 0.

(** The next component of a path: slashes are skipped, and the bytes up to the next slash or the
    end are copied to [name] from [index] on.  The result is the rest of the path and the index. *)
Fixpoint skip_slashes (fuel : nat) (pth : Z) : B Z :=
  match fuel with
  | O => spin
  | S fuel => c ← lds pth; if c =? SLASH then skip_slashes fuel (pth + 1) else mret pth
  end.
Fixpoint copy_component (fuel : nat) (name pth index : Z) : B (Z * Z) :=
  match fuel with
  | O => spin
  | S fuel =>
      c ← lds pth;
      if (c =? SLASH) || (c =? 0) then mret (pth, index)
      else stb (name + index) c;; copy_component fuel name (pth + 1) (index + 1)
  end.
Definition next_component (name pth index : Z) : B (Z * Z) :=
  f ← gets str_fuel;
  pth ← skip_slashes f pth;
  r ← copy_component f name pth index;
  stb (name + r.2) 0;;
  mret r.

(** ** Directory entries: struct ext2dirent *)
Definition de_inum (dir : Z) : B Z := ldw dir.
Definition de_rec_len (dir : Z) : B Z := ld16 (dir + 4).
Definition de_namelen (dir : Z) : B Z := ldu (dir + 6).
Definition de_name (dir : Z) : Z := dir + 8.

(** The entry with the name, in the block that ends at [entrysz]. *)
Fixpoint scan_dir (fuel : nat) (dir entrysz name : Z) : B (option Z) :=
  match fuel with
  | O => spin
  | S fuel =>
      len ← de_rec_len dir;
      if len =? 0 then mret None
      else
        nlen ← de_namelen dir;
        r ← check_name (de_name dir) nlen name;
        if r =? 0 then mret (Some dir)
        else if entrysz <=? dir + len then mret None
        else scan_dir fuel (dir + len) entrysz name
  end.

Section Dir.
Context {D : Type} `{BlkDriver D}.

Definition get_file_blk (p : vnode) : Z := u32 (i_blocks (v_ino p) * 512).

(** The blocks of a directory, with the ways to leave the loop; the buffer of a found entry is
    not released. *)
Inductive dir_result := DirRet (r : Z) | DirMount (vfs : Z) | DirFound (dir : Z) | DirNone.
Fixpoint search_dir (fuel : nat) (vn name blkindex : Z) : FS D dir_result :=
  match fuel with
  | O => spin
  | S fuel =>
      p ← get_vnode vn;
      if negb (has (v_type p) VNODE_DIR) then mret (DirRet (- EINVAL))
      else if negb (v_fsmounted p =? 0) then mret (DirMount (v_fsmounted p))
      else
        v ← get_vfs (vfsp p);
        block_no ← ext2_bmap vn blkindex;
        entry ← bread (v_rdev p) block_no (blk_size v);
        if entry =? 0 then mret (DirRet (- EINTR))
        else
          b ← get_buf entry;
          r ← on_mem (f ← gets str_fuel; scan_dir f (b_data b) (b_data b + b_datasz b) name);
          match r with
          | Some dir => mret (DirFound dir)
          | None =>
              brelse entry;;
              if get_file_blk p <=? u32 ((blkindex + 1) * blk_size v) then mret DirNone
              else search_dir fuel vn name (blkindex + 1)
          end
  end.

(** One component after the other; [fuel] bounds the components and the blocks of a directory. *)
Fixpoint readdir_loop (fuel : nat) (vn pth name : Z) (nm : nameidata) : FS D (Z * nameidata) :=
  match fuel with
  | O => spin
  | S fuel =>
      r ← on_mem (next_component name pth 0);
      let pth := r.1 in
      c ← on_mem (lds pth);
      comp ← ((if c =? 0 then mret true else c1 ← on_mem (lds (pth + 1)); mret (c1 =? 0)) : FS D bool);
      r ← search_dir fuel vn name 0;
      match r with
      | DirRet e => mret (e, nm)
      | DirMount vfs => mret (1, nm <| nd_vfs := vfs |>)
      | DirNone => mret (-1, if (comp : bool) then nm <| nd_vn := vn |> else nm)
      | DirFound dir =>
          p ← get_vnode vn;
          inum ← on_mem (de_inum dir);
          vn ← vget vn inum (v_rdev p);
          if vn =? 0 then mret (-1, nm)
          else if (comp : bool) then mret (0, nm <| nd_vn := vn |>)
          else readdir_loop fuel vn pth name nm
      end
  end.
Definition ext2_readdir (fuel : nat) (name : Z) (parent path : Z) (nm : nameidata) : FS D (Z * nameidata) :=
  readdir_loop fuel parent path name nm.

(** A file is not created: the branch is empty. *)
Definition ext2_namei (fuel : nat) (name : Z) (vn path : Z) (nm : nameidata) : FS D (Z * nameidata) :=
  r ← ext2_readdir fuel name vn path nm;
  let '(ret, nm) := r in
  if ret <? 0 then
    (if nd_vn nm =? 0 then mret tt else get_vnode (nd_vn nm);; mret tt);; mret (ret, nm)
  else if 0 <? ret then mret (ret, nm)
  else if has (nd_access nm) O_CREAT || has (nd_access nm) O_EXCL then mret (- EEXIST, nm)
  else mret (ret, nm).

(** ** Mounting *)
Definition EXT2_VFS_OPS : Z := 1.
Definition EXT2FS_CONSTRUCT : Z := 1.
Definition ext2_mount (fuel : nat) (sb : Z) (vfs : Z) : FS D Z :=
  ret ← ext2_read_sb fuel sb vfs;
  if ret <? 0 then mret ret
  else
    v ← get_vfs vfs;
    rootvn ← vget_of EXT2_VNODE_OPS vfs EXT2_ROOT_INO (vfs_dev v);
    upd_vnode rootvn (λ p, p <| v_ops := EXT2_VNODE_OPS |>);;
    upd_vfs vfs (λ v, v <| vfs_mpoint := rootvn |>);;
    upd_vnode rootvn (λ p, p <| v_type := VNODE_DIR |>);;
    mret 0.
Definition ext2fs_construct : FS D Z :=
  vfs ← malloc;
  if vfs =? 0 then fault
  else
    modify (λ s, s <| vfss ::= <[vfs := mk_vfs 0 0 0 (replicate 1024 0) 0 EXT2_VFS_OPS]> |>
                   <| flinks ::= <[lmember (item vfs) := mk_link (item 0) (item 0)]> |>);;
    mret vfs.
(** The memory of the group descriptors is not used again. *)
Definition ext2_unmount (vfs : Z) : FS D Z := get_vfs vfs;; mret 0.
Definition ext2fs_init (ext2_name : Z) : FS D Z := register_vfs ext2_name EXT2FS_CONSTRUCT EXT2_VFS_OPS.
Definition ext2fs_exit (index : Z) : FS D Z := unregister_vfs index.

(** [vsw_init] and [vfs_mount] through their pointers *)
Definition vsw_construct (entry : Z) : FS D Z := if entry =? EXT2FS_CONSTRUCT then ext2fs_construct else fault.
Definition vfs_mount_op (ops : Z) (fuel : nat) (sb vfs : Z) : FS D Z :=
  if ops =? EXT2_VFS_OPS then ext2_mount fuel sb vfs else fault.

(** The entry of the switch with the name; [None] when an entry without a name is reached *)
Fixpoint find_fs (n : nat) (name index : Z) : FS D (option vfssw) :=
  match n with
  | O => fault
  | S n =>
      l ← gets fs;
      w ← must (l !! Z.to_nat index);
      if vsw_name w =? 0 then mret None
      else
        r ← on_mem (strcmp (vsw_name w) name);
        if r =? 0 then mret (Some w)
        else if vsw_init w =? 0 then mret (Some w)
        else find_fs n name (index + 1)
  end.
Definition mount_root (fuel : nat) (sb name dev : Z) : FS D Z :=
  w ← find_fs (Z.to_nat MAX_DEF_FS) name 0;
  match w with
  | None => mret (-1)
  | Some w =>
      if vsw_init w =? 0 then mret (-1)
      else
        vfs ← vsw_construct (vsw_init w);
        modify (λ s, s <| rootvfs := vfs |>);;
        upd_vfs vfs (λ v, v <| vfs_dev := dev |>);;
        v ← get_vfs vfs;
        if vfs_ops v =? 0 then mret (-1)
        else
          err ← vfs_mount_op (vfs_ops v) fuel sb vfs;
          if err <? 0 then mret err
          else on_links (list_add lmember mnted (item vfs));; mret 0
  end.
End Dir.

(** ** Names without wildcards *)
Definition plain (w : list Z) : Prop := Forall (λ b, 0 < b < 2 ^ 8 ∧ b ≠ QUESTION ∧ b ≠ STAR) w.

Lemma strlen_loop_spec w : ∀ fuel p m,
  at_mem m p (w ++ [0]) → Forall (λ b, 0 < b < 2 ^ 8) w → (length w < fuel)%nat →
  strlen_loop fuel p m = Ret (p + length w) m.
Proof.
  induction w as [|x w IH]; intros fuel p m HA HW Hf; (destruct fuel as [|fuel]; [cbn in Hf; lia|]); cbn [strlen_loop app] in *.
  - apply at_mem_cons in HA as [H0 _]. erewrite bind_Ret by (by apply lds_Ret). cbn. by rewrite Z.add_0_r.
  - apply at_mem_cons in HA as [H0 HA]. apply Forall_cons in HW as [Hx HW]. erewrite bind_Ret by (by apply lds_Ret).
    change 0 with (s8 0) at 1. rewrite s8_eqb by lia. rewrite (proj2 (Z.eqb_neq x 0)) by lia.
    rewrite (IH fuel (p + 1) m HA HW) by (cbn in Hf; lia). f_equal. cbn. lia.
Qed.
Lemma strlen_spec w p m : at_mem m p (w ++ [0]) → Forall (λ b, 0 < b < 2 ^ 8) w → strlen p m = Ret (Z.of_nat (length w)) m.
Proof.
  intros HA HW. pose proof (at_mem_size _ _ _ HA) as Hs. rewrite length_app in Hs. cbn in Hs.
  unfold strlen. erewrite bind_Ret by reflexivity. erewrite bind_Ret by (apply (strlen_loop_spec w); [done|done|unfold str_fuel; lia]).
  unfold mret, M_ret. f_equal. lia.
Qed.

Lemma check_name_loop_spec m dest d nlen src w : 
  holds_bytes m → at_mem m src (w ++ [0]) → plain w → at_mem m dest d → length d = length w →
  ∀ v u (i : nat) fuel, w = v ++ u → i = length v → (length u < fuel)%nat →
  check_name_loop fuel dest nlen src (length w) i i m =
    Ret (if decide (drop i d = u ∧ nlen = length w) then 0 else 1) m.
Proof.
  intros HB HA HW HD Hl v u. revert v. induction u as [|x u IH]; intros v i fuel Ew Ei Hf;
    (destruct fuel as [|fuel]; [cbn in Hf; lia|]); cbn [check_name_loop].
  - rewrite app_nil_r in Ew. subst v. rewrite (proj2 (Z.ltb_ge i (length w))) by lia.
    assert (drop i d = []) as -> by (apply drop_ge; lia). subst i.
    destruct (Z.eqb_spec (length w) nlen); case_decide; naive_solver.
  - assert (Hi : (i < length w)%nat) by (rewrite Ew, length_app; cbn; lia).
    rewrite (proj2 (Z.ltb_lt i (length w))) by lia.
    assert (Ex : w !! i = Some x) by (rewrite Ew, Ei; by apply list_lookup_middle).
    assert (Es : m !! (src + i) = Some x).
    { rewrite (HA i) by (rewrite length_app; cbn; lia). by rewrite lookup_app_l. }
    destruct (lookup_lt_is_Some_2 d i) as [y Ey]; [lia|].
    assert (Ed : m !! (dest + i) = Some y) by (rewrite (HD i) by lia; done).
    pose proof (Forall_lookup_1 _ _ _ _ HW Ex) as (Hx&Hq&Hst). pose proof (HB _ _ Ed) as Hy.
    erewrite bind_Ret by (by apply lds_Ret).
    change QUESTION with (s8 QUESTION). change STAR with (s8 STAR). rewrite !s8_eqb by (unfold QUESTION, STAR; lia).
    rewrite (proj2 (Z.eqb_neq x QUESTION)), (proj2 (Z.eqb_neq x STAR)) by done.
    cbn [orb]. erewrite bind_Ret by reflexivity. cbv beta iota.
    erewrite bind_Ret by (by apply lds_Ret). erewrite bind_Ret by (by apply lds_Ret).
    rewrite s8_eqb by lia. rewrite (drop_S d y i Ey). destruct (Z.eqb_spec x y) as [->|Hne].
    + replace (i + 1) with (Z.of_nat (S i)) by lia.
      rewrite (IH (v ++ [y]) (S i) fuel); [|by rewrite <- app_assoc|rewrite length_app; cbn; lia|cbn in Hf; lia].
      f_equal. apply decide_ext. naive_solver.
    + rewrite decide_False; [done|]. intros [[= ->] _]. done.
Qed.

(** For a name without the wildcards, [check_name] answers 0 exactly when the directory entry has that
    name, of that length. *)
Lemma check_name_spec m dest d nlen src w :
  holds_bytes m → at_mem m src (w ++ [0]) → plain w → at_mem m dest d → (length w <= length d)%nat →
  check_name dest nlen src m = Ret (if decide (take (length w) d = w ∧ nlen = length w) then 0 else 1) m.
Proof.
  intros HB HA HW HD Hl. unfold check_name.
  erewrite bind_Ret by (apply (strlen_spec w); [done|]; eapply Forall_impl; [exact HW|]; naive_solver).
  rewrite Nat2Z.id. rewrite <- (take_drop (length w) d), at_mem_app in HD. destruct HD as [HD _].
  rewrite (check_name_loop_spec m dest (take (length w) d) nlen src w HB HA HW HD ltac:(rewrite length_take; lia) [] w 0);
    [done|done|done|lia].
Qed.

(** ** Searching a directory block *)

(** A directory entry as the disk has it: the inode, the name and the bytes up to the next entry. *)
Record dentry := mk_dentry { e_ino : Z; e_kind : Z; e_name : list Z; e_pad : list Z }.
Definition e_size (e : dentry) : nat := (8 + length (e_name e) + length (e_pad e))%nat.
Definition dentry_bytes (e : dentry) : list Z :=
  of_le32 (e_ino e) ++ of_le16 (e_size e) ++ [Z.of_nat (length (e_name e)); e_kind e] ++ e_name e ++ e_pad e.
Definition dir_bytes (es : list dentry) : list Z := mjoin (dentry_bytes <$> es).
Definition dentry_ok (e : dentry) : Prop := Z.of_nat (length (e_name e)) < 2 ^ 8 ∧ Z.of_nat (e_size e) < 2 ^ 16.
(** The address of the first entry named [w] of the entries that start at [dir]. *)
Fixpoint find_entry (dir : Z) (es : list dentry) (w : list Z) : option Z :=
  match es with
  | [] => None
  | e :: es => if decide (e_name e = w) then Some dir else find_entry (dir + e_size e) es w
  end.

Lemma dentry_length e : length (dentry_bytes e) = e_size e.
Proof. unfold dentry_bytes, e_size. rewrite !length_app. cbn. lia. Qed.
Lemma half_join x : 0 <= x < 2 ^ 16 → x mod 2 ^ 8 + 2 ^ 8 * (x / 2 ^ 8 mod 2 ^ 8) = x.
Proof.
  intros Hx. rewrite (Z.mod_small (x / 2 ^ 8)); [|split; [apply Z.div_pos; lia|apply Z.div_lt_upper_bound; lia]].
  rewrite (Z.div_mod x (2 ^ 8)) at 3 by lia. lia.
Qed.
Lemma de_fields m dir e l :
  at_mem m dir (dentry_bytes e ++ l) → dentry_ok e →
  de_rec_len dir m = Ret (Z.of_nat (e_size e)) m ∧
  de_namelen dir m = Ret (Z.of_nat (length (e_name e))) m ∧
  at_mem m (dir + 8) (e_name e ++ e_pad e ++ l).
Proof.
  intros HA [_ Hs]. unfold dentry_bytes in HA. cbn [of_le32 of_le16 app] in HA.
  repeat (rewrite at_mem_cons in HA). destruct HA as (H0&H1&H2&H3&H4&H5&H6&H7&HA).
  replace (dir + 1 + 1 + 1 + 1 + 1) with (dir + 4 + 1) in * by lia. replace (dir + 1 + 1 + 1 + 1) with (dir + 4) in * by lia.
  replace (dir + 4 + 1 + 1) with (dir + 6) in * by lia. replace (dir + 6 + 1 + 1) with (dir + 8) in * by lia.
  split_and!.
  - unfold de_rec_len, ld16, ldu, mbind, M_bind. rewrite H4, H5. unfold mret, M_ret. f_equal. apply half_join. lia.
  - unfold de_namelen, ldu. by rewrite H6.
  - by rewrite <- app_assoc in HA.
Qed.

(** C26. Searching a directory block for a name without wildcards ends at the first entry with
    exactly that name, and finds none when no entry has it. *)
Theorem scan_dir_finds m name w es : ∀ dir tail fuel,
  holds_bytes m → at_mem m name (w ++ [0]) → plain w →
  at_mem m dir (dir_bytes es ++ tail) → Forall dentry_ok es → es ≠ [] →
  (length w <= length tail)%nat → (length es <= fuel)%nat →
  scan_dir fuel dir (dir + length (dir_bytes es)) name m = Ret (find_entry dir es w) m.
Proof.
  induction es as [|e es IH]; [done|]. intros dir tail [|fuel] HB HN HW HA HE _ Ht Hf; [cbn in Hf; lia|].
  apply Forall_cons in HE as [He HE]. cbn [scan_dir find_entry] in *.
  change (dir_bytes (e :: es)) with (dentry_bytes e ++ dir_bytes es) in *.
  rewrite <- app_assoc in HA. pose proof (de_fields _ _ _ _ HA He) as (E1&E2&HD).
  rewrite at_mem_app, dentry_length in HA. destruct HA as [_ HA].
  fs_run ltac:(exact E1). rewrite (proj2 (Z.eqb_neq (e_size e) 0)) by (unfold e_size; lia).
  fs_run ltac:(exact E2).
  fs_run ltac:(apply (check_name_spec m (dir + 8) _ _ name w HB HN HW HD); rewrite !length_app; lia).
  destruct (decide (e_name e = w)) as [Ew|Ew].
  - rewrite decide_True; [done|]. subst w. by rewrite take_app_length.
  - rewrite decide_False; [change (1 =? 0) with false; cbn [orb]|].
    + rewrite length_app, dentry_length, Nat2Z.inj_add. destruct es as [|e' es].
      * change (length (dir_bytes [])) with 0%nat. rewrite (proj2 (Z.leb_le _ _)) by lia. done.
      * rewrite (proj2 (Z.leb_gt _ _)).
        -- rewrite Z.add_assoc. apply (IH _ tail); [done..|cbn in Hf |- *; lia].
        -- change (dir_bytes (e' :: es)) with (dentry_bytes e' ++ dir_bytes es). rewrite length_app, dentry_length.
           unfold e_size. lia.
    + intros [Et El]. apply Ew. apply Nat2Z.inj in El. rewrite <- El, take_app_length in Et. done.
Qed.

(** A block with the directory's own entries and a file, and the name of the file. *)
Definition demo_dir : list dentry :=
  [mk_dentry 2 2 [46] [0; 0; 0]; mk_dentry 2 2 [46; 46] [0; 0]; mk_dentry 11 1 [105; 110; 105; 116] [0; 0; 0; 0]].
Definition demo_dirmem : bytes := put 0x5000 (dir_bytes demo_dir ++ replicate 8 0) (put 0x6000 [105; 110; 105; 116; 0] ∅).
#[local] Instance all_bytes_dec l : Decision (all_bytes l) := Forall_dec (λ b, 0 <= b < 2 ^ 8) l.
Lemma demo_holds : holds_bytes demo_dirmem.
Proof.
  apply put_holds; [|apply put_holds; [|intros p b E; by rewrite lookup_empty in E]].
  - refine (bool_decide_eq_true_1 (all_bytes (dir_bytes demo_dir ++ replicate 8 0)) _). vm_compute. reflexivity.
  - refine (bool_decide_eq_true_1 (all_bytes [105; 110; 105; 116; 0]) _). vm_compute. reflexivity.
Qed.
Lemma scan_dir_finds_witness :
  scan_dir 3 0x5000 (0x5000 + length (dir_bytes demo_dir)) 0x6000 demo_dirmem = Ret (Some (0x5000 + 24)) demo_dirmem.
Proof.
  rewrite (scan_dir_finds demo_dirmem 0x6000 [105; 110; 105; 116] demo_dir 0x5000 (replicate 8 0) 3); [reflexivity|..].
  - exact demo_holds.
  - unfold demo_dirmem. apply at_mem_put_ne; [vm_compute; left; discriminate|]. apply at_mem_put.
  - unfold plain, QUESTION, STAR. repeat constructor; lia.
  - apply at_mem_put.
  - repeat constructor; lia.
  - done.
  - cbn. lia.
  - cbn. lia.
Defined.
