(* ===== verification/Vfs.v ===== *)
(** * The virtual file system: requests on files

    Models servers/fs-io/fs/file.c, vfs_namei.c, [vfs_init] of vfs.c, chrdev.c
    and the calls of the C library they use (mrx/fd.h, kernel/fd.c,
    asm/syscall.h).  The state is that of the kernel, of the server and the table
    of character devices.

    [OpenFiles] is what the server uses of the kernel: the system calls on open
    files and directories.  [OpenFilesOk] says what they do, in the terms of the
    server; Syscall proves it of the kernel.  [jf], [ji] and [jn] are the contents
    of uninitialised local structures, [name] is the address of the local array of
    [ext2_readdir] and [path] of that of [fs_chdir].  The identity of the caller is
    fetched and not used, so the calls for it are left out. *)

From S2P Require Import Prelude DList Hash KState Sched Thread Fd Process Syscall.
From S2P Require Import LibcString FsState BlkDev Bcache Ext2 Vnode Ext2Dir.

(** ** The interface to the kernel *)
Class OpenFiles (K : Type) := {
  of_alloc : Z → Z → option file → M K Z;
  of_free : Z → Z → bool → M K (Z * option file);
  of_get_cwd : Z → bool → bool → M K (Z * option inodev * option (list Z));
  of_put_cwd : Z → option inodev → option (list Z) → M K Z }.
#[global] Hint Mode OpenFiles ! : typeclass_instances.

(** [opened k id d a f]: descriptor [d] of the thread [id] is the open file [f], kept at [a]. *)
Class OpenFilesOk (K : Type) `{OpenFiles K} := {
  opened : K → Z → Z → Z → file → Prop;
  of_free_ok k id d a f : opened k id d a f → 0 <= d → of_free id d true k = Ret (d, Some f) k;
  of_put_ok k id d a f g : opened k id 0 a f → 0 <= d →
    ∃ k', of_alloc id d (Some g) k = Ret 0 k' ∧
      ∀ id' d' a' f', opened k id' d' a' f' → opened k' id' d' a' (if decide (a' = a) then g else f') }.

(** The kernel provides it. *)
#[global] Instance kernel_files : OpenFiles kstate := {|
  of_alloc := syscall_fd_alloc file0 0; of_free := syscall_fd_free;
  of_get_cwd := syscall_get_cwd; of_put_cwd := syscall_put_cwd |}.
#[global, program] Instance kernel_files_ok : OpenFilesOk kstate := {| opened := open_at |}.
Next Obligation. intros. by eapply fd_free_keeps. Qed.
Next Obligation.
  intros k id d a f g Ho Hd. exists (k <| files ::= <[a := g]> |>). split; [by eapply put_openfile_zero|].
  intros. by apply open_at_put.
Qed.

(** ** Character devices *)
Record chevsw := mk_chevsw {
  c_open : option (file → Z → Z → B file); c_close : option (file → Z → B file);
  c_read : option (file → Z → Z → Z → B file); c_write : option (file → Z → Z → Z → B file) }.
(** The routines of a driver, by the address of its struct chevsw. *)
Class ChrDriver := chr_driver : Z → option chevsw.

Record vst (K D : Type) := mk_vst { kern : K; srv : fsst D; chrdev : list Z }.
Arguments mk_vst {K D}. Arguments kern {K D}. Arguments srv {K D}. Arguments chrdev {K D}.
#[global] Instance eta_vst {K D} : Settable (vst K D) := λ x, mk_vst (kern x) (srv x) (chrdev x).
Abbreviation V K D := (M (vst K D)).

Section Vfs.
Context {K D : Type} `{OpenFiles K} `{BlkDriver D} `{ChrDriver}.
Context (jf : file) (ji : inodev) (jn : nameidata) (fuel : nat) (name : Z).

Definition on_kern {A} (f : M K A) : V K D A := λ s,
  match f (kern s) with Ret a k => Ret a (s <| kern := k |>) | Fault => Fault | Halt => Halt | Spin => Spin end.
Definition on_srv {A} (f : FS D A) : V K D A := λ s,
  match f (srv s) with Ret a k => Ret a (s <| srv := k |>) | Fault => Fault | Halt => Halt | Spin => Spin end.

(** ** The C library: errors are -1 *)
Definition fd_alloc_call (tid desc : Z) (table : option file) : V K D Z :=
  r ← on_kern (of_alloc tid desc table); mret (if r <? 0 then -1 else r).
(** [table] is not written on an error. *)
Definition fd_free_call (tid desc : Z) (table : file) : V K D (Z * file) :=
  r ← on_kern (of_free tid desc true); mret (if r.1 <? 0 then -1 else r.1, default table r.2).
Definition get_openfile (tid fdesc : Z) (f : file) : V K D (Z * file) := fd_free_call tid fdesc f.
Definition put_openfile (tid fdesc : Z) (f : file) : V K D Z := fd_alloc_call tid fdesc (Some f).

(** ** chrdev.c *)
Definition chrdev_at (major : Z) : V K D Z :=
  l ← gets chrdev; if major <? 0 then fault else must (l !! Z.to_nat major).
Definition chrdev_register (major chops : Z) : V K D Z :=
  if (MAX_MAJOR <=? major) || (major <? 0) then mret (-1)
  else modify (λ s, s <| chrdev ::= <[Z.to_nat major := chops]> |>);; mret 0.
Definition chrdev_unregister (major : Z) : V K D Z :=
  if (MAX_MAJOR <=? major) || (major <? 0) then mret (-1)
  else modify (λ s, s <| chrdev ::= <[Z.to_nat major := 0]> |>);; mret 0.
Definition chr_init : V K D unit := modify (λ s, s <| chrdev := replicate (Z.to_nat MAX_MAJOR) 0 |>).
Definition chr_call (vn : Z) (f : chevsw → B file) : V K D file :=
  v ← on_srv (get_vnode vn);
  a ← chrdev_at (MAJOR (v_rdev v));
  o ← must (chr_driver a);
  on_srv (on_mem (f o)).
Definition chrdev_open (f : file) (vn mode : Z) : V K D (Z * file) :=
  v ← on_srv (get_vnode vn);
  a ← chrdev_at (MAJOR (v_rdev v));
  if a =? 0 then mret (0, f)
  else
    o ← must (chr_driver a);
    match c_open o with None => mret (0, f) | Some g => f ← on_srv (on_mem (g f vn mode)); mret (0, f) end.
(** Only the operations of ext2, of block and of character devices are in [ops]: all have
    [vop_close]. *)
Definition chrdev_close (f : file) (vn : Z) : V K D (Z * file) :=
  if vn =? 0 then mret (0, f)
  else
    v ← on_srv (get_vnode vn);
    if v_ops v =? 0 then mret (0, f)
    else f ← chr_call vn (λ o, match c_close o with Some g => g f vn | None => fault end); mret (0, f).
Definition chrdev_read (f : file) (vn data size : Z) : V K D (Z * file) :=
  f ← chr_call vn (λ o, match c_read o with Some g => g f vn data size | None => fault end); mret (0, f).
Definition chrdev_write (f : file) (vn data size : Z) : V K D (Z * file) :=
  f ← chr_call vn (λ o, match c_write o with Some g => g f vn data size | None => fault end); mret (0, f).

(** ** The operations of a vnode, through [vn->ops] *)
Definition with_offset (f : file) (o : Z) : file := mk_file (f_access f) o (f_ref f) (KState.vnode f).
(** [blockdev_open] takes the vnode first and is given the file: it reads past it. *)
Definition vop_open (ops : Z) (f : file) (vn mode : Z) : V K D (Z * file) :=
  if ops =? EXT2_VNODE_OPS then mret (0, f)
  else if ops =? CHROPS then chrdev_open f vn mode
  else fault.
Definition vop_read (ops : Z) (f : file) (vn buf size : Z) : V K D (Z * file) :=
  if ops =? EXT2_VNODE_OPS then
    r ← on_srv (ext2_read vn (f_offset f) buf size); mret (r.1, with_offset f r.2)
  else if ops =? CHROPS then chrdev_read f vn buf size
  else fault.
(** Block devices have no [vop_write]; [None] *)
Definition vop_write (ops : Z) (f : file) (vn buf size : Z) : option (V K D (Z * file)) :=
  if ops =? EXT2_VNODE_OPS then
    Some (r ← on_srv (ext2_write vn (f_offset f) buf size); mret (r.1, with_offset f r.2))
  else if ops =? CHROPS then Some (chrdev_write f vn buf size)
  else None.
Definition vop_bmap (ops vn blk : Z) : V K D Z :=
  if ops =? EXT2_VNODE_OPS then on_srv (ext2_bmap vn blk) else fault.

(** [!vn->ops && !vn->ops->vop_get_attr] reads through a NULL [ops]; only ext2 has the operations *)
Definition vgetattr (vn : Z) : V K D vattr :=
  v ← on_srv (get_vnode vn); if v_ops v =? EXT2_VNODE_OPS then on_srv (ext2_get_attr vn) else fault.
Definition vputattr (vn : Z) (a : vattr) : V K D unit :=
  v ← on_srv (get_vnode vn); if v_ops v =? EXT2_VNODE_OPS then on_srv (ext2_put_attr vn a) else fault.

(** ** Names *)

(** vfs.h: the arguments of [find_vnode] are in the other order *)
Definition get_cwd (tid : Z) : V K D Z :=
  r ← on_kern (of_get_cwd tid true false);
  let i := default ji r.1.2 in
  on_srv (find_vnode (inode i) (device i)).

(** [again:]; the path that is left is not set by [ext2_readdir] *)
Fixpoint namev_loop (n : nat) (cwd path : Z) (nm : nameidata) (access : Z) : V K D (Z * Z) :=
  match n with
  | O => spin
  | S n =>
      r ← on_srv (ext2_namei fuel name cwd path nm);
      let '(status, nm) := r in
      if 0 <? status then
        v ← on_srv (get_vfs (nd_vfs nm));
        p ← on_srv (get_vnode (vfs_mpoint v));
        if v_ops p =? EXT2_VNODE_OPS then namev_loop n (vfs_mpoint v) (nd_path nm) nm access else fault
      else if status <? 0 then mret (0, status)
      else mret (nd_vn nm, access)
  end.
(** The vnode, NULL for an error, and the value left in [*access]. *)
Definition vfs_namev (tid path access mode : Z) : V K D (Z * Z) :=
  c ← on_srv (on_mem (lds path));
  r ← ((if c =? SLASH then
          cwd ← on_srv get_root_vnode;
          c1 ← on_srv (on_mem (lds (path + 1)));
          mret (cwd, c1 =? 0)
        else cwd ← get_cwd tid; mret (cwd, false)) : V K D (Z * bool));
  let '(cwd, root) := r in
  if (root : bool) then mret (cwd, access)
  else
    v ← on_srv (get_vnode cwd);
    if negb (v_ops v =? EXT2_VNODE_OPS) then mret (0, access)
    else namev_loop fuel cwd path (jn <| nd_access := access |>) access.

(** ** file.c *)
Definition O_RDONLY : Z := 0x400.
Definition O_WRONLY : Z := 0x800.
Definition O_RDWR : Z := 0xC00.
Definition R_OK : Z := 2.
Definition W_OK : Z := 4.
Definition X_OK : Z := 8.
Definition FDESC_CREATE (svr fd : Z) : Z := s32 (Z.lor (Z.shiftl svr 16) fd).
Definition FDESC_FD (fd : Z) : Z := Z.land fd 0xFFFF.

(** [junk] is what the variable [eaccess] holds *)
Definition vfs_access (junk : Z) (tid path amode : Z) : V K D Z :=
  let e := if has amode R_OK || has amode X_OK then Z.lor junk O_RDONLY else junk in
  let e := if has amode W_OK then Z.lor e O_WRONLY else e in
  r ← vfs_namev tid path e 0;
  mret (if r.1 =? 0 then r.2 else 0).

(** The result and the value left in [*access]. *)
Definition vfs_open (tid path access mode : Z) : V K D (Z * Z) :=
  r ← vfs_namev tid path access mode;
  let '(vn, eaccess) := r in
  if vn =? 0 then mret (eaccess, access)
  else
    v ← on_srv (get_vnode vn);
    let f := mk_file access 0 0 (mk_inodev (v_inum v) (v_rdev v)) in
    r ← ((if negb (v_ops v =? 0) then vop_open (v_ops v) f vn mode else mret (eaccess, f)) : V K D (Z * file));
    let '(eaccess, f) := r in
    v ← on_srv (get_vnode vn);
    if eaccess <? 0 then mret (eaccess, v_type v)
    else
      fdesc ← fd_alloc_call tid (-1) (Some f);
      mret (FDESC_CREATE eaccess fdesc, v_type v).

Definition vfs_close (tid fdesc : Z) : V K D Z :=
  r ← fd_free_call tid (FDESC_FD fdesc) jf;
  let '(ret, f) := r in
  if ret <? 0 then mret ret
  else
    vn ← on_srv (find_vnode (inode (KState.vnode f)) (device (KState.vnode f)));
    if vn =? 0 then mret (- EINVAL)
    else on_srv (vput vn);; mret ret.

Definition vfs_read (tid fdesc buf nsize : Z) : V K D Z :=
  r ← get_openfile tid fdesc jf;
  let '(err, f) := r in
  vn ← on_srv (find_vnode (device (KState.vnode f)) (inode (KState.vnode f)));
  if vn =? 0 then mret err
  else
    v ← on_srv (get_vnode vn);
    if v_ops v =? 0 then fault
    else
      r ← vop_read (v_ops v) f vn buf nsize;
      let '(err, f) := r in
      if err <? 0 then mret err
      else put_openfile tid fdesc f;; mret err.

Definition vfs_write (tid fdesc buf nsize : Z) : V K D Z :=
  r ← get_openfile tid fdesc jf;
  let '(err, f) := r in
  if negb (has (f_access f) O_WRONLY) then mret (- EPERM)
  else
    vn ← on_srv (find_vnode (inode (KState.vnode f)) (device (KState.vnode f)));
    if vn =? 0 then mret err
    else
      v ← on_srv (get_vnode vn);
      r ← ((if v_ops v =? 0 then mret (err, f)
            else match vop_write (v_ops v) f vn buf nsize with Some w => w | None => mret (err, f) end) : V K D (Z * file));
      put_openfile tid fdesc r.2;;
      mret r.1.

(** [for(;;) sched_yield();] is before anything else *)
Definition vfs_stat (tid path : Z) : V K D Z := spin.
Definition vfs_fstat (tid fdesc : Z) : V K D Z := spin.

Definition with_mode (a : vattr) (mode : Z) : vattr :=
  mk_vattr (st_ino a) mode (st_nlink a) (st_uid a) (st_gid a) (st_size a) (st_atime a) (st_mtime a) (st_ctime a) (st_blksize a).
Definition with_owner (a : vattr) (uid gid : Z) : vattr :=
  mk_vattr (st_ino a) (st_mode a) (st_nlink a) (if uid =? -1 then st_uid a else uid) (if gid =? -1 then st_gid a else gid)
    (st_size a) (st_atime a) (st_mtime a) (st_ctime a) (st_blksize a).
(** Change the attributes of a vnode and release it. *)
Definition set_attr (vn : Z) (f : vattr → vattr) : V K D unit :=
  a ← vgetattr vn; vputattr vn (f a);; on_srv (vput vn).
(** On success the result is the access the name was looked up for. *)
Definition vfs_chmod (tid path mode : Z) : V K D Z :=
  r ← vfs_namev tid path O_RDWR 0;
  let '(vn, err) := r in
  if vn =? 0 then mret err else set_attr vn (λ a, with_mode a mode);; mret err.
Definition vfs_chown (tid path uid gid : Z) : V K D Z :=
  r ← vfs_namev tid path O_RDWR 0;
  let '(vn, err) := r in
  if vn =? 0 then mret err else set_attr vn (λ a, with_owner a uid gid);; mret err.
Definition vfs_fchmod (tid fdesc mode : Z) : V K D Z :=
  r ← get_openfile tid fdesc jf;
  let '(err, f) := r in
  if err <? 0 then mret (- ESRCH)
  else
    vn ← on_srv (find_vnode (inode (KState.vnode f)) (device (KState.vnode f)));
    if vn =? 0 then mret err else set_attr vn (λ a, with_mode a mode);; mret err.

(** ** Mounting *)

(** The entry with the name; the first without a name ends in [strcmp] of NULL *)
Fixpoint mount_find (n : nat) (nm index : Z) : FS D vfssw :=
  match n with
  | O => fault
  | S n =>
      l ← gets fs;
      w ← must (l !! Z.to_nat index);
      r ← on_mem (strcmp nm (vsw_name w));
      if (r =? 0) || (vsw_init w =? 0) then mret w else mount_find n nm (index + 1)
  end.
Definition free_vfs (vfs : Z) : FS D unit := get_vfs vfs;; modify (λ s, s <| vfss ::= delete vfs |>).
Definition vfs_mount (sb : Z) (tid spec dir nm : Z) : V K D Z :=
  w ← on_srv (mount_find (Z.to_nat MAX_DEF_FS) nm 0);
  vfs ← on_srv (if vsw_init w =? 0 then fault else vsw_construct (vsw_init w));
  r ← vfs_namev tid dir (- EINVAL) 0;
  on_srv (upd_vfs vfs (λ v, v <| vfs_mpoint := r.1 |>));;
  if r.1 =? 0 then on_srv (free_vfs vfs);; mret r.2
  else
    v ← on_srv (get_vnode r.1);
    if negb (v_type v =? VNODE_DIR) then on_srv (free_vfs vfs);; mret r.2
    else
      r ← vfs_namev tid spec r.2 0;
      d ← on_srv (get_vnode r.1);
      on_srv (upd_vfs vfs (λ v, v <| vfs_dev := v_rdev d |>));;
      if negb (v_type d =? VNODE_BLK) then on_srv (free_vfs vfs);; mret r.2
      else
        v ← on_srv (get_vfs vfs);
        err ← on_srv (vfs_mount_op (vfs_ops v) fuel sb vfs);
        if err <? 0 then on_srv (free_vfs vfs);; mret err
        else on_srv (on_links (list_add lmember mnted (item vfs)));; mret 0.
(** [list_remove(&mnted, vfs, ...)] takes the first of the list and assigns it to [vfs], which is then
    freed; [free(NULL)] does nothing. *)
Definition remove_mnted : FS D Z := λ s,
  match list_remove lmember mnted (flinks s) with
  | Some (p, l) => if p.2 =? 0 then Ret p.1 (s <| flinks := l |>) else Fault
  | None => Fault
  end.
Definition vfs_umount (tid target : Z) : V K D Z :=
  r ← vfs_namev tid target 0 0;
  let '(mpoint, err) := r in
  if mpoint =? 0 then mret err
  else
    v ← on_srv (get_vnode mpoint);
    if negb (v_type v =? VNODE_DIR) || (v_fsmounted v =? 0) then mret err
    else
      let vfs := v_fsmounted v in
      f ← on_srv (get_vfs vfs);
      err ← on_srv (if vfs_ops f =? EXT2_VFS_OPS then ext2_unmount vfs else fault);
      if err <? 0 then on_srv (free_vfs vfs);; mret err
      else
        vfs ← on_srv remove_mnted;
        on_srv (free_vfs vfs);;
        mret 0.

(** ** kernel_helper.c: directories *)
Definition PATH_MAX : Z := 256.
Definition fs_getcwd (tid ptr : Z) : V K D Z := mret 0.

(** The bytes the kernel reads of a string, its NUL included. *)
Fixpoint user_string (n : nat) (p : Z) : B (list Z) :=
  match n with
  | O => mret []
  | S n => b ← ldu p; if b =? 0 then mret [b] else l ← user_string n (p + 1); mret (b :: l)
  end.
(** [ptr] is the address of the local array; the kernel and [strcpy] of "/" store into it *)
Definition fs_chdir (ptr : Z) (tid path : Z) : V K D Z :=
  r ← vfs_namev tid path O_RDONLY 0;
  let '(vn, eaccess) := r in
  if vn =? 0 then mret eaccess
  else
    v ← on_srv (get_vnode vn);
    if negb (S_ISDIR (v_type v)) then mret (- ENOTDIR)
    else
      r ← on_kern (of_get_cwd tid false true);
      match r.2 with None => mret tt | Some l => on_srv (on_mem (store_list ptr (l ++ [0]))) end;;
      c ← on_srv (on_mem (lds path));
      ans ← (if c =? SLASH then mret path
             else
               on_srv (on_mem (strlen ptr));;
               on_srv (on_mem (store_list ptr [SLASH; 0]));;
               c1 ← on_srv (on_mem (lds (path + 1)));
               let path := if (c =? DOT) && negb (c1 =? DOT) then path + 1 else path in
               on_srv (on_mem (strcpy ptr path));;
               mret ptr);
      l ← on_srv (on_mem (user_string (Z.to_nat MAX_PATH_LEN) ans));
      on_kern (of_put_cwd tid (Some (mk_inodev (v_inum v) (v_rdev v))) (Some l));;
      mret 0.

(** ** vfs_init: [ext2_name] is the address of the string the file system registers, [vsize] the size
    of struct vnode, [total] and [used] the memory there is *)
Definition vnode_new : vnode := mk_vnode (Z.lor V_NEW V_FREE) 0 0 0 0 0 0 0 0 0 (replicate (Z.to_nat INO_SIZEOF) 0).
Fixpoint init_vnodes (vsize : Z) (n : nat) (vn : Z) : FS D unit :=
  match n with
  | O => mret tt
  | S n =>
      modify (λ s, s <| vnodes ::= <[vn := vnode_new]> |>
                     <| flinks ::= <[lmember (item vn) := mk_link (item 0) (item 0)]> |>);;
      on_links (list_enqueue lmember vnfreelist (item vn));;
      init_vnodes vsize n (vn + vsize)
  end.
Definition init_list (h : Z * Z) : FS D unit := on_links (list_init h).
Definition vfs_init (total used vsize : Z) (ext2_name sb : Z) (nm dev : Z) : FS D Z :=
  fsmem ← malloc;
  (if fsmem =? 0 then fault else mret tt);;
  modify (λ s, s <| fs := replicate (Z.to_nat MAX_DEF_FS) (mk_vfssw 0 0 0) |> <| fs_index := 0 |>);;
  ext2fs_init ext2_name;;
  h ← malloc;
  (if h =? 0 then fault else modify (λ s, s <| vnhash := ∅ |>));;
  c ← malloc;
  (if c =? 0 then fault else mret tt);;
  init_list vnfreelist;;
  init_list mnted;;
  init_vnodes vsize (Z.to_nat NVNODES) c;;
  bcache_init total used;;
  mount_root fuel sb nm dev.
End Vfs.
Arguments vfs_read {K D _ _ _} _. Arguments vfs_close {K D _} _.

(** ** Reading through a descriptor *)
Section Reading.
Context {K D : Type} `{OpenFilesOk K} `{BlkDisk D} `{ChrDriver}.
Implicit Types (st : vst K D).

Lemma on_srv_Ret {A} (f : FS D A) a s' st : f (srv st) = Ret a s' → on_srv f st = Ret a (st <| srv := s' |>).
Proof. intros E. unfold on_srv. by rewrite E. Qed.
Lemma on_srv_rd {A} (f : FS D A) a st : f (srv st) = Ret a (srv st) → on_srv f st = Ret a st.
Proof. intros E. unfold on_srv. rewrite E. by destruct st. Qed.
Lemma on_kern_Ret {A} (f : M K A) a k st : f (kern st) = Ret a k → on_kern f st = Ret a (st <| kern := k |>).
Proof. intros E. unfold on_kern. by rewrite E. Qed.
Lemma get_openfile_Ret id d a f jf st :
  opened (kern st) id d a f → 0 <= d → get_openfile id d jf st = Ret (d, f) st.
Proof.
  intros Ho Hd. unfold get_openfile, fd_free_call.
  fs_run ltac:(apply on_kern_Ret; by eapply of_free_ok). cbn. rewrite (proj2 (Z.ltb_ge d 0)) by done. by destruct st.
Qed.

(** The vnode of the open file is in the table, and is that of a regular file of ext2. *)
Record vnode_for (s : fsst D) (f : file) (vn : Z) (p : vnode) : Prop := {
  vf_table : ∃ tb, table v_next vkey (vnodes s) (vnhash s) tb ∧ one_each s tb ∧ hashed tb vn;
  vf_vnode : vnodes s !! vn = Some p;
  vf_dev : v_rdev p = device (KState.vnode f);
  vf_ino : v_inum p = inode (KState.vnode f);
  vf_ops : v_ops p = EXT2_VNODE_OPS }.
Lemma find_vnode_for s f vn p :
  vnode_for s f vn p → find_vnode (device (KState.vnode f)) (inode (KState.vnode f)) s = Ret vn s ∧ vn ≠ 0.
Proof.
  intros [(tb&HT&HO&Hh) Ev Ed Ei _]. rewrite <- Ed, <- Ei. split; [by eapply find_vnode_hit|by eapply tab_not_null].
Qed.

(** C10. A read through descriptor [d] of a regular file of an ext2 file system, of bytes in the blocks
    that need no double indirect block, the first 12 and those of the indirect block: it copies
    to the buffer the bytes the file has at the offset of the open file, as many as were asked for or as are left, and answers
    their count; the open file with the offset after them is stored at descriptor 0,
    so that when [d] is another open file its offset stays and the next read
    returns the same bytes. *)
Theorem vfs_read_file sz st free jf id d a f a0 f0 vn p v N buf size :
  opened (kern st) id d a f → opened (kern st) id 0 a0 f0 → 0 <= d →
  vnode_for (srv st) f vn p →
  bc_inv sz (srv st) free → addr_ok sz (srv st) → bc_can (2 * nblocks sz (f_offset f) size) (srv st) free →
  vfss (srv st) !! vfsp p = Some v → blk_size v = sz → low_blocks (srv st) p sz N →
  0 <= f_offset f → 0 < size < 2 ^ 31 → Z.min (f_offset f + size) (i_size (v_ino p)) <= N * sz → 0 <= buf → buf + size <= 2 ^ 32 →
  mapped (fmem (srv st)) buf size → (∀ b, area (srv st) b → b + sz <= buf ∨ buf + size <= b) →
  let n := Z.max 0 (Z.min size (i_size (v_ino p) - f_offset f)) in
  ∃ st', vfs_read jf id d buf size st = Ret n st' ∧
    was_read sz (srv st) free p (f_offset f) buf n (srv st') ∧
    opened (kern st') id 0 a0 (with_offset f (f_offset f + n)) ∧
    (a ≠ a0 → opened (kern st') id d a f).
Proof.
  intros Hd Hz Hd0 HV HI HA HC Efs Hsz HF Ho Hs HN Hb0 Hb HM Hap n.
  destruct (find_vnode_for _ _ _ _ HV) as [Ef Hvn].
  destruct (ext2_read_file sz (srv st) free vn p v N (f_offset f) buf size) as (s'&Er&HR); try done; [apply HV|].
  fold n in Er, HR.
  destruct (of_put_ok (kern st) id d a0 f0 (with_offset f (f_offset f + n)) Hz Hd0) as (k'&Ek&Hk).
  exists (st <| srv := s' |> <| kern := k' |>). split_and!.
  - unfold vfs_read. fs_run ltac:(by eapply get_openfile_Ret). cbv iota. fs_run ltac:(apply on_srv_rd; exact Ef).
    rewrite (proj2 (Z.eqb_neq vn 0)) by done. fs_run ltac:(apply on_srv_rd, get_vnode_Ret, HV).
    rewrite (vf_ops _ _ _ _ HV). change (EXT2_VNODE_OPS =? 0) with false. cbv iota.
    unfold vop_read. rewrite Z.eqb_refl. fs_run ltac:(fs_run ltac:(by apply on_srv_Ret); reflexivity). cbv iota. cbn [fst snd].
    rewrite (proj2 (Z.ltb_ge _ 0)) by lia.
    by fs_run ltac:(unfold put_openfile, fd_alloc_call; fs_run ltac:(by apply on_kern_Ret); reflexivity).
  - done.
  - specialize (Hk _ _ _ _ Hz). by rewrite decide_True in Hk.
  - intros Hne. specialize (Hk _ _ _ _ Hd). by rewrite decide_False in Hk.
Qed.

(** Closing a descriptor looks the vnode up with the inode and the device in the other order:
    unless some vnode happens to have them so, it answers -EINVAL and changes nothing,
    neither the descriptor nor the count of the vnode of the file. *)
Theorem vfs_close_keeps st jf id d a f tb :
  opened (kern st) id (FDESC_FD d) a f →
  table v_next vkey (vnodes (srv st)) (vnhash (srv st)) tb →
  (∀ x w, hashed tb x → vnodes (srv st) !! x = Some w →
     is_for (inode (KState.vnode f)) (device (KState.vnode f)) w = false) →
  vfs_close jf id d st = Ret (- EINVAL) st.
Proof.
  intros Ho HT HN. assert (Hd : 0 <= FDESC_FD d) by (apply Z.land_nonneg; right; lia).
  unfold vfs_close. fs_run ltac:(by eapply get_openfile_Ret). cbv iota. rewrite (proj2 (Z.ltb_ge _ 0)) by done.
  by fs_run ltac:(apply on_srv_rd; eapply find_vnode_miss; [exact HT|exact HN]).
Qed.

(** Unmounting takes the first of the list of mounted file systems out and frees it, whichever
    was asked for. *)
Lemma vfs_umount_first jn ji fuel name tid target st st' mp e w x l f fx :
  vfs_namev ji jn fuel name tid target 0 0 st = Ret (mp, e) st' → mp ≠ 0 →
  vnodes (srv st') !! mp = Some w → v_type w = VNODE_DIR → v_fsmounted w ≠ 0 →
  vfss (srv st') !! v_fsmounted w = Some f → vfs_ops f = EXT2_VFS_OPS →
  dlist lmember (flinks (srv st')) mnted (item <$> x :: l) → vfss (srv st') !! x = Some fx →
  ∃ st2, vfs_umount ji jn fuel name tid target st = Ret 0 st2 ∧
    vfss (srv st2) = delete x (vfss (srv st')) ∧ dlist lmember (flinks (srv st2)) mnted (item <$> l).
Proof.
  intros En Hmp Ew Ht Hm Ef Hops HD Ex.
  destruct (list_remove_spec lmember _ _ _ _ HD) as (lk&El&HD'&_).
  exists (st' <| srv := (srv st') <| flinks := lk |> <| vfss ::= delete x |> |>). split_and!; [|done|exact HD'].
  unfold vfs_umount. fs_run ltac:(exact En). cbv iota. rewrite (proj2 (Z.eqb_neq mp 0)) by done.
  fs_run ltac:(by apply on_srv_rd, get_vnode_Ret). rewrite Ht, Z.eqb_refl, (proj2 (Z.eqb_neq _ 0)) by done. cbn [negb orb].
  fs_run ltac:(by apply on_srv_rd, get_vfs_Ret). rewrite Hops, Z.eqb_refl.
  fs_run ltac:(apply on_srv_rd; unfold ext2_unmount; by fs_run ltac:(by apply get_vfs_Ret)). cbn [Z.ltb Z.compare].
  fs_run ltac:(apply on_srv_Ret; unfold remove_mnted; change (mnted : Z * Z) with mnted; rewrite El; reflexivity).
  fs_run ltac:(apply on_srv_Ret; unfold free_vfs; fs_run ltac:(by apply get_vfs_Ret); reflexivity). done.
Qed.

(** The root has the type [VNODE_DIR], which is not the [S_IFDIR] of a mode: it can not be made the
    current directory. *)
Lemma chdir_root jn ji fuel name ptr tid path v p st :
  at_mem (fmem (srv st)) path [SLASH; 0] → vfss (srv st) !! rootvfs (srv st) = Some v →
  vnodes (srv st) !! vfs_mpoint v = Some p → vfs_mpoint v ≠ 0 → v_type p = VNODE_DIR →
  fs_chdir ji jn fuel name ptr tid path st = Ret (- ENOTDIR) st.
Proof.
  intros HP Ev Ep Hp Ht. apply at_mem_cons in HP as [H47 HP]. apply at_mem_cons in HP as [H00 _].
  assert (En : vfs_namev ji jn fuel name tid path O_RDONLY 0 st = Ret (vfs_mpoint v, O_RDONLY) st).
  { unfold vfs_namev. fs_run ltac:(apply on_srv_rd, on_mem_rd; by apply lds_Ret).
    change (s8 SLASH =? SLASH) with true. cbv iota. erewrite (bind_Ret _ _ _ (vfs_mpoint v, true)); [reflexivity|].
    fs_run ltac:(apply on_srv_rd; unfold get_root_vnode; fs_run ltac:(reflexivity); by fs_run ltac:(by apply get_vfs_Ret)).
    by fs_run ltac:(apply on_srv_rd, on_mem_rd; by apply lds_Ret). }
  unfold fs_chdir. fs_run ltac:(exact En).
  cbv iota. rewrite (proj2 (Z.eqb_neq _ 0)) by done. fs_run ltac:(by apply on_srv_rd, get_vnode_Ret). by rewrite Ht.
Qed.
End Reading.

(** ** A process with two open files *)
Definition no_chr : ChrDriver := λ _, None.
#[local] Existing Instance no_chr.
Definition tty_file : file := mk_file 0 0 1 (mk_inodev 77 3).
Definition text_file : file := mk_file O_RDONLY 7 1 (mk_inodev 12 demo_dev).
Definition two_fds : process := proc0 <| p_fd := fd0 <| fd_bitmap := 3 |> <| fileptr := [910; 920] ++ replicate 31 0 |> |>.
Definition with_files (s : kstate) : kstate :=
  (with_proc two_fds s) <| files := {[910 := tty_file; 920 := text_file]} |>.
Definition demo_kernel : kstate := with_files demo_threads.
Definition with_hash (s : fsst ram) : fsst ram := s <| vnhash := {[bhash_fn 12 demo_dev := 500]} |>.
Definition demo_vst : vst kstate ram := mk_vst demo_kernel (with_hash demo_ext2) [].

Lemma with_files_open s d a f :
  is_root (with_files s) → known s 14000 (demo_th 14000) → at_index (fileptr (p_fd two_fds)) d = Some a → d < 32 →
  files (with_files s) !! a = Some f → open_at (with_files s) 502 d a f.
Proof.
  intros HR HK Ha Hd Hf. split; [done|]. exists 14000, (demo_th 14000). split_and!; [by apply (known_same s)|apply demo_th_tid| |done].
  rewrite demo_th_proc. exists two_fds. split; [done|]. by rewrite (proj2 (Z.ltb_lt d MAX_DEF_FD)).
Qed.
Lemma demo_root : is_root demo_kernel.
Proof.
  exists (demo_th 13000), two_fds. split_and!; [vm_compute; reflexivity| |reflexivity].
  assert (E : proc (demo_th 13000) = 7000) by (vm_compute; reflexivity). rewrite E. reflexivity.
Qed.
Lemma demo_opened (d a : Z) (f : file) :
  at_index (fileptr (p_fd two_fds)) d = Some a → d < 32 → ({[910 := tty_file; 920 := text_file]} : gmap Z file) !! a = Some f →
  opened (kern demo_vst) 502 d a f.
Proof. intros Ha Hd Hf. apply with_files_open; [exact demo_root|exact demo_known|exact Ha|exact Hd|exact Hf]. Qed.
Definition demo_vtb : gmap Z (list Z) := {[bhash_fn 12 demo_dev := [500]]}.
Lemma demo_vtable : table v_next vkey (vnodes (with_hash demo_ext2)) (vnhash (with_hash demo_ext2)) demo_vtb.
Proof. apply table_if_ok, (bool_decide_unpack _). vm_compute. exact I. Qed.
Lemma demo_vtb_one x : hashed demo_vtb x → x = 500.
Proof. revert x. apply hashed_forall, (bool_decide_unpack _). vm_compute. exact I. Qed.
Lemma with_hash_same s : cache_same s (with_hash s).
Proof. done. Qed.
Lemma with_hash_low s p blk N : low_blocks s p blk N → low_blocks (with_hash s) p blk N.
Proof. intros []. by split. Qed.
Lemma with_hash_inv s sz free : bc_inv sz s free → bc_inv sz (with_hash s) free.
Proof. intros HI. apply (inv_same sz s); [done|apply (bi_bytes _ _ _ HI)|done|done]. Qed.
Lemma with_hash_addr s sz : addr_ok sz s → addr_ok sz (with_hash s).
Proof. done. Qed.
Lemma with_hash_vfs s : vfss (with_hash s) = vfss s.
Proof. done. Qed.
Lemma with_hash_mapped s a n : mapped (fmem s) a n → mapped (fmem (with_hash s)) a n.
Proof. done. Qed.
Lemma with_hash_area s a : area (with_hash s) a → area s a.
Proof. done. Qed.
Lemma with_hash_read s p sz free o buf n s' :
  was_read sz (with_hash s) free p o buf n s' → at_mem (fmem s') buf (file_byte s p sz <$> seqZ o n).
Proof. intros [_ _ HD _]. exact HD. Qed.
Lemma demo_vnode_for : vnode_for (srv demo_vst) text_file 500 demo_vnode.
Proof.
  split; [exists demo_vtb; split_and!|reflexivity..].
  - exact demo_vtable.
  - intros x y v w Hx%demo_vtb_one Hy%demo_vtb_one _ _ _ _. congruence.
  - exists (bhash_fn 12 demo_dev). unfold chain_of, demo_vtb. rewrite lookup_singleton_eq. by left.
Qed.

(** 100 bytes are asked for at offset 7 through descriptor 1: 5 are read, descriptor 0 becomes the
    file at its end and descriptor 1 stays at offset 7. *)
Lemma vfs_read_file_witness :
  ∃ st', vfs_read file0 502 1 14336 100 demo_vst = Ret 5 st' ∧ at_mem (fmem (srv st')) 14336 [119; 111; 114; 108; 100] ∧
    opened (kern st') 502 0 910 (with_offset text_file 12) ∧ opened (kern st') 502 1 920 text_file.
Proof.
  destruct (vfs_read_file 1024 demo_vst [] file0 502 1 920 text_file 910 tty_file 500 demo_vnode demo_vfs 20 14336 100)
    as (st'&H1&H2&H3&H4).
  - apply demo_opened; reflexivity.
  - apply demo_opened; reflexivity.
  - lia.
  - exact demo_vnode_for.
  - apply with_hash_inv, demo_ext2_inv.
  - apply with_hash_addr, demo_addr.
  - apply (bc_can_same _ demo_ext2); [apply with_hash_same|]. apply demo_ext2_can. vm_compute. lia.
  - cbn [srv demo_vst]. rewrite with_hash_vfs. apply with_file_vfs.
  - reflexivity.
  - apply with_hash_low, demo_low.
  - cbn. lia.
  - lia.
  - apply Z.leb_le. vm_compute. reflexivity.
  - lia.
  - lia.
  - apply with_hash_mapped, demo_buffer. lia.
  - intros a Ha%with_hash_area%demo_ext2_area. lia.
  - exists st'. split_and!; [exact H1| |exact H3|by apply H4].
    apply with_hash_read in H2.
    replace (file_byte demo_ext2 demo_vnode 1024 <$> seqZ (f_offset text_file) _) with [119; 111; 114; 108; 100] in H2
      by (vm_compute; reflexivity).
    exact H2.
Defined.
Lemma vfs_close_keeps_witness : vfs_close file0 502 1 demo_vst = Ret (- EINVAL) demo_vst.
Proof.
  apply (vfs_close_keeps demo_vst file0 502 1 920 text_file demo_vtb).
  - apply demo_opened; reflexivity.
  - exact demo_vtable.
  - intros x w ->%demo_vtb_one E. injection E as <-. reflexivity.
Defined.
