(* ===== verification/Exec.v ===== *)
(** * Programs: ELF files, pages for the pager, and the requests of the server

    Models servers/fs-io/fs/binaries/elf.c, the rest of kernel_helper.c and msg.c.
    struct vn_object (mrx/pager.h, the structure of the kernel in vm_object.h) is in
    the buffer of the message; a routine that changes it returns it.  The structures of an ELF file are read from their offsets in
    memory.  A request is the message as the server receives it, and the reply the
    same with the result in [w1]. *)

From S2P Require Import Prelude DList Hash KState Fd Syscall.
From S2P Require Import LibcString FsState BlkDev Bcache Ext2 Vnode Ext2Dir Vfs.

Definition VM_MAP_FILE : Z := 0x80.
Definition MAP_FIXED : Z := 4.
Definition ID_FSIO_MNGR : Z := 2.

(** ** elf.h: members by their offset *)
Definition EHDR_SIZEOF : Z := 52.
Definition e_entry (h : Z) : B Z := ldw (h + 24).
Definition e_phoff (h : Z) : B Z := ldw (h + 28).
Definition e_shoff (h : Z) : B Z := ldw (h + 32).
Definition e_phentsize (h : Z) : B Z := ld16 (h + 42).
Definition e_phnum (h : Z) : B Z := ld16 (h + 44).
Definition e_shentsize (h : Z) : B Z := ld16 (h + 46).
Definition e_shnum (h : Z) : B Z := ld16 (h + 48).
Definition p_offset (ph : Z) : B Z := ldw (ph + 4).
Definition p_vaddr (ph : Z) : B Z := ldw (ph + 8).
Definition p_filesz (ph : Z) : B Z := ldw (ph + 16).
Definition sh_type (sh : Z) : B Z := ldw (sh + 4).
Definition sh_flags (sh : Z) : B Z := ldw (sh + 8).
Definition sh_addr (sh : Z) : B Z := ldw (sh + 12).
Definition sh_size (sh : Z) : B Z := ldw (sh + 20).
Definition SHT_NOBITS : Z := 8.
Definition SHF_WRITE : Z := 1.
Definition SHF_ALLOC : Z := 2.
(** struct exec_struct: the header and, after it, the pointer to the program headers *)
Definition exec_phdr (exec : Z) : B Z := ldw (exec + EHDR_SIZEOF).

(** [checkmagic]; [e_ident] is an array of unsigned char *)
Definition checkmagic (h : Z) : B bool :=
  a ← ldu h; b ← ldu (h + 1); c ← ldu (h + 2); d ← ldu (h + 3);
  mret ((a =? 0x7F) && (b =? 69) && (c =? 76) && (d =? 70)).

Section Exec.
Context {D : Type} `{BlkDriver D}.

(** [vn->ops->vop_bmap]: only ext2 has it *)
Definition bmap (v : vnode) (vn blk : Z) : FS D Z := if v_ops v =? EXT2_VNODE_OPS then ext2_bmap vn blk else fault.

(** The first section without data in the file that is allocated or written. *)
Fixpoint find_noload (n : nat) (i shnum shentsize nshdr : Z) : B (option (Z * Z)) :=
  match n with
  | O => mret None
  | S n =>
      if shnum <=? i then mret None
      else
        let shdr := u32 (nshdr + shentsize * i) in
        addr ← sh_addr shdr;
        t ← sh_type shdr; f ← sh_flags shdr;
        if (t =? SHT_NOBITS) && has f (Z.lor SHF_ALLOC SHF_WRITE) then sz ← sh_size shdr; mret (Some (addr, u32 (addr + sz)))
        else find_noload n (i + 1) shnum shentsize nshdr
  end.
(** The exec_struct, NULL for an error, and the object; a file with a wrong magic keeps its
    buffer. *)
Definition read_header (vn : Z) (obj : vn_object) : FS D (Z * vn_object) :=
  if vn =? 0 then mret (0, obj)
  else
    v ← get_vnode vn;
    if negb (v_ops v =? EXT2_VNODE_OPS) then mret (0, obj)
    else
      block ← bmap v vn 0;
      f ← get_vfs (vfsp v);
      bc ← bread (v_rdev v) block (blk_size f);
      if bc =? 0 then mret (0, obj)
      else
        b ← get_buf bc;
        let hdr := b_data b in
        ok ← on_mem (checkmagic hdr);
        if negb ok then mret (0, obj)
        else
          phes ← on_mem (e_phentsize hdr); phn ← on_mem (e_phnum hdr);
          let phsize := phes * phn in
          shoff ← on_mem (e_shoff hdr);
          off ← udiv shoff (blk_size f);
          bc1 ← (if off =? 0 then mret (Some 0)
                 else block ← bmap v vn off; bc1 ← bread (v_rdev v) block (blk_size f); mret (if bc1 =? 0 then None else Some bc1));
          match bc1 with
          | None => brelse bc;; mret (0, obj)
          | Some bc1 =>
              nshdr ← ((if off =? 0 then mret (u32 (hdr + shoff))
                        else b1 ← get_buf bc1; mret (u32 (b_data b1 + shoff mod blk_size f))) : FS D Z);
              shnum ← on_mem (e_shnum hdr); shes ← on_mem (e_shentsize hdr);
              r ← on_mem (find_noload (Z.to_nat shnum) 0 shnum shes nshdr);
              let obj := match r with Some (a, e) => obj <| noload_start := a |> <| noload_end := e |> | None => obj end in
              exec ← malloc;
              on_mem (memcpy exec hdr EHDR_SIZEOF);;
              ph ← malloc;
              on_mem (store_list (exec + EHDR_SIZEOF) (of_le32 ph));;
              phoff ← on_mem (e_phoff hdr);
              on_mem (memcpy ph (u32 (hdr + phoff)) phsize);;
              (if off =? 0 then mret 0 else brelse bc1);;
              brelse bc;;
              mret (exec, obj)
          end.
Definition open_elf (vn : Z) (obj : vn_object) : FS D (Z * vn_object) :=
  r ← read_header vn obj;
  let '(exec, obj) := r in
  if exec =? 0 then mret (-1, obj)
  else
    upd_vnode vn (λ v, v <| v_data := exec |>);;
    e ← on_mem (e_entry exec);
    mret (0, obj <| vn_va := e |>).

(** The loop of [read_file] and of [read_file_data]: blocks of the file from [off] on are copied to
    [ptr]; [do { } while(--size)]. *)
Fixpoint blocks_loop (n : nat) (vn off ptr size : Z) : FS D Z :=
  match n with
  | O => spin
  | S n =>
      v ← get_vnode vn;
      f ← get_vfs (vfsp v);
      block ← bmap v vn off;
      buffer ← bread (v_rdev v) block (blk_size f);
      if buffer =? 0 then mret (-1)
      else
        b ← get_buf buffer;
        on_mem (memcpy ptr (b_data b) (blk_size f));;
        brelse buffer;;
        let size := s32 (size - 1) in
        if size =? 0 then mret 0
        else blocks_loop n vn (u32 (off + 1)) (u32 (ptr + blk_size f)) size
  end.
Definition read_file (n : nat) (vn : Z) (obj : vn_object) (data phdr : Z) : FS D Z :=
  v ← get_vnode vn;
  f ← get_vfs (vfsp v);
  va ← on_mem (p_vaddr phdr);
  let offset := u32 (vn_va obj - va) in
  size ← udiv (vn_size obj) (blk_size f);
  off ← udiv offset (blk_size f);
  po ← on_mem (p_offset phdr);
  let off := if blk_size f <=? po then u32 (off + po / blk_size f) else off in
  blocks_loop n vn off data (s32 size).

(** The program header the address is in; the end of the segment counts as in it. *)
Fixpoint find_phdr (n : nat) (phdrs phentsize phnum va index : Z) : B (option Z) :=
  match n with
  | O => spin
  | S n =>
      let phdr := u32 (phdrs + phentsize * index) in
      pv ← p_vaddr phdr; fs ← p_filesz phdr;
      if (pv <=? va) && (va <=? u32 (pv + fs)) then mret (Some phdr)
      else if index + 1 <? phnum then find_phdr n phdrs phentsize phnum va (index + 1)
      else mret None
  end.
(** An address in no segment: nothing is stored. *)
Definition elf_read_data (n : nat) (vn : Z) (obj : vn_object) (data : Z) : FS D Z :=
  v ← get_vnode vn;
  let exec := v_data v in
  phdrs ← on_mem (exec_phdr exec); phes ← on_mem (e_phentsize exec); phn ← on_mem (e_phnum exec);
  r ← on_mem (find_phdr (S (Z.to_nat phn)) phdrs phes phn (vn_va obj) 0);
  match r with
  | None => mret 0
  | Some phdr => read_file n vn obj data phdr
  end.

(** ** kernel_helper.c: mapped files.  The member [blk_size] is signed, the comparison is not. *)
Definition read_file_data (n : nat) (vn : Z) (obj : vn_object) (data : Z) : FS D (Z * vn_object) :=
  v ← get_vnode vn;
  f ← get_vfs (vfsp v);
  let size := if vn_page_size obj <=? u32 (vn_blk_size obj) then vn_blk_size obj else vn_page_size obj in
  off ← udiv (vn_offset obj) (blk_size f);
  size' ← udiv (u32 size) (blk_size f);
  r ← blocks_loop n vn off data (s32 size');
  mret (r, obj <| vn_offset := u32 (vn_offset obj + size) |>).
End Exec.

(** ** Requests *)
Section Requests.
Context {K D : Type} `{OpenFiles K} `{BlkDriver D} `{ChrDriver}.
Context (jf : file) (ji : inodev) (jn : nameidata) (fuel : nat) (name : Z).

Definition do_exec (tid path : Z) (vno : vn_object) : V K D (Z * vn_object) :=
  r ← vfs_namev ji jn fuel name tid path O_RDONLY 0;
  let vn := r.1 in
  if vn =? 0 then mret (-1, vno)
  else
    attr ← vgetattr vn;
    if negb (S_ISREG (st_mode attr)) then on_srv (vput vn);; mret (- EINVAL, vno)
    else
      r ← on_srv (open_elf vn vno);
      let '(eaccess, vno) := r in
      if eaccess <? 0 then on_srv (vput vn);; mret (eaccess, vno)
      else
        v ← on_srv (get_vnode vn);
        fd ← fd_alloc_call tid (-1) (Some (mk_file eaccess 0 0 (mk_inodev (v_inum v) (v_rdev v))));
        f ← on_srv (get_vfs (vfsp v));
        mret (0, vno <| vn_fd := fd |> <| vn_blk_size := s32 (blk_size f) |> <| vn_map_type := MAP_FIXED |>
                     <| vn_size := st_size attr |> <| vn_pager_id := ID_FSIO_MNGR |>).

(** [vn] is NULL for [None] *)
Definition data_request (n : nat) (tid : Z) (vn : option vn_object) (data : Z) : V K D (Z * option vn_object) :=
  match vn with
  | None => mret (-1, None)
  | Some obj =>
      r ← get_openfile tid (vn_fd obj) jf;
      let '(err, f) := r in
      if err <? 0 then mret (err, vn)
      else
        v ← on_srv (find_vnode (device (KState.vnode f)) (inode (KState.vnode f)));
        if v =? 0 then mret (-1, vn)
        else if has (vn_map_type obj) VM_MAP_FILE then
          r ← on_srv (read_file_data n v obj data); mret (r.1, Some r.2)
        else r ← on_srv (elf_read_data n v obj data); mret (r, vn)
  end.

(** ** msg.c *)
Record request := mk_request {
  q_tid : Z; q_w1 : Z; q_w2 : Z; q_w4 : Z; q_w5 : Z; snd_ptr : Z; snd_bufsize : Z; rcv_ptr : Z; rcv_bufsize : Z }.
#[local] Instance eta_request : Settable request := λ x,
  mk_request (q_tid x) (q_w1 x) (q_w2 x) (q_w4 x) (q_w5 x) (snd_ptr x) (snd_bufsize x) (rcv_ptr x) (rcv_bufsize x).

(** struct vn_object in memory: eleven words *)
Definition ld_vno (p : Z) : B vn_object :=
  a ← ldw p; b ← ldw (p + 4); c ← ldw (p + 8); d ← ldw (p + 12); e ← ldw (p + 16); f ← ldw (p + 20); g ← ldw (p + 24);
  h ← ldw (p + 28); i ← ldw (p + 32); j ← ldw (p + 36); k ← ldw (p + 40);
  mret (mk_vn (s32 a) (s32 b) c d e (s32 f) (s32 g) h (s32 i) j k).
Definition st_vno (p : Z) (o : vn_object) : B unit :=
  store_list p (mjoin (of_le32 <$> [u32 (vn_fd o); u32 (vn_blk_size o); vn_page_size o; vn_va o; vn_offset o;
    u32 (vn_map_type o); u32 (vn_protection o); vn_size o; u32 (vn_pager_id o); noload_start o; noload_end o])).

(** Every handler stores its result in [w1] and replies with the message. *)
Definition answer (m : request) (r : V K D Z) : V K D request := x ← r; mret (m <| q_w1 := x |>).
Definition msg_open (m : request) : V K D request :=
  r ← vfs_open ji jn fuel name (q_tid m) (snd_ptr m) (q_w4 m) 0; mret (m <| q_w4 := r.2 |> <| q_w1 := r.1 |>).
Definition msg_close (m : request) : V K D request := answer m (vfs_close jf (q_tid m) (q_w4 m)).
Definition msg_read (m : request) : V K D request :=
  answer m (vfs_read jf (q_tid m) (q_w2 m) (rcv_ptr m) (rcv_bufsize m)).
Definition msg_write (m : request) : V K D request :=
  answer m (vfs_write jf (q_tid m) (q_w4 m) (snd_ptr m) (snd_bufsize m)).
Definition msg_access (junk : Z) (m : request) : V K D request :=
  answer m (vfs_access ji jn fuel name junk (q_tid m) (snd_ptr m) (q_w4 m)).
Definition msg_chdir (ptr : Z) (m : request) : V K D request :=
  answer m (fs_chdir ji jn fuel name ptr (q_tid m) (snd_ptr m)).
Definition msg_chown (m : request) : V K D request :=
  answer m (vfs_chown ji jn fuel name (q_tid m) (snd_ptr m) (s32 (q_w4 m)) (s32 (q_w5 m))).
Definition msg_exec (m : request) : V K D request :=
  vno ← on_srv (on_mem (ld_vno (rcv_ptr m)));
  r ← do_exec (q_tid m) (snd_ptr m) vno;
  on_srv (on_mem (st_vno (rcv_ptr m) r.2));;
  mret (m <| q_w1 := r.1 |>).
Definition msg_chmod (m : request) : V K D request :=
  answer m (vfs_chmod ji jn fuel name (q_tid m) (snd_ptr m) (q_w4 m)).
(** The handler of stat calls [vfs_chmod] with the address of the buffer as the mode. *)
Definition msg_stat (m : request) : V K D request :=
  answer m (vfs_chmod ji jn fuel name (q_tid m) (snd_ptr m) (rcv_ptr m)).
Definition msg_fstat (m : request) : V K D request := answer m (vfs_fstat (q_tid m) (q_w2 m)).
Definition msg_data_req (m : request) : V K D request :=
  vno ← ((if snd_ptr m =? 0 then mret None else o ← on_srv (on_mem (ld_vno (snd_ptr m))); mret (Some o)) : V K D (option vn_object));
  r ← data_request fuel (q_tid m) vno (rcv_ptr m);
  match r.2 with None => mret tt | Some o => on_srv (on_mem (st_vno (snd_ptr m) o)) end;;
  mret (m <| q_w1 := r.1 |>).
(** Without SEPERATE_IO_PROCESS this does nothing, and does not reply. *)
Definition msg_req_iospace (m : request) : V K D request := mret m.

(** main.c: the handler of a request, [fs_work[request]] *)
Definition fs_work (junk ptr : Z) (n : nat) (m : request) : V K D request :=
  match n with
  | 0 => msg_data_req m | 1 => msg_open m | 2 => msg_close m | 3 => msg_read m | 4 => msg_write m | 5 => msg_chown m
  | 6 => msg_exec m | 7 => msg_req_iospace m | 8 => msg_access junk m | 9 => msg_chdir ptr m | 10 => msg_chmod m
  | 11 => msg_stat m | 12 => msg_fstat m | _ => fault
  end%nat.
End Requests.

(** ** Pages of a file *)
Section Pages.
Context {D : Type} `{BlkDisk D}.
Implicit Types (s : fsst D).

(** The loop copies [k] blocks of the file, from block [off] on. *)
Lemma blocks_loop_spec sz vn p v N : ∀ k n s free off ptr,
  bc_inv sz s free → bc_can (2 * k) s free → addr_ok sz s →
  vnodes s !! vn = Some p → vfss s !! vfsp p = Some v → blk_size v = sz → v_ops p = EXT2_VNODE_OPS → low_blocks s p sz N →
  (1 <= k <= n)%nat → k < 2 ^ 31 → 0 <= off → off + k <= N →
  0 <= ptr → ptr + k * sz <= 2 ^ 32 → mapped (fmem s) ptr (k * sz) →
  (∀ a, area s a → a + sz <= ptr ∨ ptr + k * sz <= a) →
  ∃ s', blocks_loop n vn off ptr k s = Ret 0 s' ∧ was_read sz s free p (off * sz) ptr (k * sz) s'.
Proof.
  induction k as [|k IH]; intros n s free off ptr HI HC HA Ep Ev Hsz Hops HF Hk Hk31 Ho Hsize Hp0 Hp HM Hap; [lia|].
  destruct n as [|n]; [lia|]. pose proof (lb_blk _ _ _ _ HF) as [Hb _]. pose proof (lb_max _ _ _ _ HF) as Hmax.
  assert (Ediv : off * sz / sz = off) by (apply Z.div_mul; lia).
  assert (Emod : off * sz mod sz = 0) by (apply Z.mod_mul; lia).
  assert (Ech : chunk sz (off * sz) (S k * sz) = sz) by (unfold chunk; rewrite Emod; nia).
  destruct (read_round sz s free (2 * k)%nat vn p v N (off * sz) ptr (S k * sz))
    as (s1&s2&s3&free3&bd&b&E1&E2&Hbd&Eb&Hbd32&Ep2&[E3 E4]&HI3&HC3&HF3&HS3&Em3&HQ); try done.
  1: by replace (S (S (2 * k)))%nat with (2 * S k)%nat by lia. 1, 2: nia. 1: rewrite Ediv; lia.
  rewrite Ediv in E1, E2. rewrite Ech, Emod, Z.add_0_r in E3. rewrite Ech in E4, Em3.
  assert (W1 : was_read sz s3 free3 p (off * sz + sz) (ptr + sz) 0 s3).
  { split; [exists free3; split; [done|by apply bc_frame_refl]|done|rewrite seqZ_nil by lia; intros i Hi; cbn in Hi; lia|done]. }
  rewrite u32_id in E3 by lia. cbn [blocks_loop].
  fs_run ltac:(by apply get_vnode_Ret). fs_run ltac:(by apply get_vfs_Ret). rewrite Hsz.
  fs_run ltac:(unfold bmap; rewrite Hops, Z.eqb_refl; exact E1). fs_run ltac:(exact E2).
  rewrite (proj2 (Z.eqb_neq bd 0)) by done. fs_run ltac:(by apply get_buf_Ret). fs_run ltac:(exact E3). fs_run ltac:(exact E4).
  rewrite s32_id by lia. destruct (Z.eqb_spec (S k - 1) 0) as [Ek|Ek].
  - assert (k = 0)%nat as -> by lia. exists s3. split; [done|]. replace (1%nat * sz) with (sz + 0) by lia.
    eapply was_read_app; [done..|lia|lia| |done|done]. intros a Ha. destruct (Hap a Ha); lia.
  - unfold EXT2_IND_BLOCK in Hmax. assert (off + S k - 1 < 12 + sz / 4) by lia.
    assert (sz / 4 <= 2 ^ 14) by (Z.to_euclidean_division_equations; lia).
    rewrite !u32_id by nia. replace (S k - 1) with (Z.of_nat k) by lia.
    destruct (IH n s3 free3 (off + 1) (ptr + sz)) as (s'&E'&W'); try done; try lia.
    all: try (by eapply addr_ok_frame). all: try (by eapply low_blocks_frame).
    + by rewrite (proj1 HS3).
    + destruct HS3 as (_&_&->&_). done.
    + rewrite Em3. apply put_mapped. intros i Hi. rewrite <- Z.add_assoc. apply (proj2 HQ ptr (S k * sz) HM). nia.
    + intros a Ha. apply (bf_area _ _ _ _ _ HF3) in Ha. destruct (Hap _ Ha); nia.
    + exists s'. split; [exact E'|]. replace (S k * sz) with (sz + k * sz) by lia.
      eapply was_read_app; [done..|lia|nia| |done|].
      * intros a Ha. destruct (Hap a Ha); lia.
      * by replace (off * sz + sz) with ((off + 1) * sz) by lia.
Qed.
End Pages.

Section Pager.
Context {K D : Type} `{OpenFilesOk K} `{BlkDisk D}.
Implicit Types (st : vst K D).

(** C19. A request of the pager for a page of a mapped file, of [k] blocks (a page, or the block of the
    object when that is larger) from the block boundary [off * sz] on, none of which needs a double
    indirect block: it copies to the page the contents of these blocks and moves the
    offset of the object behind them.  The size of the file is not looked at: of the blocks after its end the
    page gets what the disk has for the numbers in the inode, of the number 0 its first block. *)
Theorem data_request_page sz st free jf n id obj a f vn p v N data off (k : nat) :
  opened (kern st) id (vn_fd obj) a f → 0 <= vn_fd obj → vnode_for (srv st) f vn p →
  has (vn_map_type obj) VM_MAP_FILE = true →
  vn_offset obj = off * sz → 0 <= vn_blk_size obj < 2 ^ 31 → 0 <= vn_page_size obj → Z.max (vn_blk_size obj) (vn_page_size obj) = k * sz →
  bc_inv sz (srv st) free → bc_can (2 * k) (srv st) free → addr_ok sz (srv st) →
  vfss (srv st) !! vfsp p = Some v → blk_size v = sz → low_blocks (srv st) p sz N →
  (1 <= k <= n)%nat → k < 2 ^ 31 → 0 <= off → off + k <= N →
  0 < data → data + k * sz <= 2 ^ 32 → mapped (fmem (srv st)) data (k * sz) →
  (∀ b, area (srv st) b → b + sz <= data ∨ data + k * sz <= b) →
  ∃ st', data_request jf n id (Some obj) data st = Ret (0, Some (obj <| vn_offset := u32 (off * sz + k * sz) |>)) st' ∧
    was_read sz (srv st) free p (off * sz) data (k * sz) (srv st') ∧ kern st' = kern st.
Proof.
  intros Ho Hfd HV Hmap Hoff Hbs Hps0 Hps HI HC HA Ev Hsz HF Hk Hk31 Hoff0 Hsize Hd0 Hd HM Hap.
  pose proof (lb_blk _ _ _ _ HF) as [Hb _]. destruct (find_vnode_for _ _ _ _ HV) as [Ef Hvn].
  destruct (blocks_loop_spec sz vn p v N k n (srv st) free off data) as (s'&E&W); try done; try lia; [apply HV..|].
  exists (st <| srv := s' |>). split_and!; [|exact W|done].
  unfold data_request. fs_run ltac:(by eapply get_openfile_Ret). cbv iota. rewrite (proj2 (Z.ltb_ge _ 0)) by done.
  fs_run ltac:(apply on_srv_rd; exact Ef). rewrite (proj2 (Z.eqb_neq vn 0)), Hmap by done.
  fs_run ltac:(apply on_srv_Ret; unfold read_file_data; fs_run ltac:(apply get_vnode_Ret, HV); fs_run ltac:(by apply get_vfs_Ret);
    rewrite Hsz, (u32_id (vn_blk_size obj)) by lia;
    replace (if vn_page_size obj <=? vn_blk_size obj then vn_blk_size obj else vn_page_size obj) with (k * sz) by (destruct (Z.leb_spec (vn_page_size obj) (vn_blk_size obj)); lia); unfold udiv;
    rewrite (proj2 (Z.eqb_neq sz 0)) by lia; fs_run ltac:(reflexivity); rewrite (u32_id (k * sz)) by lia;
    fs_run ltac:(reflexivity); rewrite Hoff, !Z.div_mul, s32_id by lia; fs_run ltac:(exact E); reflexivity).
  reflexivity.
Qed.
End Pager.

(** The first page of the text of descriptor 1, of one block. *)
Definition demo_obj : vn_object := mk_vn 1 512 1024 0 0 VM_MAP_FILE 0 0 0 0 0.
Lemma data_request_page_witness :
  ∃ st', data_request file0 1 502 (Some demo_obj) 14336 demo_vst = Ret (0, Some (demo_obj <| vn_offset := 1024 |>)) st' ∧
    at_mem (fmem (srv st')) (14336 + 7) [119; 111; 114; 108; 100].
Proof.
  destruct (data_request_page 1024 demo_vst [] file0 1 502 demo_obj 920 text_file 500 demo_vnode demo_vfs 20 14336 0 1)
    as (st'&H1&H2&_).
  - apply demo_opened; reflexivity.
  - cbn. lia.
  - exact demo_vnode_for.
  - reflexivity.
  - reflexivity.
  - cbn. lia.
  - cbn. lia.
  - reflexivity.
  - apply with_hash_inv, demo_ext2_inv.
  - apply (bc_can_same _ demo_ext2); [apply with_hash_same|]. apply demo_ext2_can. lia.
  - apply with_hash_addr, demo_addr.
  - cbn [srv demo_vst]. rewrite with_hash_vfs. apply with_file_vfs.
  - reflexivity.
  - apply with_hash_low, demo_low.
  - lia.
  - lia.
  - lia.
  - lia.
  - lia.
  - lia.
  - apply with_hash_mapped, demo_buffer. lia.
  - intros a Ha%with_hash_area%demo_ext2_area. lia.
  - exists st'. split; [exact H1|]. apply with_hash_read in H2.
    replace (file_byte demo_ext2 demo_vnode 1024 <$> seqZ (0 * 1024) (1%nat * 1024)) with
      ((file_byte demo_ext2 demo_vnode 1024 <$> seqZ 0 7) ++ [119; 111; 114; 108; 100] ++
       (file_byte demo_ext2 demo_vnode 1024 <$> seqZ 12 1012)) in H2 by (vm_compute; reflexivity).
    rewrite !at_mem_app in H2. destruct H2 as (_&H2&_).
    assert (E : length (file_byte demo_ext2 demo_vnode 1024 <$> seqZ 0 7) = 7%nat) by (rewrite length_fmap, length_seqZ; reflexivity).
    rewrite E in H2. exact H2.
Defined.
