(* ===== verification/Partition.v ===== *)
(** * Partition tables

    Models servers/fs-io/io/block/storage/partitions/partition.c.  The routine that
    transfers sectors is an argument, as the pointer [devstrat] is; the two
    structures MBR on the stack are at the addresses [mbr] and [ebr].  The table of
    256 partitions is the list [pinfo]. *)

From S2P Require Import Prelude DList LibcString FsState BlkDev.

Definition PARTITION_EXTENDED : Z := 0x05.
Definition PARTITION_EXTENDED1 : Z := 0x0F.

(** struct tagMBR in memory: entry [i] of [part], and its members *)
Definition mbr_part (mbr i : Z) : Z := mbr + 446 + 16 * i.
Definition bootIndicator (p : Z) : B Z := ldu p.
Definition systemId (p : Z) : B Z := ldu (p + 4).
Definition relativeSectors (p : Z) : B Z := ldw (p + 8).
Definition totalSectors (p : Z) : B Z := ldw (p + 12).
Definition mbr_signature (mbr : Z) : B Z := ld16 (mbr + 510).

Definition pinfo0 : partition_info := mk_pinfo 0 0 0 0.

Section Partition.
Context {D : Type} (devstrat : operation → M (D * bytes) Z).

Definition in_mem {A} (f : B A) : M (D * bytes) A := λ '(d, m),
  match f m with Ret a m => Ret a (d, m) | Fault => Fault | Halt => Halt | Spin => Spin end.

Definition readsect (dev lba data sectsize : Z) : M (D * bytes) Z :=
  devstrat (mk_operation dev BLK_READ lba sectsize data).
Definition read_mbr (dev sectsize mbr : Z) : M (D * bytes) Z :=
  ret ← readsect dev 0 mbr sectsize;
  if ret <? 0 then mret (-1)
  else
    sig ← in_mem (mbr_signature mbr);
    mret (if negb (sig =? 0xAA55) then -1 else 0).

(** [pinfo] is not advanced: every entry is stored in the first of the table. *)
Fixpoint read_primary (n : nat) (mbr index e : Z) (pinfo : list partition_info) : M (D * bytes) (Z * list partition_info) :=
  match n with
  | O => mret (e, pinfo)
  | S n =>
      let part := mbr_part mbr index in
      start ← in_mem (relativeSectors part); sz ← in_mem (totalSectors part);
      t ← in_mem (systemId part); flag ← in_mem (bootIndicator part);
      let pinfo := <[0%nat := mk_pinfo start sz t flag]> pinfo in
      let e := if (t =? PARTITION_EXTENDED) || (t =? PARTITION_EXTENDED1) then index else e in
      read_primary n mbr (index + 1) e pinfo
  end.

(** [pinfo[index]] from entry 0 of the boot record at [ebr]; outside of the table it faults *)
Definition set_logical (pinfo : list partition_info) (index ebr base ebr2 : Z) : M (D * bytes) (list partition_info) :=
  let p0 := mbr_part ebr 0 in
  t ← in_mem (systemId p0); sz ← in_mem (totalSectors p0); flag ← in_mem (bootIndicator p0);
  start ← in_mem (relativeSectors p0);
  if Z.of_nat (length pinfo) <=? index then fault
  else mret (<[Z.to_nat index := mk_pinfo (u32 (start + base + ebr2)) sz t flag]> pinfo).
Fixpoint extended_loop (n : nat) (dev sectsize ebr base index ebr2 : Z) (pinfo : list partition_info)
    : M (D * bytes) (Z * list partition_info) :=
  match n with
  | O => spin
  | S n =>
      pinfo ← set_logical pinfo index ebr base ebr2;
      ebr2 ← in_mem (relativeSectors (mbr_part ebr 1));
      readsect dev (u32 (ebr2 + base)) ebr sectsize;;
      let index := index + 1 in
      t ← in_mem (systemId (mbr_part ebr 1));
      if (255 <=? index) || (t =? 0) then
        pinfo ← set_logical pinfo index ebr base ebr2; mret (index + 1, pinfo)
      else extended_loop n dev sectsize ebr base index ebr2 pinfo
  end.
Definition read_extended (dev sectsize ebr p : Z) (pinfo : list partition_info) : M (D * bytes) (Z * list partition_info) :=
  base ← in_mem (relativeSectors p);
  ret ← readsect dev base ebr sectsize;
  if ret <? 0 then mret (ret, pinfo)
  else extended_loop 251 dev sectsize ebr base 5 0 pinfo.

Definition read_partitions (dev sectsize mbr ebr : Z) (pinfo : list partition_info) : M (D * bytes) (Z * list partition_info) :=
  r ← read_primary 4 mbr 1 (-1) pinfo;
  let '(index, pinfo) := r in
  if index =? -1 then mret (0, pinfo)
  else read_extended dev sectsize ebr (mbr_part mbr index) pinfo.

(** The table, [None] for NULL; [realloc] cuts it to the entries that were counted. *)
Definition initialize_partitions (device sectorsize mbr ebr : Z) : M (D * bytes) (option (list partition_info)) :=
  ret ← read_mbr device sectorsize mbr;
  if ret <? 0 then mret None
  else
    r ← read_partitions device sectorsize mbr ebr (replicate 256 pinfo0);
    let '(ret, pinfo) := r in
    if ret <? 0 then mret None else mret (Some (take (Z.to_nat ret) pinfo)).
End Partition.

(** ** The partitions of a boot record as the disk has it *)
Definition part_at (k : nat) : nat := (446 + 16 * k)%nat.
Definition sec_type (l : list Z) (k : nat) : Z := byte_at l (part_at k + 4).
Definition sec_rel (l : list Z) (k : nat) : Z := le32 l (part_at k + 8).
Definition sec_total (l : list Z) (k : nat) : Z := le32 l (part_at k + 12).
Definition sec_boot (l : list Z) (k : nat) : Z := byte_at l (part_at k).

Section Chain.
Context {D : Type} `{BlkDisk D} (d : D) (dev base : Z).

(** The boot record [off] sectors after the extended partition's, and its logical partition. *)
Definition ebr_at (off : Z) : list Z := content d dev <$> seqZ (u32 (off + base) * 512) 512.
Definition logical_at (off : Z) : partition_info :=
  let l := ebr_at off in mk_pinfo (u32 (sec_rel l 0 + base + off)) (sec_total l 0) (sec_type l 0) (sec_boot l 0).
Fixpoint logicals (n : nat) (off : Z) : list partition_info :=
  match n with O => [] | S n => logical_at off :: logicals n (sec_rel (ebr_at off) 1) end.
(** [n] boot records, each with the offset of the next in its entry 1, which is of type 0 in the last; the
    first is followed without a look at the type. *)
Fixpoint ebr_chain (a : Z) (n : nat) (off : Z) : Prop :=
  match n with
  | O => True
  | S n =>
      serves a d dev (u32 (off + base)) 512 ∧
      match n with
      | O => sec_type (ebr_at off) 1 = 0
      | S _ => sec_type (ebr_at off) 1 ≠ 0 ∧ ebr_chain a n (sec_rel (ebr_at off) 1)
      end
  end.
End Chain.

(** ** Reading the chain *)
Section ChainRead.
Context {D : Type} `{BlkDisk D}.

Lemma in_mem_rd {A} (f : B A) x (d : D) m : f m = Ret x m → in_mem f (d, m) = Ret x (d, m).
Proof. intros E. unfold in_mem. by rewrite E. Qed.
Lemma ldu_at m p l o : at_mem m p l → (o < length l)%nat → ldu (p + o) m = Ret (byte_at l o) m.
Proof. intros HA Ho. unfold ldu. rewrite HA by done. by rewrite byte_at_lookup. Qed.
Lemma part_fields m p l (k : nat) :
  at_mem m p l → length l = 512%nat → (k < 4)%nat →
  bootIndicator (mbr_part p k) m = Ret (sec_boot l k) m ∧ systemId (mbr_part p k) m = Ret (sec_type l k) m ∧
  relativeSectors (mbr_part p k) m = Ret (sec_rel l k) m ∧ totalSectors (mbr_part p k) m = Ret (sec_total l k) m.
Proof.
  intros HA Hl Hk. unfold bootIndicator, systemId, relativeSectors, totalSectors, mbr_part.
  replace (p + 446 + 16 * k) with (p + part_at k) by (unfold part_at; lia).
  replace (p + part_at k + 4) with (p + (part_at k + 4)%nat) by lia. replace (p + part_at k + 8) with (p + (part_at k + 8)%nat) by lia.
  replace (p + part_at k + 12) with (p + (part_at k + 12)%nat) by lia.
  split_and!; (apply ldu_at || apply ldw_at); try done; rewrite Hl; unfold part_at; lia.
Qed.

Lemma set_logical_spec (d : D) m ebr l base off pinfo (index : nat) :
  at_mem m ebr l → length l = 512%nat → (index < length pinfo)%nat →
  set_logical pinfo index ebr base off (d, m) =
    Ret (<[index := mk_pinfo (u32 (sec_rel l 0 + base + off)) (sec_total l 0) (sec_type l 0) (sec_boot l 0)]> pinfo) (d, m).
Proof.
  intros HA Hl Hi. destruct (part_fields m ebr l 0 HA Hl ltac:(lia)) as (E1&E2&E3&E4). unfold set_logical.
  change (mbr_part ebr 0) with (mbr_part ebr 0%nat).
  fs_run ltac:(apply in_mem_rd; exact E2). fs_run ltac:(apply in_mem_rd; exact E4). fs_run ltac:(apply in_mem_rd; exact E1).
  fs_run ltac:(apply in_mem_rd; exact E3). rewrite (proj2 (Z.leb_gt _ _)) by lia. by rewrite Nat2Z.id.
Qed.

(** The state of the disk and the memory while the chain is read: only the record at [ebr] changes. *)
Definition at_ebr (d0 d : D) (m0 m : bytes) (dev base off ebr : Z) : Prop :=
  (∀ dev' i, content d dev' i = content d0 dev' i) ∧ (∀ a dev' b n, serves a d0 dev' b n → serves a d dev' b n) ∧
  m = put ebr (ebr_at d0 dev base off) m0.
Lemma ebr_length (d : D) dev base off : length (ebr_at d dev base off) = 512%nat.
Proof. unfold ebr_at. rewrite length_fmap, length_seqZ. done. Qed.
Lemma put_put p l k m : length l = length k → put p k (put p l m) = put p k m.
Proof.
  intros Hl. apply map_eq. intros q. rewrite !lookup_put, Hl. by case_decide.
Qed.
Lemma readsect_ebr a o (d0 d : D) m0 m dev base off off' ebr :
  driver a = Some o → at_ebr d0 d m0 m dev base off ebr → serves a d0 dev (u32 (off' + base)) 512 → mapped m0 ebr 512 →
  ∃ d', readsect (d_strategy o) dev (u32 (off' + base)) ebr 512 (d, m) = Ret 0 (d', put ebr (ebr_at d0 dev base off') m0) ∧
    at_ebr d0 d' m0 (put ebr (ebr_at d0 dev base off') m0) dev base off' ebr.
Proof.
  intros Ho (HC&HS&->) Hs HM.
  destruct (strategy_read a o d (put ebr (ebr_at d0 dev base off) m0) dev (u32 (off' + base)) 512 ebr) as (d'&E&HC'&HS');
    [done|by apply HS|lia|by apply put_mapped|].
  assert (Ec : content d dev <$> seqZ (u32 (off' + base) * 512) 512 = ebr_at d0 dev base off').
  { apply list_fmap_ext. intros _ x _. apply HC. }
  rewrite Ec, put_put in E by (by rewrite !ebr_length). exists d'. split; [exact E|].
  split_and!; [intros; by rewrite HC', HC|auto|done].
Qed.

(** One round of the loop: the record at [off] is entered and the next one read. *)
Lemma extended_step a o (d0 d : D) m0 m dev base ebr off fuel (index : nat) pinfo :
  driver a = Some o → mapped m0 ebr 512 → at_ebr d0 d m0 m dev base off ebr →
  let off' := sec_rel (ebr_at d0 dev base off) 1 in
  serves a d0 dev (u32 (off' + base)) 512 → (index < 254)%nat → length pinfo = 256%nat →
  let m1 := put ebr (ebr_at d0 dev base off') m0 in
  ∃ d1, at_ebr d0 d1 m0 m1 dev base off' ebr ∧
    extended_loop (d_strategy o) (S fuel) dev 512 ebr base index off pinfo (d, m) =
      (let pinfo := <[index := logical_at d0 dev base off]> pinfo in
       if sec_type (ebr_at d0 dev base off') 1 =? 0 then
         pinfo ← set_logical pinfo (S index) ebr base off'; mret (S index + 1, pinfo)
       else extended_loop (d_strategy o) fuel dev 512 ebr base (S index) off' pinfo) (d1, m1).
Proof.
  intros Ho HM Hat off' Hs Hi Hp m1.
  assert (Hm : at_mem m ebr (ebr_at d0 dev base off)) by (destruct Hat as (_&_&->); apply at_mem_put).
  destruct (readsect_ebr a o d0 d m0 m dev base off off' ebr Ho Hat Hs HM) as (d1&E1&Hat1). fold m1 in E1, Hat1.
  assert (Hm1 : at_mem m1 ebr (ebr_at d0 dev base off')) by apply at_mem_put.
  destruct (part_fields m ebr _ 1 Hm (ebr_length _ _ _ _) ltac:(lia)) as (_&_&ER&_).
  destruct (part_fields m1 ebr _ 1 Hm1 (ebr_length _ _ _ _) ltac:(lia)) as (_&ET&_&_).
  exists d1. split; [done|]. cbn [extended_loop].
  fs_run ltac:(apply set_logical_spec; [exact Hm|apply ebr_length|lia]).
  fs_run ltac:(apply in_mem_rd; exact ER). fold off'. fs_run ltac:(exact E1). fs_run ltac:(apply in_mem_rd; exact ET).
  rewrite (proj2 (Z.leb_gt 255 (index + 1))) by lia. by replace (index + 1) with (Z.of_nat (S index)) by lia.
Qed.

Lemma take_insert_next {A} (l : list A) i x : (i < length l)%nat → take (S i) (<[i:=x]> l) = take i l ++ [x].
Proof. intros Hi. rewrite (take_S_r _ _ x) by (by apply list_lookup_insert_eq). by rewrite take_insert_ge. Qed.

Lemma extended_loop_spec a o (d0 : D) m0 dev base ebr : driver a = Some o → mapped m0 ebr 512 → ∀ n d m off fuel (index : nat) pinfo,
  at_ebr d0 d m0 m dev base off ebr → ebr_chain d0 dev base a (S (S n)) off →
  (S n <= fuel)%nat → (index + S n < 255)%nat → length pinfo = 256%nat →
  ∃ d' m', extended_loop (d_strategy o) fuel dev 512 ebr base index off pinfo (d, m) =
    Ret (Z.of_nat (index + S (S n)), take index pinfo ++ logicals d0 dev base (S (S n)) off ++ drop (index + S (S n)) pinfo) (d', m') ∧
    (∀ dev' i, content d' dev' i = content d0 dev' i).
Proof.
  intros Ho HM. induction n as [|n IH]; intros d m off fuel index pinfo Hat HCh Hf Hi Hp;
    (destruct fuel as [|fuel]; [lia|]); destruct HCh as (_&_&HCh);
    set (off' := sec_rel (ebr_at d0 dev base off) 1) in *;
    destruct (extended_step a o d0 d m0 m dev base ebr off fuel index pinfo) as (d1&Hat1&->);
    try done; try apply HCh; try lia; fold off' in Hat1 |- *; cbv zeta.
  - destruct HCh as [_ ->]. cbn [Z.eqb].
    fs_run ltac:(apply set_logical_spec; [apply at_mem_put|apply ebr_length|rewrite length_insert; lia]).
    do 2 eexists. split; [|apply Hat1]. unfold mret, M_ret. f_equal. f_equal; [lia|].
    rewrite insert_take_drop, take_insert_next, drop_insert_lt by (rewrite ?length_insert; lia).
    rewrite <- app_assoc. cbn. by replace (index + 2)%nat with (S (S index)) by lia.
  - destruct HCh as [Hs [Ht1 HCh]]. rewrite (proj2 (Z.eqb_neq _ 0)) by exact Ht1.
    destruct (IH d1 _ off' fuel (S index) (<[index:=logical_at d0 dev base off]> pinfo) Hat1) as (d'&m'&E&HC');
      [split; [exact Hs|by split]|lia|lia|by rewrite length_insert|].
    exists d', m'. split; [|done]. rewrite E. f_equal. f_equal; [lia|].
    rewrite take_insert_next, drop_insert_lt, <- app_assoc by lia. fold off'. cbn [logicals app]. fold off'.
    by replace (index + S (S (S n)))%nat with (S index + S (S n))%nat by lia.
Qed.

Lemma readsect_first a o (d : D) m dev base ebr :
  driver a = Some o → serves a d dev base 512 → 0 <= base < 2 ^ 32 → mapped m ebr 512 →
  ∃ d', readsect (d_strategy o) dev base ebr 512 (d, m) = Ret 0 (d', put ebr (ebr_at d dev base 0) m) ∧
    at_ebr d d' m (put ebr (ebr_at d dev base 0) m) dev base 0 ebr.
Proof.
  intros Ho Hs Hb HM. destruct (strategy_read a o d m dev base 512 ebr Ho Hs ltac:(lia) HM) as (d'&E&HC&HS).
  exists d'. unfold at_ebr, ebr_at. rewrite Z.add_0_l, u32_id by lia. done.
Qed.

(** C31. Reading an extended partition enters every logical partition of a chain of two or more boot
    records, in order from number 5 on, with its start on the disk, its size, type and flag, counts them,
    keeps the other entries of the table and leaves the disk as it is. *)
Theorem read_extended_chain a o (d : D) m dev base ebr p n pinfo :
  driver a = Some o → relativeSectors p m = Ret base m → 0 <= base < 2 ^ 32 → mapped m ebr 512 →
  ebr_chain d dev base a (S (S n)) 0 → (n < 249)%nat → length pinfo = 256%nat →
  ∃ d' m', read_extended (d_strategy o) dev 512 ebr p pinfo (d, m) =
    Ret (Z.of_nat (7 + n), take 5 pinfo ++ logicals d dev base (S (S n)) 0 ++ drop (7 + n) pinfo) (d', m') ∧
    (∀ dev' i, content d' dev' i = content d dev' i).
Proof.
  intros Ho Eb Hb HM HCh Hn Hp. assert (Hs : serves a d dev base 512).
  { destruct HCh as [Hs _]. by rewrite Z.add_0_l, u32_id in Hs. }
  destruct (readsect_first a o d m dev base ebr Ho Hs Hb HM) as (d1&E1&Hat).
  destruct (extended_loop_spec a o d m dev base ebr Ho HM n d1 _ 0 251 5 pinfo Hat HCh) as (d'&m'&E&HC); [lia..|done|].
  exists d', m'. split; [|done]. unfold read_extended. fs_run ltac:(by apply in_mem_rd). fs_run ltac:(exact E1). exact E.
Qed.

(** A single boot record, which names no next one, is read again and entered twice. *)
Lemma read_extended_single a o (d : D) m dev base ebr p pinfo :
  driver a = Some o → relativeSectors p m = Ret base m → 0 <= base < 2 ^ 32 → mapped m ebr 512 →
  serves a d dev base 512 → sec_type (ebr_at d dev base 0) 1 = 0 → sec_rel (ebr_at d dev base 0) 1 = 0 → length pinfo = 256%nat →
  ∃ d' m' pinfo', read_extended (d_strategy o) dev 512 ebr p pinfo (d, m) = Ret (7, pinfo') (d', m') ∧
    pinfo' !! 5%nat = Some (logical_at d dev base 0) ∧ pinfo' !! 6%nat = Some (logical_at d dev base 0).
Proof.
  intros Ho Eb Hb HM Hs Ht Hr Hp.
  destruct (readsect_first a o d m dev base ebr Ho Hs Hb HM) as (d1&E1&Hat).
  destruct (extended_step a o d d1 m _ dev base ebr 0 250 5 pinfo Ho HM Hat) as (d2&_&E2); [|lia|done|].
  { rewrite Hr, Z.add_0_l, u32_id by lia. done. }
  rewrite Hr, Ht in E2. cbn [Z.eqb] in E2. cbv zeta in E2.
  erewrite bind_Ret in E2 by (apply set_logical_spec; [apply at_mem_put|apply ebr_length|rewrite length_insert; lia]).
  do 3 eexists. split_and!.
  - unfold read_extended. fs_run ltac:(by apply in_mem_rd). fs_run ltac:(exact E1). cbn [Z.ltb Z.compare].
    change 5 with (Z.of_nat 5). rewrite E2. reflexivity.
  - rewrite list_lookup_insert_ne, list_lookup_insert_eq by lia. done.
  - rewrite list_lookup_insert_eq by (rewrite length_insert; lia). done.
Qed.
End ChainRead.

(** ** Two logical partitions on the disk in memory *)
Definition demo_part (boot type rel total : Z) : list Z := [boot; 0; 0; 0; type; 0; 0; 0] ++ of_le32 rel ++ of_le32 total.
Definition demo_chain : ram :=
  put (63 * 512 + 446) (demo_part 0 0x83 1 10 ++ demo_part 0 5 20 30)
    (put (83 * 512 + 446) (demo_part 0x80 0x82 2 5 ++ demo_part 0 0 0 0) ∅).
Definition demo_mem : bytes := put 0x100 (demo_part 0 5 63 60) (put 0x1000 (replicate 512 0) ∅).
Lemma read_extended_chain_witness :
  ∃ d' m' t, read_extended ram_strategy 0x10000 512 0x1000 0x100 (replicate 256 pinfo0) (demo_chain, demo_mem) = Ret (7, t) (d', m') ∧
    take 2 (drop 5 t) = [mk_pinfo 64 10 0x83 0; mk_pinfo 85 5 0x82 0x80].
Proof.
  destruct (read_extended_chain RAM_OPS (mk_blkops (mret 0) (mret 0) ram_strategy) demo_chain demo_mem 0x10000 63 0x1000 0x100 0
    (replicate 256 pinfo0)) as (d'&m'&H1&_).
  - reflexivity.
  - vm_compute. reflexivity.
  - lia.
  - intros i Hi. unfold demo_mem. rewrite lookup_put, decide_False by (cbn; lia).
    rewrite lookup_put, decide_True by (rewrite length_replicate; lia). apply lookup_lt_is_Some. rewrite length_replicate. lia.
  - cbn [ebr_chain]. split_and!; [reflexivity|vm_compute; discriminate|reflexivity|vm_compute; reflexivity].
  - lia.
  - apply length_replicate.
  - exists d', m'. eexists. split; [exact H1|]. vm_compute. reflexivity.
Defined.
