(* ===== verification/Ata.v ===== *)
(** * The ATA disk driver

    Models servers/fs-io/io/block/storage/ata/ata.c and the macros of atax86.h.
    The ports of the processor are the parameter [Ports]; [AtaPorts] states what
    a disk behind them does on the commands of the driver (ATA programmed input and
    output): a channel is idle, or busy, or has a block of data for the host or expects
    one.  A request of more than one block of data is not described: the disk is busy
    between the blocks and the driver does not wait for it.  The
    driver is then an implementation of the interface [BlkDisk] of BlkDev.v, so
    what the caches and file systems prove over it holds of them.

    The operations in progress ([prim] and [sec]) are only compared with NULL by
    the interrupt handlers, which acknowledge the interrupt and do no more; both are
    left out, and so are the members of struct ata_info no routine reads. *)

From S2P Require Import Prelude DList LibcString FsState BlkDev Partition.

(** ** The ports *)
Class Ports (P : Type) := {
  inportb : Z → M P Z; outportb : Z → Z → M P unit; inportw : Z → M P Z; outportw : Z → Z → M P unit }.
#[global] Hint Mode Ports ! : typeclass_instances.

Definition PRIMARY_ATA : Z := 0x1f0.
Definition SECONDARY_ATA : Z := 0x170.
Definition channel (disk : Z) : Z := if has disk 2 then SECONDARY_ATA else PRIMARY_ATA.
Definition get_port (disk addr : Z) : Z := channel disk + addr.

Definition ATA_DATA_REG_ADDR : Z := 0.
Definition ATA_ERR_REG_ADDR : Z := 1.
Definition ATA_SECT_COUNT_ADDR : Z := 2.
Definition ATA_SECT_NUM_ADDR : Z := 3.
Definition ATA_CYL_LOW_ADDR : Z := 4.
Definition ATA_CYL_HIGH_ADDR : Z := 5.
Definition ATA_DEV_HEAD_ADDR : Z := 6.
Definition ATA_STAT_COM_ADDR : Z := 7.
Definition ATA_STAT_ERR : Z := 0x01.
Definition ATA_STAT_DRQ : Z := 0x08.
Definition ATA_STAT_DRDY : Z := 0x40.
Definition ATA_STAT_BSY : Z := 0x80.
Definition ATA_DEVCTRL_DEF : Z := 0x08.
Definition ATA_DEVCTRL_SRST : Z := 0x04.
Definition ATA_DEVCTRL_nIEN : Z := 0x02.
Definition ATA_DEV_DEF : Z := 0xA0.
Definition ATA_DEV_LBA : Z := 0x40.
Definition ATA_DEV_DEV : Z := 0x10.
Definition ATA_CMD_READ_MULTI : Z := 0xC4.
Definition ATA_CMD_WRITE_MULTI : Z := 0xC5.
Definition ATA_CMD_READ_SECT : Z := 0x20.
Definition ATA_CMD_WRITE_SECT : Z := 0x21.
Definition ATA_CMD_IDN_DRV : Z := 0xEC.
Definition MAX_DISKS : Z := 4.

(** struct diskinfo, and the variables of the driver *)
Record diskinfo := mk_diskinfo {
  sector_size : Z; ata_type : Z; log_ncylinders : Z; log_nheads : Z; log_nsectors : Z; nsectors : Z;
  model : list Z; serial : list Z; firmware : list Z; d_pinfo : option (list partition_info) }.
#[global] Instance eta_diskinfo : Settable diskinfo := λ x,
  mk_diskinfo (sector_size x) (ata_type x) (log_ncylinders x) (log_nheads x) (log_nsectors x) (nsectors x)
    (model x) (serial x) (firmware x) (d_pinfo x).
Record ata (P : Type) := mk_ata { ports : P; disks : list diskinfo; readcmd : Z; writecmd : Z }.
Arguments mk_ata {P}. Arguments ports {P}. Arguments disks {P}. Arguments readcmd {P}. Arguments writecmd {P}.
#[global] Instance eta_ata {P} : Settable (ata P) := λ x, mk_ata (ports x) (disks x) (readcmd x) (writecmd x).
Definition diskinfo0 : diskinfo := mk_diskinfo 0 0 0 0 0 0 (replicate 40 0) (replicate 20 0) (replicate 8 0) None.

Section Driver.
Context {P : Type} `{Ports P}.
Abbreviation ATA := (M (ata P * bytes)).

Definition on_ports {A} (f : M P A) : ATA A := λ '(d, m),
  match f (ports d) with Ret a p => Ret a (d <| ports := p |>, m) | Fault => Fault | Halt => Halt | Spin => Spin end.
Definition on_bytes {A} (f : B A) : ATA A := in_mem f.
Definition READ_REG (disk addr : Z) : ATA Z := on_ports (inportb (get_port disk addr)).
Definition WRITE_REG (disk addr value : Z) : ATA unit := on_ports (outportb value (get_port disk addr)).
Definition READ_REG_WORD (disk addr : Z) : ATA Z := on_ports (inportw (get_port disk addr)).
Definition WRITE_DEVCTRL (data : Z) : ATA unit := on_ports (outportb data 0x3f6).

(** [insw] and [outsw]: [length/2] words *)
Fixpoint insw (n : nat) (data port : Z) : ATA unit :=
  match n with
  | O => mret tt
  | S n => w ← on_ports (inportw port); on_bytes (stb data (w mod 2 ^ 8);; stb (data + 1) (w / 2 ^ 8));; insw n (data + 2) port
  end.
Fixpoint outsw (n : nat) (data port : Z) : ATA unit :=
  match n with
  | O => mret tt
  | S n => w ← on_bytes (ld16 data); on_ports (outportw w port);; outsw n (data + 2) port
  end.
Definition READ_DATA (disk addr data len : Z) : ATA unit := insw (Z.to_nat (Z.quot len 2)) data (get_port disk addr).
Definition WRITE_DATA (disk addr data len : Z) : ATA unit := outsw (Z.to_nat (Z.quot len 2)) data (get_port disk addr).

(** ** Waiting for a bit of the status: [timeout] reads at most *)
Definition TIMEOUT : nat := Z.to_nat 100000.
Fixpoint poll (timeout : nat) (disk : Z) (stop bad : Z → bool) : ATA Z :=
  match timeout with
  | O => spin
  | S timeout =>
      data ← READ_REG disk ATA_STAT_COM_ADDR;
      if (Nat.eqb timeout 0) || bad data then mret (-1)
      else if stop data then mret 0 else poll timeout disk stop bad
  end.
Definition check_busy (disk : Z) : ATA Z := poll TIMEOUT disk (λ x, negb (has x ATA_STAT_BSY)) (λ _, false).
Definition check_drdy (disk : Z) : ATA Z := poll TIMEOUT disk (λ x, Z.land x ATA_STAT_DRDY =? ATA_STAT_DRDY) (λ _, false).
Definition check_drq (disk : Z) : ATA Z :=
  poll TIMEOUT disk (λ x, Z.land x ATA_STAT_DRQ =? ATA_STAT_DRQ) (λ x, has x ATA_STAT_ERR).

Definition ata_soft_reset (disk : Z) : ATA unit :=
  WRITE_DEVCTRL (Z.lor ATA_DEVCTRL_DEF ATA_DEVCTRL_SRST);;
  check_busy disk;;
  WRITE_DEVCTRL (Z.lor ATA_DEVCTRL_DEF ATA_DEVCTRL_nIEN);;
  check_busy disk;;
  mret tt.
Definition dev_head (disk lba : Z) : Z :=
  Z.lor (Z.land (Z.shiftr lba 24) 0xF)
    (Z.lor (Z.lor ATA_DEV_DEF ATA_DEV_LBA) (if has disk 1 then ATA_DEV_DEV else 0)).
Definition write_lba (disk lba : Z) : ATA unit :=
  WRITE_REG disk ATA_SECT_NUM_ADDR (Z.land lba 0xFF);;
  WRITE_REG disk ATA_CYL_LOW_ADDR (Z.land (Z.shiftr lba 8) 0xFF);;
  WRITE_REG disk ATA_CYL_HIGH_ADDR (Z.land (Z.shiftr lba 16) 0xFF);;
  WRITE_REG disk ATA_DEV_HEAD_ADDR (dev_head disk lba).

(** ** Transfers.  The members of the operation are in sectors here. *)
Definition waitnread_data (op : operation) (sectsz : Z) : ATA Z :=
  let disk := DISKNO (o_device op) in
  st ← READ_REG disk ATA_STAT_COM_ADDR;
  if has st ATA_STAT_ERR then reg ← READ_REG disk ATA_ERR_REG_ADDR; mret (- reg)
  else
    check_drq disk;;
    READ_DATA disk ATA_DATA_REG_ADDR (o_buffer op) (s32 (o_blksize op * sectsz));;
    mret 0.
Definition read_multi_lba (op : operation) (sectsz : Z) : ATA Z :=
  let disk := DISKNO (o_device op) in
  if MAX_DISKS <? disk then mret (- EINVAL)
  else
    check_busy disk;;
    WRITE_REG disk ATA_SECT_COUNT_ADDR (u8 (o_blksize op));;
    write_lba disk (o_block op);;
    check_drdy disk;;
    c ← gets (λ s, readcmd s.1);
    WRITE_REG disk ATA_STAT_COM_ADDR (u8 c);;
    waitnread_data op sectsz.
Definition waitnwrite_data (op : operation) (sectsz : Z) : ATA Z :=
  let disk := DISKNO (o_device op) in
  st ← READ_REG disk ATA_STAT_COM_ADDR;
  if has st ATA_STAT_ERR then reg ← READ_REG disk ATA_ERR_REG_ADDR; mret (- reg)
  else
    check_drq disk;;
    WRITE_DATA disk ATA_DATA_REG_ADDR (o_buffer op) (s32 (o_blksize op * sectsz));;
    mret 0.
Definition write_multi_lba (op : operation) (sectsz : Z) : ATA Z :=
  let disk := DISKNO (o_device op) in
  if MAX_DISKS <? disk then mret (- EINVAL)
  else
    check_busy disk;;
    WRITE_REG disk ATA_SECT_COUNT_ADDR (u8 (o_blksize op));;
    write_lba disk (o_block op);;
    check_drdy disk;;
    c ← gets (λ s, writecmd s.1);
    WRITE_REG disk ATA_STAT_COM_ADDR (u8 c);;
    waitnwrite_data op sectsz.
(** [read_ata] is not called *)
Definition read_ata (op : operation) (sectsz : Z) : ATA Z :=
  let disk := DISKNO (o_device op) in
  WRITE_REG disk ATA_SECT_COUNT_ADDR (u8 (o_blksize op));;
  write_lba disk (o_block op);;
  c ← gets (λ s, readcmd s.1);
  WRITE_REG disk ATA_STAT_COM_ADDR (u8 c);;
  waitnread_data op sectsz.

(** The blocks of the caller are turned into sectors of the disk; partition 0 is the whole disk. *)
Definition ata_strategy (op : operation) : ATA Z :=
  let diskno := DISKNO (o_device op) in
  let part := PARTNO (o_device op) in
  l ← gets (λ s, disks s.1);
  di ← must (l !! Z.to_nat diskno);
  let ss := sector_size di in
  n ← (if ss =? 0 then fault else mret (o_blksize op / ss));
  start ← (if part =? 0 then mret 0
           else t ← must (d_pinfo di); p ← must (t !! Z.to_nat part); mret (pi_start p));
  let op := mk_operation (o_device op) (o_type op) (u32 (u32 (o_block op * n) + start)) n (o_buffer op) in
  if has (o_type op) BLK_READ then read_multi_lba op ss else write_multi_lba op ss.

(** ** Starting *)
Definition check_cmd_supported (disk : Z) : ATA unit :=
  WRITE_REG disk ATA_SECT_COUNT_ADDR 4;;
  write_lba disk 0;;
  check_drdy disk;;
  WRITE_REG disk ATA_STAT_COM_ADDR ATA_CMD_READ_MULTI;;
  st ← READ_REG disk ATA_STAT_COM_ADDR;
  if has st ATA_STAT_ERR then
    modify (λ '(d, m), (d <| readcmd := ATA_CMD_READ_SECT |> <| writecmd := ATA_CMD_WRITE_SECT |>, m))
  else
    modify (λ '(d, m), (d <| readcmd := ATA_CMD_READ_MULTI |> <| writecmd := ATA_CMD_WRITE_MULTI |>, m)).

(** [while(READ_REG & BSY);] has no limit: [fuel] *)
Fixpoint wait_busy (fuel : nat) (disk : Z) : ATA unit :=
  match fuel with
  | O => spin
  | S fuel => x ← READ_REG disk ATA_STAT_COM_ADDR; if has x ATA_STAT_BSY then wait_busy fuel disk else mret tt
  end.
Fixpoint in_words (n : nat) (disk : Z) : ATA (list Z) :=
  match n with O => mret [] | S n => w ← READ_REG_WORD disk ATA_DATA_REG_ADDR; l ← in_words n disk; mret (w :: l) end.
(** The 256 words, [None] for -1. *)
Definition read_driveid (fuel : nat) (disk : Z) : ATA (option (list Z)) :=
  wait_busy fuel disk;;
  WRITE_REG disk ATA_DEV_HEAD_ADDR (if has disk 1 then Z.lor ATA_DEV_DEF ATA_DEV_DEV else ATA_DEV_DEF);;
  r ← check_drdy disk;
  if r <? 0 then mret None
  else
    WRITE_REG disk ATA_STAT_COM_ADDR ATA_CMD_IDN_DRV;;
    r ← check_drq disk;
    if r <? 0 then mret None
    else l ← in_words 256 disk; mret (Some l).

(** [get_ascii(&data[first], string, length)]: the two bytes of every word, the high one first; the
    NUL is stored at [length], half way. *)
Definition get_ascii (data : list Z) (first length : nat) (string : list Z) : list Z :=
  let bytes := mjoin ((λ w, [w / 256; w mod 256]) <$> take length (drop first data)) in
  <[length := 0]> (bytes ++ drop (2 * length) string).

(** One disk is looked for. *)
Definition disk_detect (fuel : nat) (mbr ebr : Z) : ATA Z :=
  let num := 0 in
  ata_soft_reset num;;
  r ← read_driveid fuel num;
  match r with
  | None => mret 0
  | Some id =>
      let w i := nth i id 0 in
      let ss := if w 5%nat =? 0 then 512 else w 5%nat in
      l ← gets (λ s, disks s.1);
      di ← must (l !! 0%nat);
      let di := di <| sector_size := ss |> <| ata_type := w 0%nat |> <| log_ncylinders := w 1%nat |> <| log_nheads := w 3%nat |>
                   <| log_nsectors := w 6%nat |> <| nsectors := u32 (Z.lor (w 57%nat) (Z.shiftl (w 58%nat) 16)) |>
                   <| model ::= get_ascii id 27 20 |> <| serial ::= get_ascii id 10 10 |> <| firmware ::= get_ascii id 23 4 |> in
      modify (λ '(d, m), (d <| disks ::= <[0%nat := di]> |>, m));;
      if nsectors di =? 0 then mret 0
      else
        t ← initialize_partitions ata_strategy (DEVICE 1 num 0) ss mbr ebr;
        modify (λ '(d, m), (d <| disks ::= alter (λ di, di <| d_pinfo := t |>) 0%nat |>, m));;
        mret 0
  end.
(** The interrupts are requested from the kernel and the driver registered by the caller. *)
Definition ata_init (fuel : nat) (mbr ebr : Z) : ATA Z :=
  modify (λ '(d, m), (d <| disks := replicate 4 diskinfo0 |>, m));;
  check_cmd_supported 0;;
  disk_detect fuel mbr ebr.
Definition ata_open : ATA Z := mret 0.
Definition ata_close : ATA Z := mret 0.
End Driver.

(** ** What the disks do (ATA, programmed input and output)

    A channel is idle; or the selected disk offers the bytes [l] of a block of data to the host; or the
    host owes the [n] bytes of a block, the next of which goes to byte [off] of disk [dev]; or the disk is
    busy, for [k] more reads of its status after the next one, before it goes on. *)
Inductive ata_mode := Idle | Sending (l : list Z) | Receiving (dev off : Z) (n : nat) | Busy (k : nat) (next : ata_mode).
(** The channel is in mode [m], or will be when the disk is no longer busy, which takes less than the
    number of times the driver reads the status. *)
Definition soon (m m' : ata_mode) : Prop := m' = m ∨ ∃ k : nat, k < 99998 ∧ m' = Busy k m.
(** The sectors a disk has, and how many of them the commands for multiple sectors transfer in one block
    of data: between two blocks the disk is busy. *)
Record drive_info := mk_drive { has_sector : Z → Prop; multiple : Z }.
Definition block_sectors (i : drive_info) (cmd : Z) : Z := if cmd =? ATA_CMD_READ_SECT then 1 else multiple i.
Record taskfile := mk_tf { tf_count : Z; tf_num : Z; tf_low : Z; tf_high : Z; tf_head : Z }.
Definition set_reg (r v : Z) (t : taskfile) : taskfile :=
  match r with
  | 2 => mk_tf v (tf_num t) (tf_low t) (tf_high t) (tf_head t)
  | 3 => mk_tf (tf_count t) v (tf_low t) (tf_high t) (tf_head t)
  | 4 => mk_tf (tf_count t) (tf_num t) v (tf_high t) (tf_head t)
  | 5 => mk_tf (tf_count t) (tf_num t) (tf_low t) v (tf_head t)
  | _ => mk_tf (tf_count t) (tf_num t) (tf_low t) (tf_high t) v
  end.
(** The sector and the disk of the channel the registers select, in LBA mode. *)
Definition tf_lba (t : taskfile) : Z := tf_num t + 2 ^ 8 * tf_low t + 2 ^ 16 * tf_high t + 2 ^ 24 * Z.land (tf_head t) 0xF.
Definition tf_dev (t : taskfile) : Z := if has (tf_head t) ATA_DEV_DEV then 1 else 0.
Definition SECTOR : Z := 512.

(** What the standard says of the two channels, for the commands the driver gives and requests of
    at most one block of data.  A command clears ERR and DRQ and sets BSY until the block is ready; BSY is
    set again after the last word of a block. *)
Definition is_channel (c : Z) : Prop := c = PRIMARY_ATA ∨ c = SECONDARY_ATA.
Class AtaPorts (P : Type) `{Ports P} := {
  mode : P → Z → ata_mode; tf : P → Z → taskfile;
  medium : P → Z → Z → Z → Z;                        (* the byte [o] of disk [dev] of channel [c] *)
  drive : P → Z → Z → drive_info;                     (* disk [dev] of channel [c] *)
  medium_byte p c dev o : 0 <= medium p c dev o < 2 ^ 8;
  status_idle p c : is_channel c → mode p c = Idle →
    ∃ x, inportb (c + 7) p = Ret x p ∧ has x ATA_STAT_BSY = false ∧ Z.land x ATA_STAT_DRDY = ATA_STAT_DRDY;
  status_data p c : is_channel c → (∃ l, l ≠ [] ∧ mode p c = Sending l) ∨ (∃ dev off n, n ≠ 0%nat ∧ mode p c = Receiving dev off n) →
    ∃ x, inportb (c + 7) p = Ret x p ∧ has x ATA_STAT_ERR = false ∧ Z.land x ATA_STAT_DRQ = ATA_STAT_DRQ;
  status_busy p c k nx : is_channel c → mode p c = Busy k nx →
    ∃ x p', inportb (c + 7) p = Ret x p' ∧ has x ATA_STAT_BSY = true ∧ has x ATA_STAT_ERR = false ∧ has x ATA_STAT_DRQ = false ∧
      mode p' c = match k with O => nx | S k => Busy k nx end ∧
      (∀ c', c' ≠ c → mode p' c' = mode p c') ∧ medium p' = medium p ∧ drive p' = drive p;
  write_reg p c r v : is_channel c → mode p c = Idle → 2 <= r <= 6 → 0 <= v < 2 ^ 8 →
    ∃ p', outportb v (c + r) p = Ret tt p' ∧ mode p' c = Idle ∧ tf p' c = set_reg r v (tf p c) ∧
      (∀ c', c' ≠ c → mode p' c' = mode p c') ∧ medium p' = medium p ∧ drive p' = drive p;
  command_read p c cmd : let t := tf p c in let i := drive p c (tf_dev t) in
    is_channel c → mode p c = Idle → cmd ∈ [ATA_CMD_READ_SECT; ATA_CMD_READ_MULTI] → has (tf_head t) ATA_DEV_LBA = true →
    0 < tf_count t <= block_sectors i cmd → (∀ j, 0 <= j < tf_count t → has_sector i (tf_lba t + j)) →
    ∃ p', outportb cmd (c + 7) p = Ret tt p' ∧
      soon (Sending (medium p c (tf_dev t) <$> seqZ (tf_lba t * SECTOR) (tf_count t * SECTOR))) (mode p' c) ∧
      (∀ c', c' ≠ c → mode p' c' = mode p c') ∧ medium p' = medium p ∧ drive p' = drive p;
  data_in p c x y l : is_channel c → mode p c = Sending (x :: y :: l) →
    ∃ p', inportw c p = Ret (x + 2 ^ 8 * y) p' ∧ (if decide (l = []) then soon Idle (mode p' c) else mode p' c = Sending l) ∧
      (∀ c', c' ≠ c → mode p' c' = mode p c') ∧ medium p' = medium p ∧ drive p' = drive p;
  command_write p c : let t := tf p c in let i := drive p c (tf_dev t) in
    is_channel c → mode p c = Idle → has (tf_head t) ATA_DEV_LBA = true →
    0 < tf_count t <= multiple i → (∀ j, 0 <= j < tf_count t → has_sector i (tf_lba t + j)) →
    ∃ p', outportb ATA_CMD_WRITE_MULTI (c + 7) p = Ret tt p' ∧
      soon (Receiving (tf_dev t) (tf_lba t * SECTOR) (Z.to_nat (tf_count t * SECTOR))) (mode p' c) ∧
      (∀ c', c' ≠ c → mode p' c' = mode p c') ∧ medium p' = medium p ∧ drive p' = drive p;
  data_out p c dev off n x y : is_channel c → mode p c = Receiving dev off (S (S n)) → 0 <= x < 2 ^ 8 → 0 <= y < 2 ^ 8 →
    ∃ p', outportw (x + 2 ^ 8 * y) c p = Ret tt p' ∧
      (if decide (n = 0%nat) then soon Idle (mode p' c) else mode p' c = Receiving dev (off + 2) n) ∧
      (∀ c', c' ≠ c → mode p' c' = mode p c') ∧ drive p' = drive p ∧
      (∀ c' dev' o, medium p' c' dev' o =
         if decide (c' = c ∧ dev' = dev ∧ o = off) then x
         else if decide (c' = c ∧ dev' = dev ∧ o = off + 1) then y else medium p c' dev' o) }.

(** ** Bytes of the registers *)
Lemma land_byte x : Z.land x 0xFF = x mod 2 ^ 8.
Proof. change 0xFF with (Z.ones 8). by apply Z.land_ones. Qed.
Lemma land_byte_range x : 0 <= Z.land x 0xFF < 2 ^ 8.
Proof. rewrite land_byte. apply Z.mod_pos_bound. lia. Qed.
Lemma head_low disk lba : 0 <= lba < 2 ^ 28 → Z.land (dev_head disk lba) 0xF = lba / 2 ^ 24.
Proof.
  intros Hl. unfold dev_head. rewrite Z.land_lor_distr_l, <- Z.land_assoc, Z.shiftr_div_pow2 by lia.
  change (Z.land 15 15) with (Z.ones 4). rewrite Z.land_ones, Z.mod_small.
  - destruct (has disk 1); apply Z.lor_0_r.
  - split; [apply Z.div_pos; lia|apply Z.div_lt_upper_bound; lia].
  - lia.
Qed.
Lemma head_bit disk lba b :
  Z.land 0xF b = 0 → has (dev_head disk lba) b = has (Z.lor 0xE0 (if has disk 1 then ATA_DEV_DEV else 0)) b.
Proof.
  intros Hb. unfold has, dev_head. rewrite Z.land_lor_distr_l, <- Z.land_assoc, Hb, Z.land_0_r, Z.lor_0_l. done.
Qed.
Lemma head_range disk lba : 0 <= dev_head disk lba < 2 ^ 8.
Proof.
  unfold dev_head. set (q := Z.land (Z.shiftr lba 24) 15).
  assert (Hq : 0 <= q < 16) by (unfold q; change 15 with (Z.ones 4); rewrite Z.land_ones by lia; apply Z.mod_pos_bound; lia).
  assert (Hc : q ∈ seqZ 0 16) by (apply elem_of_seqZ; lia). clearbody q.
  destruct (has disk 1); revert q Hq Hc; intros q _ Hc;
    (assert (HF : Forall (λ q, 0 <= Z.lor q 0xF0 < 2 ^ 8 ∧ 0 <= Z.lor q 0xE0 < 2 ^ 8) (seqZ 0 16)) by (repeat constructor; done));
    rewrite Forall_forall in HF; by apply HF in Hc as [??].
Qed.
Lemma split_lba lba : 0 <= lba < 2 ^ 28 →
  Z.land lba 0xFF + 2 ^ 8 * Z.land (Z.shiftr lba 8) 0xFF + 2 ^ 16 * Z.land (Z.shiftr lba 16) 0xFF + 2 ^ 24 * (lba / 2 ^ 24) = lba.
Proof.
  intros Hl. rewrite !land_byte, !Z.shiftr_div_pow2 by lia. Z.to_euclidean_division_equations; lia.
Qed.

Section DriverProof.
Context {P : Type} `{AtaPorts P}.
Implicit Types (p : P) (d : ata P) (m : bytes).

(** Only the channel [c] has changed, and no medium. *)
Definition calm (c : Z) p p' : Prop :=
  (∀ c', c' ≠ c → mode p' c' = mode p c') ∧ medium p' = medium p ∧ drive p' = drive p.
Lemma calm_refl c p : calm c p p.
Proof. done. Qed.
Lemma calm_trans c p1 p2 p3 : calm c p1 p2 → calm c p2 p3 → calm c p1 p3.
Proof. intros (M1&D1&O1) (M2&D2&O2). split_and!; [|congruence..]. intros c' Hc. by rewrite M2, M1. Qed.

Lemma channel_ok disk : is_channel (channel disk).
Proof. unfold channel. destruct (has disk 2); [by right|by left]. Qed.
Lemma on_ports_Ret {A} (f : M P A) x p' d m : f (ports d) = Ret x p' → on_ports f (d, m) = Ret x (d <| ports := p' |>, m).
Proof. intros E. unfold on_ports. by rewrite E. Qed.
Lemma on_ports_rd {A} (f : M P A) x d m : f (ports d) = Ret x (ports d) → on_ports f (d, m) = Ret x (d, m).
Proof. intros E. unfold on_ports. rewrite E. by destruct d. Qed.
Lemma poll_S t disk stop bad s : poll (S t) disk stop bad (s : ata P * bytes) =
  (data ← READ_REG disk ATA_STAT_COM_ADDR;
   if (Nat.eqb t 0) || bad data then mret (-1) else if stop data then mret 0 else poll t disk stop bad) s.
Proof. done. Qed.
(** Polling until the disk is no longer busy. *)
Lemma poll_soon disk stop bad nx m : let c := channel disk in
  (∀ x, has x ATA_STAT_BSY = true → has x ATA_STAT_ERR = false → has x ATA_STAT_DRQ = false → stop x = false ∧ bad x = false) →
  (∀ p, mode p c = nx → ∃ x, inportb (c + 7) p = Ret x p ∧ stop x = true ∧ bad x = false) →
  ∀ d, soon nx (mode (ports d) c) →
  ∃ p', poll TIMEOUT disk stop bad (d, m) = Ret 0 (d <| ports := p' |>, m) ∧ mode p' c = nx ∧ calm c (ports d) p'.
Proof.
  intros c Hbusy Hnx.
  assert (Hnow : ∀ t d, mode (ports d) c = nx → poll (S (S t)) disk stop bad (d, m) = Ret 0 (d, m)).
  { intros t d Hd. destruct (Hnx _ Hd) as (x&E&Hs&Hb). rewrite poll_S. fs_run ltac:(apply on_ports_rd; exact E). by rewrite Hb, Hs. }
  assert (Hgo : ∀ (k t : nat) d, (k + 3 <= t)%nat → mode (ports d) c = Busy k nx →
    ∃ p', poll t disk stop bad (d, m) = Ret 0 (d <| ports := p' |>, m) ∧ mode p' c = nx ∧ calm c (ports d) p').
  { induction k as [|k IH]; intros [|[|t]] d Ht Hd; [lia|lia| |lia|lia|].
    all: destruct (status_busy _ _ _ _ (channel_ok disk) Hd) as (x&p1&E&B1&B2&B3&M1&C1); destruct (Hbusy x B1 B2 B3) as [Hs Hb].
    all: rewrite poll_S; fs_run ltac:(apply on_ports_Ret; exact E); rewrite Hs, Hb; cbn [Nat.eqb orb].
    - destruct t as [|t]; [lia|]. exists p1. rewrite (Hnow t (d <| ports := p1 |>)) by done. done.
    - destruct (IH (S t) (d <| ports := p1 |>)) as (p'&E'&M'&C'); [lia|done|]. exists p'. split; [exact E'|]. split; [done|].
      eapply calm_trans; [exact C1|exact C']. }
  assert (HT : TIMEOUT = S (S (Z.to_nat 99998))) by (unfold TIMEOUT; lia).
  intros d [Hd|(k&Hk&Hd)]; rewrite HT.
  - exists (ports d). rewrite Hnow by done. split; [by destruct d|]. split; [done|apply calm_refl].
  - apply (Hgo k); [lia|done].
Qed.
Lemma check_busy_soon disk d m : soon Idle (mode (ports d) (channel disk)) →
  ∃ p', check_busy disk (d, m) = Ret 0 (d <| ports := p' |>, m) ∧ mode p' (channel disk) = Idle ∧ calm (channel disk) (ports d) p'.
Proof.
  apply poll_soon.
  - intros x -> _ _. done.
  - intros p Hp. destruct (status_idle _ _ (channel_ok disk) Hp) as (x&E&Hb&_). exists x. by rewrite Hb.
Qed.
Lemma check_drdy_idle disk d m : mode (ports d) (channel disk) = Idle → check_drdy disk (d, m) = Ret 0 (d, m).
Proof.
  intros Hm. destruct (status_idle _ _ (channel_ok disk) Hm) as (x&E&_&Hr). unfold check_drdy.
  replace TIMEOUT with (S (S (Z.to_nat 99998))) by (unfold TIMEOUT; lia). cbn [poll].
  fs_run ltac:(apply on_ports_rd; exact E). by rewrite Hr.
Qed.
(** A mode in which data is transferred. *)
Definition data_mode (m : ata_mode) : Prop :=
  (∃ l, l ≠ [] ∧ m = Sending l) ∨ (∃ dev off n, n ≠ 0%nat ∧ m = Receiving dev off n).
(** After a command: the test of the status for an error, and the wait for the data. *)
Lemma wait_data disk nx d m : data_mode nx → soon nx (mode (ports d) (channel disk)) →
  ∃ x p1 p2, READ_REG disk ATA_STAT_COM_ADDR (d, m) = Ret x (d <| ports := p1 |>, m) ∧ has x ATA_STAT_ERR = false ∧
    check_drq disk (d <| ports := p1 |>, m) = Ret 0 (d <| ports := p2 |>, m) ∧ mode p2 (channel disk) = nx ∧
    calm (channel disk) (ports d) p2.
Proof.
  intros HD HS.
  assert (∃ x p1, inportb (channel disk + 7) (ports d) = Ret x p1 ∧ has x ATA_STAT_ERR = false ∧ soon nx (mode p1 (channel disk)) ∧
    calm (channel disk) (ports d) p1) as (x&p1&E1&Hx&HS1&C1).
  { destruct HS as [Hd|(k&Hk&Hd)].
    - rewrite <- Hd in HD. destruct (status_data _ _ (channel_ok disk) HD) as (x&E&He&_).
      exists x, (ports d). split; [done|]. split; [done|]. split; [by left|apply calm_refl].
    - destruct (status_busy _ _ _ _ (channel_ok disk) Hd) as (x&p1&E&_&He&_&M1&C1). exists x, p1. split; [done|]. split; [done|]. split; [|exact C1].
      destruct k as [|k]; [by left|right]. exists k. split; [lia|done]. }
  destruct (poll_soon disk (λ x, Z.land x ATA_STAT_DRQ =? ATA_STAT_DRQ) (λ x, has x ATA_STAT_ERR) nx m) with (d := d <| ports := p1 |>)
    as (p2&E2&M2&C2).
  - intros y _ Hy Hq. split; [|done]. unfold has in Hq. apply negb_false_iff, Z.eqb_eq in Hq. by rewrite Hq.
  - intros p Hp. rewrite <- Hp in HD. destruct (status_data _ _ (channel_ok disk) HD) as (y&E&He&Hq). exists y. by rewrite Hq.
  - exact HS1.
  - exists x, p1, p2. split; [by apply on_ports_Ret|]. split; [done|]. split; [exact E2|]. split; [done|by eapply calm_trans].
Qed.

Lemma WRITE_REG_spec disk r v d m :
  mode (ports d) (channel disk) = Idle → 2 <= r <= 6 → 0 <= v < 2 ^ 8 →
  ∃ p', WRITE_REG disk r v (d, m) = Ret tt (d <| ports := p' |>, m) ∧ mode p' (channel disk) = Idle ∧
    tf p' (channel disk) = set_reg r v (tf (ports d) (channel disk)) ∧ calm (channel disk) (ports d) p'.
Proof.
  intros Hm Hr Hv. destruct (write_reg _ _ r v (channel_ok disk) Hm Hr Hv) as (p'&E&?&?&?). exists p'. split_and!; try done; try apply H3.
  by apply on_ports_Ret.
Qed.

(** The registers after the count and the address are written. *)
Lemma setup_spec disk n lba d m :
  mode (ports d) (channel disk) = Idle → 0 < n < 2 ^ 8 → 0 <= lba < 2 ^ 28 →
  ∃ p', (WRITE_REG disk ATA_SECT_COUNT_ADDR (u8 n);; write_lba disk lba) (d, m) = Ret tt (d <| ports := p' |>, m) ∧
    mode p' (channel disk) = Idle ∧ calm (channel disk) (ports d) p' ∧
    tf_count (tf p' (channel disk)) = n ∧ tf_lba (tf p' (channel disk)) = lba ∧
    has (tf_head (tf p' (channel disk))) ATA_DEV_LBA = true ∧
    tf_dev (tf p' (channel disk)) = (if has disk 1 then 1 else 0).
Proof.
  intros Hm Hn Hl. set (c := channel disk) in *.
  assert (Hu : u8 n = n) by (by apply Z.mod_small; lia).
  destruct (WRITE_REG_spec disk 2 n d m) as (p1&E1&M1&T1&C1); [done|lia|lia|].
  destruct (WRITE_REG_spec disk 3 (Z.land lba 0xFF) (d <| ports := p1 |>) m) as (p2&E2&M2&T2&C2); [done|lia|apply land_byte_range|].
  destruct (WRITE_REG_spec disk 4 (Z.land (Z.shiftr lba 8) 0xFF) (d <| ports := p2 |>) m) as (p3&E3&M3&T3&C3);
    [done|lia|apply land_byte_range|].
  destruct (WRITE_REG_spec disk 5 (Z.land (Z.shiftr lba 16) 0xFF) (d <| ports := p3 |>) m) as (p4&E4&M4&T4&C4);
    [done|lia|apply land_byte_range|].
  destruct (WRITE_REG_spec disk 6 (dev_head disk lba) (d <| ports := p4 |>) m) as (p5&E5&M5&T5&C5);
    [done|lia|apply head_range|].
  fold c in M1, M2, M3, M4, M5, T1, T2, T3, T4, T5, C1, C2, C3, C4, C5. cbn in T2, T3, T4, T5, C2, C3, C4, C5.
  rewrite T4, T3, T2, T1 in T5. cbn in T5. exists p5. rewrite T5. split_and!.
  - rewrite Hu. fs_run ltac:(exact E1). unfold write_lba. fs_run ltac:(exact E2). fs_run ltac:(exact E3). fs_run ltac:(exact E4). exact E5.
  - done.
  - by do 4 (eapply calm_trans; [eassumption|]).
  - done.
  - unfold tf_lba. cbn. rewrite head_low by done. by apply split_lba.
  - cbn. rewrite head_bit by done. by destruct (has disk 1).
  - unfold tf_dev. cbn. rewrite head_bit by done. by destruct (has disk 1).
Qed.

(** ** Data *)
Lemma stb_Ret q v m : is_Some (m !! q) → 0 <= v < 2 ^ 8 → stb q v m = Ret tt (<[q := v]> m).
Proof. intros [b E] Hv. unfold stb. rewrite E. unfold u8. by rewrite Z.mod_small. Qed.
Lemma insw_spec c n : is_channel c → ∀ l buf d m,
  length l = (2 * n)%nat → all_bytes l → (if decide (l = []) then soon Idle (mode (ports d) c) else mode (ports d) c = Sending l) →
  mapped m buf (2 * n) →
  ∃ p', insw n buf c (d, m) = Ret tt (d <| ports := p' |>, put buf l m) ∧ soon Idle (mode p' c) ∧ calm c (ports d) p'.
Proof.
  intros HCh. induction n as [|n IH]; intros l buf d m Hl HB Hm HM.
  - destruct l; [|cbn in Hl; lia]. exists (ports d). split_and!; [by destruct d|done..].
  - destruct l as [|x [|y l]]; [cbn in Hl; lia|cbn in Hl; lia|]. cbn in Hl.
    apply Forall_cons in HB as [Hx HB]. apply Forall_cons in HB as [Hy HB].
    destruct (data_in _ _ _ _ _ HCh Hm) as (p1&E1&M1&C1). cbn [insw put].
    assert (Ex : (x + 2 ^ 8 * y) mod 2 ^ 8 = x) by (symmetry; apply (Z.mod_unique _ _ y); lia).
    assert (Ey : (x + 2 ^ 8 * y) / 2 ^ 8 = y) by (symmetry; apply (Z.div_unique _ _ _ x); lia).
    set (m1 := <[buf + 1 := y]> (<[buf := x]> m)).
    assert (Es : (stb buf x;; stb (buf + 1) y) m = Ret tt m1).
    { fs_run ltac:(apply stb_Ret; [rewrite <- (Z.add_0_r buf); apply HM; lia|done]).
      apply stb_Ret; [|done]. rewrite lookup_insert_ne by lia. apply HM. lia. }
    destruct (IH l (buf + 2) (d <| ports := p1 |>) m1) as (p2&E2&M2&C2); [lia|done|done| |].
    { apply mapped_insert, mapped_insert. intros i Hi. rewrite <- Z.add_assoc. apply HM. lia. }
    exists p2. split_and!; [|done|by eapply calm_trans; [exact C1|]].
    fs_run ltac:(by apply on_ports_Ret). rewrite Ex, Ey. fs_run ltac:(unfold on_bytes, in_mem; rewrite Es; reflexivity).
    rewrite <- Z.add_assoc. exact E2.
Qed.
(** The bytes [l] are on disk [dev] from [off] on; the rest of the media is as before. *)
Definition stored c dev off (l : list Z) p p' : Prop := ∀ c' dev' o, medium p' c' dev' o =
  if decide (c' = c ∧ dev' = dev ∧ off <= o < off + length l) then byte_at l (Z.to_nat (o - off)) else medium p c' dev' o.
Lemma outsw_spec c n : is_channel c → ∀ l dev off buf d m,
  length l = (2 * n)%nat → all_bytes l → at_mem m buf l →
  (if decide (2 * n = 0)%nat then soon Idle (mode (ports d) c) else mode (ports d) c = Receiving dev off (2 * n)) →
  ∃ p', outsw n buf c (d, m) = Ret tt (d <| ports := p' |>, m) ∧ soon Idle (mode p' c) ∧
    (∀ c', c' ≠ c → mode p' c' = mode (ports d) c') ∧ drive p' = drive (ports d) ∧ stored c dev off l (ports d) p'.
Proof.
  intros HCh. induction n as [|n IH]; intros l dev off buf d m Hl HB HA Hm.
  - destruct l; [|cbn in Hl; lia]. exists (ports d). split_and!; [by destruct d|done..|].
    intros c' dev' o. rewrite decide_False; [done|]. cbn. lia.
  - destruct l as [|x [|y l]]; [cbn in Hl; lia|cbn in Hl; lia|]. cbn in Hl.
    apply Forall_cons in HB as [Hx HB]. apply Forall_cons in HB as [Hy HB].
    apply at_mem_cons in HA as [Ax HA]. apply at_mem_cons in HA as [Ay HA].
    rewrite decide_False in Hm by lia. replace (2 * S n)%nat with (S (S (2 * n))) in Hm by lia.
    destruct (data_out _ _ _ _ _ x y HCh Hm) as (p1&E1&M1&C1&O1&S1); [done..|].
    destruct (IH l dev (off + 2) (buf + 1 + 1) (d <| ports := p1 |>) m) as (p2&E2&M2&C2&O2&S2); [lia|done..|].
    exists p2. split_and!; [|done|intros c' Hc; by rewrite C2, <- C1|by rewrite O2, <- O1|].
    + cbn [outsw]. fs_run ltac:(apply in_mem_rd; unfold ld16, ldu, mbind, M_bind; rewrite Ax, Ay; reflexivity).
      fs_run ltac:(by apply on_ports_Ret). replace (buf + 2) with (buf + 1 + 1) by lia. exact E2.
    + intros c' dev' o. rewrite S2. cbn [ports length]. change (ports (d <| ports := p1 |>)) with p1. rewrite S1.
      destruct (decide (c' = c ∧ dev' = dev ∧ off + 2 <= o < off + 2 + length l)) as [(->&->&Ho)|Hn].
      * rewrite decide_True by lia. unfold byte_at. replace (Z.to_nat (o - off)) with (S (S (Z.to_nat (o - (off + 2))))) by lia. done.
      * destruct (decide (c' = c ∧ dev' = dev ∧ o = off)) as [(->&->&->)|Hn0].
        { rewrite decide_True by lia. by rewrite Z.sub_diag. }
        destruct (decide (c' = c ∧ dev' = dev ∧ o = off + 1)) as [(->&->&->)|Hn1].
        { rewrite decide_True by lia. by replace (Z.to_nat (off + 1 - off)) with 1%nat by lia. }
        rewrite decide_False; [done|]. intros (->&->&Ho). apply Hn. split; [done|split; [done|]].
        assert (o ≠ off) by naive_solver. assert (o ≠ off + 1) by naive_solver. lia.
Qed.

(** ** Transfers of [n] sectors *)
Definition unit_of (disk : Z) : Z := if has disk 1 then 1 else 0.
Definition sectors_there p disk lba n : Prop := ∀ i, 0 <= i < n → has_sector (drive p (channel disk) (unit_of disk)) (lba + i).

Lemma data_words n : 0 < n < 2 ^ 8 → Z.to_nat (Z.quot (s32 (n * 512)) 2) = Z.to_nat (n * 256).
Proof. intros Hn. rewrite s32_id by lia. rewrite Z.quot_div_nonneg by lia. f_equal. replace (n * 512) with (n * 256 * 2) by lia. by apply Z.div_mul. Qed.

(** What both transfers begin with: the channel becomes idle and the registers are set. *)
Lemma prepare_spec disk n lba d m : let c := channel disk in
  soon Idle (mode (ports d) c) → 0 < n < 2 ^ 8 → 0 <= lba < 2 ^ 28 →
  ∃ p', mode p' c = Idle ∧ calm c (ports d) p' ∧ tf_count (tf p' c) = n ∧ tf_lba (tf p' c) = lba ∧
    has (tf_head (tf p' c)) ATA_DEV_LBA = true ∧ tf_dev (tf p' c) = unit_of disk ∧
    ∀ A (k : M (ata P * bytes) A),
      (check_busy disk;; WRITE_REG disk ATA_SECT_COUNT_ADDR (u8 n);; write_lba disk lba;; check_drdy disk;; k) (d, m) =
      k (d <| ports := p' |>, m).
Proof.
  intros c HS Hn Hl. destruct (check_busy_soon disk d m HS) as (p0&E0&M0&C0).
  destruct (setup_spec disk n lba (d <| ports := p0 |>) m) as (p1&E1&M1&C1&T1); [done..|].
  exists p1. split; [done|]. split; [by eapply calm_trans|]. do 4 (split; [apply T1|]). intros A k.
  fs_run ltac:(exact E0). rewrite <- bind_assoc. fs_run ltac:(exact E1). by fs_run ltac:(by apply check_drdy_idle).
Qed.

Lemma read_multi_spec op d m :
  let disk := DISKNO (o_device op) in
  let c := channel disk in
  soon Idle (mode (ports d) c) → disk <= MAX_DISKS → readcmd d ∈ [ATA_CMD_READ_SECT; ATA_CMD_READ_MULTI] →
  0 < o_blksize op < 2 ^ 8 → o_blksize op <= block_sectors (drive (ports d) c (unit_of disk)) (readcmd d) →
  0 <= o_block op < 2 ^ 28 → sectors_there (ports d) disk (o_block op) (o_blksize op) →
  mapped m (o_buffer op) (o_blksize op * SECTOR) →
  ∃ p', read_multi_lba op SECTOR (d, m) =
      Ret 0 (d <| ports := p' |>,
        put (o_buffer op) (medium (ports d) c (unit_of disk) <$> seqZ (o_block op * SECTOR) (o_blksize op * SECTOR)) m) ∧
    soon Idle (mode p' c) ∧ calm c (ports d) p'.
Proof.
  intros disk c Hm Hd Hc Hn Hb Hl Hs HM. unfold SECTOR in *.
  assert (Hcmd : u8 (readcmd d) = readcmd d) by (rewrite !elem_of_cons in Hc; destruct Hc as [->|[->|[]%elem_of_nil]]; done).
  destruct (prepare_spec disk (o_blksize op) (o_block op) d m Hm Hn Hl) as (p1&M1&C1&Tc&Tl&Th&Td&Hrun). fold c in M1, C1, Tc, Tl, Th, Td.
  pose proof C1 as (_&C1d&C1o).
  destruct (command_read p1 c (readcmd d) (channel_ok disk)) as (p2&E2&M2&C2); [done|done|done|rewrite Tc, Td, C1o; lia| |].
  { rewrite Tc, Tl, Td, C1o. exact Hs. }
  rewrite Tc, Tl, Td, C1d in M2.
  set (l := medium (ports d) c (unit_of disk) <$> seqZ (o_block op * 512) (o_blksize op * 512)) in *.
  assert (Hlen : length l = (2 * Z.to_nat (o_blksize op * 256))%nat) by (unfold l; rewrite length_fmap, length_seqZ; lia).
  assert (Hne : l ≠ []) by (intros E; rewrite E in Hlen; cbn in Hlen; lia).
  destruct (wait_data disk (Sending l) (d <| ports := p2 |>) m) as (x&p3&p4&E3&Hx&E4&M4&C4); [left; eauto|exact M2|].
  destruct (insw_spec c (Z.to_nat (o_blksize op * 256)) (channel_ok disk) l (o_buffer op) (d <| ports := p4 |>) m) as (p5&E5&M5&C5);
    [done|apply Forall_fmap, Forall_true; intros; apply medium_byte|by rewrite decide_False|intros i Hi; apply HM; lia|].
  exists p5. split_and!; [|done|].
  - unfold read_multi_lba. fold disk. rewrite (proj2 (Z.ltb_ge MAX_DISKS disk)) by done. cbv zeta. rewrite Hrun.
    fs_run ltac:(reflexivity). cbn [fst]. change (readcmd (d <| ports := p1 |>)) with (readcmd d).
    fs_run ltac:(unfold WRITE_REG, get_port; fold c; rewrite Hcmd; apply on_ports_Ret; exact E2).
    change (d <| ports := p1 |> <| ports := p2 |>) with (d <| ports := p2 |>).
    unfold waitnread_data. fold disk. fs_run ltac:(exact E3). rewrite Hx. fs_run ltac:(exact E4).
    fs_run ltac:(unfold READ_DATA, get_port, ATA_DATA_REG_ADDR; fold c; rewrite Z.add_0_r, data_words by lia; exact E5). done.
  - eapply calm_trans; [exact C1|]. eapply calm_trans; [exact C2|]. eapply calm_trans; [exact C4|exact C5].
Qed.

Lemma write_multi_spec op d m l :
  let disk := DISKNO (o_device op) in
  let c := channel disk in
  soon Idle (mode (ports d) c) → disk <= MAX_DISKS → writecmd d = ATA_CMD_WRITE_MULTI →
  0 < o_blksize op < 2 ^ 8 → o_blksize op <= multiple (drive (ports d) c (unit_of disk)) →
  0 <= o_block op < 2 ^ 28 → sectors_there (ports d) disk (o_block op) (o_blksize op) →
  at_mem m (o_buffer op) l → all_bytes l → o_blksize op * SECTOR = length l →
  ∃ p', write_multi_lba op SECTOR (d, m) = Ret 0 (d <| ports := p' |>, m) ∧ soon Idle (mode p' c) ∧
    (∀ c', c' ≠ c → mode p' c' = mode (ports d) c') ∧ drive p' = drive (ports d) ∧
    stored c (unit_of disk) (o_block op * SECTOR) l (ports d) p'.
Proof.
  intros disk c Hm Hd Hc Hn Hb Hl Hs HA HB Hlen. unfold SECTOR in *.
  destruct (prepare_spec disk (o_blksize op) (o_block op) d m Hm Hn Hl) as (p1&M1&C1&Tc&Tl&Th&Td&Hrun). fold c in M1, C1, Tc, Tl, Th, Td.
  pose proof C1 as (C1m&C1d&C1o).
  destruct (command_write p1 c (channel_ok disk)) as (p2&E2&M2&C2); [done|done|rewrite Tc, Td, C1o; lia| |].
  { rewrite Tc, Tl, Td, C1o. exact Hs. }
  rewrite Tc, Tl, Td in M2. set (n := Z.to_nat (o_blksize op * 256)).
  assert (Hnn : Z.to_nat (o_blksize op * SECTOR) = (2 * n)%nat) by (unfold n, SECTOR; lia). rewrite Hnn in M2.
  destruct (wait_data disk (Receiving (unit_of disk) (o_block op * SECTOR) (2 * n)) (d <| ports := p2 |>) m) as (x&p3&p4&E3&Hx&E4&M4&C4);
    [right; do 3 eexists; split; [|reflexivity]; unfold n; lia|exact M2|].
  destruct (outsw_spec c n (channel_ok disk) l (unit_of disk) (o_block op * 512) (o_buffer op) (d <| ports := p4 |>) m) as (p5&E5&M5&C5m&C5o&S5);
    [unfold n; lia|done|done|rewrite decide_False by (unfold n; lia); exact M4|].
  destruct (calm_trans _ _ _ _ (calm_trans _ _ _ _ C1 C2) C4) as (Cm&Cd&Co).
  exists p5. split_and!; [|done|..].
  - unfold write_multi_lba. fold disk. rewrite (proj2 (Z.ltb_ge MAX_DISKS disk)) by done. cbv zeta. rewrite Hrun.
    fs_run ltac:(reflexivity). cbn [fst]. change (writecmd (d <| ports := p1 |>)) with (writecmd d).
    fs_run ltac:(unfold WRITE_REG, get_port; fold c; rewrite Hc; apply on_ports_Ret; exact E2).
    change (d <| ports := p1 |> <| ports := p2 |>) with (d <| ports := p2 |>).
    unfold waitnwrite_data. fold disk. fs_run ltac:(exact E3). rewrite Hx. fs_run ltac:(exact E4).
    fs_run ltac:(unfold WRITE_DATA, get_port, ATA_DATA_REG_ADDR; fold c; rewrite Z.add_0_r, data_words by lia; exact E5). done.
  - intros c' Hc'. rewrite C5m by done. by apply Cm.
  - rewrite C5o. exact Co.
  - intros c' dev' o. rewrite S5. change (ports (d <| ports := p4 |>)) with p4. by rewrite Cd.
Qed.

(** ** The driver as a block device *)
Definition ATA_OPS : Z := 2.
#[global] Instance ata_driver : BlkDriver (ata P) := λ a,
  if a =? ATA_OPS then Some (mk_blkops ata_open ata_close ata_strategy) else None.

(** The first sector of the device: the whole disk, or a partition. *)
Definition dev_start d (dev : Z) : option Z :=
  di ← disks d !! Z.to_nat (DISKNO dev);
  if PARTNO dev =? 0 then Some 0 else t ← d_pinfo di; x ← t !! Z.to_nat (PARTNO dev); Some (pi_start x).
Definition dev_byte d (dev o : Z) : Z :=
  medium (ports d) (channel (DISKNO dev)) (unit_of (DISKNO dev)) (default 0 (dev_start d dev) * SECTOR + o).
(** The driver is set up for WRITE MULTIPLE, no transfer is in progress, the disk has sectors of 512
    bytes, and block [b] of [n] bytes is a whole number of sectors that the disk has and transfers in one block. *)
Definition ata_serves (a : Z) d (dev b n : Z) : Prop :=
  a = ATA_OPS ∧ (∀ c, soon Idle (mode (ports d) c)) ∧
  readcmd d ∈ [ATA_CMD_READ_SECT; ATA_CMD_READ_MULTI] ∧ writecmd d = ATA_CMD_WRITE_MULTI ∧
  ∃ di s k, 0 <= DISKNO dev <= MAX_DISKS ∧ disks d !! Z.to_nat (DISKNO dev) = Some di ∧ sector_size di = SECTOR ∧
    dev_start d dev = Some s ∧ 0 <= s ∧ 0 <= b ∧ n = k * SECTOR ∧ 0 < k < 2 ^ 8 ∧ b * k + s < 2 ^ 28 ∧
    (let i := drive (ports d) (channel (DISKNO dev)) (unit_of (DISKNO dev)) in
     k <= block_sectors i (readcmd d) ∧ k <= multiple i) ∧
    sectors_there (ports d) (DISKNO dev) (b * k + s) k.

Lemma ata_serves_same a d p' dev b n :
  (∀ c, soon Idle (mode p' c)) → drive p' = drive (ports d) → ata_serves a d dev b n → ata_serves a (d <| ports := p' |>) dev b n.
Proof.
  intros Hm Ho (?&_&?&?&di&s&k&H'). repeat split; try done. exists di, s, k. unfold sectors_there in *. cbn. by rewrite Ho.
Qed.
Lemma ata_strategy_run type d m dev b n buf di s k :
  disks d !! Z.to_nat (DISKNO dev) = Some di → sector_size di = SECTOR → dev_start d dev = Some s → 0 <= s → 0 <= b →
  n = k * SECTOR → 0 < k < 2 ^ 8 → b * k + s < 2 ^ 28 →
  ata_strategy (mk_operation dev type b n buf) (d, m) =
    (let op := mk_operation dev type (b * k + s) k buf in
     if has type BLK_READ then read_multi_lba op SECTOR else write_multi_lba op SECTOR) (d, m).
Proof.
  intros Ed Ess Es Hs Hb -> Hk Hbk. unfold ata_strategy. cbn [o_device o_type o_block o_blksize o_buffer].
  fs_run ltac:(reflexivity). cbn [fst]. fs_run ltac:(rewrite Ed; reflexivity). rewrite Ess. change (SECTOR =? 0) with false.
  cbv iota. fs_run ltac:(reflexivity). rewrite Z.div_mul by done. rewrite (bind_Ret _ _ _ s (d, m)).
  - by rewrite (u32_id (b * k)), u32_id by lia.
  - unfold dev_start in Es. rewrite Ed in Es. cbn in Es. destruct (PARTNO dev =? 0); [by injection Es as <-|].
    destruct (d_pinfo di) as [t|]; [|done]. cbn in Es. fs_run ltac:(reflexivity).
    destruct (t !! Z.to_nat (PARTNO dev)) as [x|] eqn:Ex; [|done]. cbn in Es. injection Es as <-.
    by fs_run ltac:(reflexivity).
Qed.

Lemma ata_read a o d m dev b n buf :
  driver a = Some o → ata_serves a d dev b n → 0 <= n → mapped m buf n →
  ∃ d', d_strategy o (mk_operation dev BLK_READ b n buf) (d, m) = Ret 0 (d', put buf (dev_byte d dev <$> seqZ (b * n) n) m) ∧
    (∀ dev' i, dev_byte d' dev' i = dev_byte d dev' i) ∧
    (∀ a' dev' b' n', ata_serves a' d dev' b' n' → ata_serves a' d' dev' b' n').
Proof.
  intros Ho (->&HI&Hr&Hw&di&s&k&Hd&Ed&Ess&Es&Hs&Hb&->&Hk&Hbk&[Hrb Hwb]&Ht) Hn HM. injection Ho as <-. cbn [d_strategy].
  rewrite (ata_strategy_run _ d m dev b _ buf di s k) by done. cbv zeta. change (has BLK_READ BLK_READ) with true. cbv iota.
  destruct (read_multi_spec (mk_operation dev BLK_READ (b * k + s) k buf) d m) as (p'&E&M'&C1&C2&C3);
    cbn [o_device o_blksize o_block o_buffer]; try done; [lia|lia|].
  cbn [o_device o_blksize o_block o_buffer] in *. exists (d <| ports := p' |>). split_and!.
  - rewrite E. do 3 f_equal. apply list_eq. intros i. rewrite !list_lookup_fmap. unfold dev_byte. rewrite Es. change (default 0 (Some s)) with s.
    destruct (decide (i < Z.to_nat (k * SECTOR))%nat); [|by rewrite !lookup_seqZ_ge by lia].
    rewrite !lookup_seqZ_lt by lia. cbn. do 2 f_equal. lia.
  - intros dev' i. unfold dev_byte. by rewrite <- C2.
  - intros a' dev' b' n'. apply ata_serves_same; [|done]. intros c.
    destruct (decide (c = channel (DISKNO dev))) as [->|Hne]; [done|]. by rewrite C1.
Qed.
Lemma ata_write a o d m dev b n buf l :
  driver a = Some o → ata_serves a d dev b n → n = length l → all_bytes l → at_mem m buf l →
  ∃ d', d_strategy o (mk_operation dev BLK_WRITE b n buf) (d, m) = Ret 0 (d', m) ∧
    (∀ i, dev_byte d' dev i = if decide (b * n <= i < b * n + n) then byte_at l (Z.to_nat (i - b * n)) else dev_byte d dev i) ∧
    (∀ a' dev' b' n', ata_serves a' d dev' b' n' → ata_serves a' d' dev' b' n').
Proof.
  intros Ho (->&HI&Hr&Hw&di&s&k&Hd&Ed&Ess&Es&Hs&Hb&->&Hk&Hbk&[Hrb Hwb]&Ht) Hn HB HA. injection Ho as <-. cbn [d_strategy].
  rewrite (ata_strategy_run _ d m dev b _ buf di s k) by done. cbv zeta. change (has BLK_WRITE BLK_READ) with false. cbv iota.
  destruct (write_multi_spec (mk_operation dev BLK_WRITE (b * k + s) k buf) d m l) as (p'&E&M'&C1&C2&C3);
    cbn [o_device o_blksize o_block o_buffer]; try done; [lia|lia|].
  cbn [o_device o_blksize o_block o_buffer] in *. exists (d <| ports := p' |>). split_and!; [exact E|..].
  - intros i. unfold dev_byte. change (dev_start (d <| ports := p' |>) dev) with (dev_start d dev). rewrite Es. change (default 0 (Some s)) with s.
    change (ports (d <| ports := p' |>)) with p'. rewrite C3, <- Hn. unfold SECTOR in *. case_decide as H1; case_decide as H2; try lia.
    f_equal. lia.
  - intros a' dev' b' n'. apply ata_serves_same; [|done]. intros c.
    destruct (decide (c = channel (DISKNO dev))) as [->|Hne]; [done|]. by rewrite C1.
Qed.
#[global] Instance ata_disk : BlkDisk (ata P) := {|
  content := dev_byte; serves := ata_serves;
  content_byte := λ d dev o, medium_byte _ _ _ _;
  strategy_read := ata_read; strategy_write := ata_write |}.
End DriverProof.

Section RoundTrip.
Context {P : Type} `{AtaPorts P}.
(** C17. With the commands for multiple sectors in use, a block of a partition that the disk transfers in
    one block of data: what the driver writes is on the disk, counted from the first sector of the
    partition, and a read of the same block gives it back; both calls answer 0, however long (within
    its time limit) the disk is busy in between.  Larger requests are not covered: the driver does not wait
    between the blocks of data. *)
Theorem ata_roundtrip (d : ata P) m dev b n l buf buf' :
  ata_serves ATA_OPS d dev b n → n = length l → all_bytes l → at_mem m buf l → mapped m buf' n →
  ∃ d1 d2 s, ata_strategy (mk_operation dev BLK_WRITE b n buf) (d, m) = Ret 0 (d1, m) ∧
    ata_strategy (mk_operation dev BLK_READ b n buf') (d1, m) = Ret 0 (d2, put buf' l m) ∧ dev_start d dev = Some s ∧
    ∀ i, 0 <= i < n →
      medium (ports d1) (channel (DISKNO dev)) (unit_of (DISKNO dev)) (s * SECTOR + b * n + i) = byte_at l (Z.to_nat i).
Proof.
  intros HS Hn HB HA HM. pose proof HS as (_&_&_&_&di&s&k&_&_&_&Es&_).
  destruct (ata_write ATA_OPS _ d m dev b n buf l eq_refl HS Hn HB HA) as (d1&E1&HC1&HS1).
  destruct (ata_read ATA_OPS _ d1 m dev b n buf' eq_refl (HS1 _ _ _ _ HS) ltac:(lia) HM) as (d2&E2&_).
  assert (Es1 : dev_start d1 dev = Some s).
  { cbn [d_strategy] in E1. destruct HS as (_&HI&Hr&Hw&di'&s'&k'&Hd&Ed&Ess&Es'&Hs&Hb&->&Hk&Hbk&[Hrb Hwb]&Ht).
    rewrite (ata_strategy_run _ d m dev b _ buf di' s' k') in E1 by done. cbv zeta in E1. change (has BLK_WRITE BLK_READ) with false in E1.
    cbv iota in E1. destruct (write_multi_spec (mk_operation dev BLK_WRITE (b * k' + s') k' buf) d m l) as (p'&E&_);
      cbn [o_device o_blksize o_block o_buffer]; try done; [lia|lia|].
    rewrite E in E1. injection E1 as <-. exact Es. }
  exists d1, d2, s. split_and!; [exact E1| |done|].
  - cbn [d_strategy] in E2. rewrite E2. do 3 f_equal. apply list_eq. intros i. rewrite list_lookup_fmap.
    destruct (decide (i < Z.to_nat n)%nat).
    + rewrite lookup_seqZ_lt by lia. cbn [fmap option_fmap option_map]. rewrite HC1, decide_True by lia.
      rewrite byte_at_lookup by lia. do 2 f_equal. lia.
    + rewrite lookup_seqZ_ge by lia. cbn. symmetry. apply lookup_ge_None. lia.
  - intros i Hi. specialize (HC1 (b * n + i)). rewrite decide_True in HC1 by lia. unfold dev_byte in HC1. rewrite Es1 in HC1.
    change (default 0 (Some s)) with s in HC1. rewrite Z.add_assoc in HC1. rewrite HC1. f_equal. lia.
Qed.
End RoundTrip.

(** ** A disk that behaves so *)
Record sim := mk_sim { sim_mode : gmap Z ata_mode; sim_tf : gmap Z taskfile; sim_media : gmap (Z * Z * Z) Z }.
#[local] Instance eta_sim : Settable sim := λ x, mk_sim (sim_mode x) (sim_tf x) (sim_media x).
Definition decode (port : Z) : option (Z * Z) :=
  if (PRIMARY_ATA <=? port) && (port <=? PRIMARY_ATA + 7) then Some (PRIMARY_ATA, port - PRIMARY_ATA)
  else if (SECONDARY_ATA <=? port) && (port <=? SECONDARY_ATA + 7) then Some (SECONDARY_ATA, port - SECONDARY_ATA)
  else None.
Definition mode_of (p : sim) (c : Z) : ata_mode := default Idle (sim_mode p !! c).
Definition tf_of (p : sim) (c : Z) : taskfile := default (mk_tf 0 0 0 0 0) (sim_tf p !! c).
Definition media_of (p : sim) (c dev o : Z) : Z := u8 (default 0 (sim_media p !! (c, dev, o))).
Definition set_mode (c : Z) (x : ata_mode) (p : sim) : sim := p <| sim_mode ::= <[c := x]> |>.
Definition sim_in (port : Z) : M sim Z := λ p,
  match decode port with
  | Some (c, 7) =>
      match mode_of p c with
      | Idle => Ret 0x50 p
      | Busy k nx => Ret 0x80 (set_mode c (match k with O => nx | S k => Busy k nx end) p)
      | _ => Ret 0x58 p
      end
  | _ => Ret 0 p
  end.
Definition sim_command (v c : Z) (p : sim) : sim :=
  let t := tf_of p c in
  if (v =? ATA_CMD_READ_SECT) || (v =? ATA_CMD_READ_MULTI) then
    set_mode c (Busy 3 (Sending (media_of p c (tf_dev t) <$> seqZ (tf_lba t * SECTOR) (tf_count t * SECTOR)))) p
  else if v =? ATA_CMD_WRITE_MULTI then
    set_mode c (Busy 1 (Receiving (tf_dev t) (tf_lba t * SECTOR) (Z.to_nat (tf_count t * SECTOR)))) p
  else p.
Definition sim_out (v port : Z) : M sim unit := λ p,
  match decode port with
  | Some (c, r) =>
      if r =? 7 then Ret tt (sim_command v c p)
      else if (2 <=? r) && (r <=? 6) then Ret tt (p <| sim_tf ::= <[c := set_reg r v (tf_of p c)]> |>)
      else Ret tt p
  | None => Ret tt p
  end.
Definition sim_inw (port : Z) : M sim Z := λ p,
  match decode port with
  | Some (c, 0) =>
      match mode_of p c with
      | Sending (x :: y :: l) => Ret (x + 2 ^ 8 * y) (set_mode c (if decide (l = []) then Idle else Sending l) p)
      | _ => Ret 0 p
      end
  | _ => Ret 0 p
  end.
Definition sim_outw (w port : Z) : M sim unit := λ p,
  match decode port with
  | Some (c, 0) =>
      match mode_of p c with
      | Receiving dev off (S (S n)) =>
          Ret tt (set_mode c (if decide (n = 0%nat) then Busy 2 Idle else Receiving dev (off + 2) n) p
                    <| sim_media ::= λ g, <[(c, dev, off) := w mod 2 ^ 8]> (<[(c, dev, off + 1) := w / 2 ^ 8]> g) |>)
      | _ => Ret tt p
      end
  | _ => Ret tt p
  end.
#[global] Instance sim_ports : Ports sim := {| inportb := sim_in; outportb := sim_out; inportw := sim_inw; outportw := sim_outw |}.

Lemma decode_channel c r : is_channel c → 0 <= r <= 7 → decode (c + r) = Some (c, r).
Proof.
  intros [-> | ->] Hr; unfold decode, PRIMARY_ATA, SECONDARY_ATA.
  - rewrite (proj2 (Z.leb_le _ _)), (proj2 (Z.leb_le _ _)) by lia. cbn [andb]. do 2 f_equal. lia.
  - rewrite (proj2 (Z.leb_gt 496 _)) by lia. cbn [andb]. rewrite (proj2 (Z.leb_le _ _)), (proj2 (Z.leb_le _ _)) by lia.
    cbn [andb]. do 2 f_equal. lia.
Qed.
Lemma mode_set c x p : mode_of (set_mode c x p) c = x.
Proof. unfold mode_of, set_mode. cbn. by rewrite lookup_insert_eq. Qed.
Lemma mode_set_ne c c' x p : c' ≠ c → mode_of (set_mode c x p) c' = mode_of p c'.
Proof. intros Hc. unfold mode_of, set_mode. cbn. by rewrite lookup_insert_ne. Qed.

#[global, program] Instance sim_ata : AtaPorts sim := {|
  mode := mode_of; tf := tf_of; medium := media_of; drive := λ _ _ _, mk_drive (λ _, True) 16 |}.
Next Obligation. intros. apply Z.mod_pos_bound. lia. Qed.
Next Obligation. intros p c Hc Hm. exists 0x50. cbn. unfold sim_in. by rewrite decode_channel, Hm by (done || lia). Qed.
Next Obligation.
  intros p c Hc Hm. exists 0x58. cbn. unfold sim_in. rewrite decode_channel by (done || lia).
  by destruct Hm as [(l&_&->)|(dev&off&n&_&->)].
Qed.
Next Obligation.
  intros p c k nx Hc Hm. do 2 eexists. cbn. unfold sim_in. rewrite decode_channel, Hm by (done || lia).
  split_and!; [done|done|done|done|apply mode_set|intros; by apply mode_set_ne|done|done].
Qed.
Next Obligation.
  intros p c r v Hc Hm Hr Hv. cbn. unfold sim_out. rewrite decode_channel by (done || lia).
  rewrite (proj2 (Z.eqb_neq r 7)), (proj2 (Z.leb_le 2 r)), (proj2 (Z.leb_le r 6)) by lia. eexists. split_and!; try done.
  unfold tf_of at 1. cbn. by rewrite lookup_insert_eq.
Qed.
Next Obligation.
  intros p c cmd t i Hc Hm Hcmd _ _ _. cbn. unfold sim_out. rewrite decode_channel by (done || lia). cbn [Z.eqb Pos.eqb]. eexists. split; [done|].
  unfold sim_command. rewrite !elem_of_cons in Hcmd.
  replace ((cmd =? ATA_CMD_READ_SECT) || (cmd =? ATA_CMD_READ_MULTI)) with true
    by (by destruct Hcmd as [->|[->|[]%elem_of_nil]]).
  split_and!; [right; exists 3%nat; split; [lia|apply mode_set]|intros; by apply mode_set_ne|done..].
Qed.
Next Obligation.
  intros p c x y l Hc Hm. cbn. unfold sim_inw. pose proof (decode_channel c 0 Hc ltac:(lia)) as E. rewrite Z.add_0_r in E.
  rewrite E, Hm. eexists. split_and!; [done| |intros; by apply mode_set_ne|done..].
  rewrite mode_set. case_decide; [by left|done].
Qed.
Next Obligation.
  intros p c t i Hc Hm _ _ _. cbn. unfold sim_out. rewrite decode_channel by (done || lia). cbn [Z.eqb Pos.eqb]. eexists. split; [done|].
  split_and!; [right; exists 1%nat; split; [lia|apply mode_set]|intros; by apply mode_set_ne|done..].
Qed.
Next Obligation.
  intros p c dev off n x y Hc Hm Hx Hy. cbn. unfold sim_outw. pose proof (decode_channel c 0 Hc ltac:(lia)) as E. rewrite Z.add_0_r in E.
  rewrite E, Hm. eexists. split_and!; [done| |intros; etrans; [by apply mode_set_ne|done]|done|].
  { case_decide; [right; exists 2%nat; split; [lia|]|]; exact (mode_set c _ p). }
  intros c' dev' o. unfold media_of at 1. cbn.
  assert (Ex : (x + 2 ^ 8 * y) mod 2 ^ 8 = x) by (symmetry; apply (Z.mod_unique _ _ y); lia).
  assert (Ey : (x + 2 ^ 8 * y) / 2 ^ 8 = y) by (symmetry; apply (Z.div_unique _ _ _ x); lia).
  change 256 with (2 ^ 8). rewrite Ex, Ey. unfold media_of.
  destruct (decide (c' = c ∧ dev' = dev ∧ o = off)) as [(->&->&->)|Hn0].
  { rewrite lookup_insert_eq. cbn. by apply Z.mod_small. }
  rewrite lookup_insert_ne by naive_solver.
  destruct (decide (c' = c ∧ dev' = dev ∧ o = off + 1)) as [(->&->&->)|Hn1].
  { rewrite lookup_insert_eq. cbn. by apply Z.mod_small. }
  by rewrite lookup_insert_ne by naive_solver.
Qed.

(** Partition 5 of the disk starts at sector 64. *)
Definition demo_ata : ata sim :=
  mk_ata (mk_sim ∅ ∅ ∅)
    (diskinfo0 <| sector_size := 512 |> <| d_pinfo := Some (replicate 5 pinfo0 ++ [mk_pinfo 64 100 0x83 0]) |> :: replicate 3 diskinfo0)
    ATA_CMD_READ_MULTI ATA_CMD_WRITE_MULTI.
Definition demo_sector : list Z := [77; 97; 110; 82; 105; 88] ++ replicate 506 7.
Definition demo_buf : bytes := put 0x2000 demo_sector (put 0x3000 (replicate 512 0) ∅).
Lemma ata_roundtrip_witness :
  ∃ d1 d2, ata_strategy (mk_operation (DEVICE 1 0 5) BLK_WRITE 3 512 0x2000) (demo_ata, demo_buf) = Ret 0 (d1, demo_buf) ∧
    ata_strategy (mk_operation (DEVICE 1 0 5) BLK_READ 3 512 0x3000) (d1, demo_buf) = Ret 0 (d2, put 0x3000 demo_sector demo_buf) ∧
    medium (ports d1) PRIMARY_ATA 0 (67 * 512 + 3) = 82.
Proof.
  destruct (ata_roundtrip demo_ata demo_buf (DEVICE 1 0 5) 3 512 demo_sector 0x2000 0x3000) as (d1&d2&s&H1&H2&H3&H4).
  - split_and!; [reflexivity|intros c; left; reflexivity|right; left; reflexivity|reflexivity|].
    eexists _, 64, 1. split_and!; try reflexivity; try done.
  - vm_compute. reflexivity.
  - apply Forall_app. split; [repeat constructor; lia|apply Forall_replicate; lia].
  - apply at_mem_put.
  - apply put_mapped. intros i Hi. rewrite lookup_put, decide_True by (rewrite length_replicate; lia).
    apply lookup_lt_is_Some. rewrite length_replicate. lia.
  - exists d1, d2. split_and!; [exact H1|exact H2|]. assert (s = 64) as -> by (by injection H3).
    specialize (H4 3 ltac:(lia)). exact H4.
Defined.
