(* ===== verification/Console.v ===== *)
(** * The console server: keyboard, terminal and screen

    Models servers/console: keyboard.c, asctable.c, tty.c, console.c with tty.h,
    i386/keyboard.h, i386/vga.h and termios.h.  There is one terminal, as
    [termindex] is always 0.  The screen and the buffers of requests are memory of
    LibcString; the terminal is a record.  What the server asks of others (signals, sleeping
    and waking threads, the lights of the keyboard, the cursor, replies) is appended to
    [con_out] in order.  The scan code an interrupt reads, and the answers of the
    kernel to [getpgid], [syscall_get_user] and [mmap], are arguments.

    A read that has to wait puts its thread to sleep: the answer [inl n] stands for
    that, with the value [n] of the local variable [nread]; after the thread is
    woken up the loop looks at the queue again, that is, the routine is called again.

    The last theorems relate the memory of the screen to the lines of the text that
    was written, and a read to the keys that were typed. *)

From S2P Require Import Prelude LibcString FsState.

(** ** Data: termios.h, tty.h *)
Definition VTIME : nat := 0.
Definition VEOF : nat := 1.
Definition VEOL : nat := 2.
Definition VERASE : nat := 3.
Definition VINTR : nat := 4.
Definition VKILL : nat := 5.
Definition VMIN : nat := 6.
Definition VQUIT : nat := 7.
Definition VSTART : nat := 8.
Definition VSTOP : nat := 9.
Definition VSUSP : nat := 10.
Definition NCCS : nat := 10.
Definition ICANON : Z := 0x010.
Definition ISIG : Z := 0x040.
Definition TCIFLUSH : Z := 1.
Record termios := mk_termios { c_iflag : Z; c_oflag : Z; c_cflag : Z; c_lflag : Z; c_cc : list Z }.
Definition TERMIOS_SIZEOF : Z := 56.

Definition MAX_INPUT : nat := 512.
Definition FLAG_BREAK : Z := 1.
Record termqueue := mk_termqueue {
  queue : list Z; last_scancode : Z; q_end : Z; keyflag : Z; led : Z; q_flag : Z; q_thread : Z }.
#[global] Instance eta_termqueue : Settable termqueue := λ x,
  mk_termqueue (queue x) (last_scancode x) (q_end x) (keyflag x) (led x) (q_flag x) (q_thread x).
Record winattr := mk_winattr { current_x : Z; current_y : Z; max_x : Z; max_y : Z; w_attr : Z }.
#[global] Instance eta_winattr : Settable winattr := λ x,
  mk_winattr (current_x x) (current_y x) (max_x x) (max_y x) (w_attr x).
Record terminal := mk_terminal { t_termios : termios; t_input : termqueue; t_win : winattr; t_pgid : Z }.
#[global] Instance eta_terminal : Settable terminal := λ x,
  mk_terminal (t_termios x) (t_input x) (t_win x) (t_pgid x).

Inductive con_event :=
| ev_killpg (pg sig : Z)
| ev_kill (tid sig : Z)
| ev_wake (tid : Z)
| ev_sleep (tid : Z)
| ev_led (mask : Z)
| ev_cursor (position : Z)
| ev_reply (tid w1 : Z).
Record con := mk_con { tty : terminal; cmem : bytes; vga : Z; con_out : list con_event }.
#[global] Instance eta_con : Settable con := λ x, mk_con (tty x) (cmem x) (vga x) (con_out x).
Abbreviation C := (M con).

Definition emit (e : con_event) : C unit := modify (λ s, s <| con_out ::= (.++ [e]) |>).
Definition on_cmem {A} (f : B A) : C A := λ s,
  match f (cmem s) with Ret a m => Ret a (s <| cmem := m |>) | Fault => Fault | Halt => Halt | Spin => Spin end.
Definition get_q : C termqueue := gets (λ s, t_input (tty s)).
Definition upd_q (f : termqueue → termqueue) : C unit :=
  modify (λ s, s <| tty ::= λ t, t <| t_input ::= f |> |>).
Definition get_w : C winattr := gets (λ s, t_win (tty s)).
Definition upd_w (f : winattr → winattr) : C unit :=
  modify (λ s, s <| tty ::= λ t, t <| t_win ::= f |> |>).
(** [c_cc] has ten entries; [c_cc[VSUSP]] is the word after it, the first of the queue. *)
Definition cc (i : nat) : C Z :=
  t ← gets tty;
  if bool_decide (i < NCCS)%nat then must (c_cc (t_termios t) !! i) else mret (le32 (queue (t_input t)) 0).

(** ** The screen: console.c, vga.h *)
Definition VNL : Z := 0xd.
Definition VCR : Z := 0xa.
Definition DEF_HORIZ : Z := 80.
Definition DEF_VERT : Z := 25.
Definition COLOR (blk bck forg : Z) : Z := Z.lor (Z.lor blk (Z.shiftl bck 4)) forg.
Definition BLUE : Z := 1.
Definition RED : Z := 4.
Definition iscntrl (c : Z) : bool := has (nth (Z.to_nat (u8 c)) _ctype 0) _C.
Definition update_cursor (x y : Z) : C unit := emit (ev_cursor (u16 (y * 80 + x))).
(** [addr] is what mmap answers. *)
Definition vga_init (addr : Z) : C unit :=
  upd_w (λ w, w <| max_x := DEF_HORIZ |> <| max_y := DEF_VERT |> <| w_attr := COLOR 0 BLUE RED |>);;
  modify (λ s, s <| vga := addr |>).
Definition console_init (addr : Z) : C Z :=
  upd_w (λ w, w <| current_x := 8 |> <| current_y := 8 |>);;
  vga_init addr;;
  mret (if addr =? 0 then -1 else 0).

Fixpoint scroll_loop (n : nat) (up down xpix : Z) : B unit :=
  match n with
  | O => mret tt
  | S n => memmove up down xpix;; scroll_loop n (up + xpix) (down + xpix) xpix
  end.
Definition scroll : C unit :=
  w ← get_w; base ← gets vga;
  let xpix := max_x w * 2 in
  on_cmem (memset base 0 xpix;;
           scroll_loop (Z.to_nat (max_y w)) base (base + xpix) xpix;;
           memset (base + max_x w * 2 * (max_y w - 1)) 0 xpix);;
  upd_w (λ w, w <| current_x := 0 |> <| current_y := max_y w - 1 |>).
Definition put_char_arch (ch : Z) : C unit :=
  w ← get_w; base ← gets vga;
  on_cmem (stb (base + (current_y w * max_x w * 2 + current_x w * 2)) ch;;
           stb (base + (current_y w * max_x w * 2 + (current_x w * 2 + 1))) (w_attr w)).
Definition newline (w : winattr) : winattr := w <| current_x := 0 |> <| current_y ::= Z.succ |>.
Definition put_char (ch : Z) (cur : bool) : C unit :=
  (if ch =? VNL then upd_w newline else if ch =? VCR then upd_w newline else mret tt);;
  w ← get_w;
  (if max_x w <=? current_x w then upd_w newline else mret tt);;
  w ← get_w;
  (if max_y w <=? current_y w then scroll else mret tt);;
  w ← get_w;
  (if cur then update_cursor (current_x w + 1) (current_y w) else mret tt);;
  if iscntrl ch then mret tt
  else put_char_arch ch;; upd_w (λ w, w <| current_x ::= Z.succ |>).
Fixpoint scr_write_loop (fuel : nat) (string : Z) : C unit :=
  match fuel with
  | O => spin
  | S fuel =>
      c ← on_cmem (ldu string);
      if c =? 0 then mret tt else put_char c false;; scr_write_loop fuel (string + 1)
  end.
Definition scr_write (string : Z) : C unit :=
  fuel ← gets (λ s, str_fuel (cmem s));
  scr_write_loop fuel string;;
  w ← get_w; update_cursor (current_x w + 1) (current_y w).

(** ** The terminal: tty.c *)
Definition SCODE_NL : Z := 0xA.
Definition SIGINT : Z := 9.
Definition SIGQUIT : Z := 13.
Definition SIGTSTP : Z := 19.
Definition SIGTTIN : Z := 20.
Definition q_at (i : Z) : C Z := q ← get_q; must (if i <? 0 then None else queue q !! Z.to_nat i).
(** The last character is not the end of a line: the condition, with its [||], of both routines. *)
Definition not_eol : C bool :=
  q ← get_q;
  c ← q_at (q_end q); eol ← cc VEOL; eof ← cc VEOF;
  mret (negb (c =? eol) || negb (c =? eof) || negb (c =? SCODE_NL)).
Fixpoint process_vkill (fuel : nat) : C unit :=
  match fuel with
  | O => spin
  | S fuel =>
      q ← get_q;
      if q_end q =? 0 then mret tt
      else
        b ← not_eol;
        if (b : bool) then mret tt else upd_q (λ q, q <| q_end ::= Z.pred |>);; process_vkill fuel
  end.
Definition process_verase : C unit :=
  b ← not_eol; if (b : bool) then mret tt else upd_q (λ q, q <| q_end := 0 |>).

(** The signal keys; START and STOP do nothing. *)
Definition signal_key (ch : Z) : C unit :=
  t ← gets tty;
  v ← cc VINTR;
  if ch =? v then emit (ev_killpg (t_pgid t) SIGINT)
  else
    v ← cc VQUIT;
    if ch =? v then emit (ev_killpg (t_pgid t) SIGQUIT)
    else
      v ← cc VSTART;
      if ch =? v then mret tt
      else
        v ← cc VSTOP;
        if ch =? v then mret tt
        else
          v ← cc VSUSP;
          if ch =? v then emit (ev_killpg (t_pgid t) SIGTSTP) else mret tt.
(** The editing keys; [true] is [goto out]. *)
Definition edit_key (ch : Z) : C bool :=
  v ← cc VKILL;
  if ch =? v then process_vkill (S MAX_INPUT);; mret true
  else v ← cc VERASE; if ch =? v then process_verase;; mret true else mret false.
Definition wake_reader : C unit :=
  q ← get_q;
  (if q_thread q =? 0 then mret tt else emit (ev_wake (q_thread q)));;
  upd_q (λ q, q <| q_thread := 0 |>).
Definition put_queue (ch : Z) : C unit :=
  q ← get_q;
  if (0 <=? q_end q) && (q_end q <? Z.of_nat (length (queue q))) then
    upd_q (λ q, q <| queue ::= <[Z.to_nat (q_end q) := ch]> |> <| q_end ::= Z.succ |>)
  else fault.
Definition read_key (ch : Z) : C unit :=
  l ← gets (λ s, c_lflag (t_termios (tty s)));
  (if has l ISIG then signal_key ch else mret tt);;
  out ← (if has l ICANON then edit_key ch else mret false);
  if out || (ch =? 0) then mret tt
  else
    eol ← cc VEOL; eof ← cc VEOF;
    (if (ch =? eol) || (ch =? eof) then upd_q (λ q, q <| q_flag := FLAG_BREAK |>) else put_queue ch);;
    wake_reader.

(** [memcpy(buf, &trm->t_input.queue, size)] *)
Definition copy_queue (buf n : Z) : C unit :=
  q ← get_q;
  if n <=? Z.of_nat (length (queue q)) then on_cmem (store_list buf (take (Z.to_nat n) (queue q))) else fault.
(** [con_printf] of the empty string only moves the cursor. *)
Definition icanon_read (self buf n : Z) : C (Z + Z) :=
  q ← get_q;
  let finish := copy_queue buf n;; q ← get_q; upd_q (λ q, q <| q_end := 0 |>);; mret (inr (q_end q)) in
  if u32 (q_end q) <? n then
    w ← get_w; update_cursor (current_x w + 1) (current_y w);;
    if q_flag q =? FLAG_BREAK then upd_q (λ q, q <| q_flag := 0 |>);; finish
    else upd_q (λ q, q <| q_thread := self |>);; emit (ev_sleep self);; mret (inl 0)
  else finish.
Definition raw_again (tid nread buf n : Z) : C (Z + Z) :=
  q ← get_q; v ← cc VMIN;
  if u32 (q_end q) <? v then emit (ev_sleep tid);; mret (inl nread) else copy_queue buf n;; mret (inr nread).
(** [nread] is what is in the uninitialised variable; it is the client that is put to sleep. *)
Definition raw_read (tid nread buf n : Z) : C (Z + Z) :=
  vmin ← cc VMIN; vtime ← cc VTIME;
  nread ← (if (vmin =? 0) && (vtime =? 0) then
             q ← get_q; copy_queue buf (q_end q);; upd_q (λ q, q <| q_end := 0 |>);; mret (q_end q)
           else mret nread);
  raw_again tid nread buf n.

(** *** The messages *)
Definition MSG_NOREPLY : Z := 0x20.
Record con_msg := mk_con_msg { m_tid : Z; m_flags : Z; m_w1 : Z; m_w2 : Z; m_rcv_ptr : Z; m_rcv_bufsize : Z }.
Definition reply (m : con_msg) (w1 : Z) : C unit := emit (ev_reply (m_tid m) w1).
Definition upd_pgid (g : Z) : C unit := modify (λ s, s <| tty ::= λ t, t <| t_pgid := g |> |>).
(** [gid] is the group [syscall_get_user] answers. *)
Definition msg_con_open (gid : Z) (m : con_msg) : C Z :=
  upd_pgid gid;; if has (m_flags m) MSG_NOREPLY then mret 0 else reply m (m_w1 m);; mret 0.
Definition msg_con_close (gid : Z) (m : con_msg) : C Z :=
  upd_pgid gid;; if has (m_flags m) MSG_NOREPLY then mret 0 else reply m (m_w1 m);; mret 0.
(** [inl] is a thread that sleeps; it replies after it is woken up. *)
Definition con_answer (m : con_msg) (r : Z + Z) : C (Z + Z) :=
  match r with inl n => mret (inl n) | inr n => reply m n;; mret (inr n) end.
Definition msg_con_read (self pg nread : Z) (m : con_msg) : C (Z + Z) :=
  t ← gets tty;
  (if t_pgid t =? pg then mret tt else emit (ev_kill (m_tid m) SIGTTIN));;
  r ← (if has (c_lflag (t_termios t)) ICANON then icanon_read self (m_rcv_ptr m) (m_rcv_bufsize m)
       else raw_read (m_tid m) nread (m_rcv_ptr m) (m_rcv_bufsize m));
  con_answer m r.
Definition msg_con_write (m : con_msg) : C Z := scr_write (m_w2 m);; mret 0.
Definition st_termios (p : Z) (t : termios) : B unit :=
  store_list p (mjoin (of_le32 <$> [c_iflag t; c_oflag t; c_cflag t; c_lflag t] ++ c_cc t)).
Fixpoint ld_words (n : nat) (p : Z) : B (list Z) :=
  match n with O => mret [] | S n => w ← ldw p; l ← ld_words n (p + 4); mret (w :: l) end.
Definition ld_termios (p : Z) : B termios :=
  i ← ldw p; o ← ldw (p + 4); c ← ldw (p + 8); l ← ldw (p + 12); cc ← ld_words NCCS (p + 16);
  mret (mk_termios i o c l cc).
Definition msg_tcgetattr (m : con_msg) : C Z :=
  t ← gets tty; on_cmem (st_termios (m_w2 m) (t_termios t));; reply m (m_w1 m);; mret 0.
Definition msg_tcsetattr (m : con_msg) : C Z :=
  tm ← on_cmem (ld_termios (m_w2 m));
  modify (λ s, s <| tty ::= λ t, t <| t_termios := tm |> |>);; reply m (m_w1 m);; mret 0.
Definition msg_tcgetsid (m : con_msg) : C Z := t ← gets tty; reply m (t_pgid t);; mret 0.
Definition msg_tcflush (m : con_msg) : C Z :=
  (if has (m_w2 m) TCIFLUSH then upd_q (λ q, q <| q_end := 0 |>) else mret tt);; reply m (m_w1 m);; mret 0.

(** The table [con_func] and the call of a worker. *)
Definition tty_work (self pg gid nread : Z) (m : con_msg) : C (Z + Z) :=
  let done := λ f : C Z, r ← f; mret (inr r) in
  match m_w1 m with
  | 0 | 4 => done (msg_con_write m)
  | 1 => done (msg_con_open gid m)
  | 2 => done (msg_con_close gid m)
  | 3 => msg_con_read self pg nread m
  | 5 => done (msg_tcgetattr m)
  | 6 => done (msg_tcsetattr m)
  | 7 => done (msg_tcgetsid m)
  | 8 => done (msg_tcflush m)
  | _ => fault
  end.

(** ** The keyboard: keyboard.c, asctable.c *)
Definition KEYSTAT_SHIFT : Z := 0x06.
Definition KEYSTAT_CAPS : Z := 0x08.
Definition KEYSTAT_NLOCK : Z := 0x10.
Definition KEYSTAT_SCROLL : Z := 0x20.
Definition LED_SCROLL_LOCK : Z := 1.
Definition LED_NUM_LOCK : Z := 2.
Definition LED_CAPS_LOCK : Z := 4.
Definition SCODE_ERR : Z := 0x00.
Definition SCODE_ECHO : Z := 0xEE.
Definition SCODE_ACK : Z := 0xFA.
Definition SCODE_BATF : Z := 0xFC.
Definition SCODE_RESEND : Z := 0xFE.
Definition SCODE_ERR1 : Z := 0xFF.
Definition SCODE_EXTENDED : Z := 0xE0.
Definition SCODE_LSHIFT_PRESS : Z := 42.
Definition SCODE_LSHIFT_RELSE : Z := Z.lor 42 0x80.
Definition SCODE_RSHIFT_PRESS : Z := 54.
Definition SCODE_RSHIFT_RELSE : Z := Z.lor 54 0x80.
Definition SCODE_NUMLOCK : Z := 69.
Definition SCODE_CAPSLOCK : Z := 58.
Definition SCODE_SCROLLOCK : Z := 70.
Definition SCODE (n : Z) : Z := 128 + n.

Definition table_code1 : list Z := [
  27; 49; 50; 51; 52; 53; 54; 55; 56; 57; 48; 45; 61; 0; 0; 113; 119; 101; 114; 116; 121; 117;
  105; 111; 112; 91; 93; 10; 0; 97; 115; 100; 102; 103; 104; 106; 107; 108; 59; 39; 96; 0; 0;
  122; 120; 99; 118; 98; 110; 109; 44; 46; 47; 0; 42; 0; 32; 0; 0; 0; 0; 0; 0; 0; 0; 0; 0; 0;
  0; 0; 0; 0; 0; 0; 0; 0; 0; 0; 0; 0; 0; 0; 0; 0; 0; 0; 0; 0; 0; 0; 0; 0; 0; 0; 0; 0; 0; 0; 0;
  0; 0; 0; 0; 0; 0; 0; 0; 0; 0; 0; 0; 0; 0; 0; 0; 0; 0; 0; 0; 0; 0; 0; 0; 0; 0; 0; 0; 0; 27;
  33; 64; 35; 36; 37; 94; 38; 42; 40; 41; 95; 43; 0; 0; 81; 87; 69; 82; 84; 89; 85; 73; 79; 80;
  123; 125; 0; 0; 65; 83; 68; 70; 71; 72; 74; 75; 76; 58; 124; 34; 0; 0; 90; 88; 67; 86; 66;
  78; 77; 60; 62; 63; 0; 0; 0; 0; 0; 0; 0; 0; 0; 0; 0; 0; 0; 0; 0; 0; 0; 55; 56; 57; 45; 52;
  53; 54; 43; 49; 50; 51; 48; 46; 0; 0; 0; 0; 0; 0; 0; 0; 0; 0; 0; 0; 0; 0; 0; 0; 0; 0; 0; 0;
  0; 0; 0; 0; 0; 0; 0; 0; 0; 0; 0; 0; 0; 0; 0; 0; 0; 0; 0; 0; 0; 0; 0; 0; 0; 0; 0].
Definition put_ascii (scancode : Z) : C Z :=
  ascii ← must (if scancode <? 1 then None else table_code1 !! Z.to_nat (scancode - 1));
  put_char ascii true;;
  mret ascii.

Definition termqueue_init : C unit :=
  upd_q (λ q, q <| last_scancode := 0 |> <| q_end := 0 |> <| keyflag := 0 |> <| led := 0 |>).
(** The request for the interrupt is left out. *)
Definition keyb_init : C Z := termqueue_init;; mret 0.

Definition scancode_check (scancode : Z) : Z :=
  if existsb (Z.eqb scancode) [SCODE_ERR; SCODE_ERR1; SCODE_ECHO; SCODE_ACK; SCODE_BATF; SCODE_RESEND] then -1 else 0.
Definition within (a b x : Z) : bool := (a <=? x) && (x <=? b).
Definition have_nlock_effect (scancode : Z) : bool := within 71 83 scancode.
Definition have_caps_effect (scancode : Z) : bool :=
  within 16 25 scancode || within 30 38 scancode || within 44 50 scancode.
Definition have_shift_effect (scancode : Z) : bool :=
  within 2 13 scancode || within 16 27 scancode || within 30 41 scancode || within 44 53 scancode.
(** A lock key: its state [k] and the light [l] are toggled, in opposite directions. *)
Definition toggle (k l : Z) (q : termqueue) : termqueue :=
  if has (keyflag q) k then q <| keyflag ::= λ x, Z.land x (not32 k) |> <| led ::= λ x, Z.lor x l |>
  else q <| keyflag ::= λ x, Z.lor x k |> <| led ::= λ x, Z.land x (Z.lnot l) |>.
Definition set_led : C unit := q ← get_q; emit (ev_led (u8 (led q))).
(** The code with the effect of shift and the locks. *)
Definition shifted (shift caps nlock : bool) (ch : Z) : Z :=
  let ch := if shift && have_shift_effect ch then u8 (SCODE ch) else ch in
  let ch := if caps && have_caps_effect ch then u8 (SCODE ch) else ch in
  if nlock && have_nlock_effect ch then u8 (SCODE ch) else ch.
Definition effects (q : termqueue) (ch : Z) : Z :=
  shifted (has (keyflag q) KEYSTAT_SHIFT) (has (keyflag q) KEYSTAT_CAPS) (has (keyflag q) KEYSTAT_NLOCK) ch.
(** [None] is the answer -1, [Some ch] the answer 0 with the new code. *)
Definition check_extended (ch : Z) : C (option Z) :=
  if ch =? SCODE_EXTENDED then mret None
  else if (ch =? SCODE_LSHIFT_PRESS) || (ch =? SCODE_RSHIFT_PRESS) then
    upd_q (λ q, q <| keyflag ::= λ x, Z.lor x KEYSTAT_SHIFT |>);; mret None
  else if (ch =? SCODE_LSHIFT_RELSE) || (ch =? SCODE_RSHIFT_RELSE) then
    upd_q (λ q, q <| keyflag ::= λ x, Z.land x (not32 KEYSTAT_SHIFT) |>);; mret None
  else if ch =? SCODE_CAPSLOCK then upd_q (toggle KEYSTAT_CAPS LED_CAPS_LOCK);; set_led;; mret None
  else if ch =? SCODE_NUMLOCK then set_led;; upd_q (toggle KEYSTAT_NLOCK LED_NUM_LOCK);; mret None
  else if ch =? SCODE_SCROLLOCK then set_led;; upd_q (toggle KEYSTAT_SCROLL LED_SCROLL_LOCK);; mret None
  else if has ch 0x80 then mret None
  else q ← get_q; mret (Some (effects q ch)).
(** The interrupt for the scan code; the ports of the keyboard are left out.  The code that is
    remembered is the one with the effects. *)
Definition kb_intr (scancode : Z) : C unit :=
  last ← (if scancode_check scancode =? -1 then mret scancode
          else
            r ← check_extended scancode;
            match r with
            | None => mret scancode
            | Some ch => ascii ← put_ascii ch; read_key ascii;; mret ch
            end);
  upd_q (λ q, q <| last_scancode := last |>).

(** ** The screen shows the last lines of the text *)
Section Screen.

(** [n] rows of [P] bytes are moved up by one. *)
Lemma scroll_loop_spec P : 0 < P → ∀ n up m, holds_bytes m → mapped m up ((Z.of_nat n + 1) * P) →
  ∃ m', scroll_loop n up (up + P) P m = Ret tt m' ∧ holds_bytes m' ∧
    ∀ q, m' !! q = if decide (up <= q < up + Z.of_nat n * P) then m !! (q + P) else m !! q.
Proof.
  intros HP. induction n as [|n IH]; intros up m HB HM.
  { exists m. split; [done|]. split; [done|]. intros q. by rewrite decide_False by lia. }
  destruct (copy_up_spec (Z.to_nat P) up (up + P) m) as (m1&E1&HC); [lia|done|..].
  { intros i Hi. replace (up + P + i) with (up + (P + i)) by lia. apply HM. nia. }
  { intros i Hi. apply HM. nia. }
  rewrite Z2Nat.id in HC by lia.
  assert (HB1 : holds_bytes m1).
  { intros q b. rewrite HC. case_decide; apply HB. }
  destruct (IH (up + P) m1 HB1) as (m'&E&HB'&HC').
  { intros i Hi. rewrite HC, decide_False by lia. replace (up + P + i) with (up + (P + i)) by lia. apply HM. nia. }
  exists m'. split_and!; [|done|].
  - cbn [scroll_loop]. unfold memmove. rewrite (proj2 (Z.leb_le up (up + P))) by lia.
    erewrite bind_Ret; [exact E|]. by rewrite (bind_Ret _ _ _ _ _ E1).
  - intros q. rewrite HC'. destruct (decide (up + P <= q < up + P + Z.of_nat n * P)) as [H|H].
    + rewrite HC, decide_False, decide_True by lia. done.
    + rewrite HC. destruct (decide (up <= q < up + P)) as [H1|H1].
      * rewrite decide_True by nia. f_equal. lia.
      * rewrite decide_False by nia. done.
Qed.

(** The bytes of a line of characters with their attributes, as the adapter has them. *)
Fixpoint cells (l : list (Z * Z)) : list Z :=
  match l with [] => [] | (c, attr) :: l => c :: attr :: cells l end.
(** The lines of the text above the cursor and the one it is in. *)
Abbreviation line := (list (Z * Z)).
Definition layout (X attr : Z) (t : list line * line) (ch : Z) : list line * line :=
  let '(h, c) := t in
  let '(h, c) := if (ch =? VNL) || (ch =? VCR) || (X <=? Z.of_nat (length c)) then (h ++ [c], []) else (h, c) in
  if iscntrl ch then (h, c) else (h, c ++ [(ch, attr)]).
Definition in_screen (w : winattr) : Prop :=
  0 < max_x w ∧ 0 < max_y w ∧ 0 <= w_attr w < 2 ^ 8 ∧ 0 <= current_x w <= max_x w ∧ 0 <= current_y w < max_y w.
Definition pitch (w : winattr) : Z := max_x w * 2.
(** The screen of [s] has in its rows down to the cursor the last lines of [h] and then [c]. *)
Record shows (s : con) (h : list line) (c : line) : Prop := {
  sh_win : in_screen (t_win (tty s));
  sh_x : current_x (t_win (tty s)) = Z.of_nat (length c);
  sh_y : current_y (t_win (tty s)) <= Z.of_nat (length h);
  sh_fit : Forall (λ l, Z.of_nat (length l) <= max_x (t_win (tty s))) h;
  sh_mem : mapped (cmem s) (vga s) (pitch (t_win (tty s)) * (max_y (t_win (tty s)) + 1));
  sh_bytes : holds_bytes (cmem s);
  sh_rows : ∀ (r : nat) l, Z.of_nat r <= current_y (t_win (tty s)) →
    (h ++ [c]) !! (length h - Z.to_nat (current_y (t_win (tty s))) + r)%nat = Some l →
    at_mem (cmem s) (vga s + Z.of_nat r * pitch (t_win (tty s))) (cells l) }.

(** What writing to the screen leaves as it is. *)
Record con_frame (s s' : con) : Prop := {
  cf_vga : vga s' = vga s;
  cf_tty : ∃ x y, tty s' = (tty s) <| t_win ::= λ w, w <| current_x := x |> <| current_y := y |> |>;
  cf_mem : ∀ q, ¬ vga s <= q < vga s + pitch (t_win (tty s)) * max_y (t_win (tty s)) → cmem s' !! q = cmem s !! q;
  cf_out : con_out s' = con_out s }.
#[local] Instance con_frame_po : PreOrder con_frame.
Proof.
  split.
  - intros s. split; try done. exists (current_x (t_win (tty s))), (current_y (t_win (tty s))). by destruct s as [[? ? [] ?] ? ? ?].
  - intros s1 s2 s3 [V1 (x1&y1&T1) M1 O1] [V2 (x2&y2&T2) M2 O2].
    rewrite T1 in *. split; [congruence| |intros q Hq|congruence].
    + exists x2, y2. rewrite T2. done.
    + rewrite M2, M1; [done..|]. rewrite V1. done.
Qed.

Lemma on_cmem_Ret {A} (f : B A) a m s : f (cmem s) = Ret a m → on_cmem f s = Ret a (s <| cmem := m |>).
Proof. intros E. unfold on_cmem. by rewrite E. Qed.

Lemma scroll_spec s :
  let w := t_win (tty s) in
  0 < max_x w → 0 < max_y w → holds_bytes (cmem s) → mapped (cmem s) (vga s) (pitch w * (max_y w + 1)) →
  ∃ m, scroll s = Ret tt (s <| cmem := m |> <| tty ::= λ t, t <| t_win ::= λ w, w <| current_x := 0 |> <| current_y := max_y w - 1 |> |> |>) ∧
    holds_bytes m ∧
    ∀ q, m !! q = if decide (vga s <= q < vga s + pitch w * (max_y w - 1)) then cmem s !! (q + pitch w)
                  else if decide (vga s <= q < vga s + pitch w * max_y w) then Some 0 else cmem s !! q.
Proof.
  intros w HX HY HB HM. set (P := pitch w) in *. assert (HP : 0 < P) by (unfold P, pitch; lia).
  set (m1 := put (vga s) (replicate (Z.to_nat P) (u8 0)) (cmem s)).
  assert (E1 : memset (vga s) 0 P (cmem s) = Ret (vga s) m1).
  { apply memset_put; [lia|]. intros i Hi. apply HM. nia. }
  assert (HZ : ∀ n, all_bytes (replicate n (u8 0))) by (intros n; apply Forall_replicate; done).
  destruct (scroll_loop_spec P HP (Z.to_nat (max_y w)) (vga s) m1) as (m2&E2&HB2&HC2).
  { by apply put_holds. }
  { apply put_mapped. intros i Hi. apply HM. nia. }
  set (m3 := put (vga s + max_x w * 2 * (max_y w - 1)) (replicate (Z.to_nat P) (u8 0)) m2).
  assert (E3 : memset (vga s + max_x w * 2 * (max_y w - 1)) 0 P m2 = Ret (vga s + max_x w * 2 * (max_y w - 1)) m3).
  { apply memset_put; [lia|]. fold (pitch w). fold P. intros i Hi. rewrite HC2.
    rewrite Z2Nat.id, decide_True by nia. replace (_ + i + P) with (vga s + (P * (max_y w - 1) + i + P)) by lia.
    apply put_mapped with (n := P * (max_y w + 1)); [done|nia]. }
  exists m3. split_and!.
  - unfold scroll, get_w. unfold mbind at 1, M_bind at 1, gets at 1. fold w. unfold mbind at 1, M_bind at 1, gets at 1.
    fold (pitch w). fold P. erewrite bind_Ret.
    2:{ apply on_cmem_Ret. rewrite (bind_Ret _ _ _ _ _ E1), (bind_Ret _ _ _ _ _ E2). exact E3. }
    done.
  - by apply put_holds.
  - intros q. unfold m3. fold (pitch w). fold P. rewrite lookup_put, length_replicate, Z2Nat.id by lia.
    assert (Hr : ∀ n i, (i < n)%nat → replicate n (u8 0) !! i = Some 0) by (intros; by apply lookup_replicate_2).
    rewrite HC2, Z2Nat.id by lia. unfold m1. rewrite !lookup_put, length_replicate, Z2Nat.id by lia.
    destruct (decide (vga s + P * (max_y w - 1) <= q < vga s + P * (max_y w - 1) + P)).
    + rewrite decide_False, decide_True by nia. apply Hr. lia.
    + destruct (decide (vga s <= q < vga s + P * (max_y w - 1))).
      * rewrite decide_True, decide_False by nia. done.
      * rewrite decide_False, (decide_False (P := vga s <= q < vga s + P * max_y w)), decide_False by nia. done.
Qed.

(** The cursor went [n] lines down, or to the last line of the screen. *)
Definition moved (n : Z) (s s' : con) : Prop :=
  current_y (t_win (tty s')) = Z.min (max_y (t_win (tty s)) - 1) (current_y (t_win (tty s)) + n).
Definition next_line (s : con) : con := s <| tty ::= λ t, t <| t_win ::= newline |> |>.
Lemma cells_length l : length (cells l) = (2 * length l)%nat.
Proof. induction l as [|[] l IH]; cbn; lia. Qed.
Lemma cells_app l k : cells (l ++ k) = cells l ++ cells k.
Proof. induction l as [|[] l IH]; cbn; [done|]. by rewrite IH. Qed.

Lemma at_mem_nil m p : at_mem m p [].
Proof. intros i Hi. cbn in Hi. lia. Qed.
Lemma lookup_last_line (h : list line) k l : (h ++ [[]]) !! k = Some l → (length h <= k)%nat → l = [].
Proof. intros E Hk. rewrite lookup_app_r in E by done. by apply list_lookup_singleton_Some in E as [_ <-]. Qed.

(** The cursor goes to the next line; at the last one the screen is scrolled. *)
Lemma break_spec s h c :
  shows s h c →
  ∃ s', (w ← get_w; if max_y w <=? current_y w then scroll else mret tt) (next_line s) = Ret tt s' ∧
    shows s' (h ++ [c]) [] ∧ con_frame s s' ∧ moved 1 s s'.
Proof.
  intros [(HX&HY&HA&Hx&Hy) Ex Ey HF HM HB HR]. unfold get_w. unfold mbind at 1, M_bind at 1, gets at 1.
  assert (Ew : t_win (tty (next_line s)) = newline (t_win (tty s))) by reflexivity. rewrite Ew.
  pose proof (scroll_spec (next_line s)) as HS. cbv zeta in HS. rewrite Ew in HS.
  change (vga (next_line s)) with (vga s) in HS. change (cmem (next_line s)) with (cmem s) in HS.
  remember (t_win (tty s)) as w eqn:Ew0.
  assert (HF' : Forall (λ l, Z.of_nat (length l) <= max_x w) (h ++ [c])).
  { apply Forall_app. split; [done|]. apply Forall_singleton. lia. }
  assert (HP : 0 < pitch w) by (unfold pitch; lia).
  change (pitch (newline w)) with (pitch w) in *. change (max_y (newline w)) with (max_y w) in *.
  change (max_x (newline w)) with (max_x w) in *. change (current_y (newline w)) with (current_y w + 1).
  destruct (Z.leb_spec (max_y w) (current_y w + 1)) as [Hl|Hl].
  - destruct HS as (m&E&HBm&HC); [done..|]. eexists. split; [exact E|].
    set (s' := _ <| tty ::= _ |>). assert (Ew' : t_win (tty s') = w <| current_x := 0 |> <| current_y := max_y w - 1 |>) by (by rewrite Ew0).
    split_and!.
    + split; rewrite ?Ew'; try done; change (pitch _) with (pitch w);
        cbn [current_x current_y max_x max_y w_attr setf]; change (cmem s') with m; change (vga s') with (vga s).
      * unfold in_screen. cbn. lia.
      * rewrite length_app. cbn. lia.
      * intros i Hi. rewrite HC. destruct (HM i Hi) as [b Eb]. case_decide; [|case_decide; [done|by exists b]].
        replace (vga s + i + pitch w) with (vga s + (i + pitch w)) by lia. apply HM. nia.
      * intros r l Hr Hl'. cbn in Hr, Hl'. rewrite length_app in Hl'. cbn [length] in Hl'.
        destruct (decide (Z.of_nat r = max_y w - 1)) as [Hlast|Hlast].
        { apply lookup_last_line in Hl' as ->; [apply at_mem_nil|]. rewrite length_app. cbn. lia. }
        rewrite lookup_app_l in Hl' by (rewrite length_app; cbn; lia).
        pose proof (HR (S r) l ltac:(lia)) as HR'. specialize (HR' ltac:(rewrite <- Hl'; f_equal; lia)).
        intros i Hi. rewrite HC. rewrite decide_True.
        { rewrite <- (HR' i Hi). f_equal. lia. }
        cbn in Hi. rewrite cells_length in Hi. assert (Z.of_nat (length l) <= max_x w) by (apply (Forall_lookup_1 _ _ _ _ HF' Hl')).
        unfold pitch in *. nia.
    + split; [done| |rewrite <- Ew0|done].
      * exists 0, (max_y w - 1). by rewrite Ew0.
      * intros q Hq. change (cmem s') with m. rewrite HC, decide_False, decide_False; [done|..]; nia.
    + unfold moved. rewrite Ew', <- Ew0. cbn. lia.
  - exists (next_line s). split; [done|]. split_and!.
    + split; rewrite ?Ew; try done; change (pitch _) with (pitch w); cbn [current_x current_y max_x max_y w_attr setf newline].
      * unfold in_screen. cbn. lia.
      * rewrite length_app. cbn. lia.
      * intros r l Hr Hl'. cbn in Hr, Hl'. rewrite length_app in Hl'. cbn [length] in Hl'.
        destruct (decide (Z.of_nat r = current_y w + 1)) as [Hlast|Hlast].
        { apply lookup_last_line in Hl' as ->; [apply at_mem_nil|]. rewrite length_app. cbn. lia. }
        rewrite lookup_app_l in Hl' by (rewrite length_app; cbn; lia).
        apply HR; [lia|]. rewrite <- Hl'. f_equal. lia.
    + split; try done. exists 0, (current_y w + 1). by rewrite Ew0.
    + unfold moved. rewrite Ew, <- Ew0. cbn. lia.
Qed.

Lemma write_spec s h c ch :
  shows s h c → Z.of_nat (length c) < max_x (t_win (tty s)) → 0 <= ch < 2 ^ 8 →
  ∃ s', (put_char_arch ch;; upd_w (λ w, w <| current_x ::= Z.succ |>)) s = Ret tt s' ∧
    shows s' h (c ++ [(ch, w_attr (t_win (tty s)))]) ∧ con_frame s s' ∧ moved 0 s s'.
Proof.
  intros [(HX&HY&HA&Hx&Hy) Ex Ey HF HM HB HR] Hlt Hch.
  unfold put_char_arch, get_w. rewrite bind_assoc. unfold mbind at 1, M_bind at 1, gets at 1.
  rewrite bind_assoc. unfold mbind at 1, M_bind at 1, gets at 1.
  remember (t_win (tty s)) as w eqn:Ew0. assert (HP : 0 < pitch w) by (unfold pitch; lia).
  set (a := vga s + (current_y w * max_x w * 2 + current_x w * 2)).
  replace (vga s + (current_y w * max_x w * 2 + (current_x w * 2 + 1))) with (a + 1) by (unfold a; lia).
  set (m := put a [ch; w_attr w] (cmem s)).
  assert (Ha : a = vga s + current_y w * pitch w + Z.of_nat (length (cells c))).
  { rewrite cells_length. unfold a, pitch. lia. }
  assert (Em : (stb a ch;; stb (a + 1) (w_attr w)) (cmem s) = Ret tt m).
  { pose proof (store_list_put [ch; w_attr w] a (cmem s)) as E. cbn [store_list length] in E.
    assert (HE : (stb a ch;; stb (a + 1) (w_attr w);; mret tt) (cmem s) = Ret tt m).
    { apply E; [repeat constructor; lia|]. intros i Hi. unfold a. rewrite <- Z.add_assoc. apply HM. unfold pitch. nia. }
    rewrite <- HE. unfold mbind, M_bind. destruct (stb a ch (cmem s)) as [[] m'| | |]; [|done..]. by destruct (stb _ _ m') as [[] ?| | |]. }
  fs_run ltac:(apply on_cmem_Ret; exact Em).
  eexists. split; [reflexivity|].
  set (s' := _ <| tty ::= _ |>). assert (Ew' : t_win (tty s') = w <| current_x ::= Z.succ |>) by (by rewrite Ew0).
  assert (HC : ∀ q, ¬ a <= q < a + 2 → m !! q = cmem s !! q).
  { intros q Hq. unfold m. rewrite lookup_put, decide_False; [done|]. cbn. lia. }
  split_and!.
  - split; rewrite ?Ew'; try done; change (pitch _) with (pitch w);
      cbn [current_x current_y max_x max_y w_attr setf]; change (cmem s') with m; change (vga s') with (vga s).
    + unfold in_screen. cbn. lia.
    + rewrite length_app. cbn. lia.
    + by apply put_mapped.
    + apply put_holds; [repeat constructor; lia|done].
    + intros r l Hr Hl. cbn in Hr, Hl |- *. destruct (decide (Z.of_nat r = current_y w)) as [Hlast|Hlast].
      * rewrite lookup_app_r in Hl by lia. replace (_ - _)%nat with 0%nat in Hl by lia. injection Hl as <-.
        rewrite cells_app, at_mem_app. split.
        { intros i Hi. rewrite HC by lia. apply (HR r c); [lia| |done]. by rewrite lookup_app_r, list_lookup_singleton_Some by lia; (split; [lia|]). }
        rewrite Hlast, <- Ha. exact (at_mem_put a [ch; w_attr w] (cmem s)).
      * assert (Hl2 : h !! (length h - Z.to_nat (current_y w) + r)%nat = Some l) by (by rewrite lookup_app_l in Hl by lia).
        pose proof (Forall_lookup_1 _ _ _ _ HF Hl2) as Hlen. cbn in Hlen.
        intros i Hi. rewrite HC.
        { apply (HR r l); [lia| |done]. by rewrite lookup_app_l by lia. }
        rewrite cells_length in Hi. unfold a, pitch. nia.
  - split; [done| |rewrite <- Ew0|done].
    + exists (current_x w + 1), (current_y w). rewrite Ew0. by destruct s as [[? ? [] ?] ? ? ?].
    + intros q Hq. change (cmem s') with m. apply HC. unfold a, pitch in *. nia.
  - unfold moved. rewrite Ew', <- Ew0. cbn. lia.
Qed.
Lemma moved_trans s s1 s2 a b : con_frame s s1 → 0 <= a → 0 <= b → moved a s s1 → moved b s1 s2 → moved (a + b) s s2.
Proof. intros F Ha Hb H1 H2. unfold moved in *. destruct (cf_tty _ _ F) as (x&y&E). rewrite E in H1, H2. cbn in H1, H2. lia. Qed.
Lemma moved_0 s : current_y (t_win (tty s)) < max_y (t_win (tty s)) → moved 0 s s.
Proof. unfold moved. lia. Qed.

Lemma put_char_spec s h c ch :
  shows s h c → 0 <= ch < 2 ^ 8 →
  ∃ s', put_char ch false s = Ret tt s' ∧
    shows s' (layout (max_x (t_win (tty s))) (w_attr (t_win (tty s))) (h, c) ch).1 (layout (max_x (t_win (tty s))) (w_attr (t_win (tty s))) (h, c) ch).2 ∧ con_frame s s' ∧
    moved (Z.of_nat (length (layout (max_x (t_win (tty s))) (w_attr (t_win (tty s))) (h, c) ch).1) - Z.of_nat (length h)) s s'.
Proof.
  intros HS Hch. set (X := max_x (t_win (tty s))). set (A := w_attr (t_win (tty s))).
  set (brk := (ch =? VNL) || (ch =? VCR) || (X <=? Z.of_nat (length c))).
  (* the cursor is moved to the next line or stays *)
  assert (H1 : ∃ s1, (w ← get_w; if max_y w <=? current_y w then scroll else mret tt) (if brk then next_line s else s) = Ret tt s1 ∧
    shows s1 (if brk then h ++ [c] else h) (if brk then [] else c) ∧ con_frame s s1 ∧
    moved (if brk then 1 else 0) s s1).
  { destruct brk; [by apply break_spec|]. exists s. split; [|split_and!; [done..|apply moved_0, (sh_win _ _ _ HS)]].
    unfold get_w, mbind, M_bind, gets. destruct (sh_win _ _ _ HS) as (_&_&_&_&Hy). by rewrite (proj2 (Z.leb_gt _ _)) by lia. }
  destruct H1 as (s1&E1&S1&F1&D1).
  assert (max_x (t_win (tty s1)) = X ∧ w_attr (t_win (tty s1)) = A) as [EX EA] by (destruct (cf_tty _ _ F1) as (x&y&->); done).
  assert (H2 : ∃ s2, (if iscntrl ch then mret tt else put_char_arch ch;; upd_w (λ w, w <| current_x ::= Z.succ |>)) s1 = Ret tt s2 ∧
    shows s2 (layout X A (h, c) ch).1 (layout X A (h, c) ch).2 ∧ con_frame s1 s2 ∧ moved 0 s1 s2).
  { unfold layout. fold brk. destruct (iscntrl ch).
    { exists s1. pose proof (moved_0 s1 ltac:(apply (sh_win _ _ _ S1))). by destruct brk. }
    destruct (write_spec s1 _ _ ch S1) as (s2&E2&S2&F2); [|done|rewrite EA in S2; exists s2; by destruct brk].
    rewrite EX. destruct (sh_win _ _ _ HS) as (HX&_). destruct brk eqn:Eb; [cbn; lia|].
    unfold brk in Eb. apply orb_false_iff in Eb as [_ Eb%Z.leb_gt]. done. }
  destruct H2 as (s2&E2&S2&F2&D2). exists s2. split; [|split_and!; [done|by etrans|]].
  2:{ replace (_ - _) with ((if brk then 1 else 0) + 0); [by eapply moved_trans; [..|exact D2]; destruct brk|].
      unfold layout. fold brk. destruct brk, (iscntrl ch); cbn; rewrite ?length_app; cbn; lia. }
  unfold put_char.
  assert (E0 : ((if ch =? VNL then upd_w newline else if ch =? VCR then upd_w newline else mret tt) : C unit) s =
    Ret tt (if (ch =? VNL) || (ch =? VCR) then next_line s else s)).
  { by destruct (ch =? VNL), (ch =? VCR). }
  rewrite (bind_Ret _ _ _ _ _ E0). clear E0. rewrite (bind_Ret _ _ _ _ _ (eq_refl : get_w _ = Ret _ _)).
  assert (E0 : ((if max_x (t_win (tty (if (ch =? VNL) || (ch =? VCR) then next_line s else s))) <=?
                    current_x (t_win (tty (if (ch =? VNL) || (ch =? VCR) then next_line s else s)))
                 then upd_w newline else mret tt) : C unit) (if (ch =? VNL) || (ch =? VCR) then next_line s else s) =
    Ret tt (if brk then next_line s else s)).
  { unfold brk. destruct ((ch =? VNL) || (ch =? VCR)).
    - destruct (sh_win _ _ _ HS) as (HX&_). change (max_x _) with X. change (current_x _) with 0. by rewrite (proj2 (Z.leb_gt _ _)) by done.
    - rewrite (sh_x _ _ _ HS). fold X. by destruct (X <=? _). }
  rewrite (bind_Ret _ _ _ _ _ E0). rewrite <- bind_assoc. rewrite (bind_Ret _ _ _ _ _ E1). exact E2.
Qed.

Lemma scr_write_loop_spec text : ∀ fuel s h c p,
  (length text < fuel)%nat → shows s h c → at_mem (cmem s) p (text ++ [0]) → Forall (λ b, b ≠ 0) text →
  p + Z.of_nat (length text) < vga s ∨ vga s + pitch (t_win (tty s)) * max_y (t_win (tty s)) <= p →
  let t := foldl (layout (max_x (t_win (tty s))) (w_attr (t_win (tty s)))) (h, c) text in
  ∃ s', scr_write_loop fuel p s = Ret tt s' ∧ shows s' t.1 t.2 ∧ con_frame s s' ∧
    moved (Z.of_nat (length t.1) - Z.of_nat (length h)) s s' ∧ (length h <= length t.1)%nat.
Proof.
  induction text as [|ch text IH]; intros [|fuel] s h c p Hf HS HA HN Hd t; cbn [length] in *; [lia| |lia|];
    apply at_mem_cons in HA as [Hp HA]; cbn [scr_write_loop].
  - fs_run ltac:(apply on_cmem_Ret; unfold ldu; rewrite Hp; reflexivity). exists s. split; [by destruct s|].
    split_and!; [done..| |done]. rewrite Z.sub_diag. apply moved_0, (sh_win _ _ _ HS).
  - apply Forall_cons in HN as [Hch HN].
    fs_run ltac:(apply on_cmem_Ret; unfold ldu; rewrite Hp; reflexivity). rewrite (proj2 (Z.eqb_neq ch 0)) by done.
    replace (s <| cmem := cmem s |>) with s by (by destruct s).
    destruct (put_char_spec s h c ch HS (sh_bytes _ _ _ HS _ _ Hp)) as (s1&E1&S1&F1&D1).
    fs_run ltac:(exact E1). destruct (cf_tty _ _ F1) as (x&y&ET).
    assert (EX : max_x (t_win (tty s1)) = max_x (t_win (tty s))) by (by rewrite ET).
    assert (EY : max_y (t_win (tty s1)) = max_y (t_win (tty s))) by (by rewrite ET).
    assert (EA : w_attr (t_win (tty s1)) = w_attr (t_win (tty s))) by (by rewrite ET).
    assert (EP : pitch (t_win (tty s1)) = pitch (t_win (tty s))) by (unfold pitch; by rewrite EX).
    assert (Hlen : (length h <= length (layout (max_x (t_win (tty s))) (w_attr (t_win (tty s))) (h, c) ch).1)%nat).
    { unfold layout. destruct (_ || _ || _), (iscntrl ch); cbn; rewrite ?length_app; lia. }
    destruct (IH fuel s1 _ _ (p + 1) ltac:(lia) S1) as (s2&E2&S2&F2&D2&L2); [|done| |].
    { intros i Hi. rewrite (cf_mem _ _ F1); [by apply HA|]. rewrite length_app in Hi. cbn in Hi. lia. }
    { rewrite (cf_vga _ _ F1), EP, EY. lia. }
    rewrite EX, EA, <- surjective_pairing in S2, D2, L2.
    exists s2. split_and!; [exact E2|exact S2|by etrans| |change (foldl _ (layout _ _ _ _) text) with t in L2; lia].
    replace (Z.of_nat (length t.1) - Z.of_nat (length h)) with
      (Z.of_nat (length (layout (max_x (t_win (tty s))) (w_attr (t_win (tty s))) (h, c) ch).1) - Z.of_nat (length h) +
       (Z.of_nat (length t.1) - Z.of_nat (length (layout (max_x (t_win (tty s))) (w_attr (t_win (tty s))) (h, c) ch).1))) by lia.
    eapply moved_trans; [exact F1|lia| |exact D1|exact D2]. change (foldl _ (layout _ _ _ _) text) with t in L2. lia.
Qed.

(** C38. [scr_write] writes a string of any length: the screen then shows the last lines of the text, folded
    at the width of the screen, down to the line of the cursor; no memory outside the screen is
    changed, and the cursor is put after the last character. *)
Theorem scr_write_shows s h c p text :
  shows s h c → at_mem (cmem s) p (text ++ [0]) → Forall (λ b, b ≠ 0) text →
  p + Z.of_nat (length text) < vga s ∨ vga s + pitch (t_win (tty s)) * max_y (t_win (tty s)) <= p →
  let w := t_win (tty s) in
  let t := foldl (layout (max_x w) (w_attr w)) (h, c) text in
  ∃ s', scr_write p s = Ret tt s' ∧ shows s' t.1 t.2 ∧
    current_y (t_win (tty s')) = Z.min (max_y w - 1) (current_y w + (Z.of_nat (length t.1) - Z.of_nat (length h))) ∧
    (∀ q, ¬ vga s <= q < vga s + pitch w * max_y w → cmem s' !! q = cmem s !! q) ∧
    con_out s' = con_out s ++ [ev_cursor (u16 (current_y (t_win (tty s')) * 80 + (Z.of_nat (length t.2) + 1)))].
Proof.
  intros HS HA HN Hd w t. destruct (scr_write_loop_spec text (str_fuel (cmem s)) s h c p) as (s1&E&S1&F1&D1&_); [|done..|].
  { apply at_mem_size in HA. rewrite length_app in HA. cbn in HA. unfold str_fuel. lia. }
  fold w in D1, F1. fold t in S1, D1.
  exists (s1 <| con_out ::= (.++ [ev_cursor (u16 (current_y (t_win (tty s1)) * 80 + (Z.of_nat (length t.2) + 1)))]) |>).
  split_and!; [|by destruct S1|done|exact (cf_mem _ _ F1)|cbn; by rewrite (cf_out _ _ F1)].
  unfold scr_write. rewrite (bind_Ret _ _ _ _ _ (eq_refl : gets _ s = Ret _ _)). fs_run ltac:(exact E).
  rewrite (bind_Ret _ _ _ _ _ (eq_refl : get_w _ = Ret _ _)). by rewrite (sh_x _ _ _ S1).
Qed.

(** *** Scrolling reads a line below the screen *)

(** [f] faults or leaves the byte at [p] unmapped. *)
Definition keeps_hole {A} (p : Z) (f : B A) : Prop :=
  ∀ m, m !! p = None → f m = Fault ∨ ∃ a m', f m = Ret a m' ∧ m' !! p = None.
Lemma hole_bind {A E} p (f : B A) (k : A → B E) : keeps_hole p f → (∀ a, keeps_hole p (k a)) → keeps_hole p (x ← f; k x).
Proof.
  intros Hf Hk m Hm. unfold mbind, M_bind. destruct (Hf m Hm) as [->|(a&m'&->&Hm')]; [by left|]. by apply Hk.
Qed.
Lemma hole_ret {A} p (a : A) : keeps_hole p (mret a).
Proof. intros m Hm. right. by exists a, m. Qed.
Lemma hole_lds p q : keeps_hole p (lds q).
Proof.
  unfold lds. apply hole_bind; [|intros; apply hole_ret]. intros m Hm. unfold ldu. destruct (m !! q); [right; eauto|by left].
Qed.
Lemma hole_stb p q v : keeps_hole p (stb q v).
Proof.
  intros m Hm. unfold stb. destruct (m !! q) eqn:E; [right|by left]. eexists _, _. split; [done|]. rewrite lookup_insert_ne; congruence.
Qed.
Lemma hole_copy p n : ∀ d q, keeps_hole p (copy_up n d q).
Proof.
  induction n as [|n IH]; intros d q; [apply hole_ret|]. cbn [copy_up]. eauto using @hole_bind, hole_lds, hole_stb.
Qed.
Lemma hole_fill p n c : ∀ q, keeps_hole p (fill n q c).
Proof. induction n as [|n IH]; intros q; [apply hole_ret|]. cbn [fill]. eauto using @hole_bind, hole_stb. Qed.
Lemma copy_up_fault n : ∀ d q k m, (k < n)%nat → m !! (q + Z.of_nat k) = None → copy_up n d q m = Fault.
Proof.
  induction n as [|n IH]; intros d q k m Hk Hm; [lia|]. cbn [copy_up]. unfold mbind, M_bind.
  destruct (hole_lds _ q m Hm) as [->|(b&m1&E1&_)]; [done|]. rewrite E1.
  assert (m1 = m ∧ is_Some (m !! q)) as [-> Hq].
  { unfold lds, ldu, mbind, M_bind in E1. destruct (m !! q); [|done]. by injection E1 as _ ->. }
  destruct (hole_stb _ d b m Hm) as [->|([]&m2&E2&Hm2)]; [done|]. rewrite E2.
  destruct k as [|k]; [rewrite Z.add_0_r in Hm; destruct Hq; congruence|].
  apply (IH _ _ k); [lia|]. by replace (q + 1 + Z.of_nat k) with (q + Z.of_nat (S k)) by lia.
Qed.
Lemma scroll_loop_fault P k : 0 <= k < P → ∀ n up m,
  m !! (up + Z.of_nat (S n) * P + k) = None → scroll_loop (S n) up (up + P) P m = Fault.
Proof.
  intros Hk. induction n as [|n IH]; intros up m Hm;
    match goal with |- scroll_loop (S ?n) _ _ _ _ = _ =>
      change (scroll_loop (S n) up (up + P) P) with (memmove up (up + P) P;; scroll_loop n (up + P) (up + P + P) P) end;
    unfold memmove at 1; rewrite (proj2 (Z.leb_le up (up + P))), bind_assoc by lia; unfold mbind at 1, M_bind at 1.
  - rewrite (copy_up_fault _ up (up + P) (Z.to_nat k)); [done|lia|]. rewrite <- Hm. f_equal. lia.
  - destruct (hole_copy _ (Z.to_nat P) up (up + P) m Hm) as [->|([]&m1&->&Hm1)]; [done|].
    apply (IH (up + P) m1). rewrite <- Hm1. f_equal. lia.
Qed.
(** When a byte of the line below the screen is not mapped, [scroll] faults.  [vga_init] maps 2000
    bytes, one page; the screen has 4000 bytes and the line below it ends after the page. *)
Lemma scroll_faults s k :
  let w := t_win (tty s) in
  0 < max_y w → 0 <= k < pitch w → cmem s !! (vga s + max_y w * pitch w + k) = None → scroll s = Fault.
Proof.
  intros w HY Hk Hm. unfold scroll, get_w. rewrite (bind_Ret _ _ _ _ _ (eq_refl : gets _ s = Ret _ _)). fold w.
  rewrite (bind_Ret _ _ _ _ _ (eq_refl : gets vga s = Ret _ _)). fold (pitch w).
  assert (E : (memset (vga s) 0 (pitch w);; scroll_loop (Z.to_nat (max_y w)) (vga s) (vga s + pitch w) (pitch w)) (cmem s) = Fault).
  { unfold memset. rewrite bind_assoc. unfold mbind at 1, M_bind at 1.
    destruct (hole_fill _ (Z.to_nat (pitch w)) 0 (vga s) (cmem s) Hm) as [->|([]&m1&->&Hm1)]; [done|].
    replace (Z.to_nat (max_y w)) with (S (Z.to_nat (max_y w - 1))) by lia.
    apply (scroll_loop_fault (pitch w) k Hk). rewrite <- Hm1. do 4 f_equal. lia. }
  unfold mbind at 1, M_bind at 1, on_cmem. rewrite <- bind_assoc. unfold mbind at 1, M_bind at 1. by rewrite E.
Qed.

End Screen.

(** ** What is typed is read *)
Section Typing.

Fixpoint read_keys (l : list Z) : C unit :=
  match l with [] => mret tt | ch :: l => read_key ch;; read_keys l end.
(** The entry [i] of [c_cc]. *)
Definition cc_of (s : con) (i : nat) : Z := nth i (c_cc (t_termios (tty s))) 0.
Definition canonical (s : con) : Prop :=
  has (c_lflag (t_termios (tty s))) ICANON = true ∧ length (c_cc (t_termios (tty s))) = NCCS.
(** A character that does not edit the line. *)
Definition no_edit (s : con) (ch : Z) : Prop := ch ≠ 0 ∧ ch ≠ cc_of s VKILL ∧ ch ≠ cc_of s VERASE.
Definition ends_line (s : con) (ch : Z) : Prop := ch = cc_of s VEOL ∨ ch = cc_of s VEOF.
Definition typed_char (s : con) (ch : Z) : Prop := no_edit s ch ∧ ¬ ends_line s ch ∧ 0 <= ch < 2 ^ 8.

Lemma cc_Ret s i : length (c_cc (t_termios (tty s))) = NCCS → (i < NCCS)%nat → cc i s = Ret (cc_of s i) s.
Proof.
  intros Hl Hi. unfold cc. rewrite (bind_Ret _ _ _ _ _ (eq_refl : gets tty s = Ret _ _)). rewrite bool_decide_true by done.
  unfold cc_of. by rewrite byte_at_lookup by lia.
Qed.
(** The signal keys only send signals. *)
Lemma signal_key_spec s ch : length (c_cc (t_termios (tty s))) = NCCS →
  ∃ out, signal_key ch s = Ret tt (s <| con_out := out |>).
Proof.
  intros Hl. unfold signal_key. rewrite (bind_Ret _ _ _ _ _ (eq_refl : gets tty s = Ret _ _)).
  assert (HR : ∃ out, (mret tt : C unit) s = Ret tt (s <| con_out := out |>)) by (exists (con_out s); by destruct s).
  fs_run ltac:(apply cc_Ret; [done|unfold VINTR, NCCS; lia]). split_if; [by eexists|].
  fs_run ltac:(apply cc_Ret; [done|unfold VQUIT, NCCS; lia]). split_if; [by eexists|].
  fs_run ltac:(apply cc_Ret; [done|unfold VSTART, NCCS; lia]). split_if; [done|].
  fs_run ltac:(apply cc_Ret; [done|unfold VSTOP, NCCS; lia]). split_if; [done|].
  fs_run ltac:(unfold cc; rewrite (bind_Ret _ _ _ _ _ (eq_refl : gets tty s = Ret _ _)); reflexivity). split_if; [by eexists|done].
Qed.

Definition queue_after (s : con) (ch : Z) : termqueue → termqueue := λ q,
  if bool_decide (ends_line s ch) then q <| q_flag := FLAG_BREAK |> <| q_thread := 0 |>
  else q <| queue ::= <[Z.to_nat (q_end q) := ch]> |> <| q_end ::= Z.succ |> <| q_thread := 0 |>.
Lemma read_key_spec s ch :
  canonical s → no_edit s ch → 0 <= q_end (t_input (tty s)) → (¬ ends_line s ch → q_end (t_input (tty s)) < Z.of_nat (length (queue (t_input (tty s))))) →
  ∃ out, read_key ch s = Ret tt (s <| con_out := out |> <| tty ::= λ t, t <| t_input ::= queue_after s ch |> |>).
Proof.
  intros [HI Hl] (Hn&Hk&He) H0 Hroom. unfold read_key. rewrite (bind_Ret _ _ _ _ _ (eq_refl : gets _ s = Ret _ _)).
  assert (H1 : ∃ out, ((if has (c_lflag (t_termios (tty s))) ISIG then signal_key ch else mret tt) : C unit) s = Ret tt (s <| con_out := out |>)).
  { split_if; [by apply signal_key_spec|]. exists (con_out s). by destruct s. }
  destruct H1 as (out&E1). rewrite (bind_Ret _ _ _ _ _ E1). rewrite HI. set (s1 := s <| con_out := out |>).
  unfold edit_key. rewrite bind_assoc. fs_run ltac:(apply (cc_Ret s1); [done|unfold VKILL, NCCS; lia]).
  change (cc_of s1) with (cc_of s). rewrite (proj2 (Z.eqb_neq _ _) Hk), bind_assoc.
  fs_run ltac:(apply (cc_Ret s1); [done|unfold VERASE, NCCS; lia]). change (cc_of s1) with (cc_of s). rewrite (proj2 (Z.eqb_neq _ _) He).
  rewrite (bind_Ret _ _ _ _ _ (eq_refl : (mret false : C bool) s1 = Ret _ _)). rewrite (proj2 (Z.eqb_neq _ _) Hn). cbn [orb].
  fs_run ltac:(apply (cc_Ret s1); [done|unfold VEOL, NCCS; lia]). fs_run ltac:(apply (cc_Ret s1); [done|unfold VEOF, NCCS; lia]).
  change (cc_of s1) with (cc_of s).
  assert (EB : (ch =? cc_of s VEOL) || (ch =? cc_of s VEOF) = bool_decide (ends_line s ch)).
  { unfold ends_line. destruct (Z.eqb_spec ch (cc_of s VEOL)), (Z.eqb_spec ch (cc_of s VEOF)); symmetry;
      (apply bool_decide_true; tauto) || (apply bool_decide_false; tauto). }
  rewrite EB. set (q1 := if bool_decide (ends_line s ch) then (t_input (tty s)) <| q_flag := FLAG_BREAK |>
    else (t_input (tty s)) <| queue ::= <[Z.to_nat (q_end (t_input (tty s))) := ch]> |> <| q_end ::= Z.succ |>).
  assert (E2 : ((if bool_decide (ends_line s ch) then upd_q (λ q, q <| q_flag := FLAG_BREAK |>) else put_queue ch) : C unit) s1 =
    Ret tt (s1 <| tty ::= λ t, t <| t_input := q1 |> |>)).
  { unfold q1. destruct (bool_decide_reflect (ends_line s ch)) as [|Hne]; [done|]. unfold put_queue.
    rewrite (bind_Ret _ _ _ _ _ (eq_refl : get_q s1 = Ret _ _)). change (t_input (tty s1)) with (t_input (tty s)).
    rewrite (proj2 (Z.leb_le _ _) H0), (proj2 (Z.ltb_lt _ _) (Hroom Hne)). done. }
  rewrite (bind_Ret _ _ _ _ _ E2). unfold wake_reader. rewrite (bind_Ret _ _ _ _ _ (eq_refl : get_q _ = Ret _ _)).
  set (s2 := s1 <| tty ::= _ |>). change (t_input (tty s2)) with q1.
  assert (E3 : ∃ out, ((if q_thread q1 =? 0 then mret tt else emit (ev_wake (q_thread q1))) : C unit) s2 = Ret tt (s2 <| con_out := out |>)).
  { split_if; [by exists out|by eexists]. }
  destruct E3 as (out2&E3). rewrite (bind_Ret _ _ _ _ _ E3). exists out2. unfold upd_q, modify, queue_after, s2, s1, q1.
  destruct s as [[? [] ? ?] ? ? ?]. by destruct (bool_decide _).
Qed.

(** [w] was added to the characters in the queue; nothing but the queue changed. *)
Record queued_up (w : list Z) (s s' : con) : Prop := {
  qu_con : ∃ q out, s' = s <| con_out := out |> <| tty ::= λ t, t <| t_input := q |> |>;
  qu_end : q_end (t_input (tty s')) = q_end (t_input (tty s)) + Z.of_nat (length w);
  qu_queue : queue (t_input (tty s')) = take (Z.to_nat (q_end (t_input (tty s)))) (queue (t_input (tty s))) ++ w ++
    drop (Z.to_nat (q_end (t_input (tty s))) + length w) (queue (t_input (tty s)));
  qu_flag : q_flag (t_input (tty s')) = q_flag (t_input (tty s)) }.
Lemma read_keys_spec w : ∀ s,
  canonical s → Forall (typed_char s) w → 0 <= q_end (t_input (tty s)) →
  q_end (t_input (tty s)) + Z.of_nat (length w) <= Z.of_nat (length (queue (t_input (tty s)))) →
  ∃ s', read_keys w s = Ret tt s' ∧ queued_up w s s'.
Proof.
  induction w as [|ch w IH]; intros s HC HT H0 Hroom; cbn [length] in Hroom.
  { exists s. split; [done|]. split; cbn; [|lia| |done].
    - exists (t_input (tty s)), (con_out s). by destruct s as [[] ? ? ?].
    - by rewrite Nat.add_0_r, take_drop. }
  apply Forall_cons in HT as [(HN&HE&Hch) HT].
  destruct (read_key_spec s ch HC HN H0) as (out&E1); [lia|]. unfold queue_after in E1. rewrite bool_decide_false in E1 by done.
  set (s1 := s <| con_out := out |> <| tty ::= _ |>) in E1. set (n := Z.to_nat (q_end (t_input (tty s)))).
  assert (Eq1 : queue (t_input (tty s1)) = <[n := ch]> (queue (t_input (tty s)))) by reflexivity.
  assert (Ee1 : q_end (t_input (tty s1)) = q_end (t_input (tty s)) + 1) by reflexivity.
  destruct (IH s1) as (s2&E2&[(q&out2&Es) Qe Qq Qf]); [exact HC|exact HT|lia|rewrite Eq1, length_insert; lia|].
  exists s2. split; [cbn [read_keys]; by rewrite (bind_Ret _ _ _ _ _ E1)|].
  split.
  - exists q, out2. rewrite Es. done.
  - rewrite Qe, Ee1. cbn [length]. lia.
  - rewrite Qq, Eq1, Ee1. replace (Z.to_nat (q_end (t_input (tty s)) + 1)) with (S n) by (unfold n; lia). fold n.
    assert (Hn : (n < length (queue (t_input (tty s))))%nat) by (unfold n; lia).
    rewrite (take_S_r _ _ ch) by (by apply list_lookup_insert_eq). rewrite take_insert_ge, drop_insert_lt by lia.
    rewrite <- app_assoc. cbn [app length]. do 3 f_equal. f_equal. lia.
  - rewrite Qf. done.
Qed.

(** A read of more bytes than the queue has, when a line is complete. *)
Lemma icanon_break s self buf n :
  let q := t_input (tty s) in
  q_flag q = FLAG_BREAK → 0 <= q_end q < n → n <= Z.of_nat (length (queue q)) → Z.of_nat (length (queue q)) < 2 ^ 32 →
  all_bytes (queue q) → mapped (cmem s) buf n →
  ∃ out, icanon_read self buf n s = Ret (inr (q_end q))
    (s <| con_out := out |> <| cmem ::= put buf (take (Z.to_nat n) (queue q)) |>
       <| tty ::= λ t, t <| t_input ::= λ q, q <| q_flag := 0 |> <| q_end := 0 |> |> |>).
Proof.
  intros q HF He Hn Hlen HB HM. unfold icanon_read. rewrite (bind_Ret _ _ _ _ _ (eq_refl : get_q s = Ret _ _)). fold q.
  rewrite u32_id by lia. rewrite (proj2 (Z.ltb_lt _ _)) by lia.
  rewrite (bind_Ret _ _ _ _ _ (eq_refl : get_w s = Ret _ _)). rewrite (bind_Ret _ _ _ _ _ (eq_refl : update_cursor _ _ s = Ret _ _)).
  rewrite HF, Z.eqb_refl. rewrite (bind_Ret _ _ _ _ _ (eq_refl : upd_q _ _ = Ret _ _)).
  set (s1 := _ <| tty ::= _ |>). assert (Eq : queue (t_input (tty s1)) = queue q) by reflexivity.
  assert (E : copy_queue buf n s1 = Ret tt (s1 <| cmem := put buf (take (Z.to_nat n) (queue q)) (cmem s) |>)).
  { unfold copy_queue. rewrite (bind_Ret _ _ _ _ _ (eq_refl : get_q s1 = Ret _ _)), Eq, (proj2 (Z.leb_le _ _) Hn).
    apply on_cmem_Ret, store_list_put; [by apply Forall_take|]. rewrite length_take. by replace (Z.of_nat (_ `min` _)) with n by lia. }
  rewrite (bind_Ret _ _ _ _ _ E). eexists. unfold mbind, M_bind, get_q, gets, upd_q, modify, mret, M_ret. f_equal.
Qed.

Lemma read_keys_app w k : ∀ s, read_keys (w ++ k) s = (read_keys w;; read_keys k) s.
Proof.
  induction w as [|x w IH]; intros s; [done|]. cbn [app read_keys]. rewrite bind_assoc.
  unfold mbind, M_bind in *. destruct (read_key x s); [apply IH|done..].
Qed.

(** C37. A line typed in canonical mode and ended with the end-of-line character is what the next read of
    more bytes returns, with its length, and the queue is empty again; the rest of the caller's buffer is
    filled with what the queue held before. *)
Theorem typed_line_read s w eol self buf size :
  canonical s → q_end (t_input (tty s)) = 0 → length (queue (t_input (tty s))) = MAX_INPUT → all_bytes (queue (t_input (tty s))) →
  Forall (typed_char s) w → no_edit s eol → ends_line s eol →
  Z.of_nat (length w) < size <= Z.of_nat MAX_INPUT → mapped (cmem s) buf size →
  ∃ s1 s2, read_keys (w ++ [eol]) s = Ret tt s1 ∧ icanon_read self buf size s1 = Ret (inr (Z.of_nat (length w))) s2 ∧
    q_end (t_input (tty s2)) = 0 ∧ q_flag (t_input (tty s2)) = 0 ∧
    cmem s2 = put buf (w ++ drop (length w) (take (Z.to_nat size) (queue (t_input (tty s))))) (cmem s).
Proof.
  intros HC He Hq Hb HT HN HL Hs HM. unfold MAX_INPUT in *.
  destruct (read_keys_spec w s HC HT) as (s0&E0&[(q&out&Es) Qe Qq Qf]); [lia..|]. rewrite He in Qe, Qq. cbn in Qq.
  assert (Hcc : cc_of s0 = cc_of s) by (by rewrite Es).
  destruct (read_key_spec s0 eol) as (out1&E1).
  { by rewrite Es. }
  { unfold no_edit. by rewrite Hcc. }
  { rewrite Qe. lia. }
  { unfold ends_line. rewrite Hcc. intros []. exact HL. }
  unfold queue_after in E1. rewrite bool_decide_true in E1 by (unfold ends_line; by rewrite Hcc).
  set (s1 := s0 <| con_out := out1 |> <| tty ::= _ |>) in E1.
  assert (Eq1 : queue (t_input (tty s1)) = w ++ drop (length w) (queue (t_input (tty s)))) by exact Qq.
  assert (Ee1 : q_end (t_input (tty s1)) = Z.of_nat (length w)) by (change (q_end (t_input (tty s1))) with (q_end (t_input (tty s0))); lia).
  assert (El : length (w ++ drop (length w) (queue (t_input (tty s)))) = 512%nat) by (rewrite length_app, length_drop; lia).
  assert (Em : cmem s1 = cmem s) by (change (cmem s1) with (cmem s0); by rewrite Es).
  destruct (icanon_break s1 self buf size) as (out2&E2); rewrite ?Eq1, ?El; [done|lia|lia|lia| |by rewrite Em|].
  { apply Forall_app. split; [|by apply Forall_drop]. eapply Forall_impl; [exact HT|]. intros x (_&_&Hx). exact Hx. }
  rewrite Ee1, Eq1 in E2. eexists s1, _. split_and!; [|exact E2|done|done|].
  - rewrite read_keys_app, (bind_Ret _ _ _ _ _ E0). cbn [read_keys]. by rewrite (bind_Ret _ _ _ _ _ E1).
  - change (put buf (take (Z.to_nat size) (w ++ drop (length w) (queue (t_input (tty s))))) (cmem s1) =
      put buf (w ++ drop (length w) (take (Z.to_nat size) (queue (t_input (tty s))))) (cmem s)).
    rewrite Em, take_app_ge, skipn_firstn_comm by lia. done.
Qed.

(** The conditions of the editing keys are joined with [||]: unless the characters that end a line and
    a file are the same, ERASE and KILL leave the queue as it is. *)
Lemma not_eol_always s :
  length (c_cc (t_termios (tty s))) = NCCS → 0 <= q_end (t_input (tty s)) < Z.of_nat (length (queue (t_input (tty s)))) →
  cc_of s VEOL ≠ cc_of s VEOF → not_eol s = Ret true s.
Proof.
  intros Hl He Hne. unfold not_eol. rewrite (bind_Ret _ _ _ _ _ (eq_refl : get_q s = Ret _ _)).
  destruct (lookup_lt_is_Some_2 (queue (t_input (tty s))) (Z.to_nat (q_end (t_input (tty s)))) ltac:(lia)) as [x Ex].
  fs_run ltac:(unfold q_at; rewrite (bind_Ret _ _ _ _ _ (eq_refl : get_q s = Ret _ _)), (proj2 (Z.ltb_ge _ _)), Ex by lia; reflexivity).
  fs_run ltac:(apply cc_Ret; [done|unfold VEOL, NCCS; lia]). fs_run ltac:(apply cc_Ret; [done|unfold VEOF, NCCS; lia]).
  destruct (Z.eqb_spec x (cc_of s VEOL)) as [->|]; [|done]. by rewrite (proj2 (Z.eqb_neq _ _) Hne).
Qed.
Lemma edit_keys_ignored s n :
  length (c_cc (t_termios (tty s))) = NCCS → 0 <= q_end (t_input (tty s)) < Z.of_nat (length (queue (t_input (tty s)))) →
  cc_of s VEOL ≠ cc_of s VEOF → process_verase s = Ret tt s ∧ process_vkill (S n) s = Ret tt s.
Proof.
  intros Hl He Hne. pose proof (not_eol_always s Hl He Hne) as E. split.
  - unfold process_verase. by rewrite (bind_Ret _ _ _ _ _ E).
  - cbn [process_vkill]. rewrite (bind_Ret _ _ _ _ _ (eq_refl : get_q s = Ret _ _)). split_if; [done|]. by rewrite (bind_Ret _ _ _ _ _ E).
Qed.

(** The keys of letters give the small letter, and the capital with shift or caps lock or both. *)
Lemma letter_case q sc : have_caps_effect sc = true →
  ∃ a, table_code1 !! Z.to_nat (effects q sc - 1) = Some a ∧ table_code1 !! Z.to_nat (sc - 1) = Some (tolower a) ∧
    isupper a = has (keyflag q) KEYSTAT_SHIFT || has (keyflag q) KEYSTAT_CAPS.
Proof.
  intros Hsc. assert (Hr : sc ∈ seqZ 16 35).
  { apply elem_of_seqZ. unfold have_caps_effect, within in Hsc. lia. }
  assert (HK : ∀ b1 b2 b3, forallb (λ sc, implb (have_caps_effect sc)
    (match table_code1 !! Z.to_nat (shifted b1 b2 b3 sc - 1), table_code1 !! Z.to_nat (sc - 1) with
     | Some a, Some c => (tolower a =? c) && Bool.eqb (isupper a) (b1 || b2) | _, _ => false end)) (seqZ 16 35) = true)
    by (intros [] [] []; vm_compute; reflexivity).
  unfold effects. specialize (HK (has (keyflag q) KEYSTAT_SHIFT) (has (keyflag q) KEYSTAT_CAPS) (has (keyflag q) KEYSTAT_NLOCK)).
  rewrite forallb_forall in HK. specialize (HK sc ltac:(by apply list_elem_of_In)). rewrite Hsc in HK. cbn [implb] in HK.
  destruct (_ !! _) as [a|]; [|done]. destruct (_ !! _) as [c|]; [|done].
  apply andb_true_iff in HK as [<-%Z.eqb_eq HU%eqb_prop]. by exists a.
Qed.
End Typing.

(** ** Instances of the theorems *)
Definition demo_con (m : bytes) : con :=
  mk_con (mk_terminal (mk_termios 0 0 0 ICANON [0; 255; 10; 8; 3; 21; 0; 28; 17; 19])
    (mk_termqueue (replicate 512 0) 0 0 0 0 0 0) (mk_winattr 8 8 80 25 0x14) 0) m 0xB8000 [].
(** The screen is cleared and the cursor where [console_init] puts it; the text is "Hi", a new line and "$". *)
Lemma scr_write_shows_witness :
  ∃ s', scr_write 100 (demo_con (put 100 [72; 105; 10; 36; 0] (zeros 0xB8000 4160))) = Ret tt s' ∧
    shows s' (replicate 8 [] ++ [replicate 8 (0, 0) ++ [(72, 0x14); (105, 0x14)]]) [(36, 0x14)] ∧ current_y (t_win (tty s')) = 9.
Proof.
  set (m := put 100 [72; 105; 10; 36; 0] (zeros 0xB8000 4160)).
  assert (HA : at_mem m 100 [72; 105; 10; 36; 0]) by apply at_mem_put.
  assert (HB : holds_bytes m) by (apply put_holds; [repeat constructor; lia|apply zeros_bytes]).
  assert (HZ : ∀ x, 0xB8000 <= x < 0xB8000 + 4160 → m !! x = Some 0).
  { intros x Hx. unfold m. rewrite lookup_put, decide_False, zeros_lookup, decide_True by (cbn; lia). done. }
  clearbody m. destruct (scr_write_shows (demo_con m) (replicate 8 []) (replicate 8 (0, 0)) 100 [72; 105; 10; 36]) as (s'&E&HS&Ey&_).
  - split.
    + change (t_win _) with (mk_winattr 8 8 80 25 0x14). unfold in_screen. cbn. lia.
    + done.
    + cbn. lia.
    + apply Forall_replicate. cbn. lia.
    + intros i Hi. change (pitch _ * _) with 4160 in Hi. change (vga _) with 0xB8000. change (cmem _) with m. by rewrite HZ by lia.
    + exact HB.
    + intros r l Hr Hl. change (current_y _) with 8 in Hr, Hl. change (length (replicate 8 _) - Z.to_nat 8 + r)%nat with r in Hl.
      change (vga _) with 0xB8000. change (cmem _) with m. change (pitch _) with 160.
      destruct (decide (r < 8)%nat) as [H8|H8].
      * rewrite lookup_app_l, lookup_replicate in Hl by done. destruct Hl as [-> _]. apply at_mem_nil.
      * rewrite lookup_app_r in Hl by (cbn; lia). apply list_lookup_singleton_Some in Hl as [Hr8 <-].
        intros i Hi. rewrite HZ; [|cbn in Hi, Hr8; lia].
        symmetry. change (cells _) with (replicate 16 0) in *. apply lookup_replicate_2. done.
  - exact HA.
  - repeat constructor; lia.
  - left. cbn. lia.
  - exists s'. split; [exact E|]. split; [exact HS|]. rewrite Ey. reflexivity.
Defined.

(** "ls" and return. *)
Lemma typed_line_read_witness :
  ∃ s1 s2, read_keys [108; 115; 10] (demo_con (zeros 1000 64)) = Ret tt s1 ∧ icanon_read 7 1000 64 s1 = Ret (inr 2) s2 ∧
    cmem s2 = put 1000 ([108; 115] ++ replicate 62 0) (zeros 1000 64).
Proof.
  destruct (typed_line_read (demo_con (zeros 1000 64)) [108; 115] 10 7 1000 64) as (s1&s2&E1&E2&_&_&Em).
  - done.
  - done.
  - done.
  - apply Forall_replicate. lia.
  - repeat apply Forall_cons_2; [..|apply Forall_nil_2]; cbv [typed_char no_edit ends_line cc_of VKILL VERASE VEOL VEOF]; cbn; lia.
  - cbv [no_edit cc_of VKILL VERASE]. cbn. lia.
  - by left.
  - unfold MAX_INPUT. cbn [length]. lia.
  - intros i Hi. change (cmem _) with (zeros 1000 64). by rewrite zeros_lookup, decide_True by lia.
  - exists s1, s2. exact (conj E1 (conj E2 Em)).
Defined.
