(* ===== verification/Printf.v ===== *)
(** * Formatted output of the C library

    Models soft/libc/ansi/stdio/printf.c and scanf.c, whose [vsscanf] is a copy of
    [vsnprintf] with a size of four.  The arguments of a variadic call are the list
    of their 32-bit words; reading more than there are faults.  The macros PUTCH and
    PUTSTR leave the routine with [goto Done] when the buffer is full; [P] is the
    monad of code that can do so, over the output pointer and the bytes left.

    The arithmetic of the floating point coprocessor is a parameter, the record
    [fpu] of the operations the conversion f uses; the conversion itself is translated.

    The theorems: the routine ends, no memory outside the buffer is written but through an argument,
    and the result is terminated; and a number is printed by its digits. *)

From S2P Require Import Prelude LibcString FsState.

(** ** Output *)
Record out := mk_out { o_p : Z; o_size : Z }.
#[global] Instance eta_out : Settable out := λ x, mk_out (o_p x) (o_size x).
Definition P (A : Type) : Type := out → B (option A * out).
#[global] Instance P_ret : MRet P := λ A a o, mret (Some a, o).
#[global] Instance P_bind : MBind P := λ A E k f o,
  r ← f o; match r with (Some a, o) => k a o | (None, o) => mret (None, o) end.
(** A step that does not print. *)
Definition lift {A} (f : B A) : P A := λ o, a ← f; mret (Some a, o).

Definition PUTCH (ch : Z) : P unit := λ o,
  if o_size o <=? 0 then mret (None, o <| o_size ::= λ n, u32 (n - 1) |>)
  else stb (o_p o) ch;; mret (Some tt, mk_out (o_p o + 1) (o_size o - 1)).
Fixpoint PUTSTR (l : list Z) : P unit :=
  match l with [] => mret tt | c :: l => PUTCH c;; PUTSTR l end.
Definition pad (n : Z) (c : Z) : P unit := PUTSTR (replicate (Z.to_nat n) c).

(** ** Conversion specifications *)
Record spec := mk_spec {
  f_left : bool; f_sign : bool; f_space : bool; f_zero : bool; f_alternate : bool;
  width : Z; precision : Z }.
#[global] Instance eta_spec : Settable spec := λ x,
  mk_spec (f_left x) (f_sign x) (f_space x) (f_zero x) (f_alternate x) (width x) (precision x).
(** Characters *)
Definition NUL : Z := 0.
Definition SPACE : Z := 32.
Definition HASH : Z := 35.
Definition PERCENT : Z := 37.
Definition ASTERISK : Z := 42.
Definition PLUS : Z := 43.
Definition MINUS : Z := 45.
Definition POINT : Z := 46.
Definition ZERO : Z := 48.
Definition is_digit (c : Z) : bool := (48 <=? c) && (c <=? 57).

Fixpoint parse_flags (fuel : nat) (fmt : Z) (f : spec) : B (Z * spec) :=
  match fuel with
  | O => spin
  | S fuel =>
      c ← lds fmt;
      if c =? MINUS then parse_flags fuel (fmt + 1) (f <| f_left := true |>)
      else if c =? PLUS then parse_flags fuel (fmt + 1) (f <| f_sign := true |>)
      else if c =? SPACE then parse_flags fuel (fmt + 1) (f <| f_space := true |>)
      else if c =? ZERO then parse_flags fuel (fmt + 1) (f <| f_zero := true |>)
      else if c =? HASH then parse_flags fuel (fmt + 1) (f <| f_alternate := true |>)
      else mret (fmt, f)
  end.
Fixpoint parse_number (fuel : nat) (fmt n : Z) : B (Z * Z) :=
  match fuel with
  | O => spin
  | S fuel =>
      c ← lds fmt;
      if is_digit c then parse_number fuel (fmt + 1) (s32 (s32 (n * 10) + (c - ZERO))) else mret (fmt, n)
  end.
(** [va_arg] *)
Definition va_arg (args : list Z) : B (Z * list Z) :=
  match args with a :: args => mret (a, args) | [] => fault end.
(** A width or a precision at [fmt]: [*], digits or nothing. *)
Definition parse_field (fuel : nat) (fmt : Z) (args : list Z) : B (Z * Z * list Z) :=
  c ← lds fmt;
  if c =? ASTERISK then r ← va_arg args; mret (s32 r.1, fmt + 1, r.2)
  else if is_digit c then r ← parse_number fuel fmt 0; mret (r.2, r.1, args)
  else mret (-1, fmt, args).
(** The length modifiers h, l and L; all arguments are words. *)
Definition parse_length (fmt : Z) : B Z :=
  c ← lds fmt; mret (if (c =? 104) || (c =? 108) || (c =? 76) then fmt + 1 else fmt).
(** Flags, width, precision and modifier of a conversion. *)
Definition parse_spec (fuel : nat) (fmt : Z) (args : list Z) : B (spec * Z * list Z) :=
  r ← parse_flags fuel fmt (mk_spec false false false false false (-1) (-1));
  let '(fmt, f) := r in
  r ← parse_field fuel fmt args;
  let '(w, fmt, args) := r in
  c ← lds fmt;
  r ← (if c =? POINT then parse_field fuel (fmt + 1) args else mret (-1, fmt, args));
  let '(p, fmt, args) := r in
  fmt ← parse_length fmt;
  mret (f <| width := w |> <| precision := p |>, fmt, args).

(** ** Numbers *)
Definition lower_digits : list Z := [48; 49; 50; 51; 52; 53; 54; 55; 56; 57; 97; 98; 99; 100; 101; 102].
Definition upper_digits : list Z := [48; 49; 50; 51; 52; 53; 54; 55; 56; 57; 65; 66; 67; 68; 69; 70].
(** The digits in [convert], the last one first. *)
Fixpoint convert (fuel : nat) (digits : list Z) (base uval : Z) : list Z :=
  match fuel with
  | O => []
  | S fuel =>
      nth (Z.to_nat (uval mod base)) digits 0 ::
      (if 0 <? uval / base then convert fuel digits base (uval / base) else [])
  end.
Definition sign_char (sign : bool) (f : spec) (uval : Z) : Z :=
  if negb sign then 0
  else if f_sign f && (0 <=? s32 uval) then PLUS
  else if f_space f && (0 <=? s32 uval) then SPACE
  else if s32 uval <? 0 then MINUS else 0.
(** [LEFTPAD] and [RIGHTPAD] *)
Definition LEFTPAD (f : spec) (n : Z) : P unit := if f_left f then mret tt else pad n (if f_zero f then ZERO else SPACE).
Definition RIGHTPAD (f : spec) (n : Z) : P unit := if f_left f then pad n SPACE else mret tt.
(** From the label Print_signed; the answer is the new value of [numpr]. *)
Definition print_number (f : spec) (sign : bool) (base : Z) (digits : list Z) (uval : Z) : P Z :=
  let signch := sign_char sign f uval in
  let uval := if signch =? MINUS then u32 (- s32 uval) else uval in
  let num := convert 32 digits base uval in
  let numdigits := Z.of_nat (length num) in
  let numpr := Z.max numdigits (precision f) in
  let numpr := if signch =? 0 then numpr else numpr + 1 in
  let numpr := if f_alternate f then
                 if base =? 8 then numpr + 1 else if (base =? 16) || (base =? 2) then numpr + 2 else numpr
               else numpr in
  let wide := negb (f_left f) && (numpr <? width f) in
  let numpr' := if wide && f_zero f then width f else numpr in
  (if wide && negb (f_zero f) then pad (width f - numpr) SPACE else mret tt);;
  (if signch =? 0 then mret tt else PUTCH signch);;
  let numpr := if signch =? 0 then numpr' else numpr' - 1 in
  (if f_alternate f then
     if base =? 2 then PUTCH PERCENT else if base =? 8 then PUTCH ZERO
     else if base =? 16 then PUTSTR [ZERO; 120] else mret tt
   else mret tt);;
  let numpr := if f_alternate f then
                 if (base =? 2) || (base =? 8) then numpr - 1 else if base =? 16 then numpr - 2 else numpr
               else numpr in
  pad (numpr - numdigits) ZERO;;
  PUTSTR (rev num);;
  RIGHTPAD f (width f - numpr - (if signch =? 0 then 0 else 1));;
  mret numpr.

(** ** Strings *)
Fixpoint put_string (fuel : nat) (s : Z) (precision : option Z) : P unit :=
  match fuel with
  | O => lift spin
  | S fuel =>
      if match precision with Some p => p <=? 0 | None => false end then mret tt
      else
        c ← lift (lds s);
        if c =? 0 then mret tt else PUTCH c;; put_string fuel (s + 1) (Z.pred <$> precision)
  end.
Definition null_text : list Z := [40; 110; 117; 108; 108; 41].
(** [numpr] is what the conversion before left in it. *)
Definition print_string (fuel : nat) (f : spec) (numpr string : Z) : P Z :=
  if string =? 0 then PUTSTR null_text;; mret numpr
  else
    numpr ← (if 0 <? width f then
               n ← lift (strlen string);
               let n := if (0 <=? precision f) && (precision f <? n) then precision f else n in
               LEFTPAD f (width f - n);; mret n
             else mret numpr);
    put_string fuel string (if 0 <=? precision f then Some (precision f) else None);;
    RIGHTPAD f (width f - numpr);;
    mret numpr.

(** [*(va_arg( ap, int * )) = p - str] *)
Definition store_count (str a : Z) : P unit := λ o, lift (store_list a (of_le32 (u32 (o_p o - str)))) o.

(** ** Floating point numbers *)
Record fpu := mk_fpu {
  fp : Type;
  fp_of : Z → Z → fp;              (** the double of two words *)
  fp_ge0 : fp → bool;              (** [fval >= 0.0] *)
  fp_lt0 : fp → bool;              (** [fval < 0.0] *)
  fp_ge1 : fp → bool;              (** [fval >= 1.0] *)
  fp_neg : fp → fp;
  fp_trunc : fp → Z;               (** [(unsigned long) fval] *)
  fp_sub_trunc : fp → fp;          (** [fval - (double) (unsigned long) fval] *)
  fp_times10 : fp → fp }.

Section Double.
Variable U : fpu.

(** [while ( fval >= 1.0 )] *)
Fixpoint fraction (fuel : nat) (fval : fp U) : B (fp U) :=
  match fuel with
  | O => spin
  | S fuel => if fp_ge1 U fval then fraction fuel (fp_sub_trunc U fval) else mret fval
  end.
(** [while ( precision-- > 0 )] *)
Fixpoint put_fraction (n : nat) (fval : fp U) : P unit :=
  match n with
  | O => mret tt
  | S n => let fval := fp_times10 U fval in
           PUTCH (ZERO + fp_trunc U fval);; put_fraction n (fp_sub_trunc U fval)
  end.
Definition print_double (fuel : nat) (f : spec) (fval : fp U) : P Z :=
  let prec := if precision f =? -1 then 6 else precision f in
  let signch := if f_sign f && fp_ge0 U fval then PLUS
                else if f_space f && fp_ge0 U fval then SPACE
                else if fp_lt0 U fval then MINUS else 0 in
  let fval := if signch =? MINUS then fp_neg U fval else fval in
  let num := convert 32 lower_digits 10 (fp_trunc U fval) in
  let numpr := Z.of_nat (length num) + (if signch =? 0 then 0 else 1) in
  let numpr := if 0 <? prec then numpr + (1 + prec) else numpr in
  LEFTPAD f (width f - numpr);;
  (if signch =? 0 then mret tt else PUTCH signch);;
  PUTSTR (rev num);;
  (if 0 <? prec then
     fval ← lift (fraction fuel fval);
     PUTCH POINT;; put_fraction (Z.to_nat prec) fval
   else mret tt);;
  RIGHTPAD f (width f - numpr);;
  mret numpr.
End Double.

(** ** The loop *)
Section Format.
Variable U : fpu.

(** The conversion [c]; the answer is [numpr] and the arguments left. *)
Definition conversion (fuel : nat) (str : Z) (f : spec) (c numpr : Z) (args : list Z) : P (Z * list Z) :=
  let number := λ f sign base digits, r ← lift (va_arg args); n ← print_number f sign base digits r.1; mret (n, r.2) in
  if c =? 98 then number f false 2 lower_digits
  else if c =? 111 then number f false 8 lower_digits
  else if c =? 112 then number (f <| precision := 8 |> <| width := 8 |> <| f_alternate := true |>) false 16 lower_digits
  else if c =? 120 then number f false 16 lower_digits
  else if c =? 88 then number f false 16 upper_digits
  else if (c =? 100) || (c =? 105) then number f true 10 lower_digits
  else if c =? 117 then number f false 10 lower_digits
  else if c =? 102 then
    r ← lift (va_arg args); r' ← lift (va_arg r.2);
    n ← print_double U fuel f (fp_of U r.1 r'.1); mret (n, r'.2)
  else if c =? 115 then
    r ← lift (va_arg args); n ← print_string fuel f numpr r.1; mret (n, r.2)
  else if c =? 99 then r ← lift (va_arg args); PUTCH r.1;; mret (numpr, r.2)
  else if c =? PERCENT then PUTCH PERCENT;; mret (numpr, args)
  else if c =? 110 then
    r ← lift (va_arg args);
    store_count str r.1;; mret (numpr, r.2)
  else PUTCH PERCENT;; PUTCH c;; mret (numpr, args).

(** [while ( (c = *fmt++) != '%' )]: the answer is the address after the percent sign.  The test of
    the size comes before that of the end of the format. *)
Fixpoint copy_plain (fuel : nat) (fmt : Z) : P Z := λ o,
  match fuel with
  | O => spin
  | S fuel =>
      c ← lds fmt;
      if c =? PERCENT then mret (Some (fmt + 1), o)
      else
        let o' := o <| o_size ::= λ n, u32 (n - 1) |> in
        if (o_size o <=? 0) || (c =? 0) then mret (None, o')
        else stb (o_p o) c;; copy_plain fuel (fmt + 1) (o' <| o_p ::= Z.succ |>)
  end.
Fixpoint format_loop (n fuel : nat) (str fmt numpr : Z) (args : list Z) : P unit := λ o,
  match n with
  | O => spin
  | S n =>
      if 0 <? o_size o then
        (fmt ← copy_plain fuel fmt;
         r ← lift (parse_spec fuel fmt args);
         let '(f, fmt, args) := r in
         c ← lift (lds fmt);
         r ← conversion fuel str f c numpr args;
         format_loop n fuel str (fmt + 1) r.1 r.2) o
      else mret (Some tt, o)
  end.
(** From the start of [vsnprintf] and of [vsscanf]; the size is that of the buffer. *)
Definition vformat (str size fmt : Z) (args : list Z) : B Z :=
  fuel ← gets str_fuel;
  let o := mk_out str (u32 (size - 1)) in
  r ← (if fmt =? 0 then PUTSTR [40; 110; 117; 108; 108; 32; 102; 109; 116; 32; 115; 116; 114; 105; 110; 103; 41] o
       else format_loop fuel fuel str fmt 0 args o);
  stb (o_p r.2) 0;;
  mret (o_p r.2 - str).
Definition vsnprintf (str size fmt : Z) (args : list Z) : B Z := vformat str size fmt args.
(** [sizeof(str)] is the size of a pointer. *)
Definition vsscanf (str fmt : Z) (args : list Z) : B Z := vformat str 4 fmt args.
(** The answer is undefined: there is no return statement. *)
Definition UINT_MAX : Z := 2 ^ 32 - 1.
Definition vsprintf (string fmt : Z) (args : list Z) : B unit := vsnprintf string UINT_MAX fmt args;; mret tt.

(** What is passed to [write], with the descriptor: [None] when nothing is. *)
Definition BUFSIZ : Z := 1024.
Definition to_write (done buf n : Z) : B (Z * option (list Z)) :=
  if 0 <? done then l ← ld_list (Z.to_nat n) buf; mret (done, Some l) else mret (done, None).
(** [outbuf] is the address of the local array.  The terminating byte is written too. *)
Definition printf (outbuf format : Z) (args : list Z) : B (Z * option (list Z)) :=
  if format =? 0 then mret (0, None)
  else done ← vsnprintf outbuf BUFSIZ format args; to_write done outbuf (done + 1).
(** To the standard output, whatever the file. *)
Definition fprintf (outbuf fmt : Z) (args : list Z) : B (Z * option (list Z)) :=
  if fmt =? 0 then mret (0, None)
  else done ← vsnprintf outbuf BUFSIZ fmt args; to_write done outbuf (done + 1).
(** The size is again that of a pointer, and the text is written to the standard output. *)
Definition snprintf (str fmt : Z) (args : list Z) : B (Z * option (list Z)) :=
  if fmt =? 0 then mret (0, None)
  else r ← vsnprintf str 4 fmt args; to_write r str r.
End Format.

(** What is passed to [write] is a descriptor and bytes; [p] is the address of the local array, which has
    one byte: the NUL is stored behind it. *)
Definition STDOUT_FILENO : Z := 1.
Definition putc (p k fd : Z) : B (Z * (Z * list Z)) :=
  stb p k;; stb (p + 1) 0;; l ← ld_list 1 p; mret (0, (fd, l)).
(** The terminating byte is written before the newline. *)
Definition puts (p str : Z) : B (Z * list (Z * list Z)) :=
  len ← strlen str;
  l ← ld_list (Z.to_nat (len + 1)) str;
  r ← putc p 10 STDOUT_FILENO;
  mret (len, [(STDOUT_FILENO, l); r.2]).
Definition putchar (p c : Z) : B (Z * (Z * list Z)) := r ← putc p c STDOUT_FILENO; mret (c, r.2).

(** ** Numbers are printed by their digits *)
Definition digit_of (c : Z) : Z := if c <? 58 then c - 48 else c - 87.
Definition value (base : Z) (l : list Z) : Z := foldl (λ n c, n * base + digit_of c) 0 l.
Definition digit (base c : Z) : Prop := (48 <= c <= 57 ∨ 97 <= c <= 102) ∧ digit_of c < base.
(** [l] is [n] written in [base], without leading zeros. *)
Definition numeral (base : Z) (l : list Z) (n : Z) : Prop :=
  value base l = n ∧ Forall (digit base) l ∧ (l = [ZERO] ∨ ∃ c k, l = c :: k ∧ c ≠ ZERO).

Lemma digit_nth i : 0 <= i < 16 →
  let c := nth (Z.to_nat i) lower_digits 0 in digit_of c = i ∧ (48 <= c <= 57 ∨ 97 <= c <= 102) ∧ (c = ZERO → i = 0).
Proof.
  intros Hi. assert (Hin : i ∈ [0; 1; 2; 3; 4; 5; 6; 7; 8; 9; 10; 11; 12; 13; 14; 15]) by (rewrite !elem_of_cons; lia).
  repeat (apply elem_of_cons in Hin as [->|Hin]; [cbv -[Z.le Z.lt]; lia|]). by apply elem_of_nil in Hin.
Qed.
Lemma value_snoc base l c : value base (l ++ [c]) = value base l * base + digit_of c.
Proof. unfold value. by rewrite foldl_app. Qed.

Section Convert.
Variable base : Z.
Hypothesis Hbase : 2 <= base <= 16.
Lemma convert_digit n : 0 <= n → let c := nth (Z.to_nat (n mod base)) lower_digits 0 in
  digit_of c = n mod base ∧ digit base c ∧ (c = ZERO → n mod base = 0).
Proof.
  intros Hn. pose proof (Z.mod_pos_bound n base ltac:(lia)) as Hm.
  destruct (digit_nth (n mod base)) as (E&Hr&Hz); [lia|]. split; [done|]. split; [|done]. split; [done|]. lia.
Qed.
Lemma convert_numeral fuel : ∀ n, 0 <= n < base ^ Z.of_nat fuel → (0 < fuel)%nat →
  numeral base (rev (convert fuel lower_digits base n)) n.
Proof.
  induction fuel as [|fuel IH]; intros n Hn Hf; [lia|]. cbn [convert rev].
  destruct (convert_digit n) as (Ed&Hd&Hz); [lia|]. set (c := nth _ lower_digits 0) in *.
  pose proof (Z.div_mod n base ltac:(lia)) as EM. pose proof (Z.div_pos n base ltac:(lia) ltac:(lia)) as HP.
  destruct (Z.ltb_spec 0 (n / base)) as [Hq|Hq].
  - assert (Hlt : n / base < base ^ Z.of_nat fuel).
    { apply Z.div_lt_upper_bound; [lia|]. rewrite <- Z.pow_succ_r by lia. replace (Z.succ (Z.of_nat fuel)) with (Z.of_nat (S fuel)) by lia. lia. }
    destruct (IH (n / base)) as (HV&HD&HL); [lia|destruct fuel; [cbn in Hlt; lia|lia]|].
    split; [rewrite value_snoc, HV, Ed; lia|]. split; [apply Forall_app; split; [done|by apply Forall_singleton]|].
    right. destruct HL as [HL|(x&k&HL&Hx)].
    + rewrite HL in HV. change (value base [ZERO]) with 0 in HV. lia.
    + exists x, (k ++ [c]). split; [by rewrite HL|done].
  - cbn [rev app]. split; [unfold value; cbn [foldl]; lia|]. split; [by apply Forall_singleton|].
    destruct (decide (c = ZERO)) as [->|Hc]; [by left|]. right. by exists c, [].
Qed.
Lemma convert_length fuel : ∀ (k : nat) n, 0 <= n < base ^ Z.of_nat k → (0 < k)%nat → (length (convert fuel lower_digits base n) <= k)%nat.
Proof.
  induction fuel as [|fuel IH]; intros [|k] n Hn Hk; cbn [convert length]; [lia..|].
  destruct (Z.ltb_spec 0 (n / base)) as [Hq|]; [|cbn; lia].
  assert (Hlt : n / base < base ^ Z.of_nat k).
  { apply Z.div_lt_upper_bound; [lia|]. rewrite <- Z.pow_succ_r by lia. replace (Z.succ (Z.of_nat k)) with (Z.of_nat (S k)) by lia. lia. }
  specialize (IH k (n / base)). destruct k; [cbn in Hlt; lia|]. lia.
Qed.
End Convert.
Lemma digit_byte base c : digit base c → 0 <= c < 2 ^ 8.
Proof. unfold digit. lia. Qed.

(** ** Formats and the text they print *)
Inductive item :=
| Lit (c : Z)
| Int (n : Z)
| Uns (n : Z)
| Hex (n : Z)
| Str (a : Z) (l : list Z)
| Chr (c : Z)
| Pct.
(** The part of the format, the argument, and the text an item stands for. *)
Definition encode (i : item) : list Z :=
  match i with
  | Lit c => [c] | Int _ => [PERCENT; 100] | Uns _ => [PERCENT; 117] | Hex _ => [PERCENT; 120]
  | Str _ _ => [PERCENT; 115] | Chr _ => [PERCENT; 99] | Pct => [PERCENT; PERCENT]
  end.
Definition arg (i : item) : list Z :=
  match i with Lit _ | Pct => [] | Int n => [u32 n] | Uns n | Hex n => [n] | Str a _ => [a] | Chr c => [c] end.
Definition renders_item (i : item) (t : list Z) : Prop :=
  match i with
  | Lit c | Chr c => t = [c]
  | Int n => ∃ d, numeral 10 d (Z.abs n) ∧ t = (if n <? 0 then [MINUS] else []) ++ d
  | Uns n => numeral 10 t n
  | Hex n => numeral 16 t n
  | Str _ l => t = l
  | Pct => t = [PERCENT]
  end.
Fixpoint renders (its : list item) (t : list Z) : Prop :=
  match its with [] => t = [] | i :: its => ∃ a b, t = a ++ b ∧ renders_item i a ∧ renders its b end.
Fixpoint format (its : list item) : list Z := match its with [] => [] | i :: its => encode i ++ format its end.
Fixpoint args (its : list item) : list Z := match its with [] => [] | i :: its => arg i ++ args its end.
(** The items of a format, with a buffer from [lo] to [hi]. *)
Definition item_ok (m : bytes) (lo hi : Z) (i : item) : Prop :=
  match i with
  | Lit c => 0 < c < 2 ^ 8 ∧ c ≠ PERCENT
  | Int n => - 2 ^ 31 <= n < 2 ^ 31
  | Uns n | Hex n => 0 <= n < 2 ^ 32
  | Str a l => a ≠ 0 ∧ at_mem m a (l ++ [0]) ∧ Forall (λ b, 0 < b < 2 ^ 8) l ∧ (a + Z.of_nat (length l) < lo ∨ hi <= a)
  | Chr c => 0 <= c < 2 ^ 8
  | Pct => True
  end.
Definition plain_spec : spec := mk_spec false false false false false (-1) (-1).

Section Renders.

Lemma P_Some {A E} (f : P A) (k : A → P E) a o o' m m' :
  f o m = Ret (Some a, o') m' → (x ← f; k x) o m = k a o' m'.
Proof. intros H. unfold mbind, P_bind. by rewrite (bind_Ret _ _ _ _ _ H). Qed.
Lemma P_None {A E} (f : P A) (k : A → P E) o o' m m' :
  f o m = Ret (None, o') m' → (x ← f; k x) o m = Ret (None, o') m'.
Proof. intros H. unfold mbind, P_bind. by rewrite (bind_Ret _ _ _ _ _ H). Qed.
Lemma P_tt (f : P unit) o m : (f;; mret tt) o m = f o m.
Proof. unfold mbind, P_bind, mbind, M_bind. by destruct (f o m) as [[[[]|] ?] ?| | |]. Qed.
Lemma P_lift {A} (f : B A) a o m m' : f m = Ret a m' → lift f o m = Ret (Some a, o) m'.
Proof. intros H. unfold lift. by rewrite (bind_Ret _ _ _ _ _ H). Qed.

(** [f] prints [t] and answers [a], or as much of [t] as there is room for and leaves the routine. *)
Definition writes {A} (o : out) (m : bytes) (t : list Z) (a : A) (f : P A) : Prop :=
  if Z.of_nat (length t) <=? o_size o then
    f o m = Ret (Some a, mk_out (o_p o + length t) (o_size o - length t)) (put (o_p o) t m)
  else ∃ z, f o m = Ret (None, mk_out (o_p o + o_size o) z) (put (o_p o) (take (Z.to_nat (o_size o)) t) m).
Definition buffer (o : out) (m : bytes) : Prop := 0 <= o_size o ∧ mapped m (o_p o) (o_size o).

Lemma writes_nil {A} o m (a : A) f : buffer o m → f o m = Ret (Some a, o) m → writes o m [] a f.
Proof.
  intros [Hs _] E. unfold writes. rewrite (proj2 (Z.leb_le _ _)) by (cbn; lia). cbn [length put].
  rewrite Z.add_0_r, Z.sub_0_r, E. by destruct o.
Qed.
Lemma writes_ret {A} o m (a : A) : buffer o m → writes o m [] a (mret a).
Proof. intros. by apply writes_nil. Qed.
Lemma buffer_put o m t : buffer o m → Z.of_nat (length t) <= o_size o →
  buffer (mk_out (o_p o + length t) (o_size o - length t)) (put (o_p o) t m).
Proof.
  intros [Hs HM] Ht. split; cbn [o_p o_size]; [lia|]. apply put_mapped. intros j Hj. rewrite <- Z.add_assoc. apply HM. lia.
Qed.
Lemma writes_bind {A E} o m t t' (a : A) (b : E) f k :
  buffer o m → writes o m t a f →
  (Z.of_nat (length t) <= o_size o →
   writes (mk_out (o_p o + length t) (o_size o - length t)) (put (o_p o) t m) t' b (k a)) →
  writes o m (t ++ t') b (x ← f; k x).
Proof.
  intros [Hs _] Hf Hk. unfold writes in *. rewrite length_app. destruct (Z.leb_spec (Z.of_nat (length t)) (o_size o)) as [Ht|Ht].
  - specialize (Hk Ht). rewrite (P_Some _ _ _ _ _ _ _ Hf). cbn [o_p o_size] in Hk.
    destruct (Z.leb_spec (Z.of_nat (length t')) (o_size o - Z.of_nat (length t))).
    + rewrite (proj2 (Z.leb_le _ _)), Hk, put_app by lia. do 3 f_equal; lia.
    + rewrite (proj2 (Z.leb_gt _ _)) by lia. destruct Hk as [z Hk]. exists z. rewrite Hk.
      rewrite take_app_ge, put_app by lia. do 3 f_equal; [lia|]. do 2 f_equal. lia.
  - rewrite (proj2 (Z.leb_gt _ _)) by lia. destruct Hf as [z Hf]. exists z.
    rewrite (P_None _ _ _ _ _ _ Hf). by rewrite take_app_le by lia.
Qed.
Lemma writes_then {A E} o m t (a : A) (b : E) f k :
  buffer o m → writes o m t a f → (∀ o' m', buffer o' m' → writes o' m' [] b (k a)) → writes o m t b (x ← f; k x).
Proof.
  intros HB Hf Hk. rewrite <- (app_nil_r t). eapply writes_bind; [done|exact Hf|]. intros Ht. apply Hk. by apply buffer_put.
Qed.
Lemma writes_after {A E} o m t (a : A) (b : E) f k :
  buffer o m → f o m = Ret (Some a, o) m → writes o m t b (k a) → writes o m t b (x ← f; k x).
Proof. intros HB Hf Hk. unfold writes in *. by rewrite (P_Some _ _ _ _ _ _ _ Hf). Qed.
Lemma writes_PUTCH o m v c : buffer o m → u8 v = c → writes o m [c] tt (PUTCH v).
Proof.
  intros [Hs HM] <-. unfold writes, PUTCH. cbn [length]. destruct (Z.leb_spec (Z.of_nat 1) (o_size o)) as [H1|H1].
  - rewrite (proj2 (Z.leb_gt (o_size o) 0)) by lia. destruct (HM 0 ltac:(lia)) as [b Eb]. rewrite Z.add_0_r in Eb.
    unfold stb, mbind, M_bind. by rewrite Eb.
  - rewrite (proj2 (Z.leb_le (o_size o) 0)) by lia. assert (o_size o = 0) as E by lia. exists (u32 (o_size o - 1)). rewrite E, Z.add_0_r.
    cbn. unfold setf. by rewrite E.
Qed.
Lemma writes_PUTSTR l : ∀ o m, buffer o m → all_bytes l → writes o m l tt (PUTSTR l).
Proof.
  induction l as [|c l IH]; intros o m HB HL; cbn [PUTSTR]; [by apply writes_ret|]. apply Forall_cons in HL as [Hc HL].
  eapply (writes_bind o m [c]); [done|apply writes_PUTCH; [done|by apply Z.mod_small]|]. intros. apply IH; [|done]. by apply (buffer_put o m [c]).
Qed.

(** Without flags, width and precision a number is its sign and its digits. *)
Lemma print_number_plain sign base u o m :
  let neg := sign && (s32 u <? 0) in
  let d := rev (convert 32 lower_digits base (if neg then u32 (- s32 u) else u)) in
  let t := (if neg then [MINUS] else []) ++ d in
  buffer o m → all_bytes t → ∃ n, writes o m t n (print_number plain_spec sign base lower_digits u).
Proof.
  intros neg d t HM HB. unfold print_number.
  assert (ES : sign_char sign plain_spec u = if neg then MINUS else 0).
  { unfold sign_char, neg. cbn. destruct sign; [|done]. cbn. done. }
  rewrite ES. cbn [f_left f_zero f_alternate width precision plain_spec negb andb].
  assert (HM0 : ∀ x, Z.max (Z.of_nat (length x)) (-1) = Z.of_nat (length (x : list Z))) by (intros; lia). rewrite !HM0.
  assert (EN : (if (if neg then MINUS else 0) =? MINUS then u32 (- s32 u) else u) = if neg then u32 (- s32 u) else u) by (by destruct neg).
  rewrite EN. set (num := convert 32 lower_digits base _) in *.
  assert (Ew : (if (if neg then MINUS else 0) =? 0 then Z.of_nat (length num) else Z.of_nat (length num) + 1) <? -1 = false)
    by (apply Z.ltb_ge; destruct neg; cbn; lia). rewrite Ew. cbn [andb].
  eexists. apply (writes_after _ _ _ tt); [done..|]. unfold t in *. apply Forall_app in HB as [HB1 HB2].
  apply (writes_bind _ _ (if neg then [MINUS] else []) _ tt); [done| |].
  { destruct neg; [by apply writes_PUTCH|by apply writes_ret]. }
  intros Ht. pose proof (buffer_put _ _ _ HM Ht) as HM'.
  apply (writes_after _ _ _ tt); [done..|].
  replace ((if (if neg then MINUS else 0) =? 0 then _ else _) - Z.of_nat (length num)) with 0 by (destruct neg; cbn; lia).
  apply (writes_after _ _ _ tt); [done..|].
  apply (writes_then _ _ _ tt); [done|by apply writes_PUTSTR|]. intros o' m' HB'. by apply writes_nil.
Qed.
Lemma put_string_writes l : ∀ fuel s o m,
  (length l < fuel)%nat → at_mem m s (l ++ [0]) → Forall (λ b, 0 < b < 2 ^ 8) l → buffer o m →
  s + Z.of_nat (length l) < o_p o ∨ o_p o + o_size o <= s →
  writes o m l tt (put_string fuel s None).
Proof.
  induction l as [|c l IH]; intros [|fuel] s o m Hf HA HL HB Hd; cbn [length] in *; [lia| |lia|];
    apply at_mem_cons in HA as [Hc HA]; cbn [put_string];
    apply (writes_after _ _ _ _ _ _ _ HB (P_lift _ _ o _ _ (lds_Ret _ _ _ Hc))).
  - by apply writes_ret.
  - apply Forall_cons in HL as [Hb HL]. change 0 with (s8 0) at 1. rewrite s8_eqb, (proj2 (Z.eqb_neq c 0)) by lia.
    eapply (writes_bind o m [c]); [done|apply writes_PUTCH; [done|by apply byte_roundtrip; lia]|]. cbn [length]. intros Ht.
    cbn [fmap option_fmap option_map]. apply IH; [lia| |done|by apply (buffer_put o m [c])|cbn [o_p o_size]; lia].
    apply at_mem_put_ne; [|done]. rewrite length_app. cbn [length]. lia.
Qed.

Lemma parse_spec_plain fuel fmt args m c :
  m !! fmt = Some c → c ∈ [100; 117; 120; 115; 99; PERCENT] → (0 < fuel)%nat → parse_spec fuel fmt args m = Ret (plain_spec, fmt, args) m.
Proof.
  intros Hc Hin Hf. destruct fuel as [|fuel]; [lia|]. pose proof (lds_Ret _ _ _ Hc) as El.
  unfold parse_spec. cbn [parse_flags]. unfold parse_field, parse_length.
  repeat (apply elem_of_cons in Hin as [->|Hin];
    [match type of El with context [s8 ?a] => let v := eval vm_compute in (s8 a) in change (s8 a) with v in El end; unfold mbind, M_bind, mret, M_ret; repeat (rewrite El; cbn -[lds]); reflexivity|]).
  by apply elem_of_nil in Hin.
Qed.

(** The text of a number. *)
Lemma print_plain sign base u o m :
  (base = 10 ∨ base = 16) → 0 <= u < 2 ^ 32 → buffer o m →
  let neg := sign && (s32 u <? 0) in
  let v := if neg then u32 (- s32 u) else u in
  ∃ n d, numeral base d v ∧ all_bytes ((if neg then [MINUS] else []) ++ d) ∧
    writes o m ((if neg then [MINUS] else []) ++ d) n (print_number plain_spec sign base lower_digits u).
Proof.
  intros Hb Hu HM neg v. set (d := rev (convert 32 lower_digits base v)).
  assert (Hv : 0 <= v < 2 ^ 32) by (unfold v; destruct neg; [apply u32_range|done]).
  assert (HD : numeral base d v).
  { apply convert_numeral; [lia| |lia]. split; [lia|]. apply Z.lt_le_trans with (2 ^ 32); [lia|].
    apply (Z.pow_le_mono_l 2 base 32). lia. }
  assert (HB : all_bytes ((if neg then [MINUS] else []) ++ d)).
  { apply Forall_app. split; [destruct neg; repeat constructor; done|]. destruct HD as (_&HD&_).
    eapply Forall_impl; [exact HD|]. intros c Hc. by eapply digit_byte. }
  destruct (print_number_plain sign base u o m HM HB) as (n&E). exists n, d. by split_and!.
Qed.
Lemma s32_u32 n : - 2 ^ 31 <= n < 2 ^ 31 → s32 (u32 n) = n.
Proof. intros Hn. unfold s32, u32. rewrite Zplus_mod_idemp_l, Z.mod_small; lia. Qed.

Variable U : fpu.
Definition conv_char (i : item) : Z := nth 1 (encode i) 0.
Lemma conversion_item fuel str numpr i rest o m lo hi :
  item_ok m lo hi i → length (encode i) = 2%nat → lo <= o_p o → o_p o + o_size o < hi → buffer o m → (size m < fuel)%nat →
  ∃ t n, renders_item i t ∧ writes o m t (n, rest) (conversion U fuel str plain_spec (conv_char i) numpr (arg i ++ rest)).
Proof.
  intros HO HE Hlo Hhi HM Hf.
  assert (HV : ∀ A t (a : A) v l k, writes o m t a (k (v, l)) → writes o m t a (r ← lift (va_arg (v :: l)); k r)).
  { intros. by apply (writes_after _ _ _ (v, l)). }
  assert (HN : ∀ t n (f : P Z) (l : list Z), writes o m t n f → writes o m t (n, l) (n ← f; mret (n, l))).
  { intros. eapply writes_then; [done..|]. intros. by apply writes_ret. }
  assert (HC : ∀ (v c n : Z) (l : list Z), u8 v = c → writes o m [c] (n, l) (PUTCH v;; mret (n, l))).
  { intros. eapply writes_then; [done|by apply writes_PUTCH|]. intros. by apply writes_ret. }
  destruct i as [c|n|n|n|a l|c|]; cbn in HO, HE; [lia|..];
    unfold conversion; cbn [conv_char encode nth arg app]; cbn [Z.eqb orb Pos.eqb PERCENT].
  - destruct (print_plain true 10 (u32 n) o m) as (p&d&HD&_&E); [by left|apply u32_range|done|].
    rewrite s32_u32 in HD, E by done. cbn [andb] in HD, E.
    eexists _, p. split; [exists d; split; [|reflexivity]|apply HV, HN, E].
    replace (Z.abs n) with (if n <? 0 then u32 (- n) else u32 n); [done|]. destruct (Z.ltb_spec n 0); rewrite u32_id; lia.
  - destruct (print_plain false 10 n o m) as (p&d&HD&_&E); [by left|done..|]. exists d, p. split; [done|apply HV, HN, E].
  - destruct (print_plain false 16 n o m) as (p&d&HD&_&E); [by right|done..|]. exists d, p. split; [done|apply HV, HN, E].
  - destruct HO as (Ha&HA&HL&Hd). exists l, numpr. split; [done|]. apply HV, HN.
    unfold print_string. cbn [fst]. rewrite (proj2 (Z.eqb_neq a 0)) by done. cbn [width precision plain_spec Z.ltb Z.leb Z.compare].
    apply (writes_after _ _ _ numpr); [done..|]. apply (writes_then _ _ _ tt); [done| |].
    + apply put_string_writes; [|done..|lia]. apply at_mem_size in HA. rewrite length_app in HA. lia.
    + intros o' m' HB'. by apply writes_nil.
  - exists [c], numpr. split; [done|]. apply HV, HC. by apply Z.mod_small.
  - exists [PERCENT], numpr. split; [done|]. by apply HC.
Qed.

Lemma P_ext {A E} (f g : P A) (k : A → P E) o o' m m' : f o m = g o' m' → (x ← f; k x) o m = (x ← g; k x) o' m'.
Proof. intros H. unfold mbind, P_bind, mbind, M_bind. by rewrite H. Qed.
Definition body (n fuel cf : nat) (str fmt numpr : Z) (args : list Z) : P unit :=
  fmt ← copy_plain cf fmt;
  r ← lift (parse_spec fuel fmt args);
  let '(f, fmt, args) := r in
  c ← lift (lds fmt);
  r ← conversion U fuel str f c numpr args;
  format_loop U n fuel str (fmt + 1) r.1 r.2.
Lemma format_loop_body n fuel str fmt numpr args o m : 0 < o_size o →
  format_loop U (S n) fuel str fmt numpr args o m = body n fuel fuel str fmt numpr args o m.
Proof. intros Hs. cbn [format_loop]. by rewrite (proj2 (Z.ltb_lt _ _) Hs). Qed.
(** Plain characters are copied. *)
Lemma body_lit n fuel cf str fmt numpr args o m c :
  m !! fmt = Some c → 0 < c < 2 ^ 8 → c ≠ PERCENT → 0 < o_size o < 2 ^ 32 → is_Some (m !! o_p o) →
  body n fuel (S cf) str fmt numpr args o m = body n fuel cf str (fmt + 1) numpr args (mk_out (o_p o + 1) (o_size o - 1)) (<[o_p o := c]> m).
Proof.
  intros Hc Hb Hn Hs [b Eb]. apply P_ext. cbn [copy_plain].
  rewrite (bind_Ret _ _ _ _ _ (lds_Ret _ _ _ Hc)). change PERCENT with (s8 PERCENT). rewrite s8_eqb by (done || lia).
  rewrite (proj2 (Z.eqb_neq _ _) Hn). change 0 with (s8 0) at 2. rewrite s8_eqb, (proj2 (Z.eqb_neq c 0)), (proj2 (Z.leb_gt _ _)) by lia.
  cbn [orb]. unfold stb, mbind at 1, M_bind at 1. rewrite Eb, byte_roundtrip by lia.
  assert (Eo : o <| o_size ::= λ n, u32 (n - 1) |> <| o_p ::= Z.succ |> = mk_out (o_p o + 1) (o_size o - 1)).
  { unfold setf. cbn. by rewrite u32_id by lia. }
  by rewrite Eo.
Qed.
Lemma body_end n fuel cf str fmt numpr args o m :
  m !! fmt = Some 0 → body n fuel (S cf) str fmt numpr args o m = Ret (None, o <| o_size ::= λ n, u32 (n - 1) |>) m.
Proof.
  intros Hc. unfold body, mbind at 1, P_bind at 1. cbn [copy_plain]. rewrite bind_assoc.
  rewrite (bind_Ret _ _ _ _ _ (lds_Ret _ _ _ Hc)). change (s8 0) with 0. cbn [Z.eqb PERCENT]. by rewrite orb_true_r.
Qed.
Lemma body_conv n fuel cf str fmt numpr args o m c :
  m !! fmt = Some PERCENT → m !! (fmt + 1) = Some c → c ∈ [100; 117; 120; 115; 99; PERCENT] → (0 < fuel)%nat →
  body n fuel (S cf) str fmt numpr args o m =
    (r ← conversion U fuel str plain_spec c numpr args; format_loop U n fuel str (fmt + 2) r.1 r.2) o m.
Proof.
  intros Hp Hc Hin Hf. unfold body. erewrite P_Some.
  2:{ cbn [copy_plain]. rewrite (bind_Ret _ _ _ _ _ (lds_Ret _ _ _ Hp)). reflexivity. }
  erewrite P_Some by (apply P_lift; by eapply parse_spec_plain). cbv beta iota.
  erewrite P_Some by (apply P_lift; by apply lds_Ret).
  replace (s8 c) with c; [by replace (fmt + 1 + 1) with (fmt + 2) by lia|].
  repeat (apply elem_of_cons in Hin as [->|Hin]; [done|]). by apply elem_of_nil in Hin.
Qed.

Lemma body_full n fuel cf str fmt numpr args o m c :
  m !! fmt = Some c → 0 < c < 2 ^ 8 → c ≠ PERCENT → o_size o = 0 →
  body n fuel (S cf) str fmt numpr args o m = Ret (None, o <| o_size ::= λ n, u32 (n - 1) |>) m.
Proof.
  intros Hc Hb Hn Hs. unfold body, mbind at 1, P_bind at 1. cbn [copy_plain]. rewrite bind_assoc.
  rewrite (bind_Ret _ _ _ _ _ (lds_Ret _ _ _ Hc)). change PERCENT with (s8 PERCENT). rewrite s8_eqb by (done || lia).
  by rewrite (proj2 (Z.eqb_neq _ _) Hn), Hs.
Qed.
Lemma renders_ex m lo hi its : Forall (item_ok m lo hi) its → ∃ t, renders its t.
Proof.
  assert (HC : ∀ base n, base = 10 ∨ base = 16 → 0 <= n < 2 ^ 32 → ∃ d, numeral base d n).
  { intros base n Hb Hn. eexists. apply (convert_numeral base ltac:(lia) 32); [|lia]. split; [lia|].
    apply Z.lt_le_trans with (2 ^ 32); [lia|]. apply (Z.pow_le_mono_l 2 base 32). lia. }
  induction 1 as [|i its Hi _ [t IH]]; [by exists []|].
  assert (∃ a, renders_item i a) as [a Ha]; [|by exists (a ++ t), a, t].
  destruct i as [c|n|n|n|x l|c|]; cbn in *; eauto. destruct (HC 10 (Z.abs n)) as [d Hd]; eauto; lia.
Qed.
(** Writing to the buffer changes neither the format nor the strings. *)
Lemma put_keeps its m lo hi p t fmt l :
  Forall (item_ok m lo hi) its → at_mem m fmt l → lo <= p → p + Z.of_nat (length t) < hi → mapped m p (length t) →
  fmt + Z.of_nat (length l) <= lo ∨ hi <= fmt →
  Forall (item_ok (put p t m) lo hi) its ∧ at_mem (put p t m) fmt l ∧ base.size (put p t m) = base.size m.
Proof.
  intros HO HA Hlo Hhi HM Hd. split_and!.
  - eapply Forall_impl; [exact HO|]. intros [] Hx; cbn in *; try done. destruct Hx as (?&Hx&?&?). split_and!; try done.
    apply at_mem_put_ne; [|done]. rewrite length_app. cbn [length]. lia.
  - apply at_mem_put_ne; [lia|done].
  - rewrite <- !size_dom. f_equal. apply set_eq. intros q. rewrite !elem_of_dom, lookup_put. case_decide as Hq; [|done].
    split; intros _; [|apply lookup_lt_is_Some; lia]. replace q with (p + (q - p)) by lia. apply HM. lia.
Qed.
(** The loop leaves as much of [t] as fits. *)
Definition leaves (o : out) (m : bytes) (t : list Z) (f : P unit) : Prop :=
  ∃ r o', f o m = Ret (r, o') (put (o_p o) (take (Z.to_nat (o_size o)) t) m) ∧
    o_p o' = o_p o + Z.min (Z.of_nat (length t)) (o_size o).
Lemma leaves_app {A} o m t t' (a : A) f k : buffer o m → writes o m t a f →
  (Z.of_nat (length t) <= o_size o → leaves (mk_out (o_p o + length t) (o_size o - length t)) (put (o_p o) t m) t' (k a)) →
  leaves o m (t ++ t') (x ← f; k x).
Proof.
  intros [Hs _] Hf Hk. unfold writes, leaves in *. rewrite length_app. destruct (Z.leb_spec (Z.of_nat (length t)) (o_size o)) as [Ht|Ht].
  - destruct (Hk Ht) as (r&o'&E&Eo). cbn [o_p o_size] in *. exists r, o'. rewrite (P_Some _ _ _ _ _ _ _ Hf), E. split; [|lia].
    rewrite take_app_ge, put_app by lia. do 3 f_equal. lia.
  - destruct Hf as [z Hf]. exists None. eexists. rewrite (P_None _ _ _ _ _ _ Hf), take_app_le by lia. split; [done|]. cbn. lia.
Qed.

(** The rest of a format, from inside the buffer on. *)
Lemma body_spec its : ∀ n fuel cf str fmt numpr o m lo hi,
  at_mem m fmt (format its ++ [0]) → Forall (item_ok m lo hi) its →
  lo <= o_p o → o_p o + o_size o < hi → o_size o < 2 ^ 32 → buffer o m →
  fmt + Z.of_nat (length (format its)) < lo ∨ hi <= fmt →
  (length (format its) < cf)%nat → (base.size m < fuel)%nat → (length its < n)%nat →
  ∃ t, renders its t ∧ leaves o m t (body n fuel cf str fmt numpr (args its)).
Proof.
  induction its as [|i its IH]; intros n fuel [|cf] str fmt numpr o m lo hi HA HO Hlo Hhi Hs HM Hd Hcf Hf Hn; [lia| |lia|].
  { apply at_mem_cons in HA as [H0 _]. exists []. split; [done|]. exists None. eexists. rewrite take_nil, body_end by done.
    split; [done|]. destruct HM. cbn. lia. }
  destruct n as [|n]; [lia|]. pose proof HO as HO0. apply Forall_cons in HO as [Hi HO]. cbn [format args length] in *.
  rewrite length_app in Hcf, Hd. rewrite <- app_assoc in HA.
  destruct (renders_ex _ _ _ _ HO) as [t0 Ht0].
  assert (HW : ∀ t, Z.of_nat (length t) <= o_size o → Forall (item_ok (put (o_p o) t m) lo hi) its ∧
    at_mem (put (o_p o) t m) (fmt + length (encode i)) (format its ++ [0]) ∧ base.size (put (o_p o) t m) = base.size m).
  { intros t Ht. destruct HM as [_ HM]. apply put_keeps; [done|by apply at_mem_app in HA as [_ HA]|lia|lia|intros j Hj; apply HM; lia|].
    rewrite length_app. cbn [length]. lia. }
  destruct (decide (length (encode i) = 2%nat)) as [H2|H2].
  - destruct (conversion_item fuel str numpr i (args its) o m lo hi) as (t&p&HR&HWr); [done..|].
    assert (encode i = [PERCENT; conv_char i]) as Ei by (by destruct i).
    rewrite Ei in HA. cbn [app] in HA. apply at_mem_cons in HA as [Hp HA]. apply at_mem_cons in HA as [Hc _].
    assert (∃ t', renders its t' ∧ (Z.of_nat (length t) <= o_size o → leaves (mk_out (o_p o + length t) (o_size o - length t)) (put (o_p o) t m) t'
      (format_loop U (S n) fuel str (fmt + 2) p (args its)))) as (t'&HR'&HL).
    { destruct (Z.ltb_spec (Z.of_nat (length t)) (o_size o)) as [Hlt|Hge].
      - destruct (HW t ltac:(lia)) as (HO'&HA'&Hsz).
        destruct (IH n fuel fuel str (fmt + 2) p (mk_out (o_p o + length t) (o_size o - length t)) (put (o_p o) t m) lo hi) as (t'&HR'&r&o'&E&Eo);
          cbn [o_p o_size] in *; [by rewrite H2 in HA'|done|lia|lia|lia|apply buffer_put; [done|lia]|lia| |lia|lia|].
        { apply at_mem_size in HA'. rewrite length_app in HA'. lia. }
        exists t'. split; [done|]. intros _. exists r, o'. by rewrite format_loop_body by (cbn; lia).
      - exists t0. split; [done|]. intros Hle. exists (Some tt). eexists. cbn [format_loop o_p o_size].
        rewrite (proj2 (Z.ltb_ge _ _)) by lia. replace (o_size o - Z.of_nat (length t)) with 0 by lia. split; [done|]. cbn. lia. }
    exists (t ++ t'). split; [by exists t, t'|].
    assert (HL2 : leaves o m (t ++ t') (r ← conversion U fuel str plain_spec (conv_char i) numpr (arg i ++ args its);
      format_loop U (S n) fuel str (fmt + 2) r.1 r.2)) by (eapply leaves_app; [done|exact HWr|exact HL]).
    destruct HL2 as (r&o'&E&Eo). exists r, o'. split; [|done]. rewrite <- E. apply body_conv; [done|done| |lia].
    destruct i; try done; cbn; rewrite !elem_of_cons; lia.
  - destruct i as [c| | | | | |]; try done. cbn in Hi. destruct Hi as [Hc Hne]. cbn [encode app] in HA. apply at_mem_cons in HA as [H0 _].
    cbn [encode length] in *. destruct (Z.ltb_spec 0 (o_size o)) as [Hlt|Hge].
    + destruct (HW [c] ltac:(cbn; lia)) as (HO'&HA'&Hsz).
      destruct (IH (S n) fuel cf str (fmt + 1) numpr (mk_out (o_p o + 1) (o_size o - 1)) (put (o_p o) [c] m) lo hi) as (t'&HR'&r&o'&E&Eo);
        cbn [o_p o_size] in *; [done|done|lia|lia|lia|apply (buffer_put o m [c]); [done|cbn; lia]|lia|lia|lia|lia|].
      exists (c :: t'). split; [by exists [c], t'|]. exists r, o'. replace (Z.to_nat (o_size o)) with (S (Z.to_nat (o_size o - 1))) by lia.
      erewrite body_lit; [|done|lia|done|lia|]; [|rewrite <- (Z.add_0_r (o_p o)); apply HM; lia]. split; [exact E|cbn [length]; lia].
    + assert (o_size o = 0) as Hz by (destruct HM; lia). exists (c :: t0). split; [by exists [c], t0|]. exists None. eexists.
      rewrite (body_full _ _ _ _ _ _ _ _ _ c) by done. rewrite Hz. split; [done|]. cbn. lia.
Qed.
Lemma format_length its : (length its <= length (format its))%nat.
Proof. induction its as [|i its IH]; cbn; [done|]. rewrite length_app. destruct i; cbn; lia. Qed.

(** C6. [vsnprintf] of a format made of plain characters and of the conversions d, u, x, s, c and %%, into
    a buffer of any size, returns, stores the text the format stands for, cut to one byte less than the
    size, with a terminating NUL, changes no other byte and answers the length of what it stored;
    numbers are printed without leading zeros. *)
Theorem vsnprintf_renders its str size fmt m :
  at_mem m fmt (format its ++ [0]) → fmt ≠ 0 → Forall (item_ok m str (str + size)) its →
  1 <= size <= 2 ^ 32 → mapped m str size →
  fmt + Z.of_nat (length (format its)) < str ∨ str + size <= fmt →
  ∃ t, renders its t ∧ let stored := take (Z.to_nat (size - 1)) t in
    vsnprintf U str size fmt (args its) m = Ret (Z.of_nat (length stored)) (put str (stored ++ [0]) m).
Proof.
  intros HA Hn HO Hs HM Hd. pose proof (at_mem_size _ _ _ HA) as Hsz. rewrite length_app in Hsz. cbn [length] in Hsz.
  pose proof (format_length its) as Hlen. set (o := mk_out str (size - 1)).
  assert (∃ t, renders its t ∧ leaves o m t (format_loop U (S (base.size m)) (S (base.size m)) str fmt 0 (args its))) as (t&HR&r&o'&E&Eo).
  { destruct (decide (size = 1)) as [->|Hne].
    - destruct (renders_ex _ _ _ _ HO) as [t Ht]. exists t. split; [done|]. eexists _, _. split; [reflexivity|]. cbn. lia.
    - destruct (body_spec its (base.size m) (S (base.size m)) (S (base.size m)) str fmt 0 o m str (str + size)) as (t&HR&r&o'&E&Eo);
        [done|done|cbn; lia..| |done|lia|lia|lia|].
      { split; cbn; [lia|]. intros i Hi. apply HM. lia. }
      exists t. split; [done|]. exists r, o'. by rewrite format_loop_body by (cbn; lia). }
  exists t. split; [done|]. unfold vsnprintf, vformat. rewrite (bind_Ret _ _ _ _ _ (eq_refl : gets _ m = Ret _ _)).
  rewrite u32_id by lia. rewrite (proj2 (Z.eqb_neq fmt 0)) by done. fold o.
  erewrite bind_Ret by exact E. cbn [snd]. cbn [o_p o_size o] in *. set (u := take _ t). rewrite Eo.
  assert (length u = Z.to_nat (Z.min (Z.of_nat (length t)) (size - 1))) as Hu by (unfold u; rewrite length_take; lia).
  assert (Hm : is_Some (put str u m !! (str + Z.min (Z.of_nat (length t)) (size - 1)))).
  { apply put_mapped with (n := size); [done|]. lia. }
  destruct Hm as [b Eb]. unfold stb, mbind, M_bind. rewrite Eb. unfold mret, M_ret. f_equal; [lia|]. rewrite put_app. cbn [put].
  f_equal. lia.
Qed.
End Renders.

(** ** Only the buffer is written *)
Section Bounds.
Variables str size : Z.
Variable given : list Z.

(** [m'] is [m] but for the buffer and the words at the arguments. *)
Definition only (m m' : bytes) : Prop :=
  ∀ q, ¬ str <= q < str + size → (∀ a, a ∈ given → ¬ a <= q < a + 4) → m' !! q = m !! q.
#[local] Instance only_po : PreOrder only.
Proof. split; [by intros m q|]. intros m1 m2 m3 H1 H2 q Hq Ha. by rewrite H2, H1. Qed.
Definition inside (o : out) : Prop := str <= o_p o ∧ 0 <= o_size o ∧ o_p o + o_size o < str + size.
(** [f] leaves the output pointer in the buffer, with a byte for the NUL, and its result has [Q]. *)
Definition bounded {A} (Q : A → Prop) (f : P A) : Prop := ∀ o m r o' m', inside o → f o m = Ret (r, o') m' →
  only m m' ∧ str <= o_p o' < str + size ∧ ∀ a, r = Some a → inside o' ∧ Q a.
(** [f] reads. *)
Definition reads {A} (f : B A) : Prop := ∀ m a m', f m = Ret a m' → m' = m.

Lemma reads_ret {A} (a : A) : reads (mret a).
Proof. by intros m b m' [=]. Qed.
Lemma reads_bind {A E} (f : B A) (k : A → B E) : reads f → (∀ a, reads (k a)) → reads (x ← f; k x).
Proof. intros Hf Hk m a m' (b&m1&E1&E2)%bind_Ret_inv. apply Hf in E1 as ->. by eapply Hk. Qed.
Lemma reads_lds p : reads (lds p).
Proof.
  unfold lds. apply reads_bind; [|intros; apply reads_ret]. intros m a m'. unfold ldu. destruct (m !! p); [by intros [=]|done].
Qed.
Lemma reads_spin {A} : reads (spin : B A).
Proof. by intros m a m'. Qed.
Lemma reads_gets {A} (f : bytes → A) : reads (gets f).
Proof. by intros m a m' [=]. Qed.
Lemma reads_va_arg l : reads (va_arg l).
Proof. destruct l; [by intros m a m'|apply reads_ret]. Qed.
Hint Resolve @reads_ret reads_lds @reads_spin @reads_gets reads_va_arg : core.
Hint Extern 2 (reads (mbind _ _)) => apply reads_bind; [|intros] : core.
Hint Extern 2 (reads (if ?b then _ else _)) => destruct b : core.
Hint Extern 2 (reads (match ?b with (_, _) => _ end)) => destruct b : core.

Lemma reads_flags fuel : ∀ fmt f, reads (parse_flags fuel fmt f).
Proof. induction fuel; intros; cbn [parse_flags]; auto 20. Qed.
Lemma reads_number fuel : ∀ fmt n, reads (parse_number fuel fmt n).
Proof. induction fuel; intros; cbn [parse_number]; auto 20. Qed.
Hint Resolve reads_flags reads_number : core.
Lemma reads_spec fuel fmt l : reads (parse_spec fuel fmt l).
Proof. unfold parse_spec, parse_field, parse_length. auto 30. Qed.
Lemma reads_strlen s : reads (strlen s).
Proof.
  unfold strlen. apply reads_bind; [auto|]. intros fuel. apply reads_bind; [|auto]. revert s.
  induction fuel; intros; cbn [strlen_loop]; auto 20.
Qed.
Hint Resolve reads_spec reads_strlen : core.

Lemma bounded_ret {A} (Q : A → Prop) a : Q a → bounded Q (mret a).
Proof. intros HQ o m r o' m' HI [= <- <- <-]. unfold inside in *. split; [done|]. split; [lia|]. by intros ? [= <-]. Qed.
Lemma bounded_bind {A E} (Q : A → Prop) (R : E → Prop) (f : P A) (k : A → P E) :
  bounded Q f → (∀ a, Q a → bounded R (k a)) → bounded R (x ← f; k x).
Proof.
  intros Hf Hk o m r o' m' HI ([a o1]&m1&E1&E2)%bind_Ret_inv. destruct (Hf _ _ _ _ _ HI E1) as (HO&HP&HS).
  destruct a as [a|].
  - destruct (HS a eq_refl) as [HI' HQ]. destruct (Hk a HQ _ _ _ _ _ HI' E2) as (HO'&HP'&HS'). split; [by etrans|done].
  - injection E2 as <- <- <-. split; [done|]. split; [done|]. by intros ?.
Qed.
Lemma bounded_lift {A} (Q : A → Prop) (f : B A) : reads f → (∀ m a, f m = Ret a m → Q a) → bounded Q (lift f).
Proof.
  intros Hf HQ o m r o' m' HI (a&m1&E1&[= <- <- <-])%bind_Ret_inv. pose proof (Hf _ _ _ E1) as ->. unfold inside in *.
  split; [done|]. split; [lia|]. intros b [= <-]. split; [lia|]. by eapply HQ.
Qed.
Definition any {A} : A → Prop := λ _, True.
Lemma bounded_PUTCH c : bounded any (PUTCH c).
Proof.
  intros o m r o' m' (H1&H2&H3). unfold PUTCH. destruct (Z.leb_spec (o_size o) 0).
  - intros [= <- <- <-]. split; [done|]. cbn. split; [lia|]. by intros ?.
  - intros ([]&m1&E1&[= <- <- <-])%bind_Ret_inv. unfold stb in E1. destruct (m !! o_p o); [|done]. injection E1 as <-.
    split; [|split; [cbn; lia|intros [] _; split; [unfold inside; cbn; lia|done]]].
    intros q Hq _. apply lookup_insert_ne. lia.
Qed.
Lemma bounded_PUTSTR l : bounded any (PUTSTR l).
Proof.
  induction l; cbn [PUTSTR]; [by apply bounded_ret|]. eapply bounded_bind; [apply bounded_PUTCH|done].
Qed.
Lemma bounded_if {A} (Q : A → Prop) (b : bool) f g : bounded Q f → bounded Q g → bounded Q (if b then f else g).
Proof. by destruct b. Qed.
Lemma bounded_then {E} (R : E → Prop) (f : P unit) (k : unit → P E) : bounded any f → (∀ a, bounded R (k a)) → bounded R (x ← f; k x).
Proof. intros. eapply bounded_bind; eauto. Qed.
Hint Resolve bounded_PUTCH bounded_PUTSTR @bounded_if @bounded_then : core.
Hint Extern 1 (bounded _ (mret _)) => apply bounded_ret; done : core.
Hint Extern 1 (bounded _ (pad _ _)) => apply bounded_PUTSTR : core.
Lemma bounded_number f sign base digits u : bounded any (print_number f sign base digits u).
Proof. unfold print_number, RIGHTPAD. auto 20. Qed.
Lemma bounded_put_string fuel : ∀ s p, bounded any (put_string fuel s p).
Proof.
  induction fuel as [|fuel IH]; intros s p; cbn [put_string]; [by apply bounded_lift|].
  apply bounded_if; [auto|]. apply (bounded_bind any); [by apply bounded_lift; auto|]. intros c _. auto.
Qed.
Hint Resolve bounded_put_string : core.
Lemma bounded_string fuel f n s : bounded any (print_string fuel f n s).
Proof.
  unfold print_string, RIGHTPAD. apply bounded_if; [auto|]. apply (bounded_bind any); [|intros; auto].
  apply bounded_if; [|auto]. apply (bounded_bind any); [by apply bounded_lift; auto|]. intros. unfold LEFTPAD. auto.
Qed.
Lemma reads_fraction U fuel : ∀ v, reads (fraction U fuel v).
Proof. induction fuel; intros; cbn [fraction]; auto. Qed.
Lemma bounded_put_fraction U n : ∀ v, bounded any (put_fraction U n v).
Proof. induction n; intros; cbn [put_fraction]; auto. Qed.
Hint Resolve reads_fraction bounded_put_fraction : core.
Lemma bounded_double U fuel f v : bounded any (print_double U fuel f v).
Proof.
  unfold print_double, LEFTPAD, RIGHTPAD. repeat (apply bounded_then; [|intros _]); auto.
  apply bounded_if; [|auto]. apply (bounded_bind any); [by apply bounded_lift; auto|]. intros; auto.
Qed.
Lemma bounded_count a : a ∈ given → bounded any (store_count str a).
Proof.
  intros Ha o m r o' m' HI ([]&m1&E1&[= <- <- <-])%bind_Ret_inv. unfold inside in *. split; [|split; [lia|done]].
  intros q _ Hq. specialize (Hq a Ha). unfold of_le32 in E1. cbn [store_list] in E1.
  repeat (apply bind_Ret_inv in E1 as ([]&?m&?E&E1); unfold stb in E; destruct (_ !! _) in E; [|done]; injection E as <-).
  injection E1 as <-. rewrite !lookup_insert_ne by lia. done.
Qed.

(** The arguments left are among those given. *)
Definition left_of (l : list Z) : Prop := l ⊆ given.
Lemma bounded_arg l : left_of l → bounded (λ r, r.1 ∈ given ∧ left_of r.2) (lift (va_arg l)).
Proof.
  intros Hl. apply bounded_lift; [auto|]. intros m [a l']. destruct l as [|x l]; [done|]. intros [= <- <-]. unfold left_of in *. set_solver.
Qed.
Lemma parse_field_args fuel fmt l m r m' : left_of l → parse_field fuel fmt l m = Ret r m' → left_of r.2.
Proof.
  intros Hl (c&m1&E1&E)%bind_Ret_inv. destruct (c =? ASTERISK); [|destruct (is_digit c)].
  - apply bind_Ret_inv in E as ([a l']&m2&E2&[= <- _]). destruct l as [|x l]; [done|]. injection E2 as <- <- <-. unfold left_of in *. cbn. set_solver.
  - by apply bind_Ret_inv in E as (x&m2&E2&[= <- _]).
  - by injection E as <- _.
Qed.
Lemma parse_spec_args fuel fmt l m r m' : left_of l → parse_spec fuel fmt l m = Ret r m' → left_of r.2.
Proof.
  intros Hl ([fmt1 f]&m1&E1&E)%bind_Ret_inv. apply bind_Ret_inv in E as ([[w fmt2] l2]&m2&E2&E).
  pose proof (parse_field_args _ _ _ _ _ _ Hl E2) as Hl2. cbn in Hl2.
  apply bind_Ret_inv in E as (c&m3&E3&E). apply bind_Ret_inv in E as ([[p fmt3] l3]&m4&E4&E).
  apply bind_Ret_inv in E as (fmt4&m5&E5&[= <- _]). cbn.
  destruct (c =? POINT); [by apply parse_field_args in E4|by injection E4 as _ _ <- _].
Qed.
Lemma bounded_num f sign base digits l : left_of l →
  bounded (λ r, left_of r.2) (r ← lift (va_arg l); n ← print_number f sign base digits r.1; mret (n, r.2)).
Proof.
  intros Hl. eapply bounded_bind; [by apply bounded_arg|]. intros r [_ Hr]. eapply bounded_bind; [apply bounded_number|].
  intros. by apply bounded_ret.
Qed.
Lemma bounded_conversion U fuel f c n l : left_of l → bounded (λ r, left_of r.2) (conversion U fuel str f c n l).
Proof.
  intros Hl. unfold conversion. repeat (apply bounded_if; [by apply bounded_num|]).
  apply bounded_if; [eapply bounded_bind; [by apply bounded_arg|]; intros r [_ Hr]; eapply bounded_bind; [by apply bounded_arg|];
    intros r' [_ Hr']; eapply bounded_bind; [apply bounded_double|intros; by apply bounded_ret]|].
  apply bounded_if; [eapply bounded_bind; [by apply bounded_arg|]; intros r [_ Hr]; eapply bounded_bind; [apply bounded_string|];
    intros; by apply bounded_ret|].
  apply bounded_if; [eapply bounded_bind; [by apply bounded_arg|]; intros r [_ Hr]; apply bounded_then; [auto|intros; by apply bounded_ret]|].
  apply bounded_if; [apply bounded_then; [auto|intros; by apply bounded_ret]|].
  apply bounded_if; [eapply bounded_bind; [by apply bounded_arg|]; intros r [Ha Hr]; apply bounded_then;
    [by apply bounded_count|intros; by apply bounded_ret]|].
  apply bounded_then; [auto|intros; apply bounded_then; [auto|intros; by apply bounded_ret]].
Qed.
Lemma bounded_plain fuel : size <= 2 ^ 32 → ∀ fmt, bounded any (copy_plain fuel fmt).
Proof.
  intros Hs. induction fuel as [|fuel IH]; intros fmt o m r o' m' HI; cbn [copy_plain]; [done|].
  intros (c&m1&E1&E2)%bind_Ret_inv. apply reads_lds in E1 as ->. unfold inside in *.
  destruct (c =? PERCENT); [injection E2 as <- <- <-; split; [done|]; split; [lia|done]|].
  destruct (Z.leb_spec (o_size o) 0) as [|Hsz]; [injection E2 as <- <- <-; split; [done|]; split; [cbn; lia|done]|]. cbn [orb] in E2.
  destruct (c =? 0); [injection E2 as <- <- <-; split; [done|]; split; [cbn; lia|done]|].
  apply bind_Ret_inv in E2 as ([]&m1&E1&E2). unfold stb in E1. destruct (m !! o_p o); [|done]. injection E1 as <-.
  assert (HI' : inside (o <| o_size ::= λ n, u32 (n - 1) |> <| o_p ::= Z.succ |>)).
  { unfold inside, setf. cbn. rewrite u32_id by lia. lia. }
  destruct (IH _ _ _ _ _ _ HI' E2) as (HO&HP). split; [|done].
  intros q Hq Ha. rewrite HO by done. apply lookup_insert_ne. lia.
Qed.
Lemma bounded_format U n : size <= 2 ^ 32 → ∀ fuel fmt numpr l, left_of l → bounded any (format_loop U n fuel str fmt numpr l).
Proof.
  intros Hs. induction n as [|n IH]; intros fuel fmt numpr l Hl o m r o' m' HI; cbn [format_loop]; [done|].
  destruct (0 <? o_size o).
  - revert o m r o' m' HI. change (bounded any (body U n fuel fuel str fmt numpr l)). unfold body.
    apply (bounded_bind any); [by apply bounded_plain|]. intros fmt' _.
    apply (bounded_bind (λ r, left_of r.2)).
    { apply bounded_lift; [auto|]. intros m r E. eapply parse_spec_args; [exact Hl|exact E]. }
    intros [[f fmt2] l2] Hl2. cbn in Hl2. apply (bounded_bind any); [by apply bounded_lift; auto|]. intros c _.
    eapply bounded_bind; [by apply bounded_conversion|]. intros r Hr. by apply IH.
  - intros [= <- <- <-]. unfold inside in *. split; [done|]. split; [lia|done].
Qed.
End Bounds.

Lemma vsnprintf_frame U str size fmt l m n m' :
  0 < size <= 2 ^ 32 → vsnprintf U str size fmt l m = Ret n m' →
  0 <= n < size ∧ m' !! (str + n) = Some 0 ∧
  ∀ q, ¬ str <= q < str + size → (∀ a, a ∈ l → ¬ a <= q < a + 4) → m' !! q = m !! q.
Proof.
  intros Hs E. unfold vsnprintf, vformat in E. apply bind_Ret_inv in E as (fuel&m0&[= <- <-]&E).
  apply bind_Ret_inv in E as ([r o]&m1&E1&E).
  assert (HI : inside str size (mk_out str (u32 (size - 1)))) by (unfold inside; cbn; rewrite u32_id by lia; lia).
  assert (HB : bounded str size l any (if fmt =? 0 then PUTSTR [40; 110; 117; 108; 108; 32; 102; 109; 116; 32; 115; 116; 114; 105; 110; 103; 41]
    else format_loop U (str_fuel m) (str_fuel m) str fmt 0 l)).
  { apply bounded_if; [apply bounded_PUTSTR|]. apply bounded_format; [lia|by intros x]. }
  destruct (HB _ _ _ _ _ HI ltac:(by destruct (fmt =? 0))) as (HO&HP&_).
  apply bind_Ret_inv in E as ([]&m2&E2&[= <- <-]). cbn [snd] in *. unfold stb in E2.
  destruct (m1 !! o_p o); [|done]. injection E2 as <-. split; [lia|]. split.
  - replace (str + (o_p o - str)) with (o_p o) by lia. apply lookup_insert_eq.
  - intros q Hq Ha. rewrite lookup_insert_ne by lia. by apply HO.
Qed.

(** ** Termination *)

(** The doubles that two of the words make are below 2^32 in absolute value: subtracting the part before the point
    as an unsigned long leaves less than one.  The loop of the conversion f does not end for larger ones in general. *)
Definition small_doubles (U : fpu) (l : list Z) : Prop := ∀ lo hi v, lo ∈ l → hi ∈ l →
  v = fp_of U lo hi ∨ v = fp_neg U (fp_of U lo hi) → fp_ge1 U (fp_sub_trunc U v) = false.

Section Ends.
Variables (D : gset Z) (given : list Z) (U : fpu).

(** From a memory whose addresses are [D], [f] returns or faults; it keeps the addresses and its result has [Q]. *)
Definition safe {A} (Q : A → Prop) (f : B A) : Prop := ∀ m, dom m = D →
  match f m with Ret a m' => dom m' = D ∧ Q a | Fault => True | _ => False end.
Definition psafe {A} (Q : A → Prop) (f : P A) : Prop := ∀ o, safe (λ r, ∀ a, r.1 = Some a → Q a) (f o).
(** The addresses from [a] to [b] are in the memory. *)
Definition span (a b : Z) : Prop := a <= b ∧ ∀ i, a <= i < b → i ∈ D.

Lemma span_refl a : span a a.
Proof. split; [lia|]. intros; lia. Qed.
Lemma span_snoc a b : span a b → b ∈ D → span a (b + 1).
Proof. intros [H1 H2] Hb. split; [lia|]. intros i Hi. destruct (decide (i = b)) as [->|]; [done|]. apply H2. lia. Qed.
Lemma span_size a b : span a b → b - a <= Z.of_nat (size D).
Proof.
  intros [H1 H2]. assert (list_to_set (seqZ a (b - a)) ⊆ D) as Hs%subseteq_size.
  { intros i Hi%elem_of_list_to_set%elem_of_seqZ. apply H2. lia. }
  rewrite size_list_to_set, length_seqZ in Hs by apply NoDup_seqZ. lia.
Qed.

Lemma safe_ret {A} (Q : A → Prop) a : Q a → safe Q (mret a).
Proof. by intros HQ m Hm. Qed.
Lemma safe_bind {A E} (Q : A → Prop) (R : E → Prop) (f : B A) (k : A → B E) :
  safe Q f → (∀ a, Q a → safe R (k a)) → safe R (x ← f; k x).
Proof.
  intros Hf Hk m Hm. unfold mbind, M_bind. specialize (Hf m Hm). destruct (f m) as [a m1| | |]; try done.
  destruct Hf as [Hm1 Ha]. by apply Hk.
Qed.
Lemma safe_if {A} (Q : A → Prop) (b : bool) f g : safe Q f → safe Q g → safe Q (if b then f else g).
Proof. by destruct b. Qed.
Lemma safe_lds p : safe (λ _, p ∈ D) (lds p).
Proof.
  intros m Hm. unfold lds, ldu, mbind, M_bind. destruct (m !! p) as [b|] eqn:E; [|done]. cbn. split; [done|].
  rewrite <- Hm. by apply elem_of_dom_2 in E.
Qed.
Lemma safe_stb p v : safe any (stb p v).
Proof.
  intros m Hm. unfold stb. destruct (m !! p) as [b|] eqn:E; [|done]. split; [|done]. rewrite dom_insert_L.
  apply elem_of_dom_2 in E. set_solver.
Qed.
Lemma safe_store l : ∀ p, safe any (store_list p l).
Proof. induction l as [|b l IH]; intros p; cbn [store_list]; [by apply safe_ret|]. eapply safe_bind; [apply safe_stb|]. intros. apply IH. Qed.
(** A loop that reads successive bytes ends: it has read the bytes from [a] to [p]. *)
Lemma span_fuel a p (fuel : nat) : span a p → Z.of_nat (size D) < Z.of_nat fuel + (p - a) → ∃ fuel', fuel = S fuel'.
Proof. intros Hs%span_size Hf. destruct fuel; [lia|eauto]. Qed.

Lemma safe_flags a : ∀ fuel fmt f, span a fmt → Z.of_nat (size D) < Z.of_nat fuel + (fmt - a) →
  safe (λ r, span a r.1) (parse_flags fuel fmt f).
Proof.
  induction fuel as [|fuel IH]; intros fmt f Hs Hf; [by destruct (span_fuel _ _ _ Hs Hf)|]. cbn [parse_flags].
  eapply safe_bind; [apply safe_lds|]. intros c Hc. pose proof (span_snoc _ _ Hs Hc).
  repeat (apply safe_if; [apply IH; [done|lia]|]). by apply safe_ret.
Qed.
Lemma safe_number a : ∀ fuel fmt n, span a fmt → Z.of_nat (size D) < Z.of_nat fuel + (fmt - a) →
  safe (λ r, span a r.1) (parse_number fuel fmt n).
Proof.
  induction fuel as [|fuel IH]; intros fmt n Hs Hf; [by destruct (span_fuel _ _ _ Hs Hf)|]. cbn [parse_number].
  eapply safe_bind; [apply safe_lds|]. intros c Hc. pose proof (span_snoc _ _ Hs Hc).
  apply safe_if; [apply IH; [done|lia]|by apply safe_ret].
Qed.
Lemma safe_strlen s : safe any (strlen s).
Proof.
  intros m Hm. unfold strlen. erewrite bind_Ret by done. revert m Hm.
  assert (HL : ∀ fuel p, span s p → Z.of_nat (size D) < Z.of_nat fuel + (p - s) → safe any (strlen_loop fuel p)).
  { induction fuel as [|fuel IH]; intros p Hs Hf; [by destruct (span_fuel _ _ _ Hs Hf)|]. cbn [strlen_loop].
    eapply safe_bind; [apply safe_lds|]. intros c Hc. pose proof (span_snoc _ _ Hs Hc).
    apply safe_if; [by apply safe_ret|apply IH; [done|lia]]. }
  intros m Hm. apply (safe_bind any); [|intros; by apply safe_ret|done]. apply HL; [apply span_refl|]. unfold str_fuel. rewrite <- size_dom, Hm. lia.
Qed.
Lemma safe_arg l : left_of given l → safe (λ r, r.1 ∈ given ∧ left_of given r.2) (va_arg l).
Proof. intros Hl. destruct l as [|x l]; [done|]. apply safe_ret. unfold left_of in *. set_solver. Qed.
(** The fuel of the loops. *)
Variable fuel : nat.
Hypothesis Hfuel : fuel = S (size D).
Lemma safe_field a fmt l : span a fmt → left_of given l → safe (λ r, span a r.1.2 ∧ left_of given r.2) (parse_field fuel fmt l).
Proof.
  intros Hs Hl. unfold parse_field. eapply safe_bind; [apply safe_lds|]. intros c Hc.
  apply safe_if; [eapply safe_bind; [by apply safe_arg|]; intros r [_ Hr]; apply safe_ret; split; [by apply span_snoc|done]|].
  apply safe_if; [|by apply safe_ret].
  eapply safe_bind; [apply (safe_number fmt); [apply span_refl|lia]|]. intros r [H1 H2]. apply safe_ret. split; [|done].
  destruct Hs as [H3 H4]. split; [cbn; lia|]. intros i Hi. destruct (decide (i < fmt)); [apply H4; lia|apply H2; cbn in Hi; lia].
Qed.
Lemma safe_spec a fmt l : span a fmt → left_of given l → safe (λ r, span a r.1.2 ∧ left_of given r.2) (parse_spec fuel fmt l).
Proof.
  intros Hs Hl. unfold parse_spec. eapply safe_bind.
  { apply (safe_flags a); [done|]. destruct Hs. lia. }
  intros [fmt1 f] H1. cbn in H1. eapply safe_bind; [by apply safe_field|]. intros [[w fmt2] l2] [H2 Hl2]. cbn in H2, Hl2.
  eapply safe_bind; [apply safe_lds|]. intros c Hc.
  apply (safe_bind (λ r, span a r.1.2 ∧ left_of given r.2)).
  { apply safe_if; [apply safe_field; [by apply span_snoc|done]|by apply safe_ret]. }
  intros [[p fmt3] l3] [H3 Hl3]. cbn in H3, Hl3. unfold parse_length. apply (safe_bind (λ x, span a x)).
  { eapply safe_bind; [apply safe_lds|]. intros c' Hc'. apply safe_ret. case_match; [by apply span_snoc|done]. }
  intros fmt4 H4. by apply safe_ret.
Qed.

Lemma psafe_ret {A} (Q : A → Prop) a : Q a → psafe Q (mret a).
Proof. intros HQ o. apply safe_ret. by intros ? [= <-]. Qed.
Lemma psafe_bind {A E} (Q : A → Prop) (R : E → Prop) (f : P A) (k : A → P E) :
  psafe Q f → (∀ a, Q a → psafe R (k a)) → psafe R (x ← f; k x).
Proof.
  intros Hf Hk o. eapply safe_bind; [apply Hf|]. intros [[a|] o1] Ha; [apply Hk; by apply Ha|]. by apply safe_ret.
Qed.
Lemma psafe_lift {A} (Q : A → Prop) (f : B A) : safe Q f → psafe Q (lift f).
Proof. intros Hf o. eapply safe_bind; [exact Hf|]. intros a Ha. apply safe_ret. by intros ? [= <-]. Qed.
Lemma psafe_if {A} (Q : A → Prop) (b : bool) f g : psafe Q f → psafe Q g → psafe Q (if b then f else g).
Proof. by destruct b. Qed.
Lemma psafe_then {E} (R : E → Prop) (f : P unit) (k : unit → P E) : psafe any f → (∀ a, psafe R (k a)) → psafe R (x ← f; k x).
Proof. intros. eapply psafe_bind; eauto. Qed.
Lemma psafe_PUTCH c : psafe any (PUTCH c).
Proof. intros o. unfold PUTCH. apply safe_if; [by apply safe_ret|]. eapply safe_bind; [apply safe_stb|]. intros; by apply safe_ret. Qed.
Lemma psafe_PUTSTR l : psafe any (PUTSTR l).
Proof. induction l; cbn [PUTSTR]; [by apply psafe_ret|]. eapply psafe_bind; [apply psafe_PUTCH|done]. Qed.
Hint Resolve psafe_PUTCH psafe_PUTSTR @psafe_if @psafe_then : core.
Hint Extern 1 (psafe _ (mret _)) => apply psafe_ret; done : core.
Hint Extern 1 (psafe _ (pad _ _)) => apply psafe_PUTSTR : core.
Lemma psafe_number f sign base digits u : psafe any (print_number f sign base digits u).
Proof. unfold print_number, RIGHTPAD. auto 20. Qed.
Lemma psafe_put_string s : psafe any (put_string fuel s None) ∧ ∀ p, psafe any (put_string fuel s (Some p)).
Proof.
  assert (HL : ∀ n a p, span s a → Z.of_nat (size D) < Z.of_nat n + (a - s) → psafe any (put_string n a p)).
  { induction n as [|n IH]; intros a p Hs Hf; [by destruct (span_fuel _ _ _ Hs Hf)|]. cbn [put_string]. apply psafe_if; [auto|].
    eapply psafe_bind; [apply psafe_lift, safe_lds|]. intros c Hc. cbn in Hc. apply psafe_if; [auto|]. apply psafe_then; [auto|].
    intros _. apply IH; [by apply span_snoc|lia]. }
  split; intros; apply HL; (apply span_refl || lia).
Qed.
Lemma psafe_string f n s : psafe any (print_string fuel f n s).
Proof.
  destruct (psafe_put_string s) as [HN HS]. unfold print_string, RIGHTPAD. apply psafe_if; [auto|]. apply (psafe_bind any).
  - apply psafe_if; [|auto]. eapply psafe_bind; [apply psafe_lift, safe_strlen|]. intros. unfold LEFTPAD. auto.
  - intros. apply psafe_then; [by case_match|]. auto.
Qed.
Lemma psafe_put_fraction n : ∀ v, psafe any (put_fraction U n v).
Proof. induction n; intros; cbn [put_fraction]; auto. Qed.
Hypothesis Hfp : small_doubles U given.
Lemma psafe_double f lo hi : 0 < Z.of_nat (size D) → lo ∈ given → hi ∈ given → psafe any (print_double U fuel f (fp_of U lo hi)).
Proof.
  intros Hne Hlo Hhi. unfold print_double, LEFTPAD, RIGHTPAD. repeat (apply psafe_then; [|intros _]); auto.
  apply psafe_if; [|auto]. apply (psafe_bind any); [|intros; apply psafe_then; [auto|intros; apply psafe_put_fraction]].
  apply psafe_lift. set (v := if _ =? MINUS then _ else _).
  assert (Hv : fp_ge1 U (fp_sub_trunc U v) = false) by (apply (Hfp lo hi); [done..|]; unfold v; case_match; auto).
  rewrite Hfuel. destruct (size D) as [|k]; [lia|]. cbn [fraction]. rewrite Hv. apply safe_if; by apply safe_ret.
Qed.
Lemma psafe_arg l : left_of given l → psafe (λ r, r.1 ∈ given ∧ left_of given r.2) (lift (va_arg l)).
Proof. intros Hl. by apply psafe_lift, safe_arg. Qed.
Lemma psafe_num f sign base digits l : left_of given l →
  psafe (λ r, left_of given r.2) (r ← lift (va_arg l); n ← print_number f sign base digits r.1; mret (n, r.2)).
Proof.
  intros Hl. eapply psafe_bind; [by apply psafe_arg|]. intros r [_ Hr]. eapply psafe_bind; [apply psafe_number|].
  intros. by apply psafe_ret.
Qed.
Lemma psafe_conversion str f c n l : 0 < Z.of_nat (size D) → left_of given l → psafe (λ r, left_of given r.2) (conversion U fuel str f c n l).
Proof.
  intros Hne Hl. unfold conversion. repeat (apply psafe_if; [by apply psafe_num|]).
  apply psafe_if; [eapply psafe_bind; [by apply psafe_arg|]; intros r [Ha Hr]; eapply psafe_bind; [by apply psafe_arg|];
    intros r' [Ha' Hr']; eapply psafe_bind; [by apply psafe_double|intros; by apply psafe_ret]|].
  apply psafe_if; [eapply psafe_bind; [by apply psafe_arg|]; intros r [_ Hr]; eapply psafe_bind; [apply psafe_string|];
    intros; by apply psafe_ret|].
  apply psafe_if; [eapply psafe_bind; [by apply psafe_arg|]; intros r [_ Hr]; apply psafe_then; [auto|intros; by apply psafe_ret]|].
  apply psafe_if; [apply psafe_then; [auto|intros; by apply psafe_ret]|].
  apply psafe_if; [eapply psafe_bind; [by apply psafe_arg|]; intros r [Ha Hr]; apply psafe_then;
    [intros o; apply psafe_lift, safe_store|intros; by apply psafe_ret]|].
  apply psafe_then; [auto|intros; apply psafe_then; [auto|intros; by apply psafe_ret]].
Qed.
Lemma psafe_plain a : ∀ n fmt, span a fmt → Z.of_nat (size D) < Z.of_nat n + (fmt - a) → psafe (λ x, span a x ∧ fmt < x) (copy_plain n fmt).
Proof.
  induction n as [|n IH]; intros fmt Hs Hf o; [by destruct (span_fuel _ _ _ Hs Hf)|]. cbn [copy_plain].
  eapply safe_bind; [apply safe_lds|]. intros c Hc. pose proof (span_snoc _ _ Hs Hc).
  apply safe_if; [apply safe_ret; intros ? [= <-]; split; [done|lia]|]. apply safe_if; [by apply safe_ret|].
  eapply safe_bind; [apply safe_stb|]. intros _ _ m Hm. pose proof (IH (fmt + 1) ltac:(done) ltac:(lia) (o <| o_size ::= λ n, u32 (n - 1) |> <| o_p ::= Z.succ |>) m Hm) as H1.
  destruct (copy_plain n _ _ m) as [r m'| | |]; try done. destruct H1 as [H1 H2]. split; [done|]. intros x Hx. destruct (H2 x Hx). split; [done|lia].
Qed.
Lemma psafe_format str a : ∀ n fmt numpr l, span a fmt → Z.of_nat (size D) < Z.of_nat n + (fmt - a) → left_of given l →
  psafe any (format_loop U n fuel str fmt numpr l).
Proof.
  induction n as [|n IH]; intros fmt numpr l Hs Hf Hl o; [by destruct (span_fuel _ _ _ Hs Hf)|]. cbn [format_loop].
  apply safe_if; [|by apply safe_ret]. revert o. change (psafe any (body U n fuel fuel str fmt numpr l)). unfold body.
  eapply psafe_bind; [apply (psafe_plain a); [done|destruct Hs; lia]|]. intros fmt1 [H1 Hlt].
  eapply psafe_bind; [apply psafe_lift, (safe_spec fmt1); [apply span_refl|done]|]. intros [[f fmt2] l2] [H2 Hl2]. cbn in H2, Hl2.
  eapply psafe_bind; [apply psafe_lift, safe_lds|]. intros c Hc. cbn in Hc.
  assert (Hs2 : span a (fmt2 + 1)).
  { apply span_snoc; [|done]. destruct H1 as [? H1], H2 as [? H2]. split; [lia|]. intros i Hi. destruct (decide (i < fmt1)); [apply H1|apply H2]; lia. }
  assert (fmt < fmt2 + 1) by (destruct H2; lia).
  eapply psafe_bind; [apply psafe_conversion; [pose proof (span_size _ _ Hs2); destruct Hs; lia|done]|]. intros r Hr. apply IH; [done|lia|done].
Qed.
End Ends.

Lemma vsnprintf_ends U str size fmt l m : small_doubles U l →
  match vsnprintf U str size fmt l m with Ret _ _ | Fault => True | _ => False end.
Proof.
  intros Hfp. unfold vsnprintf, vformat. erewrite bind_Ret by done. cbv zeta. set (o := mk_out str (u32 (size - 1))).
  set (f := if fmt =? 0 then _ else _).
  assert (HS : safe (dom m) any (r ← f; stb (o_p r.2) 0;; mret (o_p r.2 - str))).
  { apply (safe_bind _ any).
    - intros m0 Hm0. assert (HP : psafe (dom m) any (if fmt =? 0
        then PUTSTR [40; 110; 117; 108; 108; 32; 102; 109; 116; 32; 115; 116; 114; 105; 110; 103; 41]
        else format_loop U (str_fuel m) (str_fuel m) str fmt 0 l)).
      { apply psafe_if; [apply psafe_PUTSTR|]. assert (Hz : str_fuel m = S (base.size (dom m))) by (unfold str_fuel; by rewrite size_dom).
        apply (psafe_format _ l U _ Hz Hfp str fmt); [apply span_refl|lia|by intros x]. }
      specialize (HP o m0 Hm0). unfold f. destruct (fmt =? 0); by case_match; naive_solver.
    - intros r _. eapply safe_bind; [apply safe_stb|]. intros. by apply safe_ret. }
  specialize (HS m eq_refl). by case_match.
Qed.


(** ** Instances of the theorems *)
Definition int_fpu : fpu := mk_fpu Z (λ lo _, lo) (λ v, 0 <=? v) (λ v, v <? 0) (λ v, 1 <=? v) Z.opp u32 (λ v, v - u32 v) (Z.mul 10).
(** printf("n=%d, %s", -42, "ok") with a buffer of 7 bytes: the text is cut. *)
Lemma vsnprintf_renders_witness :
  let m := put 200 [110; 61; 37; 100; 44; 32; 37; 115; 0] (put 300 [111; 107; 0] (zeros 400 7)) in
  ∃ d, numeral 10 d 42 ∧
    vsnprintf int_fpu 400 7 200 [u32 (-42); 300] m = Ret (Z.of_nat (length (take 6 ([110; 61; 45] ++ d ++ [44; 32; 111; 107]))))
      (put 400 (take 6 ([110; 61; 45] ++ d ++ [44; 32; 111; 107]) ++ [0]) m).
Proof.
  intros m.
  assert (H1 : at_mem m 200 [110; 61; 37; 100; 44; 32; 37; 115; 0]) by apply at_mem_put.
  assert (H2 : at_mem m 300 [111; 107; 0]) by (apply at_mem_put_ne; [cbn; lia|apply at_mem_put]).
  assert (H3 : mapped m 400 7).
  { apply put_mapped, put_mapped. intros i Hi. by rewrite zeros_lookup, decide_True by lia. }
  clearbody m.
  destruct (vsnprintf_renders int_fpu [Lit 110; Lit 61; Int (-42); Lit 44; Lit 32; Str 300 [111; 107]] 400 7 200 m) as (t&HR&E).
  - exact H1.
  - done.
  - repeat (apply Forall_cons_2; [cbn; unfold PERCENT; try lia|]); [|apply Forall_nil_2].
    split_and!; [done|exact H2|repeat constructor; lia|lia].
  - cbn. lia.
  - exact H3.
  - cbn. lia.
  - destruct HR as (t1&k1&->&->&t2&k2&->&->&t3&k3&->&(d&HD&->)&t4&k4&->&->&t5&k5&->&->&t6&k6&->&->&->).
    exists d. split; [exact HD|]. replace ([110; 61; 45] ++ d ++ [44; 32; 111; 107]) with
      ([110] ++ [61] ++ ((if -42 <? 0 then [MINUS] else []) ++ d) ++ [44] ++ [32] ++ [111; 107] ++ []); [exact E|].
    cbn. done.
Defined.

