(* ===== verification/KStdio.v ===== *)
(** * Messages of the kernel

    Models kernel/kernel_stdio.c: [vsprintf] of the kernel (here [kvsprintf]),
    [kprintf] with its log, and [syscall_log].  The arguments are the list of
    their 32-bit words, as in Printf.v; the text written to the screen is
    appended to [k_console].

    The theorem: the text [vsprintf] stores for a format of plain characters and
    the conversions d, u, x, s, c and %%.  The log is never advanced: [log_lost]. *)

From S2P Require Import Prelude LibcString FsState Printf.

(** ** Numbers *)
Definition SIGNED : Z := 32.
Definition CASE : Z := 64.
(** [while(num != 0)]: the digits in [tmps], the last one first. *)
Fixpoint tmps_digits (fuel : nat) (digits : list Z) (base num : Z) : list Z :=
  match fuel with
  | O => []
  | S fuel => if num =? 0 then [] else nth (Z.to_nat (num mod base)) digits 0 :: tmps_digits fuel digits base (num / base)
  end.
(** [num] is unsigned, so that the branch for a sign is never taken. *)
Definition ctrl_to_str (buff base flag num : Z) : B Z :=
  let digits := if has flag CASE then upper_digits else lower_digits in
  let tmps := (if num =? 0 then [ZERO] else []) ++ tmps_digits 32 digits base num in
  store_list buff (rev tmps);;
  mret (Z.of_nat (length tmps)).

(** ** vsprintf *)
(** [while( *tmp != '\0') *buff++ = *tmp++]: the number of characters. *)
Fixpoint copy_str (fuel : nat) (tmp buff count : Z) : B Z :=
  match fuel with
  | O => spin
  | S fuel => c ← lds tmp; if c =? 0 then mret count else stb buff c;; copy_str fuel (tmp + 1) (buff + 1) (count + 1)
  end.
(** What a conversion leaves: the characters it stored, the flag and the arguments.  Of a long long the
    low word is printed. *)
Definition kconversion (fuel : nat) (long_long : bool) (c buff flag : Z) (args : list Z) : B (Z * Z * list Z) :=
  let number := λ base flag args, r ← va_arg args; n ← ctrl_to_str buff base flag r.1; mret (n, flag, r.2) in
  if c =? 99 then r ← va_arg args; stb buff r.1;; mret (1, flag, r.2)
  else if c =? 115 then
    r ← va_arg args;
    n ← (if r.1 =? 0 then store_list buff null_text;; mret 6 else copy_str fuel r.1 buff 0);
    mret (n, flag, r.2)
  else if c =? PERCENT then stb buff PERCENT;; mret (1, flag, args)
  else if c =? 88 then number 16 (Z.lor flag CASE) args
  else if c =? 120 then number 16 flag args
  else if c =? 100 then
    if long_long then r ← va_arg args; r' ← va_arg r.2; n ← ctrl_to_str buff 10 flag r.1; mret (n, flag, r'.2)
    else number 10 flag args
  else if c =? 117 then number 10 flag args
  else mret (0, flag, args).
(** The qualifier and the flag keep their values from one conversion to the next. *)
Fixpoint kvsprintf_loop (n fuel : nat) (fmt buff count flag : Z) (long_long : bool) (args : list Z) : B (Z * Z) :=
  match n with
  | O => spin
  | S n =>
      c ← lds fmt;
      if c =? 0 then mret (buff, count)
      else if negb (c =? PERCENT) then
        stb buff c;; kvsprintf_loop n fuel (fmt + 1) (buff + 1) (count + 1) flag long_long args
      else
        q ← lds (fmt + 1);
        let '(fmt, long_long) := if q =? 108 then (fmt + 2, false) else if q =? 76 then (fmt + 2, true) else (fmt + 1, long_long) in
        c ← lds fmt;
        r ← kconversion fuel long_long c buff flag args;
        let '(k, flag, args) := r in
        kvsprintf_loop n fuel (fmt + 1) (buff + k) (count + k) flag long_long args
  end.
Definition kvsprintf (buff fmt : Z) (args : list Z) : B Z :=
  fuel ← gets str_fuel;
  r ← kvsprintf_loop fuel fuel fmt buff 0 0 false args;
  stb r.1 0;; mret r.2.

(** ** kprintf and the log *)
Definition LOGBUFSIZE : Z := 4096.
Record kio := mk_kio { k_mem : bytes; k_end : Z; k_console : list (list Z) }.
#[global] Instance eta_kio : Settable kio := λ x, mk_kio (k_mem x) (k_end x) (k_console x).
Abbreviation L := (M kio).
Definition on_kmem {A} (f : B A) : L A := λ s,
  match f (k_mem s) with Ret a m => Ret a (s <| k_mem := m |>) | Fault => Fault | Halt => Halt | Spin => Spin end.
(** [console_write(buf)] *)
Definition console_write (buf len : Z) : L unit :=
  l ← on_kmem (ld_list (Z.to_nat len) buf); modify (λ s, s <| k_console ::= (.++ [l]) |>).
(** [buf] and [logbuf] are the addresses of the arrays. *)
Definition kprintf (buf logbuf format : Z) (args : list Z) : L Z :=
  ret ← on_kmem (kvsprintf buf format args);
  len ← on_kmem (strlen buf);
  console_write buf len;;
  e ← gets k_end;
  (if LOGBUFSIZE <? e + ret then modify (λ s, s <| k_end := 0 |>) else mret tt);;
  e ← gets k_end;
  on_kmem (memcpy (logbuf + e) buf ret);;
  mret ret.
(** [format] is that of the message "logging"; the answer is the size and what is copied to the caller. *)
Definition syscall_log (buf logbuf format : Z) (data : bool) : L (Z * list Z) :=
  kprintf buf logbuf format [];;
  e ← gets k_end;
  l ← (if data then on_kmem (ld_list (Z.to_nat e) logbuf) else mret []);
  modify (λ s, s <| k_end := 0 |>);;
  mret (e, l).

Lemma on_kmem_end {A} (f : B A) s a s' : on_kmem f s = Ret a s' → k_end s' = k_end s.
Proof. unfold on_kmem. destruct (f (k_mem s)); [by intros [= _ <-]|done..]. Qed.
Lemma kprintf_end buf logbuf fmt l s r s' : kprintf buf logbuf fmt l s = Ret r s' → k_end s = 0 → k_end s' = 0.
Proof.
  intros E H0. unfold kprintf, console_write in E.
  apply bind_Ret_inv in E as (n&s1&E1%on_kmem_end&E). apply bind_Ret_inv in E as (len&s2&E2%on_kmem_end&E).
  apply bind_Ret_inv in E as ([]&s3&E3&E). apply bind_Ret_inv in E3 as (t&s4&E4%on_kmem_end&[= <-]).
  apply bind_Ret_inv in E as (e&s5&[= <- <-]&E). apply bind_Ret_inv in E as ([]&s6&E6&E).
  apply bind_Ret_inv in E as (e'&s7&[= <- <-]&E). apply bind_Ret_inv in E as (x&s8&E8%on_kmem_end&[= <- <-]).
  rewrite E8. destruct (LOGBUFSIZE <? _); injection E6 as <-; cbn; [done|]. by rewrite E4, E2, E1.
Qed.
(** The position in the log only ever is 0: every message overwrites the one before, and the caller of
    [syscall_log] gets nothing. *)
Lemma log_lost buf logbuf fmt data s r s' : syscall_log buf logbuf fmt data s = Ret r s' → k_end s = 0 → r = (0, []).
Proof.
  intros E H0. unfold syscall_log in E. apply bind_Ret_inv in E as (n&s1&E1&E). apply kprintf_end in E1; [|done].
  apply bind_Ret_inv in E as (e&s2&[= <- <-]&E). rewrite E1 in E. apply bind_Ret_inv in E as (l&s3&E3&E).
  apply bind_Ret_inv in E as ([]&s4&[= <-]&[= <- <-]). f_equal. destruct data; [|by injection E3 as <- _].
  unfold on_kmem in E3. cbn in E3. by injection E3 as <- _.
Qed.

(** ** The text of a format *)
(** As in Printf.v, but for negative numbers, which are printed as unsigned. *)
Definition krenders_item (i : item) (t : list Z) : Prop :=
  match i with Int n => numeral 10 t (u32 n) | _ => renders_item i t end.
Fixpoint krenders (its : list item) (t : list Z) : Prop :=
  match its with [] => t = [] | i :: its => ∃ a b, t = a ++ b ∧ krenders_item i a ∧ krenders its b end.
(** Enough room for the text of an item. *)
Definition room (i : item) : nat :=
  match i with Lit _ | Chr _ | Pct => 1 | Int _ | Uns _ => 10 | Hex _ => 8 | Str _ l => length l end.
Fixpoint rooms (its : list item) : nat := match its with [] => 0 | i :: its => room i + rooms its end.

Lemma tmps_convert fuel digits base : 2 <= base → ∀ n, 0 < n → tmps_digits fuel digits base n = convert fuel digits base n.
Proof.
  intros Hb. induction fuel as [|fuel IH]; intros n Hn; [done|]. cbn [tmps_digits convert]. rewrite (proj2 (Z.eqb_neq n 0)) by lia. f_equal.
  pose proof (Z.div_pos n base ltac:(lia) ltac:(lia)). destruct (Z.ltb_spec 0 (n / base)); [by apply IH|].
  replace (n / base) with 0 by lia. by destruct fuel.
Qed.
Lemma ctrl_to_str_spec base (k : nat) n buff m :
  (base = 10 ∨ base = 16) → 0 <= n < 2 ^ 32 → 2 ^ 32 <= base ^ Z.of_nat k → (0 < k)%nat → mapped m buff k →
  ∃ t, numeral base t n ∧ (length t <= k)%nat ∧ all_bytes t ∧ ctrl_to_str buff base 0 n m = Ret (Z.of_nat (length t)) (put buff t m).
Proof.
  intros Hb Hn Hk Hk0 HM. set (t := rev (convert 32 lower_digits base n)).
  assert (HN : numeral base t n).
  { apply convert_numeral; [lia| |lia]. split; [lia|]. apply Z.lt_le_trans with (2 ^ 32); [lia|]. apply (Z.pow_le_mono_l 2 base 32). lia. }
  assert (Hl : (length t <= k)%nat) by (unfold t; rewrite length_rev; apply convert_length; lia).
  assert (HB : all_bytes t).
  { destruct HN as (_&HD&_). eapply Forall_impl; [exact HD|]. intros c Hc. by eapply digit_byte. }
  assert (E : (if n =? 0 then [ZERO] else []) ++ tmps_digits 32 lower_digits base n = convert 32 lower_digits base n).
  { destruct (Z.eqb_spec n 0) as [->|]; [|apply tmps_convert; lia]. by destruct Hb as [-> | ->]. }
  exists t. split_and!; [done..|]. unfold ctrl_to_str. change (has 0 CASE) with false. cbv iota zeta. rewrite E. fold t.
  rewrite (bind_Ret _ _ _ _ _ (store_list_put t buff m HB ltac:(intros i Hi; apply HM; lia))). unfold t. by rewrite length_rev.
Qed.
Lemma copy_str_spec l : ∀ fuel s p k m, (length l < fuel)%nat → at_mem m s (l ++ [0]) → Forall (λ b, 0 < b < 2 ^ 8) l →
  mapped m p (length l) → s + Z.of_nat (length l) < p ∨ p + Z.of_nat (length l) <= s →
  copy_str fuel s p k m = Ret (k + Z.of_nat (length l)) (put p l m).
Proof.
  induction l as [|c l IH]; intros [|fuel] s p k m Hf HA HL HM Hd; cbn [length] in *; [lia| |lia|];
    apply at_mem_cons in HA as [Hc HA]; cbn [copy_str]; rewrite (bind_Ret _ _ _ _ _ (lds_Ret _ _ _ Hc)).
  - change (s8 0 =? 0) with true. cbv iota. by rewrite Z.add_0_r.
  - apply Forall_cons in HL as [Hb HL]. change 0 with (s8 0) at 1. rewrite s8_eqb, (proj2 (Z.eqb_neq c 0)) by lia.
    destruct (HM 0 ltac:(lia)) as [b Eb]. rewrite Z.add_0_r in Eb.
    unfold stb, mbind at 1, M_bind at 1. rewrite Eb, byte_roundtrip by lia. rewrite IH; [cbn [put]; f_equal; lia|lia| |done| |lia].
    + intros i Hi. rewrite length_app in Hi. cbn in Hi. rewrite lookup_insert_ne by lia. apply HA. rewrite length_app. cbn. lia.
    + apply mapped_insert. intros i Hi. replace (p + 1 + i) with (p + (i + 1)) by lia. apply HM. lia.
Qed.
(** A character is stored. *)
Lemma stb_put p c v m : u8 v = c → mapped m p 1 → stb p v m = Ret tt (put p [c] m).
Proof. intros <- HM. destruct (HM 0 ltac:(lia)) as [b Eb]. rewrite Z.add_0_r in Eb. unfold stb. by rewrite Eb. Qed.
Lemma kconversion_item fuel i p rest m lo hi :
  item_ok m lo hi i → length (encode i) = 2%nat → lo <= p → p + Z.of_nat (room i) < hi → mapped m p (room i) → (base.size m < fuel)%nat →
  ∃ t, krenders_item i t ∧ (length t <= room i)%nat ∧ all_bytes t ∧
    kconversion fuel false (conv_char i) p 0 (arg i ++ rest) m = Ret (Z.of_nat (length t), 0, rest) (put p t m).
Proof.
  intros HO HE Hlo Hhi HM Hf.
  assert (HN : ∀ base (k : nat) n, (base = 10 ∨ base = 16) → 0 <= n < 2 ^ 32 → 2 ^ 32 <= base ^ Z.of_nat k → (0 < k)%nat → mapped m p k →
    ∃ t, numeral base t n ∧ (length t <= k)%nat ∧ all_bytes t ∧
      (r ← va_arg (n :: rest); x ← ctrl_to_str p base 0 r.1; mret (x, 0, r.2)) m = Ret (Z.of_nat (length t), 0, rest) (put p t m)).
  { intros base k n Hb Hn Hk Hk0 HMk. destruct (ctrl_to_str_spec base k n p m) as (t&H1&H2&H3&E); [done..|]. exists t. split_and!; [done..|].
    cbn [va_arg]. erewrite bind_Ret by reflexivity. cbn [fst snd]. by rewrite (bind_Ret _ _ _ _ _ E). }
  destruct i as [c|n|n|n|a l|c|]; cbn in HO, HE; [lia|..]; cbn [conv_char encode nth arg app room] in *; unfold kconversion;
    cbn [Z.eqb Pos.eqb orb PERCENT].
  - apply (HN 10 10%nat); [by left|apply u32_range|done|lia|done].
  - apply (HN 10 10%nat); [by left|done|done|lia|done].
  - apply (HN 16 8%nat); [by right|done|done|lia|done].
  - destruct HO as (Ha&HA&HL&Hd). exists l. split_and!; [done|done|eapply Forall_impl; [exact HL|cbn; lia]|].
    cbn [va_arg]. erewrite bind_Ret by reflexivity. cbn [fst snd]. rewrite (proj2 (Z.eqb_neq a 0)) by done.
    rewrite (bind_Ret _ _ _ _ _ (copy_str_spec l fuel a p 0 m ltac:(apply at_mem_size in HA; rewrite length_app in HA; lia) HA HL HM ltac:(lia))). done.
  - exists [c]. split_and!; [done|done|by apply Forall_singleton|]. cbn [va_arg]. erewrite bind_Ret by reflexivity.
    cbn [fst snd]. by rewrite (bind_Ret _ _ _ _ _ (stb_put p c c m ltac:(by apply Z.mod_small) HM)).
  - exists [PERCENT]. split_and!; [done|done|by apply Forall_singleton|]. by rewrite (bind_Ret _ _ _ _ _ (stb_put p PERCENT PERCENT m eq_refl HM)).
Qed.

(** The rest of a format. *)
Lemma kloop_spec its : ∀ n fuel fmt p count m lo hi,
  at_mem m fmt (format its ++ [0]) → Forall (item_ok m lo hi) its →
  lo <= p → p + Z.of_nat (rooms its) < hi → mapped m p (rooms its) →
  fmt + Z.of_nat (length (format its)) < lo ∨ hi <= fmt → (base.size m < fuel)%nat → (length (format its) < n)%nat →
  ∃ t, krenders its t ∧ (length t <= rooms its)%nat ∧ all_bytes t ∧
    kvsprintf_loop n fuel fmt p count 0 false (args its) m = Ret (p + length t, count + Z.of_nat (length t)) (put p t m).
Proof.
  induction its as [|i its IH]; intros [|n] fuel fmt p count m lo hi HA HO Hlo Hhi HM Hd Hf Hn; [lia| |lia|]; cbn [kvsprintf_loop].
  { apply at_mem_cons in HA as [H0 _]. rewrite (bind_Ret _ _ _ _ _ (lds_Ret _ _ _ H0)). exists []. split_and!; [done|cbn; lia|by apply Forall_nil|].
    cbn. by rewrite !Z.add_0_r. }
  apply Forall_cons in HO as [Hi HO]. cbn [format args rooms] in *. rewrite length_app in Hd, Hn. rewrite <- app_assoc in HA.
  assert (HW : ∀ t, (length t <= room i)%nat → Forall (item_ok (put p t m) lo hi) its ∧
    at_mem (put p t m) (fmt + length (encode i)) (format its ++ [0]) ∧ base.size (put p t m) = base.size m ∧ mapped (put p t m) (p + length t) (rooms its)).
  { intros t Ht. apply at_mem_app in HA as [_ HA]. destruct (put_keeps its m lo hi p t (fmt + length (encode i)) (format its ++ [0])) as (?&?&?);
      [done|done|lia|lia|intros k Hk; apply HM; lia|rewrite length_app; cbn [length]; lia|].
    split_and!; [done..|]. apply put_mapped. intros k Hk. rewrite <- Z.add_assoc. apply HM. lia. }
  destruct (decide (length (encode i) = 2%nat)) as [H2|H2].
  - destruct (kconversion_item fuel i p (args its) m lo hi) as (t&HR&Hl&HB&E); [done..|lia|intros k Hk; apply HM; lia|done|].
    destruct (HW t Hl) as (HO'&HA'&Hsz&HM').
    assert (encode i = [PERCENT; conv_char i]) as Ei by (by destruct i).
    rewrite Ei in HA. cbn [app] in HA. apply at_mem_cons in HA as [Hp HA]. apply at_mem_cons in HA as [Hc _].
    assert (Hin : conv_char i ∈ [100; 117; 120; 115; 99; PERCENT]) by (destruct i; try done; cbn; rewrite !elem_of_cons; lia).
    assert (Hs8 : s8 (conv_char i) = conv_char i ∧ (conv_char i =? 108) = false ∧ (conv_char i =? 76) = false).
    { repeat (apply elem_of_cons in Hin as [->|Hin]; [done|]). by apply elem_of_nil in Hin. }
    destruct Hs8 as (Hs8&Hq1&Hq2).
    destruct (IH n fuel (fmt + 2) (p + length t) (count + Z.of_nat (length t)) (put p t m) lo hi) as (t'&HR'&Hl'&HB'&E');
      [by rewrite H2 in HA'|done|lia|lia|done|lia|lia|lia|].
    exists (t ++ t'). split_and!; [by exists t, t'|rewrite length_app; lia|by apply Forall_app|].
    rewrite (bind_Ret _ _ _ _ _ (lds_Ret _ _ _ Hp)). change (s8 PERCENT) with PERCENT. change (PERCENT =? 0) with false. change (negb (PERCENT =? PERCENT)) with false. cbv iota.
    rewrite (bind_Ret _ _ _ _ _ (lds_Ret _ _ _ Hc)), Hs8, Hq1, Hq2. cbv iota beta.
    rewrite (bind_Ret _ _ _ _ _ (lds_Ret _ _ _ Hc)), Hs8, (bind_Ret _ _ _ _ _ E). cbv iota beta.
    replace (fmt + 1 + 1) with (fmt + 2) by lia. rewrite E', put_app, length_app. f_equal. f_equal; lia.
  - destruct i as [c| | | | | |]; try done. cbn in Hi. destruct Hi as [Hc Hne]. cbn [encode app] in HA. apply at_mem_cons in HA as [H0 _].
    destruct (HW [c] ltac:(cbn; lia)) as (HO'&HA'&Hsz&HM'). cbn [room encode length] in *.
    destruct (IH n fuel (fmt + 1) (p + 1) (count + 1) (put p [c] m) lo hi) as (t'&HR'&Hl'&HB'&E'); [done|done|lia|lia|done|lia|lia|lia|].
    exists (c :: t'). split_and!; [by exists [c], t'|cbn; lia|apply Forall_cons; split; [lia|done]|].
    rewrite (bind_Ret _ _ _ _ _ (lds_Ret _ _ _ H0)). change 0 with (s8 0) at 1. rewrite s8_eqb, (proj2 (Z.eqb_neq c 0)) by lia.
    change PERCENT with (s8 PERCENT). rewrite s8_eqb, (proj2 (Z.eqb_neq c PERCENT)) by (done || unfold PERCENT; lia). cbn [negb arg app].
    rewrite (bind_Ret _ _ _ _ _ (stb_put p c (s8 c) m ltac:(apply byte_roundtrip; lia) ltac:(intros k Hk; apply HM; lia))), E'.
    cbn [put length]. f_equal. f_equal; lia.
Qed.

(** The kernel's [vsprintf] of a format made of plain characters and of the conversions d, u, x, s, c and %%
    returns, stores exactly the text of the format with a terminating NUL, changes no other byte and answers
    the length of the text; negative numbers are printed as unsigned words. *)
Theorem kvsprintf_renders its buff size fmt m :
  at_mem m fmt (format its ++ [0]) → Forall (item_ok m buff (buff + size)) its →
  Z.of_nat (rooms its) < size → mapped m buff size →
  fmt + Z.of_nat (length (format its)) < buff ∨ buff + size <= fmt →
  ∃ t, krenders its t ∧ kvsprintf buff fmt (args its) m = Ret (Z.of_nat (length t)) (put buff (t ++ [0]) m).
Proof.
  intros HA HO Hs HM Hd. pose proof (at_mem_size _ _ _ HA) as Hsz. rewrite length_app in Hsz. cbn [length] in Hsz.
  destruct (kloop_spec its (S (base.size m)) (S (base.size m)) fmt buff 0 m buff (buff + size)) as (t&HR&Hl&HB&E);
    [done|done|lia|lia|intros k Hk; apply HM; lia|lia|lia|lia|].
  exists t. split; [done|]. unfold kvsprintf. erewrite bind_Ret by reflexivity. rewrite (bind_Ret _ _ _ _ _ E). cbn [fst snd].
  rewrite (bind_Ret _ _ _ _ _ (stb_put (buff + length t) 0 0 (put buff t m) eq_refl ltac:(apply put_mapped; intros k Hk; rewrite <- Z.add_assoc; apply HM; lia))).
  by rewrite put_app.
Qed.

(** kprintf("tid %d", 7) *)
Lemma kvsprintf_renders_witness :
  let m := put 200 [116; 105; 100; 32; 37; 100; 0] (zeros 400 64) in
  ∃ d, numeral 10 d 7 ∧ kvsprintf 400 200 [7] m = Ret (Z.of_nat (length ([116; 105; 100; 32] ++ d))) (put 400 (([116; 105; 100; 32] ++ d) ++ [0]) m).
Proof.
  intros m. assert (H1 : at_mem m 200 [116; 105; 100; 32; 37; 100; 0]) by apply at_mem_put.
  assert (H3 : mapped m 400 64).
  { apply put_mapped. intros i Hi. by rewrite zeros_lookup, decide_True by lia. }
  clearbody m. destruct (kvsprintf_renders [Lit 116; Lit 105; Lit 100; Lit 32; Int 7] 400 64 200 m) as (t&HR&E).
  - exact H1.
  - repeat (apply Forall_cons_2; [cbn; unfold PERCENT; try lia|]). apply Forall_nil_2.
  - cbn. lia.
  - exact H3.
  - cbn. lia.
  - destruct HR as (t1&k1&->&->&t2&k2&->&->&t3&k3&->&->&t4&k4&->&->&d&k5&->&HD&->). exists d. split; [exact HD|].
    rewrite app_nil_r in E. exact E.
Defined.
